(* ===== verification/_CoqProject ===== *)
-Q . S2P
Prelude.v
GoStrings.v
Utf8.v
Utf16.v
Strconv.v
Netip.v
NetText.v
Sockaddr.v
Layout.v
IpTypes.v
Texts.v
Memory.v
RowMemory.v
Adapters.v
Enums.v
IpHelper.v
Tables.v
Luid.v
LuidProps.v
SystemProps.v
JsonString.v
Json.v
Proto.v
LogBuf.v
Transport.v
JsonTypes.v
ProtoJson.v
Server.v
Client.v
ControlProps.v
SharedClient.v
GoTests.v
Veil.v
Udp.v
Tunnel.v
TunnelSystem.v
TunnelProps.v
Main.v
Service.v
Concurrent.v
Device.v
DeviceProps.v
DeviceSystem.v
DeviceClose.v
Routing.v
RoutingProps.v
Forwarding.v
ChangeHandler.v
Session.v
TunnelDevice.v
