(* ===== verification/Prelude.v ===== *)
(** * veil-windows: a verification library

    veil-windows is the Windows front end of the VEIL VPN: a service that holds
    one tunnel and is driven over a control channel, and a command line client.
    This library models its Go code as executable definitions and proves what
    makes each part correct.  This file is the root: the documentation of the
    whole, followed by what the other files share.

    ** The program and where it is modelled

    - The control channel (src/control/): newline-delimited JSON between a client
      and the service.  Proto.v holds the messages of proto.go, Transport.v the
      framing (readMessage, writeMessage over a bufio.Reader), ProtoJson.v the
      field tags, Server.v dispatch, ServeIO, serveConn and Serve of server.go,
      Client.v the methods of client.go, SharedClient.v the mutex that serializes
      them, LogBuf.v the ring buffer of logbuf.go.
    - The tunnel controller (src/wintunnel/): Tunnel.v models Connect, Disconnect,
      Status, Logs, stopLocked and the watcher goroutine of tunnel.go, Udp.v the
      socket functions of udp_windows.go, TunnelSystem.v the interleavings of
      method calls and watchers.
    - The command line client (src/cmd/veil-client/main.go): Main.v, over the same
      calls as the tunnel controller.
    - The TUN device (src/veiltun/, src/windev/device.go): Device.v models loading
      the driver, adapters, sessions, and Read, Write and Close of NativeTun;
      DeviceSystem.v any number of goroutines in these methods, DeviceClose.v the
      event of the session they wait for.
    - Routing (src/windev/routing.go): Routing.v models ConfigureRouting with the
      endpoint exception, the tunnel's routes and DNS, Forwarding.v the table of
      routes its calls leave in the system.
    - The IP helper layer (src/winipcfg/): Sockaddr.v the socket address union and
      prefixes of types.go, IpTypes.v the rows of types.go and types_64.go,
      Texts.v their accessors of texts, Enums.v the integer types of types.go with
      their constants as declared, Layout.v the memory layout of the declarations in
      types_32.go and types_64.go, Memory.v and RowMemory.v the rows as the bytes
      these declarations make of them, IpHelper.v the wrappers of
      zwinipcfg_windows.go, the methods of the rows and the table functions of
      winipcfg.go, Tables.v the table functions down to the block of system memory
      they read, Adapters.v the walk along the adapters in their buffer, Luid.v every
      method of luid.go, ChangeHandler.v the three notification handlers.
    - Go's standard library, as far as the program uses it: GoStrings.v (bytes,
      strings), Utf8.v (unicode/utf8), Utf16.v (unicode/utf16), Strconv.v (strconv),
      Netip.v (net/netip), NetText.v (net, text of addresses), JsonString.v, Json.v
      and JsonTypes.v (encoding/json).

    The calls go downwards: Main and Tunnel call ConfigureRouting and NewTunDevice,
    which call Luid and Device; the server calls a Handler, which the tunnel
    implements in part.  Four files put parts together: Service.v a client, the
    server and the tunnel as its handler; Concurrent.v any number of connections
    on that handler; Session.v the tunnel with its calls of the routing replaced by
    Routing.v; TunnelDevice.v the tunnel with its calls of the device replaced by
    Device.v.

    ** How code is represented

    A function with effects is a [prog E A] (below): a tree of the calls it
    makes, of a signature [E] that lists the calls of the code outside it - the
    system, a driver, an interface, another package.  [exec p tr a] says that [p]
    can make the calls of the trace [tr], with the answers in it, and return [a];
    every answer the types allow is covered, so error paths are.  [run] executes
    a program on a handler, for concrete runs.  Signatures embed into larger ones
    by the class [Sub]; [interp] replaces calls by the programs that implement
    them.  Three ways to reason about a program are shared: the
    equations of [exec], [always] (every call has a property), and [wp] with a
    monitor, which follows a state of the outside along the calls.  An assumption
    on answers ([assumption], [admissible]) is named where a theorem needs one.
    Liveness is stated with [inevitable]: whatever may happen the end comes, for
    until then a step is possible that nothing outside can hold back.

    A method of a type with a mutex is one atomic step on its state; where code
    does not hold a lock for a whole method - Device, ChangeHandler - the method is
    split where it lets others run.  Integers are [Z] with [wrap] written at the
    operations that can wrap.  A panic is a value ([None], [Panic], [Panicked]).
    Pointers that may be nil are options.

    Interfaces between the parts are classes: [Codec] and [CodecLaws] (Transport.v)
    are what the control channel needs of JSON and ProtoJson.v provides;
    [JsonType], [JsonLaws] (JsonTypes.v) a type's encoding; [ConfigView] (Veil.v)
    the fields of a configuration; [Notify] (ChangeHandler.v) a procedure that
    registers for notifications.

    ** What is proved

    - ControlProps.v: messages survive encoding and decoding, and each is one line,
      whatever it holds; whatever bytes arrive, the handler is called with values
      of the Go types, strings of valid UTF-8 among them; the server answers every
      request line in order however the input is chunked, and stops where it
      should; each branch of dispatch; a connected client's calls are the handler's.
    - SharedClient.v: goroutines that share a client each get the reply to their
      own request, whenever the client is closed, and all of them can return.
    - GoTests.v: the tests of the package control, computed on the model.
    - LogBuf.v: the ring buffer refines the list of all lines; polling misses
      nothing, or exactly what was evicted.
    - TunnelProps.v: in every interleaving the tunnel owns exactly the objects its
      fields hold, uses none that is released, and a watcher of an older session
      does nothing; after Disconnect every watcher ends, over its closed channel,
      whatever the engines send; the outcome of every method.
    - Service.v: from the client's call to the tunnel's state the program refines a
      machine whose state is the name of the session that is up.
    - Concurrent.v: however the calls of many clients interleave, their handler
      calls form a history of that machine, and every connection makes the calls
      of a server alone with its client.
    - TunnelDevice.v: whatever methods run, the driver holds one adapter with its
      session while the tunnel is up and nothing while it is down, and is never
      asked to use or close what it does not have open.
    - Session.v: whatever methods run, a route made on an interface other than the
      tunnel is removed when its session ends or fails to start.
    - Main.v: the shutdown order of the client, and that a fatal error releases
      nothing.
    - DeviceProps.v, DeviceSystem.v, DeviceClose.v: the exact packets read and
      written; nothing is used after Close in any interleaving, and once Close has
      begun all methods return, a Read blocked on the event included; what
      creation holds on failure.
    - RoutingProps.v: the physical route chosen, and what a configuration leaves
      behind.
    - Forwarding.v: in the table the calls leave, which addresses the tunnel's rows
      hold, and that the longest route to the server is the exception and to the
      other addresses a row on the tunnel.
    - LuidProps.v, SystemProps.v: the exact rows created and deleted, the family
      filters, when SetDNS succeeds, that every table, key and service handle is
      given back once, and that the loop over buffer sizes ends.
    - Sockaddr.v, Texts.v, Layout.v: reading back what was stored; the 32-bit and
      64-bit declarations agree in layout.
    - Memory.v, RowMemory.v, Tables.v: a row written by one side is read by the
      other on both word sizes; reading a table from memory gives the rows, faults
      nowhere and frees the block after the copy.
    - Adapters.v: the walk along the adapters finds each once and stops within the
      size of the buffer, unless the links are a circle.
    - Enums.v: every enumeration has the documented members with the documented
      values, each of its type and no two alike, and flags can be combined and told
      apart.
    - ChangeHandler.v: registrations and goroutines in flight, and that a callback
      is not called after Unregister.

    ** Bounds and fuel

    - Json.v: the parser's fuel is twice the length of the text and one more; [parse_fuel_enough]
      shows that more gives the same result.  Nesting is limited to 10000 as in Go.
    - Server.v: ServeIO's fuel is one more than the bytes to come, which every
      round shortens; [serve_loop_session] shows it is enough.
    - IpHelper.v: GetAdaptersAddresses has fuel for 2^32 rounds; the sizes grow
      with every round and stay below 2^32, so it ends ([adapters_terminates]).
    - Adapters.v: the walk has a round for every byte of the buffer, and one more;
      [adapters_listed] shows that a walk that does not stop by then never does.
    - Utf16.v: the fuel of [runes] is the number of bytes, each rune takes one.
    - Device.v: Read takes its fuel as an argument, since it waits for packets as
      long as the device is open; out of fuel it gives the phase it is in.

    ** Not modelled

    - The packages config and engine of the veil module are not in the repository:
      Veil.v makes them parameters.  So are the driver (veil.dll), the procedures
      of the system, the registry and the service manager: they are calls with
      any answer.
    - golang.org/x/sys/windows is not in the repository either: its text functions
      are a class with their documentation as laws (Texts.v), its SocketAddress a
      parameter of Layout.v.  RouteData.String, a call of fmt, is left out.
    - mksyscall.go is a generator directive and version.go a variable; NewClient
      only wraps a connection, and nothing calls errnoErr of zwinipcfg_windows.go.
    - A connection's own failures are answers of its calls (Client.v); in
      SharedClient.v it fails only when it is closed.
    - Data races are not: what the code shares without a lock is read and written
      in single steps, in any order the goroutines allow. *)

From Stdlib Require Import ZArith Ascii String Lia.
From stdpp Require Import base list strings gmap relations.
Open Scope Z_scope.

(** ** Machine integers

    Go's unsigned integers are kept in [Z] with the wrap-around written out. *)

Definition wrap (w x : Z) : Z := x mod 2 ^ w.

Abbreviation u8 := (wrap 8).
Abbreviation u16 := (wrap 16).
Abbreviation u32 := (wrap 32).
Abbreviation u64 := (wrap 64).

Definition fits (w x : Z) : Prop := 0 <= x < 2 ^ w.

#[export] Instance fits_dec w x : Decision (fits w x).
Proof. unfold fits. apply _. Defined.

Lemma wrap_fits w x : 0 <= w -> fits w (wrap w x).
Proof. intros Hw. apply Z.mod_pos_bound. by apply Z.pow_pos_nonneg. Qed.

Lemma wrap_small w x : fits w x -> wrap w x = x.
Proof. intros H. by apply Z.mod_small. Qed.

Lemma wrap_succ w x : 0 <= x -> x + 1 < 2 ^ w -> wrap w (x + 1) = x + 1.
Proof. intros ??. apply wrap_small. unfold fits. lia. Qed.

(** [wrap] absorbs an inner [wrap]: the running value of a counter is the
    wrapped total. *)
Lemma wrap_add_wrap w x y : wrap w (wrap w x + y) = wrap w (x + y).
Proof. unfold wrap. apply Zplus_mod_idemp_l. Qed.

(** Combining bits does not leave the width. *)
Lemma fits_lor w x y : 0 <= w -> fits w x -> fits w y -> fits w (Z.lor x y).
Proof.
  intros Hw Hx Hy. apply wrap_small in Hx, Hy. unfold wrap in Hx, Hy.
  rewrite <- Z.land_ones in Hx, Hy by done.
  rewrite <- Hx, <- Hy, <- Z.land_lor_distr_l, Z.land_ones by done. by apply wrap_fits.
Qed.

Create HintDb go.
Create Rewrite HintDb go.
Create Rewrite HintDb own.
#[export] Hint Resolve wrap_fits : go.
#[export] Hint Rewrite wrap_add_wrap : go.

(** ** Errors

    A Go [error] value; the interface's [nil] is the absence of one
    ([option error]).  [Errno] is a [syscall.Errno] (the [windows.ERROR_x]
    constants), [ErrText] an error made by code outside the repository,
    [Errorf p e] is [fmt.Errorf(p + ": %w", e)]. *)
Inductive error : Type :=
| Errno (code : Z)
| ErrClosed
| ErrText (msg : string)
| Errorf (prefix : string) (err : error).

#[export] Instance error_eq_dec : EqDecision error.
Proof. solve_decision. Defined.

(** [err.Error()]; the text of an errno is the system's. *)
Fixpoint Error_text (errno_text : Z -> string) (e : error) : string :=
  match e with
  | Errno c => errno_text c
  | ErrClosed => "file already closed"
  | ErrText m => m
  | Errorf p e' => p +:+ ": " +:+ Error_text errno_text e'
  end.

(** [errors.Is(e, target)]: some error of the unwrap chain equals [target]. *)
Fixpoint errors_Is (e target : error) : bool :=
  bool_decide (e = target) ||
  match e with Errorf _ e' => errors_Is e' target | _ => false end.

(** A Go result pair [(T, error)]. *)
Inductive result (A : Type) : Type :=
| Ok (a : A)
| Err (e : error).
Arguments Ok {A} a.
Arguments Err {A} e.

Definition is_Ok {A} (r : result A) : bool :=
  match r with Ok _ => true | Err _ => false end.

#[export] Instance result_eq_dec {A} `{EqDecision A} : EqDecision (result A).
Proof. solve_decision. Defined.

(** ** Effectful programs

    A program over a signature [E] of calls to code outside the model:
    [Vis e k] makes the call [e] and goes on with its answer. *)
Inductive prog (E : Type -> Type) (A : Type) : Type :=
| Ret (a : A)
| Vis (R : Type) (e : E R) (k : R -> prog E A).
Arguments Ret {E A} a.
Arguments Vis {E A R} e k.

Fixpoint bind {E A B} (p : prog E A) (f : A -> prog E B) : prog E B :=
  match p with
  | Ret a => f a
  | Vis e k => Vis e (fun r => bind (k r) f)
  end.

Definition call {E R} (e : E R) : prog E R := Vis e Ret.

Declare Scope prog_scope.
Delimit Scope prog_scope with prog.
Notation "'let!' x := p 'in' q" := (bind p (fun x => q))
  (at level 10, x pattern, p at level 100, q at level 200) : prog_scope.
Notation "'do!' p 'in' q" := (bind p (fun _ => q))
  (at level 10, p at level 100, q at level 200) : prog_scope.
Open Scope prog_scope.

(** [Sub E F]: the calls of [E] are among those of [F].  A component's
    programs are written over any signature that has its calls. *)
Class Sub (E F : Type -> Type) : Type := embed : forall R, E R -> F R.
Arguments embed {E F _ R} e.

#[export] Instance Sub_refl E : Sub E E | 10 := fun _ e => e.

Definition invoke {E F R} `{Sub E F} (e : E R) : prog F R := call (embed e).

(** A call together with the answer it got. *)
Record event (E : Type -> Type) : Type := Ev {
  ev_type : Type;
  ev_call : E ev_type;
  ev_answer : ev_type;
}.
Arguments Ev {E ev_type} ev_call ev_answer.

(** Trace semantics: [exec p tr a] holds when [p] can make the calls of [tr],
    with the answers recorded there, and return [a].  The answers are
    unconstrained, so a statement about every [tr] holds for every behaviour
    of the code outside. *)
Fixpoint exec {E A} (p : prog E A) (tr : list (event E)) (a : A) : Prop :=
  match p with
  | Ret a' => tr = [] /\ a = a'
  | Vis e k => exists r tr', tr = Ev e r :: tr' /\ exec (k r) tr' a
  end.

(** State semantics: [h] answers the calls and threads a world. *)
Definition handler (E : Type -> Type) (W : Type) : Type :=
  forall R, E R -> W -> R * W.

Fixpoint run {E W A} (h : handler E W) (p : prog E A) (w : W) : A * W :=
  match p with
  | Ret a => (a, w)
  | Vis e k => let '(r, w') := h _ e w in run h (k r) w'
  end.

Lemma exec_bind {E A B} (p : prog E A) (f : A -> prog E B) tr b :
  exec (bind p f) tr b <->
  exists tr1 tr2 a, tr = tr1 ++ tr2 /\ exec p tr1 a /\ exec (f a) tr2 b.
Proof.
  revert tr. induction p as [a|R e k IH]; intros tr; simpl.
  - split.
    + intros H. by exists [], tr, a.
    + by intros (tr1 & tr2 & a' & -> & [-> ->] & H).
  - split.
    + intros (r & tr' & -> & H). apply IH in H as (tr1 & tr2 & a & -> & H1 & H2).
      exists (Ev e r :: tr1), tr2, a. eauto 10.
    + intros (tr1 & tr2 & a & -> & (r & tr' & -> & H1) & H2).
      exists r, (tr' ++ tr2). split; [done|]. apply IH. eauto 10.
Qed.

Lemma run_bind {E W A B} (h : handler E W) (p : prog E A) (f : A -> prog E B) w :
  run h (bind p f) w = let '(a, w') := run h p w in run h (f a) w'.
Proof.
  revert w. induction p as [a|R e k IH]; intros w; simpl; [done|].
  destruct (h R e w) as [r w']. apply IH.
Qed.

Lemma exec_call {E R} (e : E R) tr r : exec (call e) tr r <-> tr = [Ev e r].
Proof.
  simpl. split.
  - by intros (r' & tr' & -> & -> & ->).
  - intros ->. eauto.
Qed.

Lemma exec_invoke {E F R} `{Sub E F} (e : E R) tr r :
  exec (invoke e) tr r <-> tr = [Ev (embed e) r].
Proof. apply exec_call. Qed.

#[export] Hint Rewrite @exec_bind @exec_call @exec_invoke @run_bind : go.

(** The calls a run makes, recorded by the handler itself. *)
Definition traced {E W} (h : handler E W) : handler E (W * list (event E)) :=
  fun R e '(w, tr) => let '(r, w') := h R e w in (r, (w', tr ++ [Ev e r])).

Lemma run_traced_exec {E W A} (h : handler E W) (p : prog E A) w tr0 :
  exists tr, run (traced h) p (w, tr0) = ((run h p w).1, ((run h p w).2, tr0 ++ tr))
             /\ exec p tr (run h p w).1.
Proof.
  revert w tr0. induction p as [a|R e k IH]; intros w tr0; simpl.
  - exists []. by rewrite app_nil_r.
  - destruct (h R e w) as [r w'] eqn:Hh. simpl.
    destruct (IH r w' (tr0 ++ [Ev e r])) as (tr & Hrun & Hex).
    exists (Ev e r :: tr). split; [|eauto].
    rewrite Hrun. by rewrite <- app_assoc.
Qed.

Lemma run_exec {E W A} (h : handler E W) (p : prog E A) w :
  exec p (run (traced h) p (w, [])).2.2 (run (traced h) p (w, [])).1.
Proof. by destruct (run_traced_exec h p w []) as (tr & -> & He). Qed.

(** A run has a trace whose answers all come from the handler. *)
Lemma run_answers {E W A} (P : event E -> Prop) (h : handler E W) (p : prog E A) w :
  (forall R (e : E R) w, P (Ev e (h R e w).1)) ->
  exists tr, exec p tr (run h p w).1 /\ Forall P tr.
Proof.
  intros HP. revert w. induction p as [a|R e k IH]; intros w; simpl.
  - by exists [].
  - specialize (HP R e w). destruct (h R e w) as [r w']. destruct (IH r w') as (tr & He & Htr).
    exists (Ev e r :: tr). split; [eauto|by constructor].
Qed.

(** Opens the hypotheses [exec p tr a] of a goal along the structure of [p]. *)
Ltac exec_step :=
  match goal with
  | H : exec (Ret _) _ _ |- _ => destruct H as [? ?]; simplify_eq
  | H : exec (call _) _ _ |- _ => apply exec_call in H; subst
  | H : exec (invoke _) _ _ |- _ => apply exec_invoke in H; subst
  | H : exec (bind _ _) _ _ |- _ =>
      apply exec_bind in H; destruct H as (? & ? & ? & -> & ? & ?)
  | H : exec (Vis _ _) _ _ |- _ => destruct H as (? & ? & -> & ?)
  | H : exec (match ?x with _ => _ end) _ _ |- _ => destruct x eqn:?
  | H : (_, _) = (_, _) |- _ => simplify_eq
  end.
Ltac exec_inv := repeat (exec_step; cbn beta iota in *).

(** Finds an event in a trace written with [++] and [::]. *)
Ltac in_trace :=
  first
    [ eassumption
    | apply list_elem_of_here
    | apply list_elem_of_further; in_trace
    | apply elem_of_app; left; in_trace
    | apply elem_of_app; right; in_trace ].

(** ** Properties of every call

    [always P p]: whatever the answers, every call [p] makes satisfies [P]
    together with its answer. *)
Fixpoint always {E A} (P : event E -> Prop) (p : prog E A) : Prop :=
  match p with
  | Ret _ => True
  | Vis e k => forall r, P (Ev e r) /\ always P (k r)
  end.

Lemma always_bind {E A B} P (p : prog E A) (f : A -> prog E B) :
  always P p -> (forall a, always P (f a)) -> always P (bind p f).
Proof.
  intros Hp Hf. induction p as [a|R e k IH]; simpl in *; [done|].
  intros r. destruct (Hp r) as [He Hk]. split; [done|]. by apply IH.
Qed.

Lemma always_invoke {E F R} `{Sub E F} P (e : E R) :
  (forall r, P (Ev (embed e) r)) -> always P (invoke e).
Proof. intros He r. split; [apply He|done]. Qed.

Lemma always_exec {E A} P (p : prog E A) tr a :
  always P p -> exec p tr a -> Forall P tr.
Proof.
  revert tr. induction p as [a'|R e k IH]; intros tr; simpl.
  - by intros _ [-> _].
  - intros Hp (r & tr' & -> & Hk). destruct (Hp r) as [He Hr]. constructor; eauto.
Qed.

(** ** Composition

    [hoist] makes the calls of a program calls of a larger signature; [interp]
    replaces every call by the program that implements it, which may end in a
    panic ([None]). *)
Fixpoint hoist {E F A} (f : forall R, E R -> F R) (p : prog E A) : prog F A :=
  match p with
  | Ret a => Ret a
  | Vis e k => Vis (f _ e) (fun r => hoist f (k r))
  end.

Definition hoisted {E F} (f : forall R, E R -> F R) (ev : event E) : event F :=
  Ev (f _ (ev_call _ ev)) (ev_answer _ ev).

Lemma exec_hoist {E F A} (f : forall R, E R -> F R) (p : prog E A) tr a :
  exec (hoist f p) tr a <-> exists tr', tr = map (hoisted f) tr' /\ exec p tr' a.
Proof.
  revert tr. induction p as [a'|R e k IH]; intros tr; cbn [hoist exec].
  - split; [intros [-> ->]; by exists []|]. by intros (tr' & -> & -> & ->).
  - split.
    + intros (r & tr1 & -> & Hk). apply IH in Hk as (tr2 & -> & Hk).
      exists (Ev e r :: tr2). split; [done|]. eauto.
    + intros (tr' & -> & r & tr2 & -> & Hk). exists r, (map (hoisted f) tr2).
      split; [done|]. apply IH. eauto.
Qed.

Fixpoint interp {E F A} (h : forall R, E R -> prog F (option R)) (p : prog E A)
    : prog F (option A) :=
  match p with
  | Ret a => Ret (Some a)
  | Vis e k => let! r := h _ e in match r with Some r => interp h (k r) | None => Ret None end
  end.

(** A run without a panic is a run of the program whose every call is a run of its
    implementation. *)
Lemma exec_interp {E F A} (h : forall R, E R -> prog F (option R)) (p : prog E A) tr a :
  exec (interp h p) tr (Some a) <->
  exists evs segs, exec p evs a /\ tr = concat segs /\
    Forall2 (fun ev seg => exec (h _ (ev_call _ ev)) seg (Some (ev_answer _ ev))) evs segs.
Proof.
  revert tr. induction p as [a'|R e k IH]; intros tr; cbn [interp exec].
  - split; [intros [-> [= ->]]; by exists [], []|].
    intros (evs & segs & [-> ->] & -> & Hs). by inversion Hs.
  - rewrite exec_bind. split.
    + intros (tr1 & tr2 & [r|] & -> & He & Hk); [|by destruct Hk].
      apply IH in Hk as (evs & segs & Hk & -> & Hs).
      exists (Ev e r :: evs), (tr1 :: segs). split; [eauto|]. by split; [|constructor].
    + intros (evs & segs & (r & evs' & -> & Hk) & -> & Hs).
      inversion Hs as [|? seg ? segs' Hseg Hs']; subst. exists seg, (concat segs'), (Some r).
      split; [done|]. split; [done|]. apply IH. eauto.
Qed.

(** ** Logging *)

(** Arguments of a [log.Printf] call, kept unformatted. *)
Inductive logarg : Type :=
| AStr (s : string)
| AInt (z : Z)
| AErr (e : error).

Inductive logE : Type -> Type :=
| Printf (format : string) (args : list logarg) : logE unit.

Definition logf {F} `{Sub logE F} (format : string) (args : list logarg) : prog F unit :=
  invoke (Printf format args).

(** ** Monitors and weakest preconditions

    A monitor runs a ghost state over a trace and rejects ([None]) a call made
    in the wrong state; [adm] restricts the answers a call can get in a ghost
    state.  [wp] is the weakest precondition of a program under them: whatever
    the admissible answers, no call is rejected and the postcondition holds of
    the result and the final ghost state. *)
Definition monitor_step (E : Type -> Type) (S : Type) : Type :=
  forall R, E R -> R -> S -> option S.
Definition assumption (E : Type -> Type) (S : Type) : Type :=
  forall R, E R -> R -> S -> Prop.

(** Nothing is assumed of the answers. *)
Definition any_answer {E S} : assumption E S := fun _ _ _ _ => True.

Section Monitor.
Context {E : Type -> Type} {S : Type} (step : monitor_step E S) (adm : assumption E S).

Fixpoint monitor (s : S) (tr : list (event E)) : option S :=
  match tr with
  | [] => Some s
  | Ev e r :: tr' =>
      match step _ e r s with Some s' => monitor s' tr' | None => None end
  end.

(** Every answer of a trace is admissible, up to the first rejected call. *)
Fixpoint admissible (s : S) (tr : list (event E)) : Prop :=
  match tr with
  | [] => True
  | Ev e r :: tr' =>
      adm _ e r s /\
      match step _ e r s with Some s' => admissible s' tr' | None => True end
  end.

Fixpoint wp {A} (p : prog E A) (Q : A -> S -> Prop) (s : S) : Prop :=
  match p with
  | Ret a => Q a s
  | Vis e k =>
      forall r, adm _ e r s -> exists s', step _ e r s = Some s' /\ wp (k r) Q s'
  end.

Lemma wp_bind {A B} (p : prog E A) (f : A -> prog E B) Q s :
  wp (bind p f) Q s <-> wp p (fun a => wp (f a) Q) s.
Proof.
  revert s. induction p as [a|R e k IH]; intros s; simpl; [done|].
  by setoid_rewrite IH.
Qed.

Lemma wp_call {R} (e : E R) Q s :
  wp (call e) Q s <->
  forall r, adm _ e r s -> exists s', step _ e r s = Some s' /\ Q r s'.
Proof. done. Qed.

Lemma wp_mono {A} (p : prog E A) (Q Q' : A -> S -> Prop) s :
  (forall a s', Q a s' -> Q' a s') -> wp p Q s -> wp p Q' s.
Proof.
  intros HQ. revert s. induction p as [a|R e k IH]; intros s; simpl; [apply HQ|].
  intros H r Hr. destruct (H r Hr) as (s' & Hs & Hk). eauto.
Qed.

Lemma wp_exec {A} (p : prog E A) Q s tr a :
  wp p Q s -> exec p tr a -> admissible s tr ->
  exists s', monitor s tr = Some s' /\ Q a s'.
Proof.
  revert s tr. induction p as [a'|R e k IH]; intros s tr; simpl.
  - intros HQ [-> ->] _. eauto.
  - intros H (r & tr' & -> & Hk) [Hr Hadm]. destruct (H r Hr) as (s' & Hs & Hw).
    simpl. rewrite Hs in *. eauto.
Qed.

(** When every call has an admissible answer, a verified program has an
    execution. *)
Lemma wp_progress {A} (p : prog E A) Q s :
  (forall R (e : E R) s, exists r, adm _ e r s) -> wp p Q s ->
  exists tr a s', exec p tr a /\ admissible s tr /\ monitor s tr = Some s' /\ Q a s'.
Proof.
  intros Hans. revert s. induction p as [a|R e k IH]; intros s; simpl.
  - intros HQ. by exists [], a, s.
  - intros H. destruct (Hans R e s) as [r Hr]. destruct (H r Hr) as (s' & Hs & Hk).
    destruct (IH r s' Hk) as (tr & a & s'' & He & Ha & Hm & HQ).
    exists (Ev e r :: tr), a, s''. simpl. rewrite Hs. eauto 10.
Qed.

Lemma monitor_app s tr1 tr2 :
  monitor s (tr1 ++ tr2)
  = match monitor s tr1 with Some s' => monitor s' tr2 | None => None end.
Proof.
  revert s. induction tr1 as [|[R e r] tr1 IH]; intros s; simpl; [done|].
  by destruct (step R e r s).
Qed.
End Monitor.

Lemma admissible_any {E S} (step : monitor_step E S) s tr : admissible step any_answer s tr.
Proof.
  revert s. induction tr as [|[R e r] tr IH]; intros s; simpl; [done|].
  split; [done|]. by destruct (step R e r s).
Qed.

#[export] Hint Rewrite @wp_bind @monitor_app : go.

(** ** Verified programs over verified implementations

    A stateful implementation threads a state through the calls it makes for each
    call of the program; [None] is a panic. *)
Fixpoint interp_state {E F S A} (h : forall R, E R -> S -> prog F (option (R * S)))
    (p : prog E A) (s : S) : prog F (option (A * S)) :=
  match p with
  | Ret a => Ret (Some (a, s))
  | Vis e k =>
      let! o := h _ e s in
      match o with Some (r, s) => interp_state h (k r) s | None => Ret None end
  end.

Lemma wp_hoist {E F S A} (f : forall R, E R -> F R) (step : monitor_step F S)
    (adm : assumption F S) (p : prog E A) Q s :
  wp step adm (hoist f p) Q s <->
  wp (fun R e => step R (f R e)) (fun R e => adm R (f R e)) p Q s.
Proof.
  revert s. induction p as [a|R e k IH]; intros s; cbn [hoist wp]; [done|].
  by setoid_rewrite IH.
Qed.

Section Implementation.
Context {E F : Type -> Type} {G S L : Type}.
Context (step : monitor_step E G) (adm : assumption E G).
Context (step' : monitor_step F L) (adm' : assumption F L).
Context (h : forall R, E R -> S -> prog F (option (R * S))).
(** How the ghost state of the program, the implementation's state and the ghost
    state below belong together. *)
Context (related : G -> S -> L -> Prop).

(** Whenever the monitor of the program accepts a call, its implementation is
    accepted below and does not panic, and its answer is one the program may
    get. *)
Definition implements : Prop :=
  forall R (e : E R) g s l, related g s l ->
  (forall r, adm R e r g -> exists g', step R e r g = Some g') ->
  wp step' adm' (h R e s)
    (fun o l' => exists r s', o = Some (r, s') /\ adm R e r g /\
       forall g', step R e r g = Some g' -> related g' s' l') l.

Lemma wp_interp {A} (p : prog E A) Q g s l :
  implements -> wp step adm p Q g -> related g s l ->
  wp step' adm' (interp_state h p s)
    (fun o l' => exists a s' g', o = Some (a, s') /\ Q a g' /\ related g' s' l') l.
Proof.
  intros Hi. revert g s l. induction p as [a|R e k IH]; intros g s l Hp Hr; cbn [interp_state].
  - exists a, s, g. done.
  - cbn [wp] in Hp. apply wp_bind. eapply wp_mono; [|apply (Hi R e g s l Hr)].
    + intros o l' (r & s' & -> & Ha & Hr'). destruct (Hp r Ha) as (g' & Hs & Hk). eauto.
    + intros r Ha. destruct (Hp r Ha) as (g' & Hs & _). eauto.
Qed.
End Implementation.

(** Symbolic execution: walks the program of a [wp] goal, naming the answers
    [r], [r0], ... and leaving one goal per branch; [tac] shows that a call is
    accepted. *)
Ltac wp_step tac :=
  lazymatch goal with
  | |- wp _ _ (bind _ _) _ _ => apply wp_bind
  | |- wp _ _ (Ret _) _ _ => cbn [wp]
  | |- wp _ _ (Vis _ _) _ _ => cbn [wp]
  | |- wp _ _ (invoke _) _ _ => apply wp_call
  | |- wp _ _ (call _) _ _ => apply wp_call
  | |- wp _ _ (logf _ _) _ _ => apply wp_call
  | |- wp _ _ (match ?x with _ => _ end) _ _ => destruct x
  | |- forall r, _ -> exists s', _ /\ _ =>
      let r := fresh "r" in let Hr := fresh "Hr" in intros r Hr;
      try (match type of r with result _ => destruct r end);
      (eexists; split; [tac; reflexivity|])
  end.
Ltac wp_go tac := repeat (wp_step tac; cbn beta iota).

(** ** Step systems

    An invariant that holds initially and that every step keeps holds in
    every reachable state. *)
Lemma rtc_invariant {A} (R : relation A) (I : A -> Prop) :
  (forall x y, I x -> R x y -> I y) -> forall x y, rtc R x y -> I x -> I y.
Proof. intros Hstep x y Hr. induction Hr; eauto. Qed.

Lemma nsteps_invariant {A} (R : relation A) (I : nat -> A -> Prop) :
  (forall n x y, I n x -> R x y -> I (S n) y) ->
  forall n x y, I 0%nat x -> nsteps R n x y -> I n y.
Proof.
  intros Hstep n. induction n as [|n IH]; intros x y H0 Hn.
  - by inversion Hn; subst.
  - apply nsteps_inv_r in Hn as (z & Hn & Hz). eauto.
Qed.

(** Liveness: whatever [may] happens, [P] comes to hold, for until then some step
    that nothing can hold back - a [must] step - is always possible. *)
Inductive inevitable {A} (must may : relation A) (P : A -> Prop) (x : A) : Prop :=
| inevitable_now : P x -> inevitable must may P x
| inevitable_later :
    (exists y, must x y) -> (forall y, may x y -> inevitable must may P y) ->
    inevitable must may P x.

Section Inevitable.
Context {A : Type} (must may less : relation A) (I P : A -> Prop).

(** Steps that keep an invariant and go down, and can go on until [P] holds. *)
Lemma inevitable_descent x :
  (forall x y, I x -> may x y -> I y /\ less y x) ->
  (forall x, I x -> P x \/ exists y, must x y) ->
  Acc less x -> I x -> inevitable must may P x.
Proof.
  intros Hdown Hgo Hacc. induction Hacc as [x _ IH]. intros Hx.
  destruct (Hgo x Hx) as [Hp|Hm]; [by apply inevitable_now|].
  apply inevitable_later; [done|]. intros y Hy. destruct (Hdown x y Hx Hy). by apply IH.
Qed.

(** There is a run that comes to [P]. *)
Lemma inevitable_run x :
  (forall x y, must x y -> may x y) -> inevitable must may P x -> exists y, rtc may x y /\ P y.
Proof.
  intros Hsub. induction 1 as [x Hp|x [y Hy] _ IH]; [by exists x|].
  destruct (IH y (Hsub _ _ Hy)) as (z & Hz & Hp). exists z. split; [|done].
  eapply rtc_l; [by apply Hsub|done].
Qed.
End Inevitable.

(** ** Slices

    [copy(dst, src)]: overwrite the front of [dst] with as much of [src] as
    fits. *)
Definition go_copy {A} (dst src : list A) : list A :=
  take (length dst) src ++ drop (length src) dst.

Lemma length_go_copy {A} (dst src : list A) : length (go_copy dst src) = length dst.
Proof. unfold go_copy. rewrite length_app, length_take, length_drop. lia. Qed.

Lemma go_copy_fill {A} (dst src : list A) :
  length dst = length src -> go_copy dst src = src.
Proof.
  intros H. unfold go_copy. rewrite H, take_ge, drop_ge by lia. apply app_nil_r.
Qed.

(** [s[lo:]] panics when [lo] is past the end. *)
Definition slice_from {A} (lo : nat) (s : list A) : option (list A) :=
  if decide (lo <= length s)%nat then Some (drop lo s) else None.

(** The last [n] elements of a list. *)
Definition lastn {A} (n : nat) (l : list A) : list A := drop (length l - n) l.

Lemma length_lastn {A} n (l : list A) : length (lastn n l) = Nat.min n (length l).
Proof. unfold lastn. rewrite length_drop. lia. Qed.

Lemma lastn_all {A} n (l : list A) : (length l <= n)%nat -> lastn n l = l.
Proof. intros H. unfold lastn. by replace (length l - n)%nat with 0%nat by lia. Qed.

Lemma lastn_snoc_room {A} n (l : list A) x :
  (length (lastn n l) < n)%nat -> lastn n (l ++ [x]) = lastn n l ++ [x].
Proof.
  rewrite length_lastn. intros H. rewrite !lastn_all; rewrite ?length_app; simpl; lia || done.
Qed.

Lemma lastn_snoc_full {A} n (l : list A) x :
  (0 < n <= length l)%nat -> lastn n (l ++ [x]) = drop 1 (lastn n l) ++ [x].
Proof.
  intros H. unfold lastn. rewrite drop_drop, length_app; simpl.
  rewrite drop_app_le by lia. f_equal. f_equal. lia.
Qed.

#[export] Hint Rewrite @length_go_copy @length_lastn : go.

(** ** Checks over lists *)
Lemma forallb_elem {A} (f : A -> bool) l x : forallb f l = true -> x ∈ l -> f x = true.
Proof. intros Hf Hx%list_elem_of_In. by eapply forallb_forall. Qed.

Lemma forallb_false_elem {A} (f : A -> bool) l :
  forallb f l = false -> exists x, x ∈ l /\ f x = false.
Proof.
  induction l as [|x l IH]; [done|]. cbn. intros [Hx|Hl]%andb_false_iff.
  - exists x. split; [apply list_elem_of_here|done].
  - destruct (IH Hl) as (y & Hy & Hf). exists y. split; [by apply list_elem_of_further|done].
Qed.

Lemma NoDup_map_inj {A B} (f : A -> B) (l : list A) x y :
  NoDup (map f l) -> x ∈ l -> y ∈ l -> f x = f y -> x = y.
Proof.
  intros Hn [i Hi]%list_elem_of_lookup [j Hj]%list_elem_of_lookup Heq.
  assert (i = j) as <-; [|congruence].
  apply (NoDup_lookup _ i j (f x) Hn); rewrite list_lookup_fmap; [by rewrite Hi|by rewrite Hj, Heq].
Qed.

(** ** Filters *)
Lemma filter_all {A} (P : A -> Prop) `{!forall x, Decision (P x)} (l : list A) :
  Forall P l -> filter P l = l.
Proof.
  induction 1 as [|x l Hx _ IH]; [done|]. by rewrite filter_cons_True, IH.
Qed.

Lemma filter_none {A} (P : A -> Prop) `{!forall x, Decision (P x)} (l : list A) :
  Forall (fun x => ~ P x) l -> filter P l = [].
Proof.
  induction 1 as [|x l Hx _ IH]; [done|]. by rewrite filter_cons_False.
Qed.
