(* ===== verification/GoStrings.v ===== *)
(** * Byte strings

    The functions of Go's [bytes] and [strings] packages the program uses, on
    [[]byte] as [list ascii]; a Go [string] is a Rocq [string], which has the
    same eight-bit characters. *)

From S2P Require Import Prelude.
From Stdlib Require Import Ascii String.
From stdpp Require Import base list strings.

Abbreviation bytes := (list ascii).

Definition newline : ascii := "010"%char.
Definition carriage : ascii := "013"%char.

Abbreviation to_bytes := list_ascii_of_string.
Abbreviation of_bytes := string_of_list_ascii.

(** [TrimRight] with a cutset of one ASCII character. *)
Fixpoint trim_right (c : ascii) (s : bytes) : bytes :=
  match s with
  | [] => []
  | x :: t =>
      match trim_right c t with
      | [] => if decide (x = c) then [] else [x]
      | t' => x :: t'
      end
  end.

(** [Split] at a one-character separator: never empty. *)
Fixpoint split_on (c : ascii) (s : bytes) : list bytes :=
  match s with
  | [] => [[]]
  | x :: t =>
      if decide (x = c) then [] :: split_on c t
      else match split_on c t with
           | [] => [[x]]
           | w :: ws => (x :: w) :: ws
           end
  end.

(** Every word of [ws] followed by the terminator [c]. *)
Fixpoint terminate (c : ascii) (ws : list bytes) : bytes :=
  match ws with
  | [] => []
  | w :: ws' => w ++ c :: terminate c ws'
  end.

Lemma trim_right_nil c s : trim_right c s = [] <-> Forall (eq c) s.
Proof.
  induction s as [|x t IH]; simpl; [by split|].
  destruct (trim_right c t) as [|y u] eqn:Ht.
  - case_decide as Hx; rewrite Forall_cons; split; intros H; try done.
    + split; [done|by apply IH].
    + by destruct H as [-> _].
  - split; [done|]. rewrite Forall_cons. intros [_ H]. by apply IH in H.
Qed.

Lemma trim_right_snoc c s : trim_right c (s ++ [c]) = trim_right c s.
Proof.
  induction s as [|x t IH]; simpl; [by rewrite decide_True|]. by rewrite IH.
Qed.

Lemma trim_right_last c s x : x <> c -> trim_right c (s ++ [x]) = s ++ [x].
Proof.
  intros Hx. induction s as [|y t IH]; simpl; [by rewrite decide_False|].
  rewrite IH. by destruct t.
Qed.

Lemma trim_right_suffix c s : exists n, s = trim_right c s ++ replicate n c.
Proof.
  induction s as [|x t [n IH]]; simpl; [by exists 0%nat|].
  destruct (trim_right c t) as [|y u] eqn:Ht; simpl in IH.
  - case_decide as Hx; subst.
    + by exists (S n).
    + by exists n.
  - exists n. simpl. by rewrite IH at 1.
Qed.

Lemma trim_right_no_last c s x u : trim_right c s = u ++ [x] -> x <> c.
Proof.
  revert u. induction s as [|y t IH]; intros u; simpl; [by destruct u|].
  destruct (trim_right c t) as [|z v] eqn:Ht.
  - case_decide as Hy; [by destruct u|]. intros H.
    apply (app_inj_2 [] u [y] [x]) in H as [_ [= ->]]; done.
  - intros H. destruct u as [|y' u]; [done|]. injection H as -> H. by apply (IH u).
Qed.

Lemma trim_right_id c s : last s <> Some c -> trim_right c s = s.
Proof.
  destruct s as [|x s _] using rev_ind; [done|].
  rewrite last_snoc. intros H. apply trim_right_last. congruence.
Qed.

Lemma last_trim_right c s : last (trim_right c s) <> Some c.
Proof.
  intros H. destruct (trim_right c s) as [|x u _] eqn:Ht using rev_ind; [done|].
  rewrite last_snoc in H. injection H as ->. by apply trim_right_no_last in Ht.
Qed.

Lemma trim_right_not_elem c d s : d ∉ s -> d ∉ trim_right c s.
Proof.
  intros H. destruct (trim_right_suffix c s) as [n Hs].
  rewrite Hs, not_elem_of_app in H. by destruct H.
Qed.

Lemma split_on_ne c s : split_on c s <> [].
Proof.
  destruct s as [|x t]; simpl; [done|]. case_decide; [done|]. by destruct (split_on c t).
Qed.

(** No word of a split holds the separator. *)
Lemma split_on_free c s : Forall (fun w => c ∉ w) (split_on c s).
Proof.
  induction s as [|x t IH]; simpl.
  - constructor; [apply not_elem_of_nil|constructor].
  - case_decide as Hx; [constructor; [apply not_elem_of_nil|done]|].
    destruct (split_on c t) as [|w ws]; inversion_clear IH;
      constructor; try done; rewrite ?not_elem_of_cons; auto using not_elem_of_nil.
Qed.

Lemma split_on_word c w : c ∉ w -> split_on c w = [w].
Proof.
  induction w as [|x t IH]; simpl; [done|].
  rewrite not_elem_of_cons. intros [Hx Ht]. rewrite decide_False by done. by rewrite IH.
Qed.

Lemma split_on_app c w s : c ∉ w -> split_on c (w ++ c :: s) = w :: split_on c s.
Proof.
  induction w as [|x t IH]; simpl.
  - by rewrite decide_True.
  - rewrite not_elem_of_cons. intros [Hx Ht]. rewrite decide_False by done. by rewrite IH.
Qed.

(** Splitting a sequence of terminated words gives them back, and the rest. *)
Lemma split_on_terminate c ws s :
  Forall (fun w => c ∉ w) ws -> split_on c (terminate c ws ++ s) = ws ++ split_on c s.
Proof.
  induction 1 as [|w ws Hw _ IH]; simpl; [done|].
  rewrite <- app_assoc. simpl. by rewrite split_on_app, IH.
Qed.

Lemma terminate_app c ws ws' : terminate c (ws ++ ws') = terminate c ws ++ terminate c ws'.
Proof.
  induction ws as [|w ws IH]; simpl; [done|]. rewrite IH, <- app_assoc. done.
Qed.

#[export] Hint Resolve split_on_free split_on_ne : go.
#[export] Hint Rewrite trim_right_snoc terminate_app : go.
