(* ===== verification/Utf8.v ===== *)
(** * UTF-8 (Go's package unicode/utf8)

    Decoding and encoding of one rune on byte strings, as the JSON codec uses
    them; [utf8 s] says that [s] is valid. *)

From S2P Require Import Prelude GoStrings.
From Stdlib Require Import ZArith Ascii Lia.
From stdpp Require Import base list.
Open Scope Z_scope.

Definition code (a : ascii) : Z := Z.of_N (N_of_ascii a).

(** The conversion [byte(x)]. *)
Definition byte (x : Z) : ascii := ascii_of_N (Z.to_N (u8 x)).

Lemma code_range a : 0 <= code a < 256.
Proof. unfold code. pose proof (N_ascii_bounded a). lia. Qed.

Lemma byte_code a : byte (code a) = a.
Proof.
  unfold byte. rewrite wrap_small by exact (code_range a).
  unfold code. rewrite N2Z.id. apply ascii_N_embedding.
Qed.

Lemma code_byte x : 0 <= x < 256 -> code (byte x) = x.
Proof.
  intros Hx. unfold byte, code. rewrite wrap_small by exact Hx.
  rewrite N_ascii_embedding by lia. lia.
Qed.

Definition RuneSelf : Z := 0x80.
Definition RuneError : Z := 0xFFFD.
Definition MaxRune : Z := 0x10FFFF.

Definition in_range (lo hi x : Z) : bool := (lo <=? x) && (x <=? hi).

(** A leading byte: how many bytes the rune has and the range of the second. *)
Definition lead (p0 : Z) : option (nat * Z * Z) :=
  if in_range 0xC2 0xDF p0 then Some (2%nat, 0x80, 0xBF)
  else if p0 =? 0xE0 then Some (3%nat, 0xA0, 0xBF)
  else if p0 =? 0xED then Some (3%nat, 0x80, 0x9F)
  else if in_range 0xE1 0xEF p0 then Some (3%nat, 0x80, 0xBF)
  else if p0 =? 0xF0 then Some (4%nat, 0x90, 0xBF)
  else if in_range 0xF1 0xF3 p0 then Some (4%nat, 0x80, 0xBF)
  else if p0 =? 0xF4 then Some (4%nat, 0x80, 0x8F)
  else None.

(** The value of a continuation byte shifted by [k]. *)
Definition cont_bits (b : ascii) (k : Z) : Z := Z.shiftl (Z.land (code b) 0x3F) k.

Definition is_cont (b : ascii) : bool := in_range 0x80 0xBF (code b).

(** The rune at the front and its width; [(RuneError, 1)] when there is none. *)
Definition DecodeRune (s : bytes) : Z * nat :=
  match s with
  | [] => (RuneError, 0%nat)
  | b0 :: t =>
      if code b0 <? RuneSelf then (code b0, 1%nat)
      else
        match lead (code b0), t with
        | Some (size, lo, hi), b1 :: t =>
            if in_range lo hi (code b1) then
              match size, t with
              | 2%nat, _ =>
                  (Z.lor (Z.shiftl (Z.land (code b0) 0x1F) 6) (cont_bits b1 0), 2%nat)
              | 3%nat, b2 :: _ =>
                  if is_cont b2 then
                    (Z.lor (Z.shiftl (Z.land (code b0) 0x0F) 12)
                       (Z.lor (cont_bits b1 6) (cont_bits b2 0)), 3%nat)
                  else (RuneError, 1%nat)
              | 4%nat, b2 :: b3 :: _ =>
                  if is_cont b2 && is_cont b3 then
                    (Z.lor (Z.shiftl (Z.land (code b0) 0x07) 18)
                       (Z.lor (cont_bits b1 12) (Z.lor (cont_bits b2 6) (cont_bits b3 0))), 4%nat)
                  else (RuneError, 1%nat)
              | _, _ => (RuneError, 1%nat)
              end
            else (RuneError, 1%nat)
        | _, _ => (RuneError, 1%nat)
        end
  end.

(** [tx | byte(r>>k) & maskx] *)
Definition cont_byte (r k : Z) : ascii := byte (Z.lor 0x80 (Z.land (Z.shiftr r k) 0x3F)).

Definition is_surrogate (r : Z) : bool := in_range 0xD800 0xDFFF r.

Definition EncodeRune (r : Z) : bytes :=
  let three r := [byte (Z.lor 0xE0 (Z.shiftr r 12)); cont_byte r 6; cont_byte r 0] in
  if in_range 0 0x7F r then [byte r]
  else if in_range 0x80 0x7FF r then [byte (Z.lor 0xC0 (Z.shiftr r 6)); cont_byte r 0]
  else if negb (in_range 0 MaxRune r) || is_surrogate r then three RuneError
  else if r <=? 0xFFFF then three r
  else [byte (Z.lor 0xF0 (Z.shiftr r 18)); cont_byte r 12; cont_byte r 6; cont_byte r 0].

(** ** Bit arithmetic *)

Lemma lor_disjoint a b k : 0 <= k -> 0 <= b < 2 ^ k -> Z.lor (Z.shiftl a k) b = a * 2 ^ k + b.
Proof.
  intros Hk Hb. rewrite <- Z.add_lor_land.
  - rewrite <- (Z.shiftl_mul_pow2 a k Hk).
    assert (Z.land (Z.shiftl a k) b = 0) as ->; [|lia].
    destruct (decide (b = 0)) as [->|Hb0]; [apply Z.land_0_r|].
    apply Z.bits_inj'. intros n Hn. rewrite Z.land_spec, Z.bits_0, Z.shiftl_spec by done.
    destruct (decide (n < k)).
    + by rewrite Z.testbit_neg_r by lia.
    + rewrite (Z.bits_above_log2 b n); [apply andb_false_r|lia|].
      apply Z.lt_le_trans with k; [|lia]. apply Z.log2_lt_pow2; lia.
Qed.

Lemma lor_tag (tag b k : Z) :
  0 <= k -> 0 <= b < 2 ^ k -> Z.lor (tag * 2 ^ k) b = tag * 2 ^ k + b.
Proof. intros Hk Hb. rewrite <- (Z.shiftl_mul_pow2 tag k Hk) at 1. by apply lor_disjoint. Qed.

Lemma land_mask x k : 0 <= k -> Z.land x (2 ^ k - 1) = x mod 2 ^ k.
Proof. intros Hk. rewrite <- Z.land_ones by done. by rewrite Z.ones_equiv. Qed.

(** [DecodeRune] and [EncodeRune] in plain arithmetic. *)
Lemma cont_bits_eq b k : 0 <= k -> 0x80 <= code b <= 0xBF -> cont_bits b k = (code b - 0x80) * 2 ^ k.
Proof.
  intros Hk Hb. unfold cont_bits. change 0x3F with (2 ^ 6 - 1).
  rewrite land_mask, Z.shiftl_mul_pow2 by lia. f_equal.
  change (2 ^ 6) with 64. symmetry. apply (Z.mod_unique _ _ 2); lia.
Qed.

Lemma cont_byte_eq r k : 0 <= k -> cont_byte r k = byte (0x80 + (r / 2 ^ k) mod 64).
Proof.
  intros Hk. unfold cont_byte. f_equal. change 0x3F with (2 ^ 6 - 1).
  rewrite land_mask, Z.shiftr_div_pow2 by lia. change 0x80 with (2 * 2 ^ 6) at 1.
  rewrite lor_tag; [reflexivity|lia|]. apply Z.mod_pos_bound. lia.
Qed.

Lemma lead_spec p size lo hi :
  lead p = Some (size, lo, hi) ->
  (size = 2%nat /\ 0xC2 <= p <= 0xDF /\ lo = 0x80 /\ hi = 0xBF) \/
  (size = 3%nat /\ 0xE0 <= p <= 0xEF /\ 0x80 <= lo /\ hi <= 0xBF /\
   (p = 0xE0 -> lo = 0xA0) /\ (p = 0xED -> hi = 0x9F)) \/
  (size = 4%nat /\ 0xF0 <= p <= 0xF4 /\ 0x80 <= lo /\ hi <= 0xBF /\
   (p = 0xF0 -> lo = 0x90) /\ (p = 0xF4 -> hi = 0x8F)).
Proof.
  unfold lead, in_range.
  repeat match goal with |- context [if ?b then _ else _] => destruct b eqn:? end;
    intros [= <- <- <-]; lia.
Qed.

(** [lia] with division and modulo by constants. *)
Ltac zlia := Z.to_euclidean_division_equations; lia.

Lemma byte_eq b x : x = code b -> byte x = b.
Proof. intros ->. apply byte_code. Qed.

(** The bytes of a rune are computed back from its value. *)
Lemma encode_two p b c :
  0xC2 <= code p <= 0xDF -> 0x80 <= code b <= 0xBF ->
  c = (code p - 0xC0) * 64 + (code b - 0x80) -> EncodeRune c = [p; b].
Proof.
  intros Hp Hb Hc. unfold EncodeRune, in_range.
  replace ((0 <=? c) && (c <=? 0x7F)) with false by lia.
  replace ((0x80 <=? c) && (c <=? 0x7FF)) with true by lia.
  rewrite cont_byte_eq, Z.shiftr_div_pow2 by lia.
  rewrite (lor_tag 3 _ 6) by zlia.
  rewrite (byte_eq p), (byte_eq b) by zlia. done.
Qed.

Lemma encode_three p b1 b2 c :
  0xE0 <= code p <= 0xEF -> 0x80 <= code b1 <= 0xBF -> 0x80 <= code b2 <= 0xBF ->
  (code p = 0xE0 -> 0xA0 <= code b1) -> (code p = 0xED -> code b1 <= 0x9F) ->
  c = (code p - 0xE0) * 4096 + (code b1 - 0x80) * 64 + (code b2 - 0x80) ->
  EncodeRune c = [p; b1; b2].
Proof.
  intros Hp Hb1 Hb2 HE0 HED Hc. unfold EncodeRune, is_surrogate, in_range, MaxRune.
  replace ((0 <=? c) && (c <=? 0x7F)) with false by lia.
  replace ((0x80 <=? c) && (c <=? 0x7FF)) with false by lia.
  replace (negb ((0 <=? c) && (c <=? 0x10FFFF)) || ((0xD800 <=? c) && (c <=? 0xDFFF)))
    with false by lia.
  replace (c <=? 0xFFFF) with true by lia.
  rewrite !cont_byte_eq, Z.shiftr_div_pow2 by lia.
  rewrite (lor_tag 14 _ 4) by zlia.
  rewrite (byte_eq p), (byte_eq b1), (byte_eq b2) by zlia. done.
Qed.

Lemma encode_four p b1 b2 b3 c :
  0xF0 <= code p <= 0xF4 -> 0x80 <= code b1 <= 0xBF -> 0x80 <= code b2 <= 0xBF ->
  0x80 <= code b3 <= 0xBF ->
  (code p = 0xF0 -> 0x90 <= code b1) -> (code p = 0xF4 -> code b1 <= 0x8F) ->
  c = (code p - 0xF0) * 262144 + (code b1 - 0x80) * 4096 + (code b2 - 0x80) * 64
      + (code b3 - 0x80) ->
  EncodeRune c = [p; b1; b2; b3].
Proof.
  intros Hp Hb1 Hb2 Hb3 HF0 HF4 Hc. unfold EncodeRune, is_surrogate, in_range, MaxRune.
  replace ((0 <=? c) && (c <=? 0x7F)) with false by lia.
  replace ((0x80 <=? c) && (c <=? 0x7FF)) with false by lia.
  replace (negb ((0 <=? c) && (c <=? 0x10FFFF)) || ((0xD800 <=? c) && (c <=? 0xDFFF)))
    with false by lia.
  replace (c <=? 0xFFFF) with false by lia.
  rewrite !cont_byte_eq, Z.shiftr_div_pow2 by lia.
  rewrite (lor_tag 30 _ 3) by zlia.
  rewrite (byte_eq p), (byte_eq b1), (byte_eq b2), (byte_eq b3) by zlia. done.
Qed.

Lemma lead_bits p (m k mask : Z) :
  mask = 2 ^ k - 1 -> 0 <= k -> 0 <= m < 256 -> m mod 2 ^ k = 0 -> m <= code p < m + 2 ^ k ->
  Z.land (code p) mask = code p - m.
Proof.
  intros -> Hk Hm Hd Hp. rewrite land_mask by done.
  assert (0 < 2 ^ k) by (apply Z.pow_pos_nonneg; lia).
  symmetry. apply (Z.mod_unique _ _ (m / 2 ^ k)); [lia|].
  pose proof (Z.div_mod m (2 ^ k)). lia.
Qed.

(** What a successful decoding of more than one byte looks like: the bytes
    taken determine it, and encoding the rune gives them back. *)
Lemma DecodeRune_multi b0 t c n :
  RuneSelf <= code b0 -> DecodeRune (b0 :: t) = (c, n) -> (c, n) <> (RuneError, 1%nat) ->
  exists l rest, b0 :: t = l ++ rest /\ length l = n /\ (2 <= n)%nat /\ EncodeRune c = l /\
    Forall (fun b => RuneSelf <= code b) l /\ forall r, DecodeRune (l ++ r) = (c, n).
Proof.
  unfold RuneSelf. intros H0 Hd Hne. cbn [DecodeRune] in Hd. unfold RuneSelf in Hd.
  replace (code b0 <? 0x80) with false in Hd by lia.
  destruct (lead (code b0)) as [[[size lo] hi]|] eqn:Hlead; [|congruence].
  destruct t as [|b1 t]; [congruence|].
  destruct (in_range lo hi (code b1)) eqn:H1; [|congruence].
  pose proof (code_range b0). pose proof (lead_spec _ _ _ _ Hlead) as Hl.
  assert (code b0 <? 0x80 = false) as Hlt by lia. pose proof H1 as Hr1. unfold in_range in Hr1.
  destruct Hl as [(-> & Hb0 & -> & ->)|[(-> & Hb0 & Hlo & Hhi & HE0 & HED)|(-> & Hb0 & Hlo & Hhi & HF0 & HF4)]].
  - exists [b0; b1], t. injection Hd as <- <-. repeat split; [lia| | |].
    + eapply encode_two; [done|lia|].
      rewrite cont_bits_eq, Z.mul_1_r by lia. rewrite (lead_bits b0 0xC0 5 0x1F) by (lia || done).
      by rewrite (lor_disjoint _ _ 6) by lia.
    + repeat constructor; lia.
    + intros r. cbn [app DecodeRune]. unfold RuneSelf. by rewrite Hlt, Hlead, H1.
  - destruct t as [|b2 t]; [congruence|].
    destruct (is_cont b2) eqn:H2; [|congruence]. pose proof H2 as Hr2.
    unfold is_cont, in_range in Hr2.
    exists [b0; b1; b2], t. injection Hd as <- <-. repeat split; [lia| | |].
    + eapply encode_three; [done|lia|lia|lia|lia|].
      rewrite !cont_bits_eq, Z.mul_1_r by lia. rewrite (lead_bits b0 0xE0 4 0x0F) by (lia || done).
      rewrite (lor_tag _ _ 6) by lia. rewrite (lor_disjoint _ _ 12) by lia. lia.
    + repeat constructor; lia.
    + intros r. cbn [app DecodeRune]. unfold RuneSelf. by rewrite Hlt, Hlead, H1, H2.
  - destruct t as [|b2 [|b3 t]]; [congruence..|].
    destruct (is_cont b2) eqn:H2; [|simpl in Hd; congruence].
    destruct (is_cont b3) eqn:H3; [|simpl in Hd; congruence].
    pose proof H2 as Hr2. pose proof H3 as Hr3. unfold is_cont, in_range in Hr2, Hr3.
    exists [b0; b1; b2; b3], t. injection Hd as <- <-. repeat split; [lia| | |].
    + eapply encode_four; [done|lia|lia|lia|lia|lia|].
      rewrite !cont_bits_eq, Z.mul_1_r by lia. rewrite (lead_bits b0 0xF0 3 0x07) by (lia || done).
      rewrite (lor_tag _ _ 6) by lia. rewrite (lor_tag _ _ 12) by lia.
      rewrite (lor_disjoint _ _ 18) by lia. lia.
    + repeat constructor; lia.
    + intros r. cbn [app DecodeRune]. unfold RuneSelf. by rewrite Hlt, Hlead, H1, H2, H3.
Qed.

(** [s] is a sequence of valid encodings. *)
Inductive utf8 : bytes -> Prop :=
| utf8_nil : utf8 []
| utf8_cons b t c n :
    DecodeRune (b :: t) = (c, n) -> (c, n) <> (RuneError, 1%nat) ->
    utf8 (drop n (b :: t)) -> utf8 (b :: t).

(** [utf8.Valid], deciding it. *)
Fixpoint valid_fuel (fuel : nat) (s : bytes) : bool :=
  match fuel, s with
  | _, [] => true
  | O, _ => false
  | S fuel, _ =>
      let '(c, n) := DecodeRune s in
      negb (bool_decide ((c, n) = (RuneError, 1%nat))) && valid_fuel fuel (drop n s)
  end.

Definition Valid (s : bytes) : bool := valid_fuel (length s) s.

Lemma DecodeRune_ascii b t : code b < RuneSelf -> DecodeRune (b :: t) = (code b, 1%nat).
Proof. intros Hb. simpl. by replace (code b <? RuneSelf) with true by lia. Qed.

Lemma DecodeRune_size b t :
  (1 <= (DecodeRune (b :: t)).2 <= length (b :: t))%nat.
Proof.
  destruct (decide (code b < RuneSelf)) as [Hb|Hb].
  - rewrite DecodeRune_ascii by done. simpl. lia.
  - destruct (DecodeRune (b :: t)) as [c n] eqn:Hd.
    destruct (decide ((c, n) = (RuneError, 1%nat))) as [[= -> ->]|Hne]; [simpl; lia|].
    destruct (DecodeRune_multi b t c n) as (l & rest & Hl & Hlen & Hn & _); [lia|done|done|].
    rewrite Hl, length_app. simpl. lia.
Qed.

Lemma valid_fuel_utf8 fuel s : valid_fuel fuel s = true -> utf8 s.
Proof.
  revert s. induction fuel as [|fuel IH]; intros [|b t]; simpl; try done; try constructor.
  destruct (DecodeRune (b :: t)) as [c n] eqn:Hd. simpl in Hd. rewrite Hd.
  intros [Hne Hv]%andb_true_iff. econstructor; [exact Hd| |by apply IH].
  by apply negb_true_iff, bool_decide_eq_false in Hne.
Qed.

Lemma utf8_valid_fuel fuel s : (length s <= fuel)%nat -> utf8 s -> valid_fuel fuel s = true.
Proof.
  intros Hf Hu. revert fuel Hf. induction Hu as [|b t c n Hd Hne Hu IH]; intros fuel Hf.
  - by destruct fuel.
  - destruct fuel as [|fuel]; [simpl in Hf; lia|]. cbn [valid_fuel]. rewrite Hd.
    rewrite bool_decide_false by done. apply IH.
    pose proof (DecodeRune_size b t) as Hs. rewrite Hd in Hs. simpl in Hs.
    rewrite length_drop. simpl in *. lia.
Qed.

Lemma Valid_utf8 s : Valid s = true <-> utf8 s.
Proof. split; [apply valid_fuel_utf8|by apply utf8_valid_fuel]. Qed.

(** Valid texts one after the other are a valid text. *)
Lemma utf8_app a b : utf8 a -> utf8 b -> utf8 (a ++ b).
Proof.
  intros Ha Hb. induction Ha as [|x t c n Hd Hne _ IH]; [done|]. cbn [app].
  pose proof (DecodeRune_size x t) as Hn. rewrite Hd in Hn. cbn [snd] in Hn.
  apply utf8_cons with c n; [|done|].
  - destruct (decide (code x < RuneSelf)) as [Hx|Hx]; [by rewrite DecodeRune_ascii in * |].
    destruct (DecodeRune_multi x t c n) as (l & rest & Hl & _ & _ & _ & _ & Hr); [lia|done|done|].
    change (x :: t ++ b) with ((x :: t) ++ b). rewrite Hl, <- app_assoc. apply Hr.
  - change (x :: t ++ b) with ((x :: t) ++ b). by rewrite drop_app_le by lia.
Qed.

(** ** What is encoded is valid *)

Lemma utf8_rune (l : bytes) :
  (2 <= length l)%nat -> (DecodeRune l).2 = length l -> utf8 l.
Proof.
  intros Hl Hd. destruct l as [|b t]; [constructor|].
  destruct (DecodeRune (b :: t)) as [c n] eqn:Hc. cbn [snd] in Hd. subst n.
  apply utf8_cons with c (length (b :: t)); [done|intros [= _ Hn]; simpl in Hl; lia|].
  rewrite drop_all. constructor.
Qed.

Lemma utf8_two b0 b1 :
  0xC2 <= code b0 <= 0xDF -> 0x80 <= code b1 <= 0xBF -> utf8 [b0; b1].
Proof.
  intros H0 H1. apply utf8_rune; [done|]. unfold DecodeRune, lead, in_range, RuneSelf.
  replace (code b0 <? 128) with false by lia.
  replace ((0xC2 <=? code b0) && (code b0 <=? 0xDF)) with true by lia.
  by replace ((0x80 <=? code b1) && (code b1 <=? 0xBF)) with true by lia.
Qed.

Lemma utf8_three b0 b1 b2 :
  0xE0 <= code b0 <= 0xEF -> 0x80 <= code b1 <= 0xBF -> 0x80 <= code b2 <= 0xBF ->
  (code b0 = 0xE0 -> 0xA0 <= code b1) -> (code b0 = 0xED -> code b1 <= 0x9F) ->
  utf8 [b0; b1; b2].
Proof.
  intros H0 H1 H2 HE0 HED. apply utf8_rune; [simpl; lia|].
  unfold DecodeRune, lead, is_cont, in_range, RuneSelf.
  replace (code b0 <? 128) with false by lia.
  replace ((0xC2 <=? code b0) && (code b0 <=? 0xDF)) with false by lia.
  repeat match goal with
    | |- context [if ?c then _ else _] => destruct c eqn:?; [try done|]; try (exfalso; lia)
    end; try done; exfalso; lia.
Qed.

Lemma utf8_four b0 b1 b2 b3 :
  0xF0 <= code b0 <= 0xF4 -> 0x80 <= code b1 <= 0xBF -> 0x80 <= code b2 <= 0xBF ->
  0x80 <= code b3 <= 0xBF ->
  (code b0 = 0xF0 -> 0x90 <= code b1) -> (code b0 = 0xF4 -> code b1 <= 0x8F) ->
  utf8 [b0; b1; b2; b3].
Proof.
  intros H0 H1 H2 H3 HF0 HF4. apply utf8_rune; [simpl; lia|].
  unfold DecodeRune, lead, is_cont, in_range, RuneSelf.
  replace (code b0 <? 128) with false by lia.
  replace ((0xC2 <=? code b0) && (code b0 <=? 0xDF)) with false by lia.
  replace ((0xE1 <=? code b0) && (code b0 <=? 0xEF)) with false by lia.
  repeat match goal with
    | |- context [if ?c then _ else _] => destruct c eqn:?; [try done|]; try (exfalso; lia)
    end; try done; exfalso; lia.
Qed.

Lemma utf8_ascii b : code b < RuneSelf -> utf8 [b].
Proof.
  intros Hb. apply utf8_cons with (code b) 1%nat; [by apply DecodeRune_ascii| |constructor].
  unfold RuneSelf, RuneError in *. intros [= Hc]. lia.
Qed.

(** Every rune is encoded validly, what is none as U+FFFD. *)
Lemma utf8_EncodeRune c : utf8 (EncodeRune c).
Proof.
  unfold EncodeRune.
  assert (utf8 [byte (Z.lor 0xE0 (Z.shiftr RuneError 12)); cont_byte RuneError 6;
                cont_byte RuneError 0]) as Hbad by (apply Valid_utf8; reflexivity).
  destruct (in_range 0 0x7F c) eqn:H1; unfold in_range in H1.
  { apply utf8_ascii. rewrite code_byte by lia. unfold RuneSelf. lia. }
  destruct (in_range 0x80 0x7FF c) eqn:H2; unfold in_range in H2.
  { rewrite cont_byte_eq, Z.shiftr_div_pow2, (lor_tag 3 _ 6) by zlia.
    apply utf8_two; rewrite code_byte; zlia. }
  destruct (negb (in_range 0 MaxRune c) || is_surrogate c) eqn:H3; [exact Hbad|].
  unfold is_surrogate, in_range, MaxRune in H3. destruct (c <=? 0xFFFF) eqn:H4.
  - rewrite !cont_byte_eq, Z.shiftr_div_pow2, (lor_tag 14 _ 4) by zlia.
    apply utf8_three; rewrite ?code_byte; zlia.
  - rewrite !cont_byte_eq, Z.shiftr_div_pow2, (lor_tag 30 _ 3) by zlia.
    apply utf8_four; rewrite ?code_byte; zlia.
Qed.
