(* ===== verification/Utf16.v ===== *)
(** * UTF-16 (Go's package unicode/utf16)

    Runes of byte strings, and the encoding and decoding of runes as 16-bit
    units, as the system's texts have them. *)

From S2P Require Import Prelude GoStrings Utf8.
From Stdlib Require Import ZArith Ascii Lia.
From stdpp Require Import base list.
Open Scope Z_scope.

(** The runes of a string, as [for range] gives them. *)
Fixpoint runes_fuel (fuel : nat) (s : bytes) : list Z :=
  match fuel, s with
  | _, [] => []
  | O, _ => []
  | S fuel, _ => let '(c, n) := DecodeRune s in c :: runes_fuel fuel (drop n s)
  end.

Definition runes (s : bytes) : list Z := runes_fuel (length s) s.

(** [string(rs)] *)
Definition of_runes (rs : list Z) : bytes := concat (map EncodeRune rs).

(** [utf16.AppendRune] to no unit. *)
Definition units (r : Z) : list Z :=
  if in_range 0 0xFFFF r && negb (is_surrogate r) then [r]
  else if in_range 0x10000 MaxRune r then
    [0xD800 + Z.land (Z.shiftr (r - 0x10000) 10) 0x3FF; 0xDC00 + Z.land (r - 0x10000) 0x3FF]
  else [RuneError].

(** [utf16.Encode] *)
Definition Encode16 (rs : list Z) : list Z := concat (map units rs).

(** [utf16.DecodeRune] *)
Definition DecodeSurrogates (r1 r2 : Z) : option Z :=
  if in_range 0xD800 0xDBFF r1 && in_range 0xDC00 0xDFFF r2 then
    Some (Z.lor (Z.shiftl (r1 - 0xD800) 10) (r2 - 0xDC00) + 0x10000)
  else None.

(** [utf16.Decode]: a surrogate without its other half is U+FFFD. *)
Fixpoint Decode16 (us : list Z) : list Z :=
  match us with
  | [] => []
  | u1 :: us1 =>
      let one := if is_surrogate u1 then RuneError else u1 in
      match us1 with
      | [] => [one]
      | u2 :: us2 =>
          match DecodeSurrogates u1 u2 with
          | Some r => r :: Decode16 us2
          | None => one :: Decode16 us1
          end
      end
  end.

(** ** Round trips *)

(** A Unicode scalar value. *)
Definition scalar (r : Z) : Prop := 0 <= r <= MaxRune /\ is_surrogate r = false.

Lemma EncodeRune_bad c : ~ scalar c -> EncodeRune c = EncodeRune RuneError.
Proof.
  intros Hs. unfold EncodeRune at 1.
  destruct (in_range 0 0x7F c) eqn:H1; [|destruct (in_range 0x80 0x7FF c) eqn:H2].
  1-2: exfalso; apply Hs; unfold scalar, is_surrogate, in_range, MaxRune in *; lia.
  destruct (negb (in_range 0 MaxRune c) || is_surrogate c) eqn:H3; [done|].
  exfalso. apply Hs. unfold scalar, is_surrogate, in_range, MaxRune in *. lia.
Qed.

Lemma DecodeRune_scalar b t c n :
  DecodeRune (b :: t) = (c, n) -> (c, n) <> (RuneError, 1%nat) -> scalar c.
Proof.
  intros Hd Hne. destruct (decide (code b < RuneSelf)) as [Hb|Hb].
  - rewrite DecodeRune_ascii in Hd by done. injection Hd as <- _. pose proof (code_range b).
    unfold scalar, is_surrogate, in_range, MaxRune, RuneSelf in *. lia.
  - destruct (DecodeRune_multi b t c n) as (l & rest & _ & _ & _ & He & _ & Hr); [lia|done|done|].
    assert (~ ~ scalar c) as Hs.
    { intros Hs. specialize (Hr []). rewrite app_nil_r, <- He, (EncodeRune_bad c Hs) in Hr.
      vm_compute in Hr. injection Hr as <- _. apply Hs. vm_compute. intuition discriminate. }
    unfold scalar, is_surrogate, in_range, MaxRune in *. lia.
Qed.

(** The runes of a valid string determine it. *)
Lemma runes_fuel_valid fuel s :
  (length s <= fuel)%nat -> utf8 s -> of_runes (runes_fuel fuel s) = s /\ Forall scalar (runes_fuel fuel s).
Proof.
  intros Hf Hu. revert fuel Hf. induction Hu as [|b t c n Hd Hne Hu IH]; intros fuel Hf.
  - by destruct fuel.
  - destruct fuel as [|fuel]; [simpl in Hf; lia|]. cbn [runes_fuel]. rewrite Hd.
    pose proof (DecodeRune_size b t) as Hn. rewrite Hd in Hn. cbn [snd] in Hn.
    destruct (IH fuel) as [Hs Hr]; [rewrite length_drop; simpl in *; lia|].
    split; [|constructor; [by apply (DecodeRune_scalar b t c n)|done]].
    unfold of_runes in *. cbn [map concat]. rewrite Hs.
    destruct (decide (code b < RuneSelf)) as [Hb|Hb].
    + rewrite DecodeRune_ascii in Hd by done. injection Hd as <- <-. cbn [drop].
      pose proof (code_range b). unfold EncodeRune, in_range, RuneSelf in *.
      replace ((0 <=? code b) && (code b <=? 127)) with true by lia. by rewrite byte_code.
    + destruct (DecodeRune_multi b t c n) as (l & rest & Hl & Hlen & _ & He & _); [lia|done|done|].
      by rewrite He, Hl, <- Hlen, drop_app_length.
Qed.

Lemma of_runes_runes s : utf8 s -> of_runes (runes s) = s.
Proof. intros Hu. by apply (runes_fuel_valid (length s) s). Qed.

Lemma runes_scalar s : utf8 s -> Forall scalar (runes s).
Proof. intros Hu. by apply (runes_fuel_valid (length s) s). Qed.

(** A scalar value is one unit that is not a surrogate, or two that are a pair. *)
Lemma units_scalar r :
  scalar r ->
  (units r = [r] /\ is_surrogate r = false) \/
  exists u1 u2, units r = [u1; u2] /\ DecodeSurrogates u1 u2 = Some r /\
    0xD800 <= u1 <= 0xDBFF /\ 0xDC00 <= u2 <= 0xDFFF.
Proof.
  intros [Hr Hs]. unfold units. rewrite Hs. unfold in_range, MaxRune in *.
  destruct ((0 <=? r) && (r <=? 0xFFFF)) eqn:Hb; [by left|right]. cbn [andb negb].
  replace ((0x10000 <=? r) && (r <=? 0x10FFFF)) with true by lia.
  change 0x3FF with (Z.ones 10). rewrite !Z.land_ones by done.
  assert (Z.shiftr (r - 0x10000) 10 = (r - 0x10000) / 2 ^ 10) as -> by by rewrite Z.shiftr_div_pow2.
  assert (0 <= (r - 0x10000) / 2 ^ 10 < 2 ^ 10) as Hq.
  { split; [apply Z.div_pos; lia|apply Z.div_lt_upper_bound; lia]. }
  rewrite (Z.mod_small ((r - 0x10000) / 2 ^ 10)) by done.
  pose proof (Z.mod_pos_bound (r - 0x10000) (2 ^ 10)) as Hm.
  eexists _, _. split; [done|]. split; [|lia]. unfold DecodeSurrogates, in_range.
  match goal with |- (if ?c then _ else _) = _ => replace c with true by lia end. f_equal.
  replace (0xD800 + (r - 0x10000) / 2 ^ 10 - 0xD800) with ((r - 0x10000) / 2 ^ 10) by lia.
  replace (0xDC00 + (r - 0x10000) mod 2 ^ 10 - 0xDC00) with ((r - 0x10000) mod 2 ^ 10) by lia.
  rewrite (lor_disjoint _ _ 10) by lia. pose proof (Z.div_mod (r - 0x10000) (2 ^ 10)). lia.
Qed.

Lemma DecodeSurrogates_scalar r u : is_surrogate r = false -> DecodeSurrogates r u = None.
Proof.
  intros Hs. unfold DecodeSurrogates, is_surrogate, in_range in *.
  by replace ((0xD800 <=? r) && (r <=? 0xDBFF)) with false by lia.
Qed.

Lemma Decode16_Encode16 rs : Forall scalar rs -> Decode16 (Encode16 rs) = rs.
Proof.
  unfold Encode16. induction 1 as [|r rs Hr _ IH]; [done|]. cbn [map concat].
  destruct (units_scalar r Hr) as [[-> Hs]|(u1 & u2 & -> & Hd & _)].
  - cbn [app Decode16]. destruct (concat (map units rs)) as [|u us] eqn:Hc.
    + rewrite Hs. by rewrite <- IH.
    + by rewrite (DecodeSurrogates_scalar r u Hs), Hs, IH.
  - cbn [app Decode16]. by rewrite Hd, IH.
Qed.

(** No unit is 0 unless a rune is. *)
Lemma Encode16_nonzero rs : Forall scalar rs -> 0 ∉ rs -> 0 ∉ Encode16 rs.
Proof.
  unfold Encode16. induction 1 as [|r rs Hr _ IH]; [done|]. cbn [map concat].
  intros [Hz Hrs]%not_elem_of_cons. rewrite elem_of_app. intros [Hin|Hin]; [|by apply IH].
  destruct (units_scalar r Hr) as [[Hu _]|(u1 & u2 & Hu & _ & H1 & H2)]; rewrite Hu in Hin.
  - apply list_elem_of_singleton in Hin. done.
  - rewrite !elem_of_cons, elem_of_nil in Hin. lia.
Qed.

(** Only the byte 0 decodes to the rune 0. *)
Lemma runes_nonzero s : utf8 s -> byte 0 ∉ s -> 0 ∉ runes s.
Proof.
  unfold runes. intros Hu. assert (length s <= length s)%nat as Hf by lia. revert Hf.
  generalize (length s) at 2 3 as fuel.
  induction Hu as [|b t c n Hd Hne Hu IH]; intros fuel Hf Hz; [destruct fuel; apply not_elem_of_nil|].
  destruct fuel as [|fuel]; [simpl in Hf; lia|]. cbn [runes_fuel]. rewrite Hd.
  pose proof (DecodeRune_size b t) as Hn. rewrite Hd in Hn. cbn [snd] in Hn.
  apply not_elem_of_cons. split.
  - intros <-. destruct (decide (code b < RuneSelf)) as [Hb|Hb].
    + rewrite DecodeRune_ascii in Hd by done. injection Hd as Hb0 _. apply Hz.
      rewrite <- Hb0, byte_code. apply list_elem_of_here.
    + destruct (DecodeRune_multi b t 0 n) as (l & rest & _ & Hlen & H2 & He & _); [lia|done|done|].
      rewrite <- He in Hlen. vm_compute in Hlen. lia.
  - apply IH; [rewrite length_drop; simpl in *; lia|]. intros Hin. apply Hz.
    rewrite <- (take_drop n (b :: t)). apply elem_of_app. by right.
Qed.
