(* ===== verification/Strconv.v ===== *)
(** * Numbers in decimal (Go's package strconv)

    [FormatUint], [FormatInt], [ParseUint], [ParseInt] and [Atoi] on 64-bit
    integers, in base 10, and that parsing is the inverse of formatting. *)

From S2P Require Import Prelude GoStrings Utf8.
From Stdlib Require Import ZArith Ascii String Lia.
From stdpp Require Import base list strings.
Open Scope Z_scope.

Definition digit (d : Z) : ascii := byte (48 + d).
Definition is_digit (b : ascii) : bool := in_range 48 57 (code b).

Fixpoint digits (fuel : nat) (n : Z) (acc : bytes) : bytes :=
  match fuel with
  | O => acc
  | S fuel =>
      if n <? 10 then digit n :: acc
      else digits fuel (n / 10) (digit (n mod 10) :: acc)
  end.

(** A uint64 has at most 20 digits. *)
Definition FormatUint (n : Z) : bytes := digits 20 (u64 n) [].

Definition FormatInt (z : Z) : bytes :=
  if z <? 0 then "-"%char :: FormatUint (- z) else FormatUint z.

Fixpoint digits_value (acc : Z) (s : bytes) : option Z :=
  match s with
  | [] => Some acc
  | b :: t => if is_digit b then digits_value (acc * 10 + (code b - 48)) t else None
  end.

(** An unsigned number of at most [bits] bits; no sign is accepted. *)
Definition ParseUint (bits : Z) (s : bytes) : option Z :=
  if decide (s = []) then None
  else
    v ← digits_value 0 s;
    if decide (v < 2 ^ bits) then Some v else None.

Definition ParseInt (s : bytes) : option Z :=
  let '(neg, s') :=
    match s with
    | b :: t =>
        if decide (b = "-"%char) then (true, t)
        else if decide (b = "+"%char) then (false, t) else (false, s)
    | [] => (false, s)
    end in
  v ← ParseUint 64 s';
  if neg then if decide (v <= 2 ^ 63) then Some (- v) else None
  else if decide (v < 2 ^ 63) then Some v else None.

(** [Atoi], whose result has 64 bits. *)
Definition Atoi (s : bytes) : option Z := ParseInt s.

Lemma code_digit d : 0 <= d < 10 -> code (digit d) = 48 + d.
Proof. intros Hd. unfold digit. apply code_byte. lia. Qed.

Lemma is_digit_digit d : 0 <= d < 10 -> is_digit (digit d) = true.
Proof. intros Hd. unfold is_digit, in_range. rewrite code_digit by done. lia. Qed.

(** The digits of [n], most significant first, without a leading zero. *)
Record numeral (n : Z) (ds : bytes) : Prop := {
  numeral_digits : Forall (fun b => is_digit b = true) ds;
  numeral_value acc : digits_value acc ds = Some (acc * 10 ^ Z.of_nat (length ds) + n);
  numeral_head : exists b t, ds = b :: t /\ (t <> [] -> b <> "0"%char);
}.

Lemma numeral_digit d : 0 <= d < 10 -> numeral d [digit d].
Proof.
  intros Hd. split.
  - constructor; [by apply is_digit_digit|done].
  - intros acc. simpl. rewrite is_digit_digit, code_digit by done. f_equal. lia.
  - by eexists _, _.
Qed.

Lemma digits_value_app acc s t :
  digits_value acc (s ++ t) = (v ← digits_value acc s; digits_value v t).
Proof.
  revert acc. induction s as [|b s IH]; intros acc; simpl; [done|].
  destruct (is_digit b); [apply IH|done].
Qed.

Lemma pow_length_snoc {A} (l : list A) x :
  10 ^ Z.of_nat (length (l ++ [x])) = 10 ^ Z.of_nat (length l) * 10.
Proof.
  rewrite length_app, Nat2Z.inj_add, Z.pow_add_r by lia. reflexivity.
Qed.

Lemma numeral_snoc n ds d : 0 < n -> 0 <= d < 10 -> numeral n ds -> numeral (n * 10 + d) (ds ++ [digit d]).
Proof.
  intros Hn Hd [Hds Hv (b & t & -> & Hb)]. split.
  - apply Forall_app. split; [done|]. constructor; [by apply is_digit_digit|done].
  - intros acc. rewrite digits_value_app, Hv, pow_length_snoc. cbn [mbind option_bind digits_value].
    rewrite is_digit_digit, code_digit by done. f_equal. lia.
  - exists b, (t ++ [digit d]). split; [done|]. intros _. destruct t as [|c t]; [|by apply Hb].
    specialize (Hv 0). simpl in Hv. destruct (is_digit b); [|done]. intros ->.
    vm_compute (code "0" - 48) in Hv. simplify_eq/=. lia.
Qed.

Lemma digits_numeral fuel n acc :
  0 <= n < 10 ^ Z.of_nat (S fuel) ->
  exists ds, digits (S fuel) n acc = ds ++ acc /\ numeral n ds.
Proof.
  revert n acc. induction fuel as [|fuel IH]; intros n acc Hn;
    change (digits (S ?f) n acc) with
      (if n <? 10 then digit n :: acc else digits f (n / 10) (digit (n mod 10) :: acc));
    destruct (n <? 10) eqn:Hlt;
    try (exists [digit n]; split; [done|]; apply numeral_digit; lia).
  - change (10 ^ Z.of_nat 1) with 10 in Hn. lia.
  - rewrite Nat2Z.inj_succ, Z.pow_succ_r in Hn by lia.
    destruct (IH (n / 10) (digit (n mod 10) :: acc)) as (ds & -> & Hds); [zlia|].
    exists (ds ++ [digit (n mod 10)]). rewrite <- app_assoc. split; [done|].
    rewrite (Z.div_mod n 10) at 1 by done. rewrite Z.mul_comm.
    apply numeral_snoc; [zlia|zlia|done].
Qed.

Lemma FormatUint_wrap n : numeral (u64 n) (FormatUint n).
Proof.
  pose proof (wrap_fits 64 n ltac:(lia)) as Hn. unfold FormatUint.
  destruct (digits_numeral 19 (u64 n) []) as (ds & -> & Hnum).
  - unfold fits in Hn. split; [lia|]. apply Z.lt_trans with (2 ^ 64); [lia|reflexivity].
  - by rewrite app_nil_r.
Qed.

Lemma FormatUint_numeral n : fits 64 n -> numeral n (FormatUint n).
Proof. intros Hn. pose proof (FormatUint_wrap n) as H. by rewrite wrap_small in H. Qed.

Lemma ParseUint_FormatUint bits n :
  0 <= bits <= 64 -> fits bits n -> ParseUint bits (FormatUint n) = Some n.
Proof.
  intros Hb Hn. assert (fits 64 n) as H64.
  { unfold fits in *. split; [lia|]. apply Z.lt_le_trans with (2 ^ bits); [lia|].
    apply Z.pow_le_mono_r; lia. }
  destruct (FormatUint_numeral n H64) as [_ Hv (b & t & Hbt & _)].
  unfold ParseUint. rewrite decide_False by congruence. rewrite Hv. simpl.
  unfold fits in Hn. by rewrite decide_True by lia.
Qed.

Definition fits_int64 (z : Z) : Prop := - 2 ^ 63 <= z < 2 ^ 63.

#[export] Instance fits_int64_dec z : Decision (fits_int64 z).
Proof. unfold fits_int64. apply _. Defined.

Lemma ParseInt_FormatInt z : fits_int64 z -> ParseInt (FormatInt z) = Some z.
Proof.
  unfold fits_int64. intros Hz. unfold FormatInt, ParseInt. destruct (z <? 0) eqn:Hneg.
  - rewrite decide_True by done. rewrite ParseUint_FormatUint by (unfold fits; lia). simpl.
    rewrite decide_True by lia. f_equal. lia.
  - assert (fits 64 z) as Hf by (unfold fits; lia).
    destruct (FormatUint_numeral z Hf) as [Hds _ (b & t & Hbt & _)]. rewrite Hbt in *.
    apply Forall_cons in Hds as [Hb _].
    rewrite !decide_False by (intros ->; vm_compute in Hb; congruence).
    rewrite <- Hbt, ParseUint_FormatUint by (done || lia). simpl. by rewrite decide_True by lia.
Qed.

Lemma digits_no_newline ds : Forall (fun b => is_digit b = true) ds -> newline ∉ ds.
Proof. rewrite Forall_forall. intros Hds Hin. by apply Hds in Hin. Qed.

Lemma FormatUint_no_newline n : newline ∉ FormatUint n.
Proof. apply digits_no_newline, (numeral_digits (u64 n)), FormatUint_wrap. Qed.

Lemma FormatInt_no_newline z : newline ∉ FormatInt z.
Proof.
  unfold FormatInt. destruct (z <? 0); [|apply FormatUint_no_newline].
  apply not_elem_of_cons. split; [done|apply FormatUint_no_newline].
Qed.

Lemma digits_value_nonneg acc s v : 0 <= acc -> digits_value acc s = Some v -> 0 <= v.
Proof.
  revert acc. induction s as [|b s IH]; intros acc Ha; simpl; [intros [= ->]; done|].
  destruct (is_digit b) eqn:Hb; [|done]. apply IH.
  unfold is_digit, in_range in Hb. apply andb_prop in Hb as [Hb _]. apply Z.leb_le in Hb. lia.
Qed.

(** What is parsed fits. *)
Lemma ParseUint_fits bits s v : ParseUint bits s = Some v -> fits bits v.
Proof.
  unfold ParseUint. case_decide; [done|]. destruct (digits_value 0 s) as [x|] eqn:Hx; [|done].
  cbn [mbind option_bind]. case_decide; [|done]. intros [= <-].
  split; [by eapply digits_value_nonneg|done].
Qed.

Lemma ParseInt_fits s v : ParseInt s = Some v -> fits_int64 v.
Proof.
  unfold ParseInt, fits_int64. destruct (match s with [] => _ | _ => _ end) as [neg s'].
  destruct (ParseUint 64 s') as [x|] eqn:Hx; [|done]. apply ParseUint_fits in Hx as [Hx _].
  cbn [mbind option_bind]. destruct neg; case_decide; try done; intros [= <-]; lia.
Qed.
