(* ===== verification/Netip.v ===== *)
(** * IP addresses and prefixes (Go's package net/netip)

    [Addr] with the bytes of the address, most significant first; a zone only
    on IPv6.  [Prefix] keeps Go's [bitsPlusOne], 0 for an invalid prefix.
    Parsing and formatting as the program uses them. *)

From S2P Require Import Prelude GoStrings Utf8 Strconv.
From Stdlib Require Import ZArith Ascii String Lia.
From stdpp Require Import base list strings.
Open Scope Z_scope.

Inductive Addr : Type :=
| AddrInvalid
| Addr4 (octets : list Z)
| Addr6 (octets : list Z) (zone : string).

#[export] Instance Addr_eq_dec : EqDecision Addr.
Proof. solve_decision. Defined.

(** Four or sixteen bytes. *)
Definition wf_addr (a : Addr) : Prop :=
  match a with
  | AddrInvalid => True
  | Addr4 o => length o = 4%nat /\ Forall (fits 8) o
  | Addr6 o _ => length o = 16%nat /\ Forall (fits 8) o
  end.

Definition IsValid (a : Addr) : bool := match a with AddrInvalid => false | _ => true end.
Definition Is4 (a : Addr) : bool := match a with Addr4 _ => true | _ => false end.
(** IPv4-mapped addresses are IPv6 too. *)
Definition Is6 (a : Addr) : bool := match a with Addr6 _ _ => true | _ => false end.
Definition Zone (a : Addr) : string := match a with Addr6 _ z => z | _ => EmptyString end.
Definition BitLen (a : Addr) : Z :=
  match a with AddrInvalid => 0 | Addr4 _ => 32 | Addr6 _ _ => 128 end.

Definition AddrFrom4 (o : list Z) : Addr := Addr4 o.
Definition AddrFrom16 (o : list Z) : Addr := Addr6 o EmptyString.
Definition WithZone (a : Addr) (zone : string) : Addr :=
  match a with Addr6 o _ => Addr6 o zone | _ => a end.
Definition IPv4Unspecified : Addr := Addr4 [0; 0; 0; 0].
Definition IPv6Unspecified : Addr := Addr6 (replicate 16 0) EmptyString.

(** [AddrFromSlice]: four or sixteen bytes. *)
Definition AddrFromSlice (s : list Z) : option Addr :=
  match length s with
  | 4%nat => Some (AddrFrom4 s)
  | 16%nat => Some (AddrFrom16 s)
  | _ => None
  end.

(** ** Prefixes *)

Record Prefix : Type := mkPrefix {
  ip : Addr;
  bitsPlusOne : Z;   (* uint8 *)
}.

#[export] Instance Prefix_eq_dec : EqDecision Prefix.
Proof. solve_decision. Defined.

Definition zero_Prefix : Prefix := mkPrefix AddrInvalid 0.

(** Without a zone; bits out of range give an invalid prefix. *)
Definition PrefixFrom (a : Addr) (bits : Z) : Prefix :=
  mkPrefix (WithZone a EmptyString)
    (if decide (IsValid a = true /\ 0 <= bits <= BitLen a) then u8 (u8 bits + 1) else 0).

Definition Prefix_Addr (p : Prefix) : Addr := ip p.
Definition Bits (p : Prefix) : Z := bitsPlusOne p - 1.
Definition Prefix_IsValid (p : Prefix) : bool := bool_decide (0 < bitsPlusOne p).

(** What every way of making a prefix keeps. *)
Definition wf_prefix (p : Prefix) : Prop :=
  wf_addr (ip p) /\ Zone (ip p) = EmptyString /\
  0 <= bitsPlusOne p <= (if IsValid (ip p) then BitLen (ip p) + 1 else 0).

Lemma BitLen_le a : 0 <= BitLen a <= 128.
Proof. destruct a; simpl; lia. Qed.

Lemma PrefixFrom_bits a bits :
  bitsPlusOne (PrefixFrom a bits)
  = if decide (IsValid a = true /\ 0 <= bits <= BitLen a) then bits + 1 else 0.
Proof.
  unfold PrefixFrom. simpl. case_decide as Hd; [|done]. pose proof (BitLen_le a).
  rewrite !wrap_small; unfold fits; rewrite ?wrap_small; unfold fits; lia.
Qed.

Lemma PrefixFrom_wf a bits : wf_addr a -> wf_prefix (PrefixFrom a bits).
Proof.
  intros Ha. unfold wf_prefix. rewrite PrefixFrom_bits.
  destruct a; simpl; split_and!; try apply Ha; try done; repeat case_decide; lia.
Qed.

(** A prefix is made again from its parts. *)
Lemma PrefixFrom_parts p : wf_prefix p -> PrefixFrom (ip p) (Bits p) = p.
Proof.
  intros (Ha & Hz & Hb). destruct p as [a b]. simpl in *.
  assert (ip (PrefixFrom a (Bits (mkPrefix a b))) = a) as Hip.
  { unfold PrefixFrom. simpl. destruct a; simpl in *; by rewrite ?Hz. }
  pose proof (PrefixFrom_bits a (Bits (mkPrefix a b))) as Hbits.
  destruct (PrefixFrom a _) as [a' b']. simpl in *. subst a'. f_equal. rewrite Hbits. clear Hbits.
  unfold Bits. simpl. case_decide as Hd; [lia|].
  destruct (IsValid a) eqn:Hv; rewrite ?Hv in *; [|lia]. destruct (decide (b = 0)) as [->|]; [done|].
  exfalso. apply Hd. split; [done|lia].
Qed.

(** ** Parsing *)

(** An octet of an IPv4 address: digits without a leading zero, at most 255. *)
Definition parse_octet (s : bytes) : option Z :=
  match s with
  | [] => None
  | b :: t =>
      if decide (b = "0"%char /\ t <> []) then None
      else
        v ← digits_value 0 s;
        if decide (v <= 255) then Some v else None
  end.

Definition parseIPv4Fields (s : bytes) : option (list Z) :=
  match split_on "."%char s with
  | [a; b; c; d] =>
      a ← parse_octet a; b ← parse_octet b; c ← parse_octet c; d ← parse_octet d;
      Some [a; b; c; d]
  | _ => None
  end.

Definition hex_digit (b : ascii) : option Z :=
  let c := code b in
  if in_range 48 57 c then Some (c - 48)
  else if in_range 97 102 c then Some (c - 87)
  else if in_range 65 70 c then Some (c - 55)
  else None.

(** The hex digits at the front, their value and the rest. *)
Fixpoint hex_group (acc : Z) (s : bytes) : nat * Z * bytes :=
  match s with
  | b :: t =>
      match hex_digit b with
      | Some d => let '(n, v, r) := hex_group (acc * 16 + d) t in (S n, v, r)
      | None => (0%nat, acc, s)
      end
  | [] => (0%nat, acc, [])
  end.

(** The loop of [parseIPv6]: the bytes parsed so far, where the ellipsis was
    seen, and the text left.  At most eight groups fit. *)
Fixpoint ipv6_groups (fuel : nat) (parsed : list Z) (ellipsis : option nat) (s : bytes)
    : option (list Z * option nat) :=
  match fuel with
  | O => match s with [] => Some (parsed, ellipsis) | _ => None end
  | S fuel =>
      let '(n, v, r) := hex_group 0 s in
      if decide (n = 0 \/ 4 < n)%nat then None
      else
        match r with
        | b :: t =>
            if decide (b = "."%char) then
              if decide ((ellipsis = None /\ length parsed <> 12)%nat \/ (12 < length parsed)%nat)
              then None
              else
                o ← parseIPv4Fields s;
                Some (parsed ++ o, ellipsis)
            else
              let parsed := parsed ++ [v / 256; v mod 256] in
              if decide (b = ":"%char) then
                match t with
                | [] => None
                | c :: u =>
                    if decide (c = ":"%char) then
                      match ellipsis, u with
                      | Some _, _ => None
                      | None, [] => Some (parsed, Some (length parsed))
                      | None, _ => ipv6_groups fuel parsed (Some (length parsed)) u
                      end
                    else ipv6_groups fuel parsed ellipsis t
                end
              else None
        | [] => Some (parsed ++ [v / 256; v mod 256], ellipsis)
        end
  end.

(** The zeros the ellipsis stands for. *)
Definition expand (parsed : list Z) (ellipsis : option nat) : option (list Z) :=
  if decide (length parsed < 16)%nat then
    k ← ellipsis;
    Some (take k parsed ++ replicate (16 - length parsed) 0 ++ drop k parsed)
  else match ellipsis with None => Some parsed | Some _ => None end.

(** The text up to the first [c], and after it if there is one. *)
Fixpoint cut_at (c : ascii) (s : bytes) : bytes * option bytes :=
  match s with
  | [] => ([], None)
  | b :: t =>
      if decide (b = c) then ([], Some t)
      else let '(u, r) := cut_at c t in (b :: u, r)
  end.

Definition parseIPv6 (s : bytes) : option Addr :=
  let '(s, z) := cut_at "%"%char s in
  zone ← (match z with
          | None => Some []
          | Some [] => None
          | Some z => Some z
          end);
  let finish parsed ellipsis :=
    o ← expand parsed ellipsis;
    Some (WithZone (AddrFrom16 o) (of_bytes zone)) in
  match s with
  | a :: b :: t =>
      if decide (a = ":"%char /\ b = ":"%char) then
        match t with
        | [] => finish [] (Some 0%nat)
        | _ => '(p, e) ← ipv6_groups 8 [] (Some 0%nat) t; finish p e
        end
      else '(p, e) ← ipv6_groups 8 [] None s; finish p e
  | _ => '(p, e) ← ipv6_groups 8 [] None s; finish p e
  end.

(** The first of [.], [:] and [%] decides the kind. *)
Fixpoint addr_kind (s : bytes) : option ascii :=
  match s with
  | [] => None
  | b :: t =>
      if decide (b = "."%char \/ b = ":"%char \/ b = "%"%char) then Some b else addr_kind t
  end.

Definition ParseAddr (s : string) : option Addr :=
  let s := to_bytes s in
  match addr_kind s with
  | Some b =>
      if decide (b = "."%char) then AddrFrom4 <$> parseIPv4Fields s
      else if decide (b = ":"%char) then parseIPv6 s
      else None
  | None => None
  end.

(** The text before and after the last slash. *)
Fixpoint cut_last (c : ascii) (s : bytes) : option (bytes * bytes) :=
  match s with
  | [] => None
  | b :: t =>
      match cut_last c t with
      | Some (u, r) => Some (b :: u, r)
      | None => if decide (b = c) then Some ([], t) else None
      end
  end.

Definition ParsePrefix (s : string) : option Prefix :=
  '(addr, bits) ← cut_last "/"%char (to_bytes s);
  a ← ParseAddr (of_bytes addr);
  if decide (Zone a <> EmptyString) then None
  else
    match bits with
    | b :: _ :: _ => if in_range 49 57 (code b) then Some tt else None
    | _ => Some tt
    end ≫= fun _ =>
    n ← Atoi bits;
    if decide (0 <= n <= BitLen a) then Some (PrefixFrom a n) else None.

(** ** Formatting *)

Fixpoint join (sep : ascii) (ws : list bytes) : bytes :=
  match ws with
  | [] => []
  | [w] => w
  | w :: ws' => w ++ sep :: join sep ws'
  end.

Definition string4 (o : list Z) : bytes := join "."%char (map FormatUint o).

(** The 16-bit groups of an IPv6 address. *)
Fixpoint groups (o : list Z) : list Z :=
  match o with
  | hi :: lo :: o' => hi * 256 + lo :: groups o'
  | _ => []
  end.

(** Hexadecimal without leading zeros. *)
Definition appendHex (g : Z) : bytes :=
  let d k := (g / 16 ^ k) mod 16 in
  let h x := byte (if x <? 10 then 48 + x else 87 + x) in
  if 4096 <=? g then [h (d 3); h (d 2); h (d 1); h (d 0)]
  else if 256 <=? g then [h (d 2); h (d 1); h (d 0)]
  else if 16 <=? g then [h (d 1); h (d 0)]
  else [h (d 0)].

(** How many zero groups there are at the front. *)
Fixpoint zero_run (gs : list Z) : nat :=
  match gs with
  | g :: gs' => if decide (g = 0) then S (zero_run gs') else O
  | [] => O
  end.

(** Start and length of the first longest run of at least two zero groups. *)
Fixpoint longest_run (i : nat) (gs : list Z) (best : option (nat * nat)) : option (nat * nat) :=
  match gs with
  | [] => best
  | _ :: gs' =>
      let l := zero_run gs in
      let better :=
        match best with None => true | Some (_, l') => bool_decide (l' < l)%nat end in
      longest_run (S i) gs' (if bool_decide (2 <= l)%nat && better then Some (i, l) else best)
  end.

Definition string6 (o : list Z) : bytes :=
  let gs := groups o in
  match longest_run 0 gs None with
  | None => join ":"%char (map appendHex gs)
  | Some (i, l) =>
      join ":"%char (map appendHex (take i gs)) ++ to_bytes "::"
      ++ join ":"%char (map appendHex (drop (i + l) gs))
  end.

Definition Is4In6 (o : list Z) : bool :=
  bool_decide (take 12 o = replicate 10 0 ++ [255; 255]).

Definition Addr_String (a : Addr) : string :=
  match a with
  | AddrInvalid => "invalid IP"
  | Addr4 o => of_bytes (string4 o)
  | Addr6 o z =>
      of_bytes
        ((if Is4In6 o then to_bytes "::ffff:" ++ string4 (drop 12 o) else string6 o)
         ++ (if decide (z = EmptyString) then [] else "%"%char :: to_bytes z))
  end.

(** ** Formatted IPv4 addresses are parsed back *)

Lemma FormatUint_octet n : fits 8 n -> parse_octet (FormatUint n) = Some n.
Proof.
  intros Hn. unfold fits in Hn. assert (fits 64 n) as H64 by (unfold fits; lia).
  destruct (FormatUint_numeral n H64) as [_ Hv (b & t & Hbt & Hb)].
  unfold parse_octet. rewrite Hbt in Hv |- *. rewrite decide_False by naive_solver.
  rewrite Hv. simpl. by rewrite decide_True by lia.
Qed.

Lemma FormatUint_plain n : Forall (fun b => is_digit b = true) (FormatUint n).
Proof. apply (numeral_digits (u64 n)), FormatUint_wrap. Qed.

Lemma digits_free c s : is_digit c = false -> Forall (fun b => is_digit b = true) s -> c ∉ s.
Proof. rewrite Forall_forall. intros Hc Hs Hin. apply Hs in Hin. congruence. Qed.

Lemma join_split c ws : ws <> [] -> Forall (fun w => c ∉ w) ws -> split_on c (join c ws) = ws.
Proof.
  intros Hne Hws. induction Hws as [|w ws Hw Hws IH]; [done|].
  destruct ws as [|w' ws]; [by apply split_on_word|].
  change (join c (w :: w' :: ws)) with (w ++ c :: join c (w' :: ws)).
  rewrite split_on_app by done. by rewrite IH.
Qed.

Lemma addr_kind_digits s t :
  Forall (fun b => is_digit b = true) s -> addr_kind (s ++ "."%char :: t) = Some "."%char.
Proof.
  induction 1 as [|b s Hb _ IH]; simpl; [done|].
  rewrite decide_False; [done|]. intros [-> | [-> | ->]]; vm_compute in Hb; discriminate.
Qed.

Lemma ParseAddr_String4 o :
  wf_addr (Addr4 o) -> ParseAddr (Addr_String (Addr4 o)) = Some (Addr4 o).
Proof.
  intros [Hlen Ho]. destruct o as [|a [|b [|c [|d [|]]]]]; try done.
  apply Forall_cons in Ho as [Ha Ho]. apply Forall_cons in Ho as [Hb Ho].
  apply Forall_cons in Ho as [Hc Ho]. apply Forall_cons in Ho as [Hd _].
  unfold ParseAddr, Addr_String. rewrite list_ascii_of_string_of_list_ascii.
  assert (addr_kind (string4 [a; b; c; d]) = Some "."%char) as ->.
  { apply addr_kind_digits, FormatUint_plain. }
  rewrite decide_True by done. unfold parseIPv4Fields, string4.
  rewrite join_split; [|done|].
  - cbn [map]. by rewrite !FormatUint_octet.
  - repeat constructor; apply digits_free; try done; apply FormatUint_plain.
Qed.
