(* ===== verification/NetText.v ===== *)
(** * Addresses in text and prefixes as sets (net, net/netip, strings)

    The functions of Go's standard library windev/routing.go uses: [TrimSpace],
    [Split], [net.SplitHostPort], [net.IP.To4], [Prefix.String], and which
    addresses a prefix contains. *)

From S2P Require Import Prelude GoStrings Utf8 Strconv Netip.
From Stdlib Require Import ZArith Ascii String Lia.
From stdpp Require Import base list strings.
Open Scope Z_scope.
Local Open Scope list_scope.

(** ** [strings.TrimSpace] *)

(** The code points [unicode.IsSpace] accepts. *)
Definition space_runes : list Z :=
  [0x09; 0x0A; 0x0B; 0x0C; 0x0D; 0x20; 0x85; 0xA0; 0x1680; 0x2000; 0x2001; 0x2002; 0x2003;
   0x2004; 0x2005; 0x2006; 0x2007; 0x2008; 0x2009; 0x200A; 0x2028; 0x2029; 0x202F; 0x205F; 0x3000].

(** Their UTF-8 encodings: the text starts (ends) with white space when it
    starts (ends) with one of them. *)
Definition spaces : list bytes := Eval vm_compute in map EncodeRune space_runes.

Fixpoint strip (w s : bytes) : option bytes :=
  match w, s with
  | [], _ => Some s
  | c :: w, b :: s => if decide (b = c) then strip w s else None
  | _ :: _, [] => None
  end.

(** The text after the first of the words [ws] it starts with. *)
Fixpoint strip_any (ws : list bytes) (s : bytes) : option bytes :=
  match ws with
  | [] => None
  | w :: ws => match strip w s with Some r => Some r | None => strip_any ws s end
  end.

Fixpoint strip_all (fuel : nat) (ws : list bytes) (s : bytes) : bytes :=
  match fuel with
  | O => s
  | S fuel => match strip_any ws s with Some r => strip_all fuel ws r | None => s end
  end.

(** No word is empty, so the length of the text is fuel enough. *)
Definition trim_front (ws : list bytes) (s : bytes) : bytes := strip_all (length s) ws s.

Definition trim_space (s : bytes) : bytes :=
  let s := trim_front spaces s in
  rev (trim_front (map (@rev ascii) spaces) (rev s)).

Definition TrimSpace (s : string) : string := of_bytes (trim_space (to_bytes s)).

(** [strings.Split(s, ",")] *)
Definition split_commas (s : string) : list string :=
  map of_bytes (split_on ","%char (to_bytes s)).

Lemma strip_app w s r : strip w s = Some r <-> s = w ++ r.
Proof.
  revert s. induction w as [|c w IH]; intros s; simpl.
  - split; [by intros [= ->]|by intros ->].
  - destruct s as [|b s]; [by split|]. case_decide as Hb.
    + subst. rewrite IH. split; [by intros ->|by intros [= ->]].
    + split; [done|]. intros [= -> _]. done.
Qed.

Lemma strip_any_some ws s r : strip_any ws s = Some r -> exists w, w ∈ ws /\ s = w ++ r.
Proof.
  induction ws as [|w ws IH]; simpl; [done|]. destruct (strip w s) as [r'|] eqn:Hw.
  - intros [= <-]. apply strip_app in Hw. exists w. split; [apply list_elem_of_here|done].
  - intros Hr. destruct (IH Hr) as (w' & Hin & ->). exists w'.
    split; [by apply list_elem_of_further|done].
Qed.

Lemma strip_any_none ws s w r : strip_any ws s = None -> w ∈ ws -> s <> w ++ r.
Proof.
  intros Hn Hin ->. induction Hin as [w ws|w v ws Hin IH]; simpl in Hn.
  - by rewrite (proj2 (strip_app w (w ++ r) r) eq_refl) in Hn.
  - destruct (strip v (w ++ r)); [done|]. by apply IH.
Qed.

(** Words of at least one byte: the fuel is enough. *)
Lemma strip_all_done fuel ws s :
  Forall (fun w => w <> []) ws -> (length s <= fuel)%nat -> strip_any ws (strip_all fuel ws s) = None.
Proof.
  intros Hws. revert s. induction fuel as [|fuel IH]; intros s Hl; simpl.
  - destruct s; [|simpl in Hl; lia]. destruct (strip_any ws []) as [r|] eqn:Hs; [|done].
    apply strip_any_some in Hs as (w & Hin & Hs). rewrite Forall_forall in Hws.
    apply Hws in Hin. by destruct w.
  - destruct (strip_any ws s) as [r|] eqn:Hs; [|done]. apply IH.
    apply strip_any_some in Hs as (w & Hin & ->). rewrite Forall_forall in Hws.
    apply Hws in Hin. rewrite length_app in Hl. destruct w; [done|]. simpl in Hl. lia.
Qed.

(** A trimmed text neither starts nor ends with white space. *)
Lemma trim_space_back s w u : w ∈ spaces -> trim_space s <> u ++ w.
Proof.
  intros Hin Ht. unfold trim_space in Ht. apply (f_equal (@rev ascii)) in Ht.
  rewrite rev_involutive, rev_app_distr in Ht.
  eapply (strip_any_none (map (@rev ascii) spaces)); [|by apply list_elem_of_fmap_2, Hin|exact Ht].
  apply strip_all_done; [|done]. unfold spaces. by repeat constructor.
Qed.

(** A text without white space at its ends is left alone. *)
Lemma trim_space_id s :
  strip_any spaces s = None -> strip_any (map (@rev ascii) spaces) (rev s) = None ->
  trim_space s = s.
Proof.
  intros Hf Hb. unfold trim_space, trim_front.
  assert (forall n ws t, strip_any ws t = None -> strip_all n ws t = t) as Hid
    by (by intros [|n] ws t Hn; simpl; rewrite ?Hn).
  by rewrite (Hid _ _ s Hf), (Hid _ _ _ Hb), rev_involutive.
Qed.

(** ** [net.SplitHostPort] *)

(** Host and port; [None] is an error. *)
Definition SplitHostPort (hostport : bytes) : option (bytes * bytes) :=
  '(before, port) ← cut_last ":"%char hostport;
  match hostport with
  | "["%char :: t =>
      '(host, rest) ← (match cut_at "]"%char t with (h, Some r) => Some (h, r) | _ => None end);
      if decide (rest = ":"%char :: port /\ "["%char ∉ t /\ "]"%char ∉ rest)
      then Some (host, port) else None
  | _ =>
      if decide (":"%char ∉ before /\ "["%char ∉ hostport /\ "]"%char ∉ hostport)
      then Some (before, port) else None
  end.

(** [net.IP.To4] *)
Definition To4 (ip : list Z) : option (list Z) :=
  if decide (length ip = 4%nat) then Some ip
  else if decide (length ip = 16%nat /\ take 12 ip = replicate 10 0 ++ [255; 255])
  then Some (drop 12 ip) else None.

(** ** Prefixes *)

Definition Prefix_String (p : Prefix) : string :=
  if Prefix_IsValid p
  then of_bytes (to_bytes (Addr_String (ip p)) ++ "/"%char :: FormatInt (Bits p))
  else "invalid Prefix".

(** Big-endian value of octets. *)
Fixpoint be_value (acc : Z) (o : list Z) : Z :=
  match o with
  | [] => acc
  | b :: o => be_value (acc * 256 + b) o
  end.

(** The first [bits] bits are equal: [Prefix.Contains], which is how routes
    match too. *)
Definition Contains (p : Prefix) (a : Addr) : bool :=
  Prefix_IsValid p &&
  match ip p, a with
  | Addr4 q, Addr4 d =>
      be_value 0 q / 2 ^ (32 - Bits p) =? be_value 0 d / 2 ^ (32 - Bits p)
  | Addr6 q _, Addr6 d EmptyString =>
      be_value 0 q / 2 ^ (128 - Bits p) =? be_value 0 d / 2 ^ (128 - Bits p)
  | _, _ => false
  end.

Definition zero_octets : list Z := [0; 0; 0; 0].

Lemma be_value4 a b c d :
  be_value 0 [a; b; c; d] = ((a * 256 + b) * 256 + c) * 256 + d.
Proof. reflexivity. Qed.

Lemma be_value4_fits o : length o = 4%nat -> Forall (fits 8) o -> fits 32 (be_value 0 o).
Proof.
  intros Hl Hf. destruct o as [|a [|b [|c [|d [|]]]]]; try done.
  repeat (apply Forall_cons in Hf as [? Hf]). unfold fits in *. rewrite be_value4.
  change (2 ^ 8) with 256 in *. change (2 ^ 32) with 4294967296. lia.
Qed.

Lemma Contains_v4 p q d : ip p = Addr4 q -> Contains p d = true -> exists o, d = Addr4 o.
Proof.
  intros Hip Hc. unfold Contains in Hc. apply andb_prop in Hc as [_ Hc]. rewrite Hip in Hc.
  destruct d; [done|by eexists|done].
Qed.

(** Everything of the family is in a prefix of no bits. *)
Lemma Contains_default p q d :
  ip p = Addr4 q -> Bits p = 0 -> wf_addr (Addr4 q) -> wf_addr (Addr4 d) ->
  Contains p (Addr4 d) = true.
Proof.
  intros Hip Hb [Hq Hqf] [Hd Hdf]. unfold Contains, Prefix_IsValid, Bits in *. rewrite Hip.
  rewrite bool_decide_true by lia. rewrite Hb. apply Z.eqb_eq.
  apply be_value4_fits in Hqf; [|done]. apply be_value4_fits in Hdf; [|done].
  unfold fits in *. rewrite !Z.div_small by (simpl in *; lia). done.
Qed.

(** A prefix of all bits is one address. *)
Lemma Contains_host q d :
  wf_addr (Addr4 q) -> wf_addr (Addr4 d) ->
  Contains (PrefixFrom (Addr4 q) 32) (Addr4 d) = true -> q = d.
Proof.
  intros [Hq Hqf] [Hd Hdf] Hc. unfold Contains in Hc. apply andb_prop in Hc as [_ Hc].
  apply Z.eqb_eq in Hc. change (2 ^ (32 - Bits (PrefixFrom (Addr4 q) 32))) with 1 in Hc.
  rewrite !Z.div_1_r in Hc. cbn [ip PrefixFrom WithZone] in Hc.
  destruct q as [|a [|b [|c [|e [|]]]]]; try done. destruct d as [|a' [|b' [|c' [|e' [|]]]]]; try done.
  repeat (apply Forall_cons in Hqf as [? Hqf]). repeat (apply Forall_cons in Hdf as [? Hdf]).
  rewrite !be_value4 in Hc. unfold fits in *. change (2 ^ 8) with 256 in *.
  assert (a = a' /\ b = b' /\ c = c' /\ e = e') by lia. naive_solver.
Qed.

(** A parsed prefix has an address and a length of its family. *)
Lemma finish_v6 (r : option (list Z * option nat)) (z : string) a :
  ('(p, e) ← r; o ← expand p e; Some (WithZone (AddrFrom16 o) z)) = Some a ->
  exists o, a = Addr6 o z.
Proof.
  destruct r as [[p e]|]; [|done]. simpl. destruct (expand p e) as [o|]; [|done].
  intros [= <-]. by exists o.
Qed.

Lemma parseIPv6_v6 s a : parseIPv6 s = Some a -> exists o z, a = Addr6 o z.
Proof.
  unfold parseIPv6. destruct (cut_at _ _) as [u z].
  destruct (match z with None => _ | Some _ => _ end) as [zone|]; [|done]. simpl.
  assert (forall r, ('(p, e) ← r; o ← expand p e; Some (WithZone (AddrFrom16 o) (of_bytes zone)))
                    = Some a -> exists o z, a = Addr6 o z) as Hr
    by (intros r Hf; apply finish_v6 in Hf as [o ->]; eauto).
  destruct u as [|b [|c t]]; [apply Hr..|].
  destruct (decide _); [|apply Hr].
  destruct t as [|d t]; [|apply Hr]. intros [= <-]. eauto.
Qed.

Lemma ParseAddr_valid s a : ParseAddr s = Some a -> IsValid a = true.
Proof.
  unfold ParseAddr. destruct (addr_kind _) as [b|]; [|done].
  destruct (decide _); [|destruct (decide _); [|done]].
  - destruct (parseIPv4Fields _); [by intros [= <-]|done].
  - intros Hp. by apply parseIPv6_v6 in Hp as (o & z' & ->).
Qed.

Lemma ParsePrefix_valid s p :
  ParsePrefix s = Some p -> IsValid (ip p) = true /\ 0 <= Bits p <= BitLen (ip p).
Proof.
  unfold ParsePrefix. intros Hp.
  destruct (cut_last _ _) as [[u bits]|]; [|done]. simpl in Hp.
  destruct (ParseAddr _) as [a|] eqn:Ha; [|done]. simpl in Hp. apply ParseAddr_valid in Ha.
  case_decide; [done|].
  destruct (match bits with [] => _ | _ => _ end) as [[]|]; [|done]. simpl in Hp.
  destruct (Atoi bits) as [n|]; [|done]. simpl in Hp.
  destruct (decide (0 <= n <= BitLen a)) as [Hn|]; [|done]. injection Hp as <-.
  unfold Bits. rewrite PrefixFrom_bits, decide_True by done.
  destruct a; simpl in *; by rewrite ?Z.add_simpl_r.
Qed.

Lemma parse_octet_fits s v : parse_octet s = Some v -> fits 8 v.
Proof.
  destruct s as [|b t]; [done|]. unfold parse_octet. case_decide; [done|].
  destruct (digits_value 0 (b :: t)) as [x|] eqn:Hv; [|done].
  apply digits_value_nonneg in Hv; [|done]. simpl. destruct (decide (x <= 255)); [|done].
  intros [= <-]. unfold fits. change (2 ^ 8) with 256. lia.
Qed.

Lemma parseIPv4Fields_wf s o : parseIPv4Fields s = Some o -> wf_addr (Addr4 o).
Proof.
  unfold parseIPv4Fields. destruct (split_on _ s) as [|a [|b [|c [|d [|]]]]]; try done.
  destruct (parse_octet a) as [a'|] eqn:Ha; [|done].
  destruct (parse_octet b) as [b'|] eqn:Hb; [|done].
  destruct (parse_octet c) as [c'|] eqn:Hc; [|done].
  destruct (parse_octet d) as [d'|] eqn:Hd; [|done]. intros [= <-].
  split; [done|]. repeat constructor; eapply parse_octet_fits; eassumption.
Qed.

Lemma ParseAddr_wf4 s o : ParseAddr s = Some (Addr4 o) -> wf_addr (Addr4 o).
Proof.
  unfold ParseAddr. destruct (addr_kind _) as [b|]; [|done].
  destruct (decide _); [|destruct (decide _); [|done]].
  - destruct (parseIPv4Fields _) as [o'|] eqn:Ho; [|done]. intros [= <-].
    by eapply parseIPv4Fields_wf.
  - intros Hp. by apply parseIPv6_v6 in Hp as (o' & z' & ?).
Qed.

Lemma ParsePrefix_wf4 s p o : ParsePrefix s = Some p -> ip p = Addr4 o -> wf_addr (Addr4 o).
Proof.
  unfold ParsePrefix. intros Hp Ho.
  destruct (cut_last _ _) as [[u bits]|]; [|done]. simpl in Hp.
  destruct (ParseAddr _) as [a|] eqn:Ha; [|done]. simpl in Hp.
  case_decide; [done|].
  destruct (match bits with [] => _ | _ => _ end) as [[]|]; [|done]. simpl in Hp.
  destruct (Atoi bits) as [n|]; [|done]. simpl in Hp.
  destruct (decide (0 <= n <= BitLen a)) as [Hn|]; [|done]. injection Hp as <-.
  destruct a as [|q|q z]; simpl in Ho; try done. injection Ho as ->. by eapply ParseAddr_wf4.
Qed.

(** The two halves of the address space. *)
Lemma Contains_halves d :
  wf_addr (Addr4 d) ->
  Contains (PrefixFrom IPv4Unspecified 1) (Addr4 d) = true \/
  Contains (PrefixFrom (AddrFrom4 [128; 0; 0; 0]) 1) (Addr4 d) = true.
Proof.
  intros [Hd Hf]. apply be_value4_fits in Hf; [|done]. unfold fits in Hf.
  unfold Contains. cbn [ip PrefixFrom WithZone AddrFrom4 IPv4Unspecified].
  change (2 ^ (32 - _)) with 2147483648.
  change (2 ^ 32) with 4294967296 in Hf.
  destruct (decide (be_value 0 d < 2147483648)).
  - left. apply Z.eqb_eq. change (be_value 0 [0; 0; 0; 0]) with 0.
    rewrite !Z.div_small by lia. done.
  - right. apply Z.eqb_eq. change (be_value 0 [128; 0; 0; 0]) with 2147483648.
    change (2147483648 / 2147483648) with 1.
    apply Z.div_unique with (be_value 0 d - 2147483648); lia.
Qed.
