(* ===== verification/Sockaddr.v ===== *)
(** * Socket addresses (winipcfg/types.go, RawSockaddrInet and IPAddressPrefix)

    The union of an IPv4 and an IPv6 socket address as the 26 bytes after its
    family, read and written through the two layouts, on a little-endian
    machine; and that setting and getting an address, a port or a prefix are
    inverse whatever the union held before. *)

From S2P Require Import Prelude GoStrings Utf8 Strconv Netip.
From Stdlib Require Import ZArith Ascii String Lia.
From stdpp Require Import base list strings.
Open Scope Z_scope.

Definition AF_UNSPEC : Z := 0.
Definition AF_INET : Z := 2.
Definition AF_INET6 : Z := 23.

(** [windows.ERROR_INVALID_PARAMETER] *)
Definition ERROR_INVALID_PARAMETER : error := Errno 87.

(** ** Memory *)

(** The [n] bytes of an integer, least significant first. *)
Fixpoint le_bytes (n : nat) (x : Z) : list Z :=
  match n with
  | O => []
  | S n => x mod 256 :: le_bytes n (x / 256)
  end.

Fixpoint le_value (bs : list Z) : Z :=
  match bs with
  | [] => 0
  | b :: bs' => b + 256 * le_value bs'
  end.

Lemma length_le_bytes n x : length (le_bytes n x) = n.
Proof. revert x. induction n as [|n IH]; intros x; simpl; [done|]. by rewrite IH. Qed.

Lemma le_value_bytes n x : fits (8 * Z.of_nat n) x -> le_value (le_bytes n x) = x.
Proof.
  revert x. induction n as [|n IH]; intros x Hx; unfold fits in *.
  - simpl in *. lia.
  - cbn [le_bytes le_value].
    replace (8 * Z.of_nat (S n)) with (8 + 8 * Z.of_nat n) in Hx by lia.
    rewrite Z.pow_add_r in Hx by lia. rewrite IH; [zlia|].
    change (2 ^ 8) with 256 in Hx. split; [zlia|].
    apply Z.div_lt_upper_bound; lia.
Qed.

Lemma le_bytes_value bs : Forall (fits 8) bs -> le_bytes (length bs) (le_value bs) = bs.
Proof.
  induction 1 as [|b bs Hb _ IH]; [done|]. unfold fits in Hb. cbn [length le_bytes le_value].
  replace ((b + 256 * le_value bs) mod 256) with b by zlia.
  replace ((b + 256 * le_value bs) / 256) with (le_value bs) by zlia. by rewrite IH.
Qed.

Lemma le_bytes_fits n x : Forall (fits 8) (le_bytes n x).
Proof.
  revert x. induction n as [|n IH]; intros x; constructor; [|apply IH].
  apply Z.mod_pos_bound. lia.
Qed.

(** Bytes of an array written and read at an offset. *)
Definition put {A} (off : nat) (bs d : list A) : list A :=
  take off d ++ bs ++ drop (off + length bs) d.

Definition get {A} (off n : nat) (d : list A) : list A := take n (drop off d).

Lemma length_put {A} off (bs d : list A) :
  (off + length bs <= length d)%nat -> length (put off bs d) = length d.
Proof. intros H. unfold put. rewrite !length_app, length_take, length_drop. lia. Qed.

Lemma get_put {A} off (bs d : list A) n :
  n = length bs -> (off + length bs <= length d)%nat -> get off n (put off bs d) = bs.
Proof.
  intros -> H. unfold get, put. rewrite drop_app_length' by (rewrite length_take; lia).
  by rewrite take_app_length.
Qed.

(** Writing elsewhere does not change what is read. *)
Lemma get_put_other {A} off off' n (bs d : list A) :
  (off + length bs <= length d)%nat ->
  (off' + n <= off)%nat \/ (off + length bs <= off')%nat ->
  get off' n (put off bs d) = get off' n d.
Proof.
  intros H Hd. apply list_eq. intros i. unfold get, put.
  destruct (decide (i < n)%nat); [|rewrite !lookup_take_ge by lia; done].
  rewrite !lookup_take_lt, !lookup_drop by lia. destruct Hd as [Hd|Hd].
  - rewrite lookup_app_l by (rewrite length_take; lia). by rewrite lookup_take_lt by lia.
  - rewrite lookup_app_r by (rewrite length_take; lia).
    rewrite lookup_app_r by (rewrite length_take; lia).
    rewrite lookup_drop, length_take. f_equal. lia.
Qed.

Lemma put_fits off bs d :
  Forall (fits 8) bs -> Forall (fits 8) d -> Forall (fits 8) (put off bs d).
Proof.
  intros Hb Hd. unfold put. apply Forall_app. split; [by apply Forall_take|].
  apply Forall_app. split; [done|by apply Forall_drop].
Qed.

(** ** The union *)

Record RawSockaddrInet : Type := mkSockaddr {
  Family : Z;        (* uint16 *)
  data : list Z;     (* [26]byte *)
}.

#[export] Instance RawSockaddrInet_eq_dec : EqDecision RawSockaddrInet.
Proof. solve_decision. Defined.

Definition wf_sockaddr (r : RawSockaddrInet) : Prop :=
  fits 16 (Family r) /\ length (data r) = 26%nat /\ Forall (fits 8) (data r).

Definition zero_Sockaddr : RawSockaddrInet := mkSockaddr 0 (replicate 26 0).

(** Most significant byte first, reinterpreted as the machine's uint16. *)
Definition ntohs (i : Z) : Z := le_value (rev (le_bytes 2 i)).
Definition htons (i : Z) : Z := le_value (rev (le_bytes 2 i)).

(** Offsets into [data] of the fields of the two layouts. *)
Definition off_port : nat := 0.
Definition off_addr4 : nat := 2.
Definition off_zero4 : nat := 6.
Definition off_flowinfo : nat := 2.
Definition off_addr6 : nat := 6.
Definition off_scope : nat := 22.

Definition set_u (n off : nat) (x : Z) (d : list Z) : list Z := put off (le_bytes n x) d.
Definition get_u (n off : nat) (d : list Z) : Z := le_value (get off n d).

(** [netip.AddrPort] *)
Record AddrPort : Type := mkAddrPort { ap_addr : Addr; ap_port : Z }.

(** The numeric zone, if it is one; else 0. *)
Definition scope_of (zone : string) : Z :=
  if decide (zone = EmptyString) then 0
  else default 0 (ParseUint 32 (to_bytes zone)).

Definition SetAddrPort (addrPort : AddrPort) (r : RawSockaddrInet)
    : RawSockaddrInet * option error :=
  match ap_addr addrPort with
  | Addr4 o =>
      let d := data r in
      let d := put off_addr4 o d in
      let d := set_u 2 off_port (htons (ap_port addrPort)) d in
      let d := put off_zero4 (replicate 8 0) d in
      (mkSockaddr AF_INET d, None)
  | Addr6 o zone =>
      let d := data r in
      let d := put off_addr6 o d in
      let d := set_u 2 off_port (htons (ap_port addrPort)) d in
      let d := set_u 4 off_flowinfo 0 d in
      let d := set_u 4 off_scope (scope_of zone) d in
      (mkSockaddr AF_INET6 d, None)
  | AddrInvalid => (r, Some ERROR_INVALID_PARAMETER)
  end.

Definition SetAddr (a : Addr) (r : RawSockaddrInet) : RawSockaddrInet * option error :=
  SetAddrPort (mkAddrPort a 0) r.

Definition Sockaddr_Addr (r : RawSockaddrInet) : Addr :=
  if decide (Family r = AF_INET) then AddrFrom4 (get off_addr4 4 (data r))
  else if decide (Family r = AF_INET6) then
    let a := AddrFrom16 (get off_addr6 16 (data r)) in
    let scope := get_u 4 off_scope (data r) in
    if decide (scope <> 0) then WithZone a (of_bytes (FormatUint scope)) else a
  else AddrInvalid.

Definition Sockaddr_Port (r : RawSockaddrInet) : Z :=
  if decide (Family r = AF_INET) then ntohs (get_u 2 off_port (data r))
  else if decide (Family r = AF_INET6) then ntohs (get_u 2 off_port (data r))
  else 0.

Definition Sockaddr_AddrPort (r : RawSockaddrInet) : AddrPort :=
  mkAddrPort (Sockaddr_Addr r) (Sockaddr_Port r).

(** ** Prefixes of rows *)

Record IPAddressPrefix : Type := mkIPPrefix {
  RawPrefix : RawSockaddrInet;
  PrefixLength : Z;   (* uint8 *)
}.

#[export] Instance IPAddressPrefix_eq_dec : EqDecision IPAddressPrefix.
Proof. solve_decision. Defined.

Definition zero_IPPrefix : IPAddressPrefix := mkIPPrefix zero_Sockaddr 0.

Definition SetPrefix (netPrefix : Prefix) (p : IPAddressPrefix)
    : IPAddressPrefix * option error :=
  let '(raw, err) := SetAddr (Prefix_Addr netPrefix) (RawPrefix p) in
  match err with
  | Some e => (mkIPPrefix raw (PrefixLength p), Some e)
  | None => (mkIPPrefix raw (u8 (Bits netPrefix)), None)
  end.

Definition IPPrefix_Prefix (p : IPAddressPrefix) : Prefix :=
  let raw := RawPrefix p in
  if decide (Family raw = AF_INET) then
    PrefixFrom (AddrFrom4 (get off_addr4 4 (data raw))) (PrefixLength p)
  else if decide (Family raw = AF_INET6) then
    PrefixFrom (AddrFrom16 (get off_addr6 16 (data raw))) (PrefixLength p)
  else zero_Prefix.

(** ** Reading back what was set *)

Lemma htons_bytes p : fits 16 p -> le_bytes 2 (htons p) = [p / 256; p mod 256].
Proof.
  intros Hp. unfold htons, fits in *. simpl.
  assert (0 <= p / 256 < 256) by (change (2 ^ 16) with 65536 in Hp; zlia).
  f_equal; [zlia|]. f_equal. zlia.
Qed.

Lemma htons_fits p : fits 16 p -> fits 16 (htons p).
Proof.
  unfold htons, fits. simpl. change (2 ^ 16) with 65536. intros Hp. zlia.
Qed.

Lemma ntohs_htons p : fits 16 p -> ntohs (htons p) = p.
Proof.
  intros Hp. unfold ntohs. rewrite htons_bytes by done. unfold fits in Hp.
  change (2 ^ 16) with 65536 in Hp. simpl. zlia.
Qed.

Lemma get_u_set n off x d :
  (off + n <= length d)%nat -> fits (8 * Z.of_nat n) x -> get_u n off (set_u n off x d) = x.
Proof.
  intros Hd Hx. unfold get_u, set_u. rewrite get_put by (rewrite ?length_le_bytes; lia).
  by apply le_value_bytes.
Qed.

Lemma length_set_u n off x d : (off + n <= length d)%nat -> length (set_u n off x d) = length d.
Proof. intros Hd. apply length_put. by rewrite length_le_bytes. Qed.

Lemma get_set_u_other n off x off' k d :
  (off + n <= length d)%nat -> (off' + k <= off)%nat \/ (off + n <= off')%nat ->
  get off' k (set_u n off x d) = get off' k d.
Proof. intros Hd Ho. apply get_put_other; by rewrite length_le_bytes. Qed.

(** The numeric zone as [Addr] writes it. *)
Definition canonical_zone (zone : string) : string :=
  if decide (scope_of zone <> 0) then of_bytes (FormatUint (scope_of zone)) else EmptyString.

(** The port as it is read from its two bytes. *)
Lemma port_read p d :
  fits 16 p -> get off_port 2 d = le_bytes 2 (htons p) -> ntohs (get_u 2 off_port d) = p.
Proof.
  intros Hp Hd. unfold get_u. rewrite Hd, le_value_bytes by (by apply htons_fits).
  by apply ntohs_htons.
Qed.

Lemma scope_of_fits zone : fits 32 (scope_of zone).
Proof.
  unfold scope_of. case_decide; [unfold fits; lia|]. unfold ParseUint.
  case_decide; [simpl; unfold fits; lia|].
  destruct (digits_value 0 _) as [v|] eqn:Hv; simpl; [|unfold fits; lia].
  apply digits_value_nonneg in Hv; [|done]. case_decide; simpl; unfold fits; lia.
Qed.

(** A zone that is a number in its shortest form is its own canonical form. *)
Lemma canonical_zone_number n :
  fits 32 n -> n <> 0 -> canonical_zone (of_bytes (FormatUint n)) = of_bytes (FormatUint n).
Proof.
  intros Hn H0. assert (scope_of (of_bytes (FormatUint n)) = n) as Hs.
  { unfold scope_of. rewrite list_ascii_of_string_of_list_ascii.
    rewrite ParseUint_FormatUint by (done || lia). simpl.
    assert (fits 64 n) as H64 by (unfold fits in *; lia).
    destruct (numeral_head _ _ (FormatUint_numeral n H64)) as (b & t & -> & _).
    by rewrite decide_False. }
  unfold canonical_zone. by rewrite Hs, decide_True.
Qed.

Lemma set4_fields o p d :
  length o = 4%nat -> length d = 26%nat -> fits 16 p ->
  let d' := put off_zero4 (replicate 8 0) (set_u 2 off_port (htons p) (put off_addr4 o d)) in
  get off_addr4 4 d' = o /\ get off_port 2 d' = le_bytes 2 (htons p) /\ length d' = 26%nat /\
  get off_zero4 8 d' = replicate 8 0 /\ get 14 12 d' = get 14 12 d.
Proof.
  intros Ho Hd Hp d'. unfold d', off_zero4, off_port, off_addr4.
  assert (length (put 2 o d) = 26%nat) as H1 by (rewrite length_put; lia).
  assert (length (set_u 2 0 (htons p) (put 2 o d)) = 26%nat) as H2
    by (rewrite length_set_u; lia).
  split_and!.
  - rewrite get_put_other by (rewrite ?length_replicate; lia). rewrite get_set_u_other by lia.
    by rewrite get_put by lia.
  - rewrite get_put_other by (rewrite ?length_replicate; lia).
    unfold set_u. by rewrite get_put by (rewrite ?length_le_bytes; lia).
  - rewrite length_put; rewrite ?length_replicate; lia.
  - rewrite get_put; [done|by rewrite length_replicate|rewrite length_replicate; lia].
  - rewrite get_put_other by (rewrite ?length_replicate; lia). rewrite get_set_u_other by lia.
    by rewrite get_put_other by lia.
Qed.

Lemma set6_fields o p s d :
  length o = 16%nat -> length d = 26%nat -> fits 16 p -> fits 32 s ->
  let d' := set_u 4 off_scope s
              (set_u 4 off_flowinfo 0 (set_u 2 off_port (htons p) (put off_addr6 o d))) in
  get off_addr6 16 d' = o /\ get off_port 2 d' = le_bytes 2 (htons p) /\ get_u 4 off_scope d' = s /\
  get_u 4 off_flowinfo d' = 0 /\ length d' = 26%nat.
Proof.
  intros Ho Hd Hp Hs d'. unfold d', off_scope, off_port, off_addr6, off_flowinfo.
  assert (length (put 6 o d) = 26%nat) as H1 by (rewrite length_put; lia).
  assert (length (set_u 2 0 (htons p) (put 6 o d)) = 26%nat) as H2
    by (rewrite length_set_u; lia).
  assert (length (set_u 4 2 0 (set_u 2 0 (htons p) (put 6 o d))) = 26%nat) as H3
    by (rewrite length_set_u; lia).
  split_and!.
  - rewrite !get_set_u_other by lia. by rewrite get_put by lia.
  - rewrite !get_set_u_other by lia. unfold set_u at 1.
    by rewrite get_put by (rewrite ?length_le_bytes; lia).
  - by apply get_u_set; [lia|].
  - unfold get_u. rewrite get_set_u_other by lia. by apply (get_u_set 4 2); [lia|].
  - rewrite length_set_u; lia.
Qed.

Lemma SetAddrPort_shape a p r :
  wf_addr a -> IsValid a = true -> fits 16 p -> length (data r) = 26%nat ->
  (SetAddrPort (mkAddrPort a p) r).2 = None /\
  length (data (SetAddrPort (mkAddrPort a p) r).1) = 26%nat.
Proof.
  intros Ha Hv Hp Hd. destruct a as [|o|o z]; [done|..]; destruct Ha as [Ho Hf].
  - split; [done|]. apply (set4_fields o p (data r) Ho Hd Hp).
  - split; [done|]. apply (set6_fields o p (scope_of z) (data r) Ho Hd Hp (scope_of_fits z)).
Qed.

Lemma sockaddr_refused_fact a r :
  (SetAddr a r).2 = if IsValid a then None else Some ERROR_INVALID_PARAMETER.
Proof. by destruct a. Qed.

(** Setting and reading back, for clients. *)
Lemma AddrPort_set (a : Addr) (p : Z) (r : RawSockaddrInet) :
  wf_addr a -> IsValid a = true -> fits 16 p -> length (data r) = 26%nat ->
  let '(r', err) := SetAddrPort (mkAddrPort a p) r in
  err = None /\ Sockaddr_AddrPort r' = mkAddrPort (WithZone a (canonical_zone (Zone a))) p.
Proof.
  intros Ha Hv Hp Hd. destruct a as [|o|o z]; [done|..]; destruct Ha as [Ho Hf];
    cbn [SetAddrPort ap_addr ap_port WithZone Zone].
  - split; [done|].
    destruct (set4_fields o p (data r) Ho Hd Hp) as (Hg & Hport & _).
    unfold Sockaddr_AddrPort, Sockaddr_Addr, Sockaddr_Port. cbn [Family data].
    rewrite !decide_True by done. by rewrite Hg, (port_read p).
  - split; [done|].
    destruct (set6_fields o p (scope_of z) (data r) Ho Hd Hp (scope_of_fits z))
      as (Hg & Hport & Hs & _).
    unfold Sockaddr_AddrPort, Sockaddr_Addr, Sockaddr_Port. cbn [Family data].
    rewrite !(decide_False (P := AF_INET6 = AF_INET)), !decide_True by done.
    rewrite Hg, Hs, (port_read p) by done. f_equal.
    unfold canonical_zone. by case_decide.
Qed.

Lemma Sockaddr_set (a : Addr) (r : RawSockaddrInet) :
  wf_addr a -> IsValid a = true -> length (data r) = 26%nat ->
  Sockaddr_Addr (SetAddr a r).1 = WithZone a (canonical_zone (Zone a)).
Proof.
  intros Ha Hv Hd. pose proof (AddrPort_set a 0 r Ha Hv ltac:(done) Hd) as Hs.
  unfold SetAddr. destruct (SetAddrPort _ _) as [r' err]. destruct Hs as [_ Hs].
  exact (f_equal ap_addr Hs).
Qed.

(** C37: setting a socket address to a valid IPv4 or IPv6 address and port and
    reading it back gives the same address and port, whatever the union held
    before: an IPv6 zone comes back as its number in canonical form, and a zone
    that is no 32-bit number, or 0, is dropped. *)
Theorem sockaddr_roundtrip (a : Addr) (p : Z) (r : RawSockaddrInet) :
  wf_addr a -> IsValid a = true -> fits 16 p -> length (data r) = 26%nat ->
  let '(r', err) := SetAddrPort (mkAddrPort a p) r in
  err = None /\ Sockaddr_AddrPort r' = mkAddrPort (WithZone a (canonical_zone (Zone a))) p.
Proof. apply AddrPort_set. Qed.

(** In memory the port is in network byte order: its most significant byte
    comes first, for both families. *)
Theorem port_network_order (a : Addr) (p : Z) (r : RawSockaddrInet) :
  wf_addr a -> IsValid a = true -> fits 16 p -> length (data r) = 26%nat ->
  get off_port 2 (data (SetAddrPort (mkAddrPort a p) r).1) = [p / 256; p mod 256].
Proof.
  intros Ha Hv Hp Hd. rewrite <- htons_bytes by done.
  destruct a as [|o|o z]; [done|..]; destruct Ha as [Ho Hf].
  - by destruct (set4_fields o p (data r) Ho Hd Hp) as (_ & Hport & _).
  - by destruct (set6_fields o p (scope_of z) (data r) Ho Hd Hp (scope_of_fits z))
      as (_ & Hport & _).
Qed.

(** An address that is neither IPv4 nor IPv6 is refused with
    ERROR_INVALID_PARAMETER and leaves the union as it was; only such an address
    is. *)
Theorem sockaddr_refused (a : Addr) (p : Z) (r : RawSockaddrInet) :
  (SetAddrPort (mkAddrPort a p) r).2 =
    (if IsValid a then None else Some ERROR_INVALID_PARAMETER) /\
  (IsValid a = false -> (SetAddrPort (mkAddrPort a p) r).1 = r).
Proof. by destruct a. Qed.

Lemma SetPrefix_get (q : Prefix) (p : IPAddressPrefix) :
  wf_prefix q -> IsValid (ip q) = true -> length (data (RawPrefix p)) = 26%nat ->
  let '(p', err) := SetPrefix q p in err = None /\ IPPrefix_Prefix p' = q.
Proof.
  intros (Ha & Hz & Hb) Hv Hd. rewrite Hv in Hb. unfold SetPrefix, SetAddr, Prefix_Addr.
  pose proof (sockaddr_refused_fact (ip q) (RawPrefix p)) as Hr. rewrite Hv in Hr.
  unfold SetAddr in Hr.
  destruct (SetAddrPort _ _) as [raw err] eqn:Hset. simpl in Hr. subst err.
  split; [done|]. unfold IPPrefix_Prefix. cbn [RawPrefix PrefixLength].
  assert (u8 (Bits q) = if decide (bitsPlusOne q = 0) then 255 else Bits q) as Hu.
  { unfold Bits. case_decide as H0; [by rewrite H0|]. apply wrap_small. unfold fits.
    pose proof (BitLen_le (ip q)). lia. }
  assert (forall a, ip q = WithZone a EmptyString -> IsValid a = true -> BitLen a = BitLen (ip q) ->
            PrefixFrom a (u8 (Bits q)) = q) as Hfrom.
  { intros a Hip Hva Hlen. destruct q as [qa qb]. cbn [ip bitsPlusOne] in *. subst qa.
    pose proof (PrefixFrom_bits a (u8 (Bits (mkPrefix (WithZone a EmptyString) qb)))) as Hbits.
    unfold PrefixFrom in *. cbn [bitsPlusOne] in Hbits. rewrite Hbits, Hu. f_equal.
    clear Hbits Hu. unfold Bits. cbn [bitsPlusOne]. pose proof (BitLen_le a).
    destruct (decide (qb = 0)) as [->|H0].
    - rewrite decide_False; lia.
    - rewrite decide_True; [lia|]. split; [done|lia]. }
  assert (raw = (SetAddrPort (mkAddrPort (ip q) 0) (RawPrefix p)).1) as Hraw by (by rewrite Hset).
  clear Hset. destruct (ip q) as [|o|o z] eqn:Hip; [done|..]; destruct Ha as [Ho Hf];
    rewrite Hraw; cbn [SetAddrPort ap_addr ap_port fst Family data].
  - rewrite decide_True by done.
    destruct (set4_fields o 0 (data (RawPrefix p)) Ho Hd ltac:(done)) as (-> & _).
    by apply Hfrom.
  - rewrite decide_False, decide_True by done. simpl in Hz. subst z.
    destruct (set6_fields o 0 (scope_of "") (data (RawPrefix p)) Ho Hd ltac:(done)
                (scope_of_fits "")) as (-> & _).
    by apply Hfrom.
Qed.

Lemma IPPrefix_set (q : Prefix) (p : IPAddressPrefix) :
  wf_prefix q -> IsValid (ip q) = true -> length (data (RawPrefix p)) = 26%nat ->
  IPPrefix_Prefix (SetPrefix q p).1 = q.
Proof.
  intros Hq Hv Hd. pose proof (SetPrefix_get q p Hq Hv Hd) as Hs.
  destruct (SetPrefix q p) as [p' err]. by destruct Hs.
Qed.

(** Setting the prefix of a row and reading it back gives the same prefix,
    for every prefix with an address, the invalid ones included, and whatever
    the row held before. *)
Theorem prefix_roundtrip (q : Prefix) (p : IPAddressPrefix) :
  wf_prefix q -> IsValid (ip q) = true -> length (data (RawPrefix p)) = 26%nat ->
  let '(p', err) := SetPrefix q p in err = None /\ IPPrefix_Prefix p' = q.
Proof. apply SetPrefix_get. Qed.

(** An IPv4 address clears the eight bytes of padding of the IPv4 layout but
    leaves the last twelve bytes of the union, the end of an IPv6 address and its
    scope, as they were; an IPv6 address overwrites every byte. *)
Theorem sockaddr_frame (a : Addr) (p : Z) (r : RawSockaddrInet) :
  wf_addr a -> IsValid a = true -> fits 16 p -> length (data r) = 26%nat ->
  let d' := data (SetAddrPort (mkAddrPort a p) r).1 in
  if Is4 a then get off_zero4 8 d' = replicate 8 0 /\ get 14 12 d' = get 14 12 (data r)
  else forall r', length (data r') = 26%nat -> d' = data (SetAddrPort (mkAddrPort a p) r').1.
Proof.
  intros Ha Hv Hp Hd. destruct a as [|o|o z]; [done|..]; destruct Ha as [Ho Hf]; cbn [Is4].
  - by destruct (set4_fields o p (data r) Ho Hd Hp) as (_ & _ & _ & ? & ?).
  - intros r' Hd'.
    assert (forall d, length d = 26%nat ->
      set_u 4 off_scope (scope_of z) (set_u 4 off_flowinfo 0
        (set_u 2 off_port (htons p) (put off_addr6 o d)))
      = le_bytes 2 (htons p) ++ le_bytes 4 0 ++ o ++ le_bytes 4 (scope_of z)) as Hall.
    { intros d Hdd. do 26 (destruct d as [|? d]; [done|]). destruct d; [|done].
      do 16 (destruct o as [|? o]; [done|]). by destruct o. }
    cbn [SetAddrPort ap_addr ap_port fst data]. by rewrite !Hall.
Qed.

(** ** Examples *)

Definition v4 : Addr := Addr4 [10; 0; 0; 2].
Definition v6 (zone : string) : Addr := Addr6 ([254; 128] ++ replicate 13 0 ++ [1]) zone.

(** A union last used for an IPv6 address. *)
Definition used : RawSockaddrInet := (SetAddrPort (mkAddrPort (v6 "7") 80) zero_Sockaddr).1.

Lemma wf_v4 : wf_addr v4.
Proof. split; [done|]. by apply (bool_decide_eq_true_1 _). Qed.

Lemma wf_v6 zone : wf_addr (v6 zone).
Proof. split; [done|]. by apply (bool_decide_eq_true_1 _). Qed.

Lemma sockaddr_roundtrip_witness :
  Sockaddr_AddrPort used = mkAddrPort (v6 "7") 80 /\
  Sockaddr_AddrPort (SetAddrPort (mkAddrPort (v6 "eth0") 80) used).1 = mkAddrPort (v6 "") 80.
Proof.
  split.
  - exact (proj2 (sockaddr_roundtrip (v6 "7") 80 zero_Sockaddr (wf_v6 _) eq_refl
                    ltac:(unfold fits; lia) eq_refl)).
  - exact (proj2 (sockaddr_roundtrip (v6 "eth0") 80 used (wf_v6 _) eq_refl
                    ltac:(unfold fits; lia) eq_refl)).
Defined.

Lemma port_network_order_witness :
  get off_port 2 (data (SetAddrPort (mkAddrPort v4 258) used).1) = [1; 2].
Proof. exact (port_network_order v4 258 used wf_v4 eq_refl ltac:(unfold fits; lia) eq_refl). Defined.

Lemma prefix_roundtrip_witness :
  wf_prefix (PrefixFrom v4 24) /\
  IPPrefix_Prefix (SetPrefix (PrefixFrom v4 24) (mkIPPrefix used 3)).1 = PrefixFrom v4 24.
Proof.
  split; [apply PrefixFrom_wf, wf_v4|].
  exact (proj2 (prefix_roundtrip (PrefixFrom v4 24) (mkIPPrefix used 3)
                  (PrefixFrom_wf _ _ wf_v4) eq_refl eq_refl)).
Defined.

Lemma sockaddr_refused_witness :
  SetAddrPort (mkAddrPort AddrInvalid 1) used = (used, Some ERROR_INVALID_PARAMETER).
Proof.
  destruct (sockaddr_refused AddrInvalid 1 used) as [He Hr].
  exact (f_equal2 pair (Hr eq_refl) He).
Defined.

(** The scope of the earlier IPv6 address is still there. *)
Lemma sockaddr_frame_witness :
  get 14 12 (data (SetAddrPort (mkAddrPort v4 258) used).1) = [0; 0; 0; 0; 0; 0; 0; 1; 7; 0; 0; 0].
Proof.
  exact (proj2 (sockaddr_frame v4 258 used wf_v4 eq_refl ltac:(unfold fits; lia) eq_refl)).
Defined.
