(* ===== verification/Layout.v ===== *)
(** * Memory layout of the structures (winipcfg/types.go, types_32.go, types_64.go)

    The rows and tables are exchanged with the system as memory, so their
    declarations must lay them out as the system does on every machine.  Here are
    the declarations, the layout Go gives them, and the agreement of the 32-bit
    declarations with the 64-bit ones.  The structures that hold a
    [windows.SocketAddress], whose declaration is not in the repository, take its
    layout as a parameter. *)

From S2P Require Import Prelude.
From Stdlib Require Import ZArith String Lia.
From stdpp Require Import base list strings.
Open Scope Z_scope.
Local Open Scope list_scope.

(** Go types: unsigned and signed integers of a number of bytes (booleans are laid
    out like an unsigned byte), pointers, arrays and structures.  A field named
    [_] is padding. *)
Inductive ty : Type :=
| U (bytes : Z)
| I (bytes : Z)
| Ptr
| Arr (n : Z) (t : ty)
| Struct (fields : list (string * ty)).

(** What the layout depends on. *)
Record machine : Type := mkMachine {
  ptr_bytes : Z;
  max_align : Z;   (* alignment of the largest integers *)
}.

(** gc on 386 and arm; on amd64 and arm64. *)
Definition go32 : machine := mkMachine 4 4.
Definition go64 : machine := mkMachine 8 8.
(** Windows on 32-bit machines: 64-bit integers are aligned to 8 bytes. *)
Definition win32 : machine := mkMachine 4 8.

Definition align_up (a off : Z) : Z := (off + a - 1) / a * a.

Section Layout.
Context (m : machine).

Fixpoint align (t : ty) : Z :=
  match t with
  | U n | I n => Z.min n (max_align m)
  | Ptr => ptr_bytes m
  | Arr _ t => align t
  | Struct fs =>
      (fix go fs := match fs with [] => 1 | (_, t) :: fs => Z.max (align t) (go fs) end) fs
  end.

Fixpoint size (t : ty) : Z :=
  match t with
  | U n | I n => n
  | Ptr => ptr_bytes m
  | Arr n t => n * size t
  | Struct fs =>
      align_up (align (Struct fs))
        ((fix go fs off :=
            match fs with
            | [] => off
            | (_, t) :: fs => go fs (align_up (align t) off + size t)
            end) fs 0)
  end.

(** The fields that are not padding, each with its path, offset and type. *)
Fixpoint offsets (fs : list (string * ty)) (off : Z) : list (string * Z * Z) :=
  match fs with
  | [] => []
  | (f, t) :: fs =>
      let at_ := align_up (align t) off in
      (if decide (f = "_"%string) then [] else [(f, at_, size t)]) ++ offsets fs (at_ + size t)
  end.

(** Offsets and sizes of the named fields, and the size of the whole, which is
    the distance of the rows of a table. *)
Definition layout (t : ty) : list (string * Z * Z) * Z :=
  (match t with Struct fs => offsets fs 0 | _ => [] end, size t).
End Layout.

(** [windows.GUID], as IpTypes.GUID has it. *)
Definition GUID_layout : ty :=
  Struct [("Data1"%string, U 4); ("Data2"%string, U 2); ("Data3"%string, U 2);
          ("Data4"%string, Arr 8 (U 1))].

Open Scope string_scope.

(** ** Declarations shared by all machines (types.go) *)

Definition RawSockaddrInet_layout : ty :=
  Struct
    [("Family", U 2); ("data", Arr 26 (U 1))].

Definition IPAddressPrefix_layout : ty :=
  Struct
    [("RawPrefix", RawSockaddrInet_layout); ("PrefixLength", U 1); ("_", Arr 2 (U 1))].

Definition MibIPforwardRow2_layout : ty :=
  Struct
    [("InterfaceLUID", U 8); ("InterfaceIndex", U 4);
     ("DestinationPrefix", IPAddressPrefix_layout); ("NextHop", RawSockaddrInet_layout);
     ("SitePrefixLength", U 1); ("ValidLifetime", U 4); ("PreferredLifetime", U 4);
     ("Metric", U 4); ("Protocol", U 4); ("Loopback", U 1); ("AutoconfigureAddress", U 1);
     ("Publish", U 1); ("Immortal", U 1); ("Age", U 4); ("Origin", U 4)].

Definition DnsInterfaceSettings_layout : ty :=
  Struct
    [("Version", U 4); ("_", Arr 4 (U 1)); ("Flags", U 8); ("Domain", Ptr); ("NameServer", Ptr);
     ("SearchList", Ptr); ("RegistrationEnabled", U 4); ("RegisterAdapterName", U 4);
     ("EnableLLMNR", U 4); ("QueryAdapterName", U 4); ("ProfileNameServer", Ptr)].

(** ** types_32.go *)

Definition MibIPInterfaceRow_32 : ty :=
  Struct
    [("Family", U 2); ("_", Arr 4 (U 1)); ("InterfaceLUID", U 8); ("InterfaceIndex", U 4);
     ("MaxReassemblySize", U 4); ("InterfaceIdentifier", U 8);
     ("MinRouterAdvertisementInterval", U 4); ("MaxRouterAdvertisementInterval", U 4);
     ("AdvertisingEnabled", U 1); ("ForwardingEnabled", U 1); ("WeakHostSend", U 1);
     ("WeakHostReceive", U 1); ("UseAutomaticMetric", U 1);
     ("UseNeighborUnreachabilityDetection", U 1); ("ManagedAddressConfigurationSupported", U 1);
     ("OtherStatefulConfigurationSupported", U 1); ("AdvertiseDefaultRoute", U 1);
     ("RouterDiscoveryBehavior", I 4); ("DadTransmits", U 4); ("BaseReachableTime", U 4);
     ("RetransmitTime", U 4); ("PathMTUDiscoveryTimeout", U 4);
     ("LinkLocalAddressBehavior", I 4); ("LinkLocalAddressTimeout", U 4);
     ("ZoneIndices", Arr 16 (U 4)); ("SitePrefixLength", U 4); ("Metric", U 4); ("NLMTU", U 4);
     ("Connected", U 1); ("SupportsWakeUpPatterns", U 1); ("SupportsNeighborDiscovery", U 1);
     ("SupportsRouterDiscovery", U 1); ("ReachableTime", U 4); ("TransmitOffload", U 1);
     ("ReceiveOffload", U 1); ("DisableDefaultRoutes", U 1)].

Definition mibIPInterfaceTable_32 : ty :=
  Struct
    [("numEntries", U 4); ("_", Arr 4 (U 1)); ("table", Arr 1 MibIPInterfaceRow_32)].

Definition MibIfRow2_32 : ty :=
  Struct
    [("InterfaceLUID", U 8); ("InterfaceIndex", U 4); ("InterfaceGUID", GUID_layout);
     ("alias", Arr 257 (U 2)); ("description", Arr 257 (U 2)); ("physicalAddressLength", U 4);
     ("physicalAddress", Arr 32 (U 1)); ("permanentPhysicalAddress", Arr 32 (U 1)); ("MTU", U 4);
     ("Type", U 4); ("TunnelType", U 4); ("MediaType", U 4); ("PhysicalMediumType", U 4);
     ("AccessType", U 4); ("DirectionType", U 4); ("InterfaceAndOperStatusFlags", U 1);
     ("OperStatus", U 4); ("AdminStatus", U 4); ("MediaConnectState", U 4);
     ("NetworkGUID", GUID_layout); ("ConnectionType", U 4); ("_", Arr 4 (U 1));
     ("TransmitLinkSpeed", U 8); ("ReceiveLinkSpeed", U 8); ("InOctets", U 8);
     ("InUcastPkts", U 8); ("InNUcastPkts", U 8); ("InDiscards", U 8); ("InErrors", U 8);
     ("InUnknownProtos", U 8); ("InUcastOctets", U 8); ("InMulticastOctets", U 8);
     ("InBroadcastOctets", U 8); ("OutOctets", U 8); ("OutUcastPkts", U 8);
     ("OutNUcastPkts", U 8); ("OutDiscards", U 8); ("OutErrors", U 8); ("OutUcastOctets", U 8);
     ("OutMulticastOctets", U 8); ("OutBroadcastOctets", U 8); ("OutQLen", U 8)].

Definition mibIfTable2_32 : ty :=
  Struct
    [("numEntries", U 4); ("_", Arr 4 (U 1)); ("table", Arr 1 MibIfRow2_32)].

Definition MibUnicastIPAddressRow_32 : ty :=
  Struct
    [("Address", RawSockaddrInet_layout); ("_", Arr 4 (U 1)); ("InterfaceLUID", U 8);
     ("InterfaceIndex", U 4); ("PrefixOrigin", U 4); ("SuffixOrigin", U 4);
     ("ValidLifetime", U 4); ("PreferredLifetime", U 4); ("OnLinkPrefixLength", U 1);
     ("SkipAsSource", U 1); ("DadState", U 4); ("ScopeID", U 4); ("CreationTimeStamp", I 8)].

Definition mibUnicastIPAddressTable_32 : ty :=
  Struct
    [("numEntries", U 4); ("_", Arr 4 (U 1)); ("table", Arr 1 MibUnicastIPAddressRow_32)].

Definition MibAnycastIPAddressRow_32 : ty :=
  Struct
    [("Address", RawSockaddrInet_layout); ("_", Arr 4 (U 1)); ("InterfaceLUID", U 8);
     ("InterfaceIndex", U 4); ("ScopeID", U 4)].

Definition mibAnycastIPAddressTable_32 : ty :=
  Struct
    [("numEntries", U 4); ("_", Arr 4 (U 1)); ("table", Arr 1 MibAnycastIPAddressRow_32)].

Definition mibIPforwardTable2_32 : ty :=
  Struct
    [("numEntries", U 4); ("_", Arr 4 (U 1)); ("table", Arr 1 MibIPforwardRow2_layout)].

(** ** types_64.go *)

Definition MibIPInterfaceRow_64 : ty :=
  Struct
    [("Family", U 2); ("InterfaceLUID", U 8); ("InterfaceIndex", U 4);
     ("MaxReassemblySize", U 4); ("InterfaceIdentifier", U 8);
     ("MinRouterAdvertisementInterval", U 4); ("MaxRouterAdvertisementInterval", U 4);
     ("AdvertisingEnabled", U 1); ("ForwardingEnabled", U 1); ("WeakHostSend", U 1);
     ("WeakHostReceive", U 1); ("UseAutomaticMetric", U 1);
     ("UseNeighborUnreachabilityDetection", U 1); ("ManagedAddressConfigurationSupported", U 1);
     ("OtherStatefulConfigurationSupported", U 1); ("AdvertiseDefaultRoute", U 1);
     ("RouterDiscoveryBehavior", I 4); ("DadTransmits", U 4); ("BaseReachableTime", U 4);
     ("RetransmitTime", U 4); ("PathMTUDiscoveryTimeout", U 4);
     ("LinkLocalAddressBehavior", I 4); ("LinkLocalAddressTimeout", U 4);
     ("ZoneIndices", Arr 16 (U 4)); ("SitePrefixLength", U 4); ("Metric", U 4); ("NLMTU", U 4);
     ("Connected", U 1); ("SupportsWakeUpPatterns", U 1); ("SupportsNeighborDiscovery", U 1);
     ("SupportsRouterDiscovery", U 1); ("ReachableTime", U 4); ("TransmitOffload", U 1);
     ("ReceiveOffload", U 1); ("DisableDefaultRoutes", U 1)].

Definition mibIPInterfaceTable_64 : ty :=
  Struct
    [("numEntries", U 4); ("table", Arr 1 MibIPInterfaceRow_64)].

Definition MibIfRow2_64 : ty :=
  Struct
    [("InterfaceLUID", U 8); ("InterfaceIndex", U 4); ("InterfaceGUID", GUID_layout);
     ("alias", Arr 257 (U 2)); ("description", Arr 257 (U 2)); ("physicalAddressLength", U 4);
     ("physicalAddress", Arr 32 (U 1)); ("permanentPhysicalAddress", Arr 32 (U 1)); ("MTU", U 4);
     ("Type", U 4); ("TunnelType", U 4); ("MediaType", U 4); ("PhysicalMediumType", U 4);
     ("AccessType", U 4); ("DirectionType", U 4); ("InterfaceAndOperStatusFlags", U 1);
     ("OperStatus", U 4); ("AdminStatus", U 4); ("MediaConnectState", U 4);
     ("NetworkGUID", GUID_layout); ("ConnectionType", U 4); ("TransmitLinkSpeed", U 8);
     ("ReceiveLinkSpeed", U 8); ("InOctets", U 8); ("InUcastPkts", U 8); ("InNUcastPkts", U 8);
     ("InDiscards", U 8); ("InErrors", U 8); ("InUnknownProtos", U 8); ("InUcastOctets", U 8);
     ("InMulticastOctets", U 8); ("InBroadcastOctets", U 8); ("OutOctets", U 8);
     ("OutUcastPkts", U 8); ("OutNUcastPkts", U 8); ("OutDiscards", U 8); ("OutErrors", U 8);
     ("OutUcastOctets", U 8); ("OutMulticastOctets", U 8); ("OutBroadcastOctets", U 8);
     ("OutQLen", U 8)].

Definition mibIfTable2_64 : ty :=
  Struct
    [("numEntries", U 4); ("table", Arr 1 MibIfRow2_64)].

Definition MibUnicastIPAddressRow_64 : ty :=
  Struct
    [("Address", RawSockaddrInet_layout); ("InterfaceLUID", U 8); ("InterfaceIndex", U 4);
     ("PrefixOrigin", U 4); ("SuffixOrigin", U 4); ("ValidLifetime", U 4);
     ("PreferredLifetime", U 4); ("OnLinkPrefixLength", U 1); ("SkipAsSource", U 1);
     ("DadState", U 4); ("ScopeID", U 4); ("CreationTimeStamp", I 8)].

Definition mibUnicastIPAddressTable_64 : ty :=
  Struct
    [("numEntries", U 4); ("table", Arr 1 MibUnicastIPAddressRow_64)].

Definition MibAnycastIPAddressRow_64 : ty :=
  Struct
    [("Address", RawSockaddrInet_layout); ("InterfaceLUID", U 8); ("InterfaceIndex", U 4);
     ("ScopeID", U 4)].

Definition mibAnycastIPAddressTable_64 : ty :=
  Struct
    [("numEntries", U 4); ("table", Arr 1 MibAnycastIPAddressRow_64)].

Definition mibIPforwardTable2_64 : ty :=
  Struct
    [("numEntries", U 4); ("table", Arr 1 MibIPforwardRow2_layout)].

(** ** The addresses of adapters

    These declarations hold a [windows.SocketAddress] and an array of
    [windows.MAX_ADAPTER_ADDRESS_LENGTH] bytes, which are not in the repository. *)
Section Adapters.
Context (SocketAddress : ty) (MAX_ADAPTER_ADDRESS_LENGTH : Z).

Definition IPAdapterDNSSuffix_layout : ty :=
  Struct
    [("Next", Ptr); ("str", Arr 256 (U 2))].

Definition IPAdapterWINSServerAddress_32 : ty :=
  Struct
    [("Length", U 4); ("_", U 4); ("Next", Ptr); ("Address", SocketAddress); ("_", Arr 4 (U 1))].

Definition IPAdapterGatewayAddress_32 : ty :=
  Struct
    [("Length", U 4); ("_", U 4); ("Next", Ptr); ("Address", SocketAddress); ("_", Arr 4 (U 1))].

Definition IPAdapterAddresses_32 : ty :=
  Struct
    [("Length", U 4); ("IfIndex", U 4); ("Next", Ptr); ("adapterName", Ptr);
     ("FirstUnicastAddress", Ptr); ("FirstAnycastAddress", Ptr); ("FirstMulticastAddress", Ptr);
     ("FirstDNSServerAddress", Ptr); ("dnsSuffix", Ptr); ("description", Ptr);
     ("friendlyName", Ptr); ("physicalAddress", Arr MAX_ADAPTER_ADDRESS_LENGTH (U 1));
     ("physicalAddressLength", U 4); ("Flags", U 4); ("MTU", U 4); ("IfType", U 4);
     ("OperStatus", U 4); ("IPv6IfIndex", U 4); ("ZoneIndices", Arr 16 (U 4));
     ("FirstPrefix", Ptr); ("TransmitLinkSpeed", U 8); ("ReceiveLinkSpeed", U 8);
     ("FirstWINSServerAddress", Ptr); ("FirstGatewayAddress", Ptr); ("Ipv4Metric", U 4);
     ("Ipv6Metric", U 4); ("LUID", U 8); ("DHCPv4Server", SocketAddress); ("CompartmentID", U 4);
     ("NetworkGUID", GUID_layout); ("ConnectionType", U 4); ("TunnelType", U 4);
     ("DHCPv6Server", SocketAddress); ("dhcpv6ClientDUID", Arr 130 (U 1));
     ("dhcpv6ClientDUIDLength", U 4); ("DHCPv6IAID", U 4); ("FirstDNSSuffix", Ptr);
     ("_", Arr 4 (U 1))].

Definition IPAdapterWINSServerAddress_64 : ty :=
  Struct
    [("Length", U 4); ("_", U 4); ("Next", Ptr); ("Address", SocketAddress)].

Definition IPAdapterGatewayAddress_64 : ty :=
  Struct
    [("Length", U 4); ("_", U 4); ("Next", Ptr); ("Address", SocketAddress)].

Definition IPAdapterAddresses_64 : ty :=
  Struct
    [("Length", U 4); ("IfIndex", U 4); ("Next", Ptr); ("adapterName", Ptr);
     ("FirstUnicastAddress", Ptr); ("FirstAnycastAddress", Ptr); ("FirstMulticastAddress", Ptr);
     ("FirstDNSServerAddress", Ptr); ("dnsSuffix", Ptr); ("description", Ptr);
     ("friendlyName", Ptr); ("physicalAddress", Arr MAX_ADAPTER_ADDRESS_LENGTH (U 1));
     ("physicalAddressLength", U 4); ("Flags", U 4); ("MTU", U 4); ("IfType", U 4);
     ("OperStatus", U 4); ("IPv6IfIndex", U 4); ("ZoneIndices", Arr 16 (U 4));
     ("FirstPrefix", Ptr); ("TransmitLinkSpeed", U 8); ("ReceiveLinkSpeed", U 8);
     ("FirstWINSServerAddress", Ptr); ("FirstGatewayAddress", Ptr); ("Ipv4Metric", U 4);
     ("Ipv6Metric", U 4); ("LUID", U 8); ("DHCPv4Server", SocketAddress); ("CompartmentID", U 4);
     ("NetworkGUID", GUID_layout); ("ConnectionType", U 4); ("TunnelType", U 4);
     ("DHCPv6Server", SocketAddress); ("dhcpv6ClientDUID", Arr 130 (U 1));
     ("dhcpv6ClientDUIDLength", U 4); ("DHCPv6IAID", U 4); ("FirstDNSSuffix", Ptr)].

End Adapters.

(** ** Agreement *)

Definition tables : list (ty * ty) :=
  [(MibIPInterfaceRow_32, MibIPInterfaceRow_64);
   (mibIPInterfaceTable_32, mibIPInterfaceTable_64);
   (MibIfRow2_32, MibIfRow2_64);
   (mibIfTable2_32, mibIfTable2_64);
   (MibUnicastIPAddressRow_32, MibUnicastIPAddressRow_64);
   (mibUnicastIPAddressTable_32, mibUnicastIPAddressTable_64);
   (MibAnycastIPAddressRow_32, MibAnycastIPAddressRow_64);
   (mibAnycastIPAddressTable_32, mibAnycastIPAddressTable_64);
   (MibIPforwardRow2_layout, MibIPforwardRow2_layout);
   (mibIPforwardTable2_32, mibIPforwardTable2_64)].

(** What the theorem of a pair of declarations asks. *)
Definition agree (d : ty * ty) : Prop :=
  layout go32 d.1 = layout go64 d.2 /\ layout go32 d.1 = layout win32 d.2.

Lemma agree_dec d : {agree d} + {~ agree d}.
Proof. unfold agree. apply and_dec; apply decide, _. Defined.

(** The documented declaration of [windows.SocketAddress]. *)
Definition socket_address : ty := Struct [("Sockaddr", Ptr); ("SockaddrLength", U 4)].

(** The fields lie at the same offsets and the whole is a multiple of 8 bytes, as
    the 64-bit integer that the system's declaration joins with the first two
    fields makes it. *)
Definition agree_padded (d : ty * ty) : Prop :=
  (layout go32 d.1).1 = (layout win32 d.2).1 /\ size go32 d.1 = align_up 8 (size win32 d.2).

Definition adapter_lists (SA : ty) : list (ty * ty) :=
  [(IPAdapterWINSServerAddress_32 SA, IPAdapterWINSServerAddress_64 SA);
   (IPAdapterGatewayAddress_32 SA, IPAdapterGatewayAddress_64 SA)].

(** C40: the padding written out in types_32.go makes every row and table lie in
    memory, field by field, as its declaration in types_64.go does on a 64-bit
    machine, and as that declaration would with the alignment of 32-bit Windows,
    although Go aligns 64-bit integers to four bytes there.  The addresses of an
    adapter and their lists, which hold pointers, lie as 32-bit Windows has them,
    too, for the socket addresses and the array length package windows has. *)
Theorem layouts_agree SA n :
  SA = socket_address -> n = 8 ->
  Forall agree tables /\
  layout go32 (IPAdapterAddresses_32 SA n) = layout win32 (IPAdapterAddresses_64 SA n) /\
  layout go32 IPAdapterDNSSuffix_layout = layout win32 IPAdapterDNSSuffix_layout /\
  Forall agree_padded (adapter_lists SA).
Proof.
  intros -> ->. split; [|split; [by vm_compute|split; [by vm_compute|]]].
  - unfold tables. repeat (constructor; [by vm_compute|]). constructor.
  - unfold adapter_lists. repeat (constructor; [by vm_compute|]). constructor.
Qed.

(** The speeds of an adapter are at 144 and 152 on 32-bit Windows. *)
Lemma layouts_agree_witness :
  layout go32 (IPAdapterAddresses_32 socket_address 8)
  = layout win32 (IPAdapterAddresses_64 socket_address 8) /\
  size go32 (IPAdapterAddresses_32 socket_address 8) = 376.
Proof.
  split; [exact (proj1 (proj2 (layouts_agree socket_address 8 eq_refl eq_refl)))|].
  vm_compute. reflexivity.
Defined.

(** The settings of SetInterfaceDnsSettings, declared once for all machines,
    lie in memory as 32-bit Windows aligns them too, and padding is never needed
    between the rows of a table. *)
Theorem settings_layout :
  layout go32 DnsInterfaceSettings_layout = layout win32 DnsInterfaceSettings_layout /\
  Forall (fun d => size go32 d.1 mod align win32 d.2 = 0) tables.
Proof. split; [by vm_compute|]. unfold tables. repeat constructor. Qed.
