(* ===== verification/IpTypes.v ===== *)
(** * The rows of the IP helper API (winipcfg/types.go, types_64.go)

    The structures the API exchanges, field for field on a 64-bit machine
    (padding left out), their zero values and the field updates the program
    makes.  Integers keep their Go widths through the program's conversions;
    arrays are lists. *)

From S2P Require Import Prelude Netip Sockaddr.
From Stdlib Require Import ZArith.
From stdpp Require Import base list strings.
Open Scope Z_scope.

(** [windows.GUID] *)
Record GUID : Type := mkGUID {
  Data1 : Z;        (* uint32 *)
  Data2 : Z;        (* uint16 *)
  Data3 : Z;        (* uint16 *)
  Data4 : list Z;   (* [8]byte *)
}.

#[export] Instance GUID_eq_dec : EqDecision GUID.
Proof. solve_decision. Defined.

Definition zero_GUID : GUID := mkGUID 0 0 0 (replicate 8 0).

Module MibIPInterfaceRow.

Record t : Type := mk {
  Family : Z;
  InterfaceLUID : Z;
  InterfaceIndex : Z;
  MaxReassemblySize : Z;
  InterfaceIdentifier : Z;
  MinRouterAdvertisementInterval : Z;
  MaxRouterAdvertisementInterval : Z;
  AdvertisingEnabled : bool;
  ForwardingEnabled : bool;
  WeakHostSend : bool;
  WeakHostReceive : bool;
  UseAutomaticMetric : bool;
  UseNeighborUnreachabilityDetection : bool;
  ManagedAddressConfigurationSupported : bool;
  OtherStatefulConfigurationSupported : bool;
  AdvertiseDefaultRoute : bool;
  RouterDiscoveryBehavior : Z;
  DadTransmits : Z;
  BaseReachableTime : Z;
  RetransmitTime : Z;
  PathMTUDiscoveryTimeout : Z;
  LinkLocalAddressBehavior : Z;
  LinkLocalAddressTimeout : Z;
  ZoneIndices : list Z;
  SitePrefixLength : Z;
  Metric : Z;
  NLMTU : Z;
  Connected : bool;
  SupportsWakeUpPatterns : bool;
  SupportsNeighborDiscovery : bool;
  SupportsRouterDiscovery : bool;
  ReachableTime : Z;
  TransmitOffload : Z;
  ReceiveOffload : Z;
  DisableDefaultRoutes : bool;
}.

Definition zero : t :=
  mk
    0 0 0 0 0 0 0 false false false false false false false false false 0 0 0 0 0 0 0
    (replicate 16 0) 0 0 0 false false false false 0 0 0 false.

Definition set_Family (x : Z) (r : t) : t :=
  mk
    x (r.(InterfaceLUID)) (r.(InterfaceIndex)) (r.(MaxReassemblySize))
    (r.(InterfaceIdentifier)) (r.(MinRouterAdvertisementInterval))
    (r.(MaxRouterAdvertisementInterval)) (r.(AdvertisingEnabled)) (r.(ForwardingEnabled))
    (r.(WeakHostSend)) (r.(WeakHostReceive)) (r.(UseAutomaticMetric))
    (r.(UseNeighborUnreachabilityDetection)) (r.(ManagedAddressConfigurationSupported))
    (r.(OtherStatefulConfigurationSupported)) (r.(AdvertiseDefaultRoute))
    (r.(RouterDiscoveryBehavior)) (r.(DadTransmits)) (r.(BaseReachableTime))
    (r.(RetransmitTime)) (r.(PathMTUDiscoveryTimeout)) (r.(LinkLocalAddressBehavior))
    (r.(LinkLocalAddressTimeout)) (r.(ZoneIndices)) (r.(SitePrefixLength)) (r.(Metric))
    (r.(NLMTU)) (r.(Connected)) (r.(SupportsWakeUpPatterns)) (r.(SupportsNeighborDiscovery))
    (r.(SupportsRouterDiscovery)) (r.(ReachableTime)) (r.(TransmitOffload))
    (r.(ReceiveOffload)) (r.(DisableDefaultRoutes)).

Definition set_InterfaceLUID (x : Z) (r : t) : t :=
  mk
    (r.(Family)) x (r.(InterfaceIndex)) (r.(MaxReassemblySize)) (r.(InterfaceIdentifier))
    (r.(MinRouterAdvertisementInterval)) (r.(MaxRouterAdvertisementInterval))
    (r.(AdvertisingEnabled)) (r.(ForwardingEnabled)) (r.(WeakHostSend)) (r.(WeakHostReceive))
    (r.(UseAutomaticMetric)) (r.(UseNeighborUnreachabilityDetection))
    (r.(ManagedAddressConfigurationSupported)) (r.(OtherStatefulConfigurationSupported))
    (r.(AdvertiseDefaultRoute)) (r.(RouterDiscoveryBehavior)) (r.(DadTransmits))
    (r.(BaseReachableTime)) (r.(RetransmitTime)) (r.(PathMTUDiscoveryTimeout))
    (r.(LinkLocalAddressBehavior)) (r.(LinkLocalAddressTimeout)) (r.(ZoneIndices))
    (r.(SitePrefixLength)) (r.(Metric)) (r.(NLMTU)) (r.(Connected))
    (r.(SupportsWakeUpPatterns)) (r.(SupportsNeighborDiscovery)) (r.(SupportsRouterDiscovery))
    (r.(ReachableTime)) (r.(TransmitOffload)) (r.(ReceiveOffload)) (r.(DisableDefaultRoutes)).

Definition set_SitePrefixLength (x : Z) (r : t) : t :=
  mk
    (r.(Family)) (r.(InterfaceLUID)) (r.(InterfaceIndex)) (r.(MaxReassemblySize))
    (r.(InterfaceIdentifier)) (r.(MinRouterAdvertisementInterval))
    (r.(MaxRouterAdvertisementInterval)) (r.(AdvertisingEnabled)) (r.(ForwardingEnabled))
    (r.(WeakHostSend)) (r.(WeakHostReceive)) (r.(UseAutomaticMetric))
    (r.(UseNeighborUnreachabilityDetection)) (r.(ManagedAddressConfigurationSupported))
    (r.(OtherStatefulConfigurationSupported)) (r.(AdvertiseDefaultRoute))
    (r.(RouterDiscoveryBehavior)) (r.(DadTransmits)) (r.(BaseReachableTime))
    (r.(RetransmitTime)) (r.(PathMTUDiscoveryTimeout)) (r.(LinkLocalAddressBehavior))
    (r.(LinkLocalAddressTimeout)) (r.(ZoneIndices)) x (r.(Metric)) (r.(NLMTU)) (r.(Connected))
    (r.(SupportsWakeUpPatterns)) (r.(SupportsNeighborDiscovery)) (r.(SupportsRouterDiscovery))
    (r.(ReachableTime)) (r.(TransmitOffload)) (r.(ReceiveOffload)) (r.(DisableDefaultRoutes)).

Definition set_NLMTU (x : Z) (r : t) : t :=
  mk
    (r.(Family)) (r.(InterfaceLUID)) (r.(InterfaceIndex)) (r.(MaxReassemblySize))
    (r.(InterfaceIdentifier)) (r.(MinRouterAdvertisementInterval))
    (r.(MaxRouterAdvertisementInterval)) (r.(AdvertisingEnabled)) (r.(ForwardingEnabled))
    (r.(WeakHostSend)) (r.(WeakHostReceive)) (r.(UseAutomaticMetric))
    (r.(UseNeighborUnreachabilityDetection)) (r.(ManagedAddressConfigurationSupported))
    (r.(OtherStatefulConfigurationSupported)) (r.(AdvertiseDefaultRoute))
    (r.(RouterDiscoveryBehavior)) (r.(DadTransmits)) (r.(BaseReachableTime))
    (r.(RetransmitTime)) (r.(PathMTUDiscoveryTimeout)) (r.(LinkLocalAddressBehavior))
    (r.(LinkLocalAddressTimeout)) (r.(ZoneIndices)) (r.(SitePrefixLength)) (r.(Metric)) x
    (r.(Connected)) (r.(SupportsWakeUpPatterns)) (r.(SupportsNeighborDiscovery))
    (r.(SupportsRouterDiscovery)) (r.(ReachableTime)) (r.(TransmitOffload))
    (r.(ReceiveOffload)) (r.(DisableDefaultRoutes)).

End MibIPInterfaceRow.

Module MibIfRow2.

Record t : Type := mk {
  InterfaceLUID : Z;
  InterfaceIndex : Z;
  InterfaceGUID : GUID;
  alias : list Z;
  description : list Z;
  physicalAddressLength : Z;
  physicalAddress : list Z;
  permanentPhysicalAddress : list Z;
  MTU : Z;
  Type_ : Z;
  TunnelType : Z;
  MediaType : Z;
  PhysicalMediumType : Z;
  AccessType : Z;
  DirectionType : Z;
  InterfaceAndOperStatusFlags : Z;
  OperStatus : Z;
  AdminStatus : Z;
  MediaConnectState : Z;
  NetworkGUID : GUID;
  ConnectionType : Z;
  TransmitLinkSpeed : Z;
  ReceiveLinkSpeed : Z;
  InOctets : Z;
  InUcastPkts : Z;
  InNUcastPkts : Z;
  InDiscards : Z;
  InErrors : Z;
  InUnknownProtos : Z;
  InUcastOctets : Z;
  InMulticastOctets : Z;
  InBroadcastOctets : Z;
  OutOctets : Z;
  OutUcastPkts : Z;
  OutNUcastPkts : Z;
  OutDiscards : Z;
  OutErrors : Z;
  OutUcastOctets : Z;
  OutMulticastOctets : Z;
  OutBroadcastOctets : Z;
  OutQLen : Z;
}.

Definition zero : t :=
  mk
    0 0 zero_GUID (replicate 257 0) (replicate 257 0) 0 (replicate 32 0) (replicate 32 0) 0 0 0
    0 0 0 0 0 0 0 0 zero_GUID 0 0 0 0 0 0 0 0 0 0 0 0 0 0 0 0 0 0 0 0 0.

Definition set_InterfaceLUID (x : Z) (r : t) : t :=
  mk
    x (r.(InterfaceIndex)) (r.(InterfaceGUID)) (r.(alias)) (r.(description))
    (r.(physicalAddressLength)) (r.(physicalAddress)) (r.(permanentPhysicalAddress)) (r.(MTU))
    (r.(Type_)) (r.(TunnelType)) (r.(MediaType)) (r.(PhysicalMediumType)) (r.(AccessType))
    (r.(DirectionType)) (r.(InterfaceAndOperStatusFlags)) (r.(OperStatus)) (r.(AdminStatus))
    (r.(MediaConnectState)) (r.(NetworkGUID)) (r.(ConnectionType)) (r.(TransmitLinkSpeed))
    (r.(ReceiveLinkSpeed)) (r.(InOctets)) (r.(InUcastPkts)) (r.(InNUcastPkts)) (r.(InDiscards))
    (r.(InErrors)) (r.(InUnknownProtos)) (r.(InUcastOctets)) (r.(InMulticastOctets))
    (r.(InBroadcastOctets)) (r.(OutOctets)) (r.(OutUcastPkts)) (r.(OutNUcastPkts))
    (r.(OutDiscards)) (r.(OutErrors)) (r.(OutUcastOctets)) (r.(OutMulticastOctets))
    (r.(OutBroadcastOctets)) (r.(OutQLen)).

End MibIfRow2.

Module MibUnicastIPAddressRow.

Record t : Type := mk {
  Address : RawSockaddrInet;
  InterfaceLUID : Z;
  InterfaceIndex : Z;
  PrefixOrigin : Z;
  SuffixOrigin : Z;
  ValidLifetime : Z;
  PreferredLifetime : Z;
  OnLinkPrefixLength : Z;
  SkipAsSource : bool;
  DadState : Z;
  ScopeID : Z;
  CreationTimeStamp : Z;
}.

Definition zero : t :=
  mk
    zero_Sockaddr 0 0 0 0 0 0 0 false 0 0 0.

Definition set_Address (x : RawSockaddrInet) (r : t) : t :=
  mk
    x (r.(InterfaceLUID)) (r.(InterfaceIndex)) (r.(PrefixOrigin)) (r.(SuffixOrigin))
    (r.(ValidLifetime)) (r.(PreferredLifetime)) (r.(OnLinkPrefixLength)) (r.(SkipAsSource))
    (r.(DadState)) (r.(ScopeID)) (r.(CreationTimeStamp)).

Definition set_InterfaceLUID (x : Z) (r : t) : t :=
  mk
    (r.(Address)) x (r.(InterfaceIndex)) (r.(PrefixOrigin)) (r.(SuffixOrigin))
    (r.(ValidLifetime)) (r.(PreferredLifetime)) (r.(OnLinkPrefixLength)) (r.(SkipAsSource))
    (r.(DadState)) (r.(ScopeID)) (r.(CreationTimeStamp)).

Definition set_ValidLifetime (x : Z) (r : t) : t :=
  mk
    (r.(Address)) (r.(InterfaceLUID)) (r.(InterfaceIndex)) (r.(PrefixOrigin))
    (r.(SuffixOrigin)) x (r.(PreferredLifetime)) (r.(OnLinkPrefixLength)) (r.(SkipAsSource))
    (r.(DadState)) (r.(ScopeID)) (r.(CreationTimeStamp)).

Definition set_PreferredLifetime (x : Z) (r : t) : t :=
  mk
    (r.(Address)) (r.(InterfaceLUID)) (r.(InterfaceIndex)) (r.(PrefixOrigin))
    (r.(SuffixOrigin)) (r.(ValidLifetime)) x (r.(OnLinkPrefixLength)) (r.(SkipAsSource))
    (r.(DadState)) (r.(ScopeID)) (r.(CreationTimeStamp)).

Definition set_OnLinkPrefixLength (x : Z) (r : t) : t :=
  mk
    (r.(Address)) (r.(InterfaceLUID)) (r.(InterfaceIndex)) (r.(PrefixOrigin))
    (r.(SuffixOrigin)) (r.(ValidLifetime)) (r.(PreferredLifetime)) x (r.(SkipAsSource))
    (r.(DadState)) (r.(ScopeID)) (r.(CreationTimeStamp)).

Definition set_DadState (x : Z) (r : t) : t :=
  mk
    (r.(Address)) (r.(InterfaceLUID)) (r.(InterfaceIndex)) (r.(PrefixOrigin))
    (r.(SuffixOrigin)) (r.(ValidLifetime)) (r.(PreferredLifetime)) (r.(OnLinkPrefixLength))
    (r.(SkipAsSource)) x (r.(ScopeID)) (r.(CreationTimeStamp)).

End MibUnicastIPAddressRow.

Module MibAnycastIPAddressRow.

Record t : Type := mk {
  Address : RawSockaddrInet;
  InterfaceLUID : Z;
  InterfaceIndex : Z;
  ScopeID : Z;
}.

Definition zero : t :=
  mk
    zero_Sockaddr 0 0 0.

End MibAnycastIPAddressRow.

Module MibIPforwardRow2.

Record t : Type := mk {
  InterfaceLUID : Z;
  InterfaceIndex : Z;
  DestinationPrefix : IPAddressPrefix;
  NextHop : RawSockaddrInet;
  SitePrefixLength : Z;
  ValidLifetime : Z;
  PreferredLifetime : Z;
  Metric : Z;
  Protocol : Z;
  Loopback : bool;
  AutoconfigureAddress : bool;
  Publish : bool;
  Immortal : bool;
  Age : Z;
  Origin : Z;
}.

Definition zero : t :=
  mk
    0 0 zero_IPPrefix zero_Sockaddr 0 0 0 0 0 false false false false 0 0.

Definition set_InterfaceLUID (x : Z) (r : t) : t :=
  mk
    x (r.(InterfaceIndex)) (r.(DestinationPrefix)) (r.(NextHop)) (r.(SitePrefixLength))
    (r.(ValidLifetime)) (r.(PreferredLifetime)) (r.(Metric)) (r.(Protocol)) (r.(Loopback))
    (r.(AutoconfigureAddress)) (r.(Publish)) (r.(Immortal)) (r.(Age)) (r.(Origin)).

Definition set_DestinationPrefix (x : IPAddressPrefix) (r : t) : t :=
  mk
    (r.(InterfaceLUID)) (r.(InterfaceIndex)) x (r.(NextHop)) (r.(SitePrefixLength))
    (r.(ValidLifetime)) (r.(PreferredLifetime)) (r.(Metric)) (r.(Protocol)) (r.(Loopback))
    (r.(AutoconfigureAddress)) (r.(Publish)) (r.(Immortal)) (r.(Age)) (r.(Origin)).

Definition set_NextHop (x : RawSockaddrInet) (r : t) : t :=
  mk
    (r.(InterfaceLUID)) (r.(InterfaceIndex)) (r.(DestinationPrefix)) x (r.(SitePrefixLength))
    (r.(ValidLifetime)) (r.(PreferredLifetime)) (r.(Metric)) (r.(Protocol)) (r.(Loopback))
    (r.(AutoconfigureAddress)) (r.(Publish)) (r.(Immortal)) (r.(Age)) (r.(Origin)).

Definition set_ValidLifetime (x : Z) (r : t) : t :=
  mk
    (r.(InterfaceLUID)) (r.(InterfaceIndex)) (r.(DestinationPrefix)) (r.(NextHop))
    (r.(SitePrefixLength)) x (r.(PreferredLifetime)) (r.(Metric)) (r.(Protocol)) (r.(Loopback))
    (r.(AutoconfigureAddress)) (r.(Publish)) (r.(Immortal)) (r.(Age)) (r.(Origin)).

Definition set_PreferredLifetime (x : Z) (r : t) : t :=
  mk
    (r.(InterfaceLUID)) (r.(InterfaceIndex)) (r.(DestinationPrefix)) (r.(NextHop))
    (r.(SitePrefixLength)) (r.(ValidLifetime)) x (r.(Metric)) (r.(Protocol)) (r.(Loopback))
    (r.(AutoconfigureAddress)) (r.(Publish)) (r.(Immortal)) (r.(Age)) (r.(Origin)).

Definition set_Metric (x : Z) (r : t) : t :=
  mk
    (r.(InterfaceLUID)) (r.(InterfaceIndex)) (r.(DestinationPrefix)) (r.(NextHop))
    (r.(SitePrefixLength)) (r.(ValidLifetime)) (r.(PreferredLifetime)) x (r.(Protocol))
    (r.(Loopback)) (r.(AutoconfigureAddress)) (r.(Publish)) (r.(Immortal)) (r.(Age))
    (r.(Origin)).

End MibIPforwardRow2.

#[export] Instance MibIPInterfaceRow_eq_dec : EqDecision MibIPInterfaceRow.t.
Proof. solve_decision. Defined.
#[export] Instance MibIfRow2_eq_dec : EqDecision MibIfRow2.t.
Proof. solve_decision. Defined.
#[export] Instance MibUnicastIPAddressRow_eq_dec : EqDecision MibUnicastIPAddressRow.t.
Proof. solve_decision. Defined.
#[export] Instance MibAnycastIPAddressRow_eq_dec : EqDecision MibAnycastIPAddressRow.t.
Proof. solve_decision. Defined.
#[export] Instance MibIPforwardRow2_eq_dec : EqDecision MibIPforwardRow2.t.
Proof. solve_decision. Defined.

(** An adapter, without its [Length] and the link [Next] of the list it is in.
    Pointers to text may be nil, a linked list is the list of its entries, and an
    address is its IP ([windows.SocketAddress.IP], nil for an address that is
    neither IPv4 nor IPv6). *)
Module IPAdapterAddresses.

Record t : Type := mk {
  IfIndex : Z;
  adapterName : list Z;
  FirstUnicastAddress : list (option (list Z));
  FirstAnycastAddress : list (option (list Z));
  FirstMulticastAddress : list (option (list Z));
  FirstDNSServerAddress : list (option (list Z));
  dnsSuffix : option (list Z);
  description : option (list Z);
  friendlyName : option (list Z);
  physicalAddress : list Z;
  physicalAddressLength : Z;
  Flags : Z;
  MTU : Z;
  IfType : Z;
  OperStatus : Z;
  IPv6IfIndex : Z;
  ZoneIndices : list Z;
  FirstPrefix : list (option (list Z) * Z);
  TransmitLinkSpeed : Z;
  ReceiveLinkSpeed : Z;
  FirstWINSServerAddress : list (option (list Z));
  FirstGatewayAddress : list (option (list Z));
  Ipv4Metric : Z;
  Ipv6Metric : Z;
  LUID : Z;
  DHCPv4Server : option (list Z);
  CompartmentID : Z;
  NetworkGUID : GUID;
  ConnectionType : Z;
  TunnelType : Z;
  DHCPv6Server : option (list Z);
  dhcpv6ClientDUID : list Z;
  dhcpv6ClientDUIDLength : Z;
  DHCPv6IAID : Z;
  FirstDNSSuffix : list (list Z);
}.

End IPAdapterAddresses.

(** ** Constants (winipcfg/types.go) *)

Definition DadStatePreferred : Z := 4.
Definition GAAFlagDefault : Z := 0.

Definition DnsInterfaceSettingsVersion1 : Z := 1.
Definition DnsInterfaceSettingsFlagIPv6 : Z := 0x0001.
Definition DnsInterfaceSettingsFlagNameserver : Z := 0x0002.
Definition DnsInterfaceSettingsFlagSearchList : Z := 0x0004.

(** A Go slice expression [a[:n]]: [None] is the panic when [n] is larger than
    the array. *)
Definition slice_to {A} (n : Z) (a : list A) : option (list A) :=
  if decide (n <= Z.of_nat (length a)) then Some (take (Z.to_nat n) a) else None.

(** The accessors of physical addresses. *)
Definition IfRow_PhysicalAddress (row : MibIfRow2.t) : option (list Z) :=
  slice_to (MibIfRow2.physicalAddressLength row) (MibIfRow2.physicalAddress row).

Definition IfRow_PermanentPhysicalAddress (row : MibIfRow2.t) : option (list Z) :=
  slice_to (MibIfRow2.physicalAddressLength row) (MibIfRow2.permanentPhysicalAddress row).

Definition Adapter_PhysicalAddress (a : IPAdapterAddresses.t) : option (list Z) :=
  slice_to (IPAdapterAddresses.physicalAddressLength a) (IPAdapterAddresses.physicalAddress a).

Definition DHCPv6ClientDUID (a : IPAdapterAddresses.t) : option (list Z) :=
  slice_to (IPAdapterAddresses.dhcpv6ClientDUIDLength a) (IPAdapterAddresses.dhcpv6ClientDUID a).
