(* ===== verification/Texts.v ===== *)
(** * The texts of rows and adapters (winipcfg/types.go)

    The accessors that turn UTF-16 arrays and pointers into strings, over the
    functions of golang.org/x/sys/windows that do it. *)

From S2P Require Import Prelude GoStrings Utf8 Utf16 IpTypes.
From Stdlib Require Import ZArith Ascii String Lia.
From stdpp Require Import base list strings.
Open Scope Z_scope.
Local Open Scope list_scope.

(** The functions of package windows.  A pointer stands for the memory from it
    on; the empty memory for nil. *)
Class WindowsText : Type := {
  UTF16ToString : list Z -> bytes;
  UTF16PtrToString : list Z -> bytes;
  BytePtrToString : list Z -> bytes;
}.

(** What is before the first 0. *)
Fixpoint until_nul (us : list Z) : list Z :=
  match us with
  | [] => []
  | u :: us => if decide (u = 0) then [] else u :: until_nul us
  end.

(** No surrogate without its other half. *)
Definition paired (us : list Z) : Prop := exists rs, Forall scalar rs /\ us = Encode16 rs.

(** The documentation of these functions: the UTF-8 text of the units before the
    0, which a pointer's memory must hold.  It leaves open what becomes of an
    unpaired surrogate. *)
Class WindowsTextLaws `{WindowsText} : Prop := {
  UTF16ToString_spec us :
    paired (until_nul us) -> UTF16ToString us = of_runes (Decode16 (until_nul us));
  UTF16PtrToString_spec us :
    0 ∈ us -> paired (until_nul us) -> UTF16PtrToString us = of_runes (Decode16 (until_nul us));
  BytePtrToString_spec m : 0 ∈ m -> BytePtrToString m = map byte (until_nul m);
}.

Section Texts.
Context `{WindowsText}.

Definition IfRow_Alias (row : MibIfRow2.t) : bytes := UTF16ToString (MibIfRow2.alias row).

Definition IfRow_Description (row : MibIfRow2.t) : bytes :=
  UTF16ToString (MibIfRow2.description row).

(** Of the array [str] of an [IPAdapterDNSSuffix]. *)
Definition DNSSuffix_String (str : list Z) : bytes := UTF16ToString str.

Definition AdapterName (a : IPAdapterAddresses.t) : bytes :=
  BytePtrToString (IPAdapterAddresses.adapterName a).

Definition DNSSuffix (a : IPAdapterAddresses.t) : bytes :=
  match IPAdapterAddresses.dnsSuffix a with None => [] | Some p => UTF16PtrToString p end.

Definition Adapter_Description (a : IPAdapterAddresses.t) : bytes :=
  match IPAdapterAddresses.description a with None => [] | Some p => UTF16PtrToString p end.

Definition FriendlyName (a : IPAdapterAddresses.t) : bytes :=
  match IPAdapterAddresses.friendlyName a with None => [] | Some p => UTF16PtrToString p end.

(** ** What they read *)

(** The system stores a text as its units, ended by 0 where room is left. *)
Definition stores (us m : list Z) : Prop := m = us \/ exists junk, m = us ++ 0 :: junk.

Lemma until_nul_stores us m : 0 ∉ us -> stores us m -> until_nul m = us.
Proof.
  intros Hz [->|[junk ->]]; induction us as [|u us IH]; try done; cbn [app until_nul];
    apply not_elem_of_cons in Hz as [Hu Hus]; rewrite decide_False by done; by rewrite IH.
Qed.

Lemma stored_text s m :
  utf8 s -> byte 0 ∉ s -> stores (Encode16 (runes s)) m ->
  paired (until_nul m) /\ of_runes (Decode16 (until_nul m)) = s.
Proof.
  intros Hu Hz Hm. pose proof (runes_scalar s Hu) as Hs.
  rewrite (until_nul_stores _ _ (Encode16_nonzero _ Hs (runes_nonzero s Hu Hz)) Hm).
  split; [by exists (runes s)|]. by rewrite Decode16_Encode16, of_runes_runes.
Qed.

(** C38: a text the system stored in UTF-16, in an array that it may fill or in
    memory that ends with a 0, is read back as the UTF-8 string it was, whatever
    follows it; absent texts are empty, and the name of an adapter is its bytes. *)
Theorem texts_read_back `{!WindowsTextLaws} s m :
  utf8 s -> byte 0 ∉ s -> stores (Encode16 (runes s)) m ->
  (forall row, MibIfRow2.alias row = m -> IfRow_Alias row = s) /\
  (forall row, MibIfRow2.description row = m -> IfRow_Description row = s) /\
  DNSSuffix_String m = s /\
  (forall a, 0 ∈ m ->
     (IPAdapterAddresses.dnsSuffix a = Some m -> DNSSuffix a = s) /\
     (IPAdapterAddresses.description a = Some m -> Adapter_Description a = s) /\
     (IPAdapterAddresses.friendlyName a = Some m -> FriendlyName a = s)) /\
  (forall a,
     (IPAdapterAddresses.dnsSuffix a = None -> DNSSuffix a = []) /\
     (IPAdapterAddresses.description a = None -> Adapter_Description a = []) /\
     (IPAdapterAddresses.friendlyName a = None -> FriendlyName a = [])) /\
  (forall a junk, IPAdapterAddresses.adapterName a = map code s ++ 0 :: junk -> AdapterName a = s).
Proof.
  intros Hu Hz Hm. destruct (stored_text s m Hu Hz Hm) as [Hp Ht].
  unfold IfRow_Alias, IfRow_Description, DNSSuffix_String, DNSSuffix, Adapter_Description,
    FriendlyName, AdapterName.
  rewrite (UTF16ToString_spec m Hp), Ht.
  split; [|split; [|split; [|split; [|split]]]].
  - intros row ->. by rewrite (UTF16ToString_spec m Hp).
  - intros row ->. by rewrite (UTF16ToString_spec m Hp).
  - done.
  - intros a Hnul. pose proof (UTF16PtrToString_spec m Hnul Hp) as Hs. rewrite Ht in Hs.
    split; [|split]; by intros ->.
  - intros a. split; [|split]; by intros ->.
  - intros a junk ->. rewrite BytePtrToString_spec by (apply elem_of_app; right; apply list_elem_of_here).
    assert (0 ∉ map code s) as Hc.
    { intros (b & Hb & Hin)%list_elem_of_fmap. apply Hz. by rewrite Hb, byte_code. }
    rewrite (until_nul_stores (map code s)); [|done|right; by eexists].
    rewrite map_map, (map_ext _ id) by apply byte_code. apply map_id.
Qed.
End Texts.

(** ** Functions with this documentation *)
Module TextSample.
Definition decode (us : list Z) : bytes := of_runes (Decode16 (until_nul us)).

#[export] Instance text : WindowsText := {
  UTF16ToString := decode;
  UTF16PtrToString := decode;
  BytePtrToString := fun m => map byte (until_nul m);
}.

#[export] Instance text_laws : WindowsTextLaws.
Proof. by split. Qed.
End TextSample.
Import TextSample.

(** "WLAN" followed by a musical clef, outside the basic plane, in an array with
    the rest of an older text. *)
Definition wlan : bytes := to_bytes "WLAN " ++ map byte [0xF0; 0x9D; 0x84; 0x9E].
Definition wlan_units : list Z := [87; 76; 65; 78; 32; 0xD834; 0xDD1E].

Lemma texts_read_back_witness :
  Encode16 (runes wlan) = wlan_units /\ DNSSuffix_String (wlan_units ++ [0; 120; 0]) = wlan.
Proof.
  assert (Encode16 (runes wlan) = wlan_units) as He by (vm_compute; reflexivity).
  split; [exact He|].
  refine (proj1 (proj2 (proj2 (texts_read_back wlan (wlan_units ++ [0; 120; 0]) _ _ _)))).
  - apply Valid_utf8. vm_compute. reflexivity.
  - apply (bool_decide_unpack _). vm_compute. exact I.
  - right. exists [120; 0]. rewrite He. reflexivity.
Defined.
