(* ===== verification/Memory.v ===== *)
(** * Structures in memory

    A block of memory is its bytes.  The leaves of a declaration are the
    integers it is made of, each at its offset ([leaves], after the layout rules
    of Layout.v; padding has none).  Values are written and read leaf by leaf;
    what is written is read back whatever the block held, and if two
    declarations have the same leaves then one reads what the other wrote. *)

From Stdlib Require Import ZArith String Lia.
From stdpp Require Import base list strings.
From S2P Require Import Prelude Netip Sockaddr IpTypes Layout.
Open Scope Z_scope.
Local Open Scope list_scope.

(** An integer in a block: offset and number of bytes. *)
Definition leaf : Type := nat * nat.

Section Leaves.
Context (m : machine).

Fixpoint leaves (t : ty) (off : Z) : list leaf :=
  match t with
  | U n | I n => [(Z.to_nat off, Z.to_nat n)]
  | Ptr => [(Z.to_nat off, Z.to_nat (ptr_bytes m))]
  | Arr n t =>
      (fix go (k : nat) (off : Z) : list leaf :=
         match k with
         | O => []
         | S k => leaves t off ++ go k (off + size m t)
         end) (Z.to_nat n) off
  | Struct fs =>
      (fix go (fs : list (string * ty)) (o : Z) : list leaf :=
         match fs with
         | [] => []
         | (f, t) :: fs =>
             let at_ := align_up (align m t) o in
             (if String.eqb f "_" then [] else leaves t (off + at_)) ++ go fs (at_ + size m t)
         end) fs 0
  end.

(** The offset of a named field of a structure. *)
Definition field_offset (t : ty) (f : string) : nat :=
  match list_find (fun x => x.1.1 = f) (layout m t).1 with
  | Some (_, (_, o, _)) => Z.to_nat o
  | None => 0
  end.
End Leaves.

(** ** Reading and writing leaves *)

Definition read (ls : list leaf) (blk : list Z) : list Z :=
  map (fun '(o, n) => le_value (get o n blk)) ls.

Fixpoint write (ls : list leaf) (vs : list Z) (blk : list Z) : list Z :=
  match ls, vs with
  | (o, n) :: ls, v :: vs => put o (le_bytes n v) (write ls vs blk)
  | _, _ => blk
  end.

(** The leaves follow one another between [from] and [to]. *)
Fixpoint spaced (from : nat) (ls : list leaf) (to : nat) : bool :=
  match ls with
  | [] => (from <=? to)%nat
  | (o, n) :: ls => (from <=? o)%nat && spaced (o + n) ls to
  end.

Lemma spaced_le from ls to : spaced from ls to = true -> (from <= to)%nat.
Proof.
  revert from. induction ls as [|[o n] ls IH]; intros from; simpl.
  - by intros ?%Nat.leb_le.
  - intros [?%Nat.leb_le Hs]%andb_prop. specialize (IH _ Hs). lia.
Qed.

Lemma spaced_weaken from from' ls to :
  (from' <= from)%nat -> spaced from ls to = true -> spaced from' ls to = true.
Proof.
  destruct ls as [|[o n] ls]; simpl; intros Hf.
  - intros ?%Nat.leb_le. apply Nat.leb_le. lia.
  - intros [?%Nat.leb_le ->]%andb_prop. rewrite andb_true_r. apply Nat.leb_le. lia.
Qed.

(** The values fit their leaves. *)
Definition fit (ns : list nat) (vs : list Z) : Prop :=
  Forall2 (fun n v => fits (8 * Z.of_nat n) v) ns vs.

Lemma length_write from ls vs blk :
  spaced from ls (length blk) = true -> length (write ls vs blk) = length blk.
Proof.
  revert from vs. induction ls as [|[o n] ls IH]; intros from [|v vs]; simpl; try done.
  intros [Ho Hs]%andb_prop. pose proof (spaced_le _ _ _ Hs).
  rewrite length_put; rewrite (IH _ _ Hs); [done|rewrite length_le_bytes; lia].
Qed.

(** Reading behind an offset does not see what is written before it. *)
Lemma read_put o bs ls blk to :
  spaced (o + length bs) ls to = true -> (o + length bs <= length blk)%nat ->
  read ls (put o bs blk) = read ls blk.
Proof.
  revert blk. intros blk Hs Hl.
  assert (forall from, (o + length bs <= from)%nat -> spaced from ls to = true ->
    read ls (put o bs blk) = read ls blk) as Hr; [|by apply (Hr (o + length bs)%nat)].
  clear Hs. induction ls as [|[o' n'] ls IH]; intros from Hf; simpl; [done|].
  intros [Ho%Nat.leb_le Hs]%andb_prop.
  rewrite get_put_other by lia. f_equal. apply (IH (o' + n')%nat); [lia|done].
Qed.

Lemma read_write from ls vs blk :
  spaced from ls (length blk) = true -> fit (map snd ls) vs -> read ls (write ls vs blk) = vs.
Proof.
  revert from vs. induction ls as [|[o n] ls IH]; intros from vs Hs Hf; inversion_clear Hf as [|? v ? vs' Hv Hvs]; [done|].
  simpl. revert Hs. simpl.
  intros [Ho Hs]%andb_prop. pose proof (spaced_le _ _ _ Hs).
  rewrite get_put, le_value_bytes; rewrite ?length_le_bytes; try done.
  - f_equal. rewrite (read_put _ _ _ _ (length blk)); rewrite ?length_le_bytes.
    + by apply (IH (o + n)%nat).
    + done.
    + rewrite (length_write (o + n)); [lia|done].
  - rewrite (length_write (o + n)); [lia|done].
Qed.

(** Integers of two's complement. *)
Definition signed (n : nat) (x : Z) : Z :=
  if decide (2 * x < 2 ^ (8 * Z.of_nat n)) then x else x - 2 ^ (8 * Z.of_nat n).
Definition unsigned (n : nat) (x : Z) : Z := x mod 2 ^ (8 * Z.of_nat n).

Lemma signed_unsigned n x :
  (0 < n)%nat ->
  - 2 ^ (8 * Z.of_nat n) <= 2 * x < 2 ^ (8 * Z.of_nat n) -> signed n (unsigned n x) = x.
Proof.
  intros Hn Hx. unfold signed, unsigned. set (M := 2 ^ (8 * Z.of_nat n)) in *.
  destruct (decide (0 <= x)).
  - rewrite Z.mod_small by lia. by rewrite decide_True by lia.
  - replace (x mod M) with (x + M).
    + rewrite decide_False by lia. lia.
    + rewrite <- (Z.mod_add x 1 M) by lia. rewrite Z.mod_small; lia.
Qed.

Lemma unsigned_fits n x : fits (8 * Z.of_nat n) (unsigned n x).
Proof. apply Z.mod_pos_bound. lia. Qed.

(** ** Go values as leaves *)

(** The kinds of fields the rows have. *)
Inductive field : Type -> Type :=
| FUint (n : nat) : field Z
| FInt (n : nat) : field Z
| FBool : field bool
| FUints (k n : nat) : field (list Z)
| FGUID : field GUID
| FSockaddr : field RawSockaddrInet
| FPrefix : field IPAddressPrefix.

Definition field_ty {A} (f : field A) : ty :=
  match f with
  | FUint n => U (Z.of_nat n)
  | FInt n => I (Z.of_nat n)
  | FBool => U 1
  | FUints k n => Arr (Z.of_nat k) (U (Z.of_nat n))
  | FGUID => GUID_layout
  | FSockaddr => RawSockaddrInet_layout
  | FPrefix => IPAddressPrefix_layout
  end.

(** The bytes of each integer of a field. *)
Definition widths {A} (f : field A) : list nat :=
  match f with
  | FUint n | FInt n => [n]
  | FBool => [1%nat]
  | FUints k n => replicate k n
  | FGUID => [4; 2; 2]%nat ++ replicate 8 1%nat
  | FSockaddr => 2%nat :: replicate 26 1%nat
  | FPrefix => 2%nat :: replicate 26 1%nat ++ [1%nat]
  end.

Definition ints_of {A} (f : field A) : A -> list Z :=
  match f with
  | FUint _ => fun x => [x]
  | FInt n => fun x => [unsigned n x]
  | FBool => fun b => [Z.b2z b]
  | FUints _ _ => fun l => l
  | FGUID => fun g => [Data1 g; Data2 g; Data3 g] ++ Data4 g
  | FSockaddr => fun a => Family a :: data a
  | FPrefix => fun p => Family (RawPrefix p) :: data (RawPrefix p) ++ [PrefixLength p]
  end.

Definition of_ints {A} (f : field A) : list Z -> A :=
  match f with
  | FUint _ => fun l => hd 0 l
  | FInt n => fun l => signed n (hd 0 l)
  | FBool => fun l => negb (hd 0 l =? 0)
  | FUints _ _ => fun l => l
  | FGUID => fun l => mkGUID (hd 0 l) (hd 0 (drop 1 l)) (hd 0 (drop 2 l)) (drop 3 l)
  | FSockaddr => fun l => mkSockaddr (hd 0 l) (drop 1 l)
  | FPrefix => fun l => mkIPPrefix (mkSockaddr (hd 0 l) (take 26 (drop 1 l))) (hd 0 (drop 27 l))
  end.

(** Values of the field's Go type. *)
Definition typed_field {A} (f : field A) : A -> Prop :=
  match f with
  | FUint n => fun x => fits (8 * Z.of_nat n) x
  | FInt n => fun x => (0 < n)%nat /\ - 2 ^ (8 * Z.of_nat n) <= 2 * x < 2 ^ (8 * Z.of_nat n)
  | FBool => fun _ => True
  | FUints k n => fun l => length l = k /\ Forall (fits (8 * Z.of_nat n)) l
  | FGUID => fun g => fits 32 (Data1 g) /\ fits 16 (Data2 g) /\ fits 16 (Data3 g) /\
                      length (Data4 g) = 8%nat /\ Forall (fits 8) (Data4 g)
  | FSockaddr => wf_sockaddr
  | FPrefix => fun p => wf_sockaddr (RawPrefix p) /\ fits 8 (PrefixLength p)
  end.

Lemma fit_replicate k n l :
  length l = k -> Forall (fits (8 * Z.of_nat n)) l -> fit (replicate k n) l.
Proof. intros <-. induction 1; constructor; done. Qed.

Lemma fit_ints {A} (f : field A) (x : A) : typed_field f x -> fit (widths f) (ints_of f x).
Proof.
  destruct f; cbn [typed_field widths ints_of].
  - intros Hx. constructor; [exact Hx|constructor].
  - intros _. constructor; [apply unsigned_fits|constructor].
  - intros _. constructor; [destruct x; done|constructor].
  - intros [Hl Hx]. by apply fit_replicate.
  - intros (? & ? & ? & ? & ?). do 3 (constructor; [done|]). by apply fit_replicate.
  - intros (? & ? & ?). constructor; [done|]. by apply fit_replicate.
  - intros [(? & ? & ?) ?]. constructor; [done|]. apply Forall2_app; [by apply fit_replicate|].
    constructor; [done|constructor].
Qed.

Lemma of_ints_of {A} (f : field A) (x : A) : typed_field f x -> of_ints f (ints_of f x) = x.
Proof.
  destruct f; cbn [typed_field of_ints ints_of]; try done.
  - intros [Hn Hx]. by apply signed_unsigned.
  - by destruct x.
  - by destruct x.
  - by destruct x.
  - intros [(_ & Hl & _) _]. destruct x as [[fam d] n]. simpl in Hl.
    do 26 (destruct d as [|? d]; [done|]). by destruct d.
Qed.

(** ** Structures as their fields *)
Inductive fields : Type -> Type :=
| FNil : fields unit
| FCons {A T} (name : string) (f : field A) (rest : fields T) : fields (A * T).

Fixpoint fields_ty {T} (fs : fields T) : list (string * ty) :=
  match fs with
  | FNil => []
  | FCons name f rest => (name, field_ty f) :: fields_ty rest
  end.

Fixpoint fields_widths {T} (fs : fields T) : list nat :=
  match fs with
  | FNil => []
  | FCons _ f rest => widths f ++ fields_widths rest
  end.

Fixpoint fields_ints {T} (fs : fields T) : T -> list Z :=
  match fs with
  | FNil => fun _ => []
  | FCons _ f rest => fun '(x, t) => ints_of f x ++ fields_ints rest t
  end.

Fixpoint fields_of {T} (fs : fields T) (l : list Z) : T :=
  match fs with
  | FNil => tt
  | FCons _ f rest =>
      (of_ints f (take (length (widths f)) l), fields_of rest (drop (length (widths f)) l))
  end.

Fixpoint fields_typed {T} (fs : fields T) : T -> Prop :=
  match fs with
  | FNil => fun _ => True
  | FCons _ f rest => fun '(x, t) => typed_field f x /\ fields_typed rest t
  end.

Lemma fields_fit {T} (fs : fields T) (t : T) :
  fields_typed fs t -> fit (fields_widths fs) (fields_ints fs t).
Proof.
  induction fs as [|A T name f rest IH]; [constructor|]. destruct t as [x t]. intros [Hx Ht].
  apply Forall2_app; [by apply fit_ints|by apply IH].
Qed.

Lemma fields_of_ints {T} (fs : fields T) (t : T) :
  fields_typed fs t -> fields_of fs (fields_ints fs t) = t.
Proof.
  induction fs as [|A T name f rest IH]; [by destruct t|]. destruct t as [x t]. intros [Hx Ht].
  cbn [fields_of fields_ints]. pose proof (Forall2_length _ _ _ (fit_ints f x Hx)) as Hl.
  rewrite take_app_length', drop_app_length' by done. by rewrite of_ints_of, IH.
Qed.

(** The declaration without its padding. *)
Definition named (t : ty) : list (string * ty) :=
  match t with
  | Struct fs => List.filter (fun '(f, _) => negb (String.eqb f "_")) fs
  | _ => []
  end.
