(* ===== verification/RowMemory.v ===== *)
(** * The rows of the IP helper API in memory (winipcfg/types_32.go, types_64.go)

    Each row as its declaration lays it out, on both word sizes: the record of
    IpTypes.v, field by field by name, is written to and read from the bytes of
    the structure.  The system lays rows out by the alignment of Windows, Go by
    the declaration of the machine; a row crosses between them unchanged. *)

From Stdlib Require Import ZArith String Lia.
From stdpp Require Import base list strings.
From S2P Require Import Prelude Netip Sockaddr IpTypes Layout Memory.
Open Scope Z_scope.
Local Open Scope string_scope.
Local Open Scope list_scope.

(** The machines the program is built for. *)
Inductive word : Type := W32 | W64.

Definition pick {A} (w : word) (a32 a64 : A) : A := match w with W32 => a32 | W64 => a64 end.

(** The layout rules of Go and of the system there. *)
Definition go_rules (w : word) : machine := pick w go32 go64.
Definition sys_rules (w : word) : machine := pick w win32 go64.

(** A row: its fields, and the declarations of it and of its table.  The
    declaration of the system is the one for 64-bit machines, whose padding
    follows from the alignment alone. *)
Class Row (R : Type) : Type := {
  row_type : Type;
  row_fields : fields row_type;
  row_tuple : R -> row_type;
  tuple_row : row_type -> R;
  row_decl : word -> ty;
  table_decl : word -> ty;
  tuple_row_tuple (r : R) : tuple_row (row_tuple r) = r;
  row_named (w : word) : named (row_decl w) = fields_ty row_fields;
  row_widths (w : word) :
    map snd (leaves (go_rules w) (row_decl w) 0) = fields_widths row_fields;
  row_spaced (w : word) :
    spaced 0 (leaves (go_rules w) (row_decl w) 0) (Z.to_nat (size (go_rules w) (row_decl w)))
    = true;
  row_leaves_agree (w : word) :
    leaves (sys_rules w) (row_decl W64) 0 = leaves (go_rules w) (row_decl w) 0;
  row_size_agree (w : word) :
    size (sys_rules w) (row_decl W64) = size (go_rules w) (row_decl w);
  table_named (w : word) :
    named (table_decl w) = [("numEntries", U 4); ("table", Arr 1 (row_decl w))];
  table_agree (w : word) :
    layout (sys_rules w) (table_decl W64) = layout (go_rules w) (table_decl w);
  table_header (w : word) :
    (field_offset (go_rules w) (table_decl w) "numEntries" + 4
     <= field_offset (go_rules w) (table_decl w) "table")%nat;
}.

Ltac row_tac :=
  match goal with
  | |- forall w : word, (_ <= _)%nat => intros []; apply Nat.leb_le; vm_compute; reflexivity
  | |- forall w : word, _ => intros []; vm_compute; reflexivity
  | |- forall r, _ => intros []; reflexivity
  end.

#[export, refine] Instance MibIPInterfaceRow_row : Row MibIPInterfaceRow.t := {|
  row_fields :=
    FCons "Family" (FUint 2) (FCons "InterfaceLUID" (FUint 8) (FCons "InterfaceIndex" (FUint 4)
    (FCons "MaxReassemblySize" (FUint 4) (FCons "InterfaceIdentifier" (FUint 8)
    (FCons "MinRouterAdvertisementInterval" (FUint 4)
    (FCons "MaxRouterAdvertisementInterval" (FUint 4) (FCons "AdvertisingEnabled" FBool
    (FCons "ForwardingEnabled" FBool (FCons "WeakHostSend" FBool (FCons "WeakHostReceive" FBool
    (FCons "UseAutomaticMetric" FBool (FCons "UseNeighborUnreachabilityDetection" FBool
    (FCons "ManagedAddressConfigurationSupported" FBool
    (FCons "OtherStatefulConfigurationSupported" FBool (FCons "AdvertiseDefaultRoute" FBool
    (FCons "RouterDiscoveryBehavior" (FInt 4) (FCons "DadTransmits" (FUint 4)
    (FCons "BaseReachableTime" (FUint 4) (FCons "RetransmitTime" (FUint 4)
    (FCons "PathMTUDiscoveryTimeout" (FUint 4) (FCons "LinkLocalAddressBehavior" (FInt 4)
    (FCons "LinkLocalAddressTimeout" (FUint 4) (FCons "ZoneIndices" (FUints 16 4)
    (FCons "SitePrefixLength" (FUint 4) (FCons "Metric" (FUint 4) (FCons "NLMTU" (FUint 4)
    (FCons "Connected" FBool (FCons "SupportsWakeUpPatterns" FBool
    (FCons "SupportsNeighborDiscovery" FBool (FCons "SupportsRouterDiscovery" FBool
    (FCons "ReachableTime" (FUint 4) (FCons "TransmitOffload" (FUint 1)
    (FCons "ReceiveOffload" (FUint 1)
    (FCons "DisableDefaultRoutes" FBool FNil))))))))))))))))))))))))))))))))));
  row_tuple r :=
    (MibIPInterfaceRow.Family r, (MibIPInterfaceRow.InterfaceLUID r,
    (MibIPInterfaceRow.InterfaceIndex r, (MibIPInterfaceRow.MaxReassemblySize r,
    (MibIPInterfaceRow.InterfaceIdentifier r,
    (MibIPInterfaceRow.MinRouterAdvertisementInterval r,
    (MibIPInterfaceRow.MaxRouterAdvertisementInterval r,
    (MibIPInterfaceRow.AdvertisingEnabled r, (MibIPInterfaceRow.ForwardingEnabled r,
    (MibIPInterfaceRow.WeakHostSend r, (MibIPInterfaceRow.WeakHostReceive r,
    (MibIPInterfaceRow.UseAutomaticMetric r,
    (MibIPInterfaceRow.UseNeighborUnreachabilityDetection r,
    (MibIPInterfaceRow.ManagedAddressConfigurationSupported r,
    (MibIPInterfaceRow.OtherStatefulConfigurationSupported r,
    (MibIPInterfaceRow.AdvertiseDefaultRoute r, (MibIPInterfaceRow.RouterDiscoveryBehavior r,
    (MibIPInterfaceRow.DadTransmits r, (MibIPInterfaceRow.BaseReachableTime r,
    (MibIPInterfaceRow.RetransmitTime r, (MibIPInterfaceRow.PathMTUDiscoveryTimeout r,
    (MibIPInterfaceRow.LinkLocalAddressBehavior r,
    (MibIPInterfaceRow.LinkLocalAddressTimeout r, (MibIPInterfaceRow.ZoneIndices r,
    (MibIPInterfaceRow.SitePrefixLength r, (MibIPInterfaceRow.Metric r,
    (MibIPInterfaceRow.NLMTU r, (MibIPInterfaceRow.Connected r,
    (MibIPInterfaceRow.SupportsWakeUpPatterns r,
    (MibIPInterfaceRow.SupportsNeighborDiscovery r,
    (MibIPInterfaceRow.SupportsRouterDiscovery r, (MibIPInterfaceRow.ReachableTime r,
    (MibIPInterfaceRow.TransmitOffload r, (MibIPInterfaceRow.ReceiveOffload r,
    (MibIPInterfaceRow.DisableDefaultRoutes r, tt)))))))))))))))))))))))))))))))))));
  tuple_row '
    (x0, (x1, (x2, (x3, (x4, (x5, (x6, (x7, (x8, (x9, (x10, (x11, (x12, (x13, (x14, (x15, (x16,
    (x17, (x18, (x19, (x20, (x21, (x22, (x23, (x24, (x25, (x26, (x27, (x28, (x29, (x30, (x31,
    (x32, (x33, (x34, _))))))))))))))))))))))))))))))))))) :=
    MibIPInterfaceRow.mk x0 x1 x2 x3 x4 x5 x6 x7 x8 x9 x10 x11 x12 x13 x14 x15 x16 x17 x18 x19
    x20 x21 x22 x23 x24 x25 x26 x27 x28 x29 x30 x31 x32 x33 x34;
  row_decl w := pick w MibIPInterfaceRow_32 MibIPInterfaceRow_64;
  table_decl w := pick w mibIPInterfaceTable_32 mibIPInterfaceTable_64;
|}.
Proof. all: row_tac. Defined.

#[export, refine] Instance MibIfRow2_row : Row MibIfRow2.t := {|
  row_fields :=
    FCons "InterfaceLUID" (FUint 8) (FCons "InterfaceIndex" (FUint 4)
    (FCons "InterfaceGUID" FGUID (FCons "alias" (FUints 257 2)
    (FCons "description" (FUints 257 2) (FCons "physicalAddressLength" (FUint 4)
    (FCons "physicalAddress" (FUints 32 1) (FCons "permanentPhysicalAddress" (FUints 32 1)
    (FCons "MTU" (FUint 4) (FCons "Type" (FUint 4) (FCons "TunnelType" (FUint 4)
    (FCons "MediaType" (FUint 4) (FCons "PhysicalMediumType" (FUint 4)
    (FCons "AccessType" (FUint 4) (FCons "DirectionType" (FUint 4)
    (FCons "InterfaceAndOperStatusFlags" (FUint 1) (FCons "OperStatus" (FUint 4)
    (FCons "AdminStatus" (FUint 4) (FCons "MediaConnectState" (FUint 4)
    (FCons "NetworkGUID" FGUID (FCons "ConnectionType" (FUint 4)
    (FCons "TransmitLinkSpeed" (FUint 8) (FCons "ReceiveLinkSpeed" (FUint 8)
    (FCons "InOctets" (FUint 8) (FCons "InUcastPkts" (FUint 8) (FCons "InNUcastPkts" (FUint 8)
    (FCons "InDiscards" (FUint 8) (FCons "InErrors" (FUint 8)
    (FCons "InUnknownProtos" (FUint 8) (FCons "InUcastOctets" (FUint 8)
    (FCons "InMulticastOctets" (FUint 8) (FCons "InBroadcastOctets" (FUint 8)
    (FCons "OutOctets" (FUint 8) (FCons "OutUcastPkts" (FUint 8)
    (FCons "OutNUcastPkts" (FUint 8) (FCons "OutDiscards" (FUint 8)
    (FCons "OutErrors" (FUint 8) (FCons "OutUcastOctets" (FUint 8)
    (FCons "OutMulticastOctets" (FUint 8) (FCons "OutBroadcastOctets" (FUint 8)
    (FCons "OutQLen" (FUint 8) FNil))))))))))))))))))))))))))))))))))))))));
  row_tuple r :=
    (MibIfRow2.InterfaceLUID r, (MibIfRow2.InterfaceIndex r, (MibIfRow2.InterfaceGUID r,
    (MibIfRow2.alias r, (MibIfRow2.description r, (MibIfRow2.physicalAddressLength r,
    (MibIfRow2.physicalAddress r, (MibIfRow2.permanentPhysicalAddress r, (MibIfRow2.MTU r,
    (MibIfRow2.Type_ r, (MibIfRow2.TunnelType r, (MibIfRow2.MediaType r,
    (MibIfRow2.PhysicalMediumType r, (MibIfRow2.AccessType r, (MibIfRow2.DirectionType r,
    (MibIfRow2.InterfaceAndOperStatusFlags r, (MibIfRow2.OperStatus r,
    (MibIfRow2.AdminStatus r, (MibIfRow2.MediaConnectState r, (MibIfRow2.NetworkGUID r,
    (MibIfRow2.ConnectionType r, (MibIfRow2.TransmitLinkSpeed r, (MibIfRow2.ReceiveLinkSpeed r,
    (MibIfRow2.InOctets r, (MibIfRow2.InUcastPkts r, (MibIfRow2.InNUcastPkts r,
    (MibIfRow2.InDiscards r, (MibIfRow2.InErrors r, (MibIfRow2.InUnknownProtos r,
    (MibIfRow2.InUcastOctets r, (MibIfRow2.InMulticastOctets r, (MibIfRow2.InBroadcastOctets r,
    (MibIfRow2.OutOctets r, (MibIfRow2.OutUcastPkts r, (MibIfRow2.OutNUcastPkts r,
    (MibIfRow2.OutDiscards r, (MibIfRow2.OutErrors r, (MibIfRow2.OutUcastOctets r,
    (MibIfRow2.OutMulticastOctets r, (MibIfRow2.OutBroadcastOctets r, (MibIfRow2.OutQLen r,
    tt)))))))))))))))))))))))))))))))))))))))));
  tuple_row '
    (x0, (x1, (x2, (x3, (x4, (x5, (x6, (x7, (x8, (x9, (x10, (x11, (x12, (x13, (x14, (x15, (x16,
    (x17, (x18, (x19, (x20, (x21, (x22, (x23, (x24, (x25, (x26, (x27, (x28, (x29, (x30, (x31,
    (x32, (x33, (x34, (x35, (x36, (x37, (x38, (x39, (x40,
    _))))))))))))))))))))))))))))))))))))))))) :=
    MibIfRow2.mk x0 x1 x2 x3 x4 x5 x6 x7 x8 x9 x10 x11 x12 x13 x14 x15 x16 x17 x18 x19 x20 x21
    x22 x23 x24 x25 x26 x27 x28 x29 x30 x31 x32 x33 x34 x35 x36 x37 x38 x39 x40;
  row_decl w := pick w MibIfRow2_32 MibIfRow2_64;
  table_decl w := pick w mibIfTable2_32 mibIfTable2_64;
|}.
Proof. all: row_tac. Defined.

#[export, refine] Instance MibUnicastIPAddressRow_row : Row MibUnicastIPAddressRow.t := {|
  row_fields :=
    FCons "Address" FSockaddr (FCons "InterfaceLUID" (FUint 8)
    (FCons "InterfaceIndex" (FUint 4) (FCons "PrefixOrigin" (FUint 4)
    (FCons "SuffixOrigin" (FUint 4) (FCons "ValidLifetime" (FUint 4)
    (FCons "PreferredLifetime" (FUint 4) (FCons "OnLinkPrefixLength" (FUint 1)
    (FCons "SkipAsSource" FBool (FCons "DadState" (FUint 4) (FCons "ScopeID" (FUint 4)
    (FCons "CreationTimeStamp" (FInt 8) FNil)))))))))));
  row_tuple r :=
    (MibUnicastIPAddressRow.Address r, (MibUnicastIPAddressRow.InterfaceLUID r,
    (MibUnicastIPAddressRow.InterfaceIndex r, (MibUnicastIPAddressRow.PrefixOrigin r,
    (MibUnicastIPAddressRow.SuffixOrigin r, (MibUnicastIPAddressRow.ValidLifetime r,
    (MibUnicastIPAddressRow.PreferredLifetime r, (MibUnicastIPAddressRow.OnLinkPrefixLength r,
    (MibUnicastIPAddressRow.SkipAsSource r, (MibUnicastIPAddressRow.DadState r,
    (MibUnicastIPAddressRow.ScopeID r, (MibUnicastIPAddressRow.CreationTimeStamp r,
    tt))))))))))));
  tuple_row '
    (x0, (x1, (x2, (x3, (x4, (x5, (x6, (x7, (x8, (x9, (x10, (x11, _)))))))))))) :=
    MibUnicastIPAddressRow.mk x0 x1 x2 x3 x4 x5 x6 x7 x8 x9 x10 x11;
  row_decl w := pick w MibUnicastIPAddressRow_32 MibUnicastIPAddressRow_64;
  table_decl w := pick w mibUnicastIPAddressTable_32 mibUnicastIPAddressTable_64;
|}.
Proof. all: row_tac. Defined.

#[export, refine] Instance MibAnycastIPAddressRow_row : Row MibAnycastIPAddressRow.t := {|
  row_fields :=
    FCons "Address" FSockaddr (FCons "InterfaceLUID" (FUint 8)
    (FCons "InterfaceIndex" (FUint 4) (FCons "ScopeID" (FUint 4) FNil)));
  row_tuple r :=
    (MibAnycastIPAddressRow.Address r, (MibAnycastIPAddressRow.InterfaceLUID r,
    (MibAnycastIPAddressRow.InterfaceIndex r, (MibAnycastIPAddressRow.ScopeID r, tt))));
  tuple_row '
    (x0, (x1, (x2, (x3, _)))) :=
    MibAnycastIPAddressRow.mk x0 x1 x2 x3;
  row_decl w := pick w MibAnycastIPAddressRow_32 MibAnycastIPAddressRow_64;
  table_decl w := pick w mibAnycastIPAddressTable_32 mibAnycastIPAddressTable_64;
|}.
Proof. all: row_tac. Defined.

#[export, refine] Instance MibIPforwardRow2_row : Row MibIPforwardRow2.t := {|
  row_fields :=
    FCons "InterfaceLUID" (FUint 8) (FCons "InterfaceIndex" (FUint 4)
    (FCons "DestinationPrefix" FPrefix (FCons "NextHop" FSockaddr
    (FCons "SitePrefixLength" (FUint 1) (FCons "ValidLifetime" (FUint 4)
    (FCons "PreferredLifetime" (FUint 4) (FCons "Metric" (FUint 4) (FCons "Protocol" (FUint 4)
    (FCons "Loopback" FBool (FCons "AutoconfigureAddress" FBool (FCons "Publish" FBool
    (FCons "Immortal" FBool (FCons "Age" (FUint 4) (FCons "Origin" (FUint 4) FNil))))))))))))));
  row_tuple r :=
    (MibIPforwardRow2.InterfaceLUID r, (MibIPforwardRow2.InterfaceIndex r,
    (MibIPforwardRow2.DestinationPrefix r, (MibIPforwardRow2.NextHop r,
    (MibIPforwardRow2.SitePrefixLength r, (MibIPforwardRow2.ValidLifetime r,
    (MibIPforwardRow2.PreferredLifetime r, (MibIPforwardRow2.Metric r,
    (MibIPforwardRow2.Protocol r, (MibIPforwardRow2.Loopback r,
    (MibIPforwardRow2.AutoconfigureAddress r, (MibIPforwardRow2.Publish r,
    (MibIPforwardRow2.Immortal r, (MibIPforwardRow2.Age r, (MibIPforwardRow2.Origin r,
    tt)))))))))))))));
  tuple_row '
    (x0, (x1, (x2, (x3, (x4, (x5, (x6, (x7, (x8, (x9, (x10, (x11, (x12, (x13, (x14,
    _))))))))))))))) :=
    MibIPforwardRow2.mk x0 x1 x2 x3 x4 x5 x6 x7 x8 x9 x10 x11 x12 x13 x14;
  row_decl w := pick w MibIPforwardRow2_layout MibIPforwardRow2_layout;
  table_decl w := pick w mibIPforwardTable2_32 mibIPforwardTable2_64;
|}.
Proof. all: row_tac. Defined.

Section Rows.
Context {R : Type} `{Row R} (w : word).

(** The size of a row and its leaves, for Go. *)
Definition row_size : nat := Z.to_nat (size (go_rules w) (row_decl w)).
Definition row_leaves : list leaf := leaves (go_rules w) (row_decl w) 0.

(** A Go value of the row's type. *)
Definition typed_row (r : R) : Prop := fields_typed row_fields (row_tuple r).

(** What Go writes and reads, and what the system does; padding keeps what the
    bytes were. *)
Definition go_write (r : R) (blk : list Z) : list Z :=
  write row_leaves (fields_ints row_fields (row_tuple r)) blk.
Definition go_read (blk : list Z) : R := tuple_row (fields_of row_fields (read row_leaves blk)).

Definition sys_leaves : list leaf := leaves (sys_rules w) (row_decl W64) 0.
Definition sys_write (r : R) (blk : list Z) : list Z :=
  write sys_leaves (fields_ints row_fields (row_tuple r)) blk.
Definition sys_read (blk : list Z) : R := tuple_row (fields_of row_fields (read sys_leaves blk)).

Lemma go_read_write (r : R) (blk : list Z) :
  typed_row r -> length blk = row_size -> go_read (go_write r blk) = r.
Proof.
  intros Hr Hl. unfold go_read, go_write. rewrite (read_write 0).
  - rewrite fields_of_ints by done. apply tuple_row_tuple.
  - rewrite Hl. apply row_spaced.
  - unfold row_leaves. rewrite row_widths. by apply fields_fit.
Qed.

Lemma sys_write_go (r : R) (blk : list Z) : sys_write r blk = go_write r blk.
Proof. unfold sys_write, go_write, sys_leaves, row_leaves. by rewrite row_leaves_agree. Qed.

Lemma sys_read_go (blk : list Z) : sys_read blk = go_read blk.
Proof. unfold sys_read, go_read, sys_leaves, row_leaves. by rewrite row_leaves_agree. Qed.

(** What Go writes the system reads, and the other way round. *)
Lemma rows_cross (r : R) (blk : list Z) :
  typed_row r -> length blk = row_size ->
  sys_read (go_write r blk) = r /\ go_read (sys_write r blk) = r.
Proof. intros Hr Hl. rewrite sys_read_go, sys_write_go. by split; apply go_read_write. Qed.

Lemma length_go_write (r : R) (blk : list Z) :
  length blk = row_size -> length (go_write r blk) = row_size.
Proof.
  intros Hl. unfold go_write. rewrite (length_write 0); [done|]. rewrite Hl. apply row_spaced.
Qed.
End Rows.

(** The signed fields: RouterDiscoveryUnchanged and LinkLocalAddressUnchanged are
    -1, all bits set. *)
Lemma signed_fields (w : word) :
  let ones {R} `{Row R} : R := go_read w (replicate (row_size (R := R) w) 255) in
  MibIPInterfaceRow.RouterDiscoveryBehavior ones = -1 /\
  MibIPInterfaceRow.LinkLocalAddressBehavior ones = -1 /\
  MibIPInterfaceRow.DadTransmits ones = 2 ^ 32 - 1 /\
  MibUnicastIPAddressRow.CreationTimeStamp ones = -1.
Proof. destruct w; vm_compute; by split_and!. Qed.
