(* ===== verification/Adapters.v ===== *)
(** * The list of adapters in its buffer (winipcfg/winipcfg.go, GetAdaptersAddresses)

    The system fills one buffer with the adapters, linked by [Next], and the code
    walks the links from the buffer's first byte until one is nil.  IpHelper.v
    has the buffer's adapters as the answer of the call; here is the walk itself,
    over the bytes of the buffer. *)

From Stdlib Require Import ZArith String Lia.
From stdpp Require Import base list strings.
From S2P Require Import Prelude Netip Sockaddr IpTypes Layout Memory RowMemory.
Open Scope Z_scope.
Local Open Scope string_scope.
Local Open Scope list_scope.

(** How the walk stands after a number of rounds: at its end, with the pointers
    it found; before a link outside the buffer; or still going. *)
Inductive walked : Type := Done (l : list Z) | Outside (p : Z) | Going.

Section Adapters.
Context (w : word) (SocketAddress : ty) (MAX_ADAPTER_ADDRESS_LENGTH : Z).

Definition adapter_decl : ty :=
  pick w (IPAdapterAddresses_32 SocketAddress MAX_ADAPTER_ADDRESS_LENGTH)
    (IPAdapterAddresses_64 SocketAddress MAX_ADAPTER_ADDRESS_LENGTH).

Definition off_next : nat := field_offset (go_rules w) adapter_decl "Next".
Definition ptr_size : nat := Z.to_nat (ptr_bytes (go_rules w)).

(** The buffer, at the address of its first byte. *)
Context (base : Z) (b : list Z).

(** Where in the buffer the link of the adapter at [p] is. *)
Definition link_at (p : Z) : Z := p - base + Z.of_nat off_next.

(** [wtiaa.Next] *)
Definition Next (p : Z) : option Z :=
  if decide (0 <= link_at p /\ link_at p + Z.of_nat ptr_size <= Z.of_nat (length b))
  then Some (le_value (get (Z.to_nat (link_at p)) ptr_size b)) else None.

(** [for wtiaa := ...; wtiaa != nil; wtiaa = wtiaa.Next { result = append(result, wtiaa) }] *)
Fixpoint walk (fuel : nat) (wtiaa : Z) (result : list Z) : walked :=
  match fuel with
  | O => Going
  | S fuel =>
      if decide (wtiaa = 0) then Done result
      else
        match Next wtiaa with
        | None => Outside wtiaa
        | Some next => walk fuel next (result ++ [wtiaa])
        end
  end.

(** A round for every byte of the buffer, and one to see the end. *)
Definition list_adapters : walked := walk (S (length b)) base [].

(** ** Paths along the links *)

(** From [p] the links lead through the adapters [l] to [q]. *)
Fixpoint path (p : Z) (l : list Z) (q : Z) : Prop :=
  match l with
  | [] => p = q
  | x :: l => x = p /\ p <> 0 /\ exists next, Next p = Some next /\ path next l q
  end.

(** The walk cannot go on at [q]. *)
Definition stops (q : Z) : Prop := q = 0 \/ Next q = None.

Lemma path_unique p l l' q q' :
  stops q -> stops q' -> path p l q -> path p l' q' -> l = l' /\ q = q'.
Proof.
  intros Hq Hq'. revert p l'. induction l as [|x l IH]; intros p [|x' l']; cbn.
  - by intros -> ->.
  - intros -> (_ & ? & n & Hn & _). destruct Hq as [?|Hq]; [done|]. by rewrite Hq in Hn.
  - intros (_ & ? & n & Hn & _) ->. destruct Hq' as [?|Hq']; [done|]. by rewrite Hq' in Hn.
  - intros (-> & _ & n & Hn & Hl) (-> & _ & n' & Hn' & Hl').
    rewrite Hn in Hn'. injection Hn' as <-. by destruct (IH n l' Hl Hl') as [-> ->].
Qed.

Lemma path_suffix p l q x :
  path p l q -> x ∈ l -> exists l', path x l' q /\ (length l' <= length l)%nat.
Proof.
  revert p. induction l as [|y l IH]; intros p Hc Hx; [by apply not_elem_of_nil in Hx|].
  assert (y = p) as -> by apply Hc.
  apply elem_of_cons in Hx as [->|Hx]; [by exists (p :: l)|].
  destruct Hc as (_ & _ & n & _ & Hl). destruct (IH n Hl Hx) as (l' & Hl' & Hle).
  exists l'. split; [done|]. cbn. lia.
Qed.

(** No adapter comes twice on a path that stops. *)
Lemma path_NoDup p l q : stops q -> path p l q -> NoDup l.
Proof.
  intros Hq. revert p. induction l as [|x l IH]; intros p Hc; [constructor|].
  pose proof Hc as (-> & _ & n & _ & Hl). constructor; [|by apply (IH n)].
  intros Hp. destruct (path_suffix n l q p Hl Hp) as (l' & Hl' & Hle).
  destruct (path_unique p _ _ _ _ Hq Hq Hc Hl') as [<- _]. cbn in Hle. lia.
Qed.

(** The links of the adapters on a path lie in the buffer. *)
Definition inside (p : Z) : Prop :=
  0 <= link_at p /\ link_at p + Z.of_nat ptr_size <= Z.of_nat (length b).

Lemma path_inside p l q : path p l q -> Forall inside l.
Proof.
  revert p. induction l as [|x l IH]; intros p Hc; [constructor|].
  destruct Hc as (-> & _ & n & Hn & Hl). constructor; [|by apply (IH n)].
  unfold Next in Hn. by case_decide.
Qed.

Lemma path_length p l q : stops q -> path p l q -> (length l <= length b)%nat.
Proof.
  intros Hq Hc. assert (map (fun x => Z.to_nat (link_at x)) l ⊆+ seq 0 (length b)) as Hs.
  2: { apply submseteq_length in Hs. by rewrite length_map, length_seq in Hs. }
  pose proof (path_inside p l q Hc) as Hin. rewrite Forall_forall in Hin.
  assert (0 < ptr_size)%nat by (unfold ptr_size; destruct w; cbn; lia).
  apply NoDup_submseteq.
  - apply NoDup_fmap_2_strong; [|by eapply path_NoDup]. intros x y Hx Hy Heq.
    apply Hin in Hx, Hy. unfold inside, link_at in *. lia.
  - intros n (x & -> & Hx)%list_elem_of_fmap. apply elem_of_seq. apply Hin in Hx.
    unfold inside in Hx. lia.
Qed.

(** ** The walk *)

Definition ended (l : list Z) (q : Z) : walked := if decide (q = 0) then Done l else Outside q.

Lemma walk_path fuel p acc l q :
  stops q -> path p l q -> (length l < fuel)%nat -> walk fuel p acc = ended (acc ++ l) q.
Proof.
  intros Hq. revert p acc l. induction fuel as [|fuel IH]; intros p acc [|x l] Hc Hl; cbn in Hl; try lia.
  - cbn in Hc. subst. cbn [walk]. unfold ended. case_decide; [by rewrite app_nil_r|].
    destruct Hq as [?|Hn]; [done|by rewrite Hn].
  - destruct Hc as (-> & Hp & n & Hn & Hc). cbn [walk]. rewrite decide_False, Hn by done.
    rewrite (IH n (acc ++ [p]) l Hc) by lia. by rewrite <- app_assoc.
Qed.

(** Either the walk stops, or it goes on for ever. *)
Lemma walk_going fuel p acc :
  walk fuel p acc <> Going -> exists l q, stops q /\ path p l q /\ (length l < fuel)%nat.
Proof.
  revert p acc. induction fuel as [|fuel IH]; intros p acc; cbn [walk]; [done|].
  case_decide as Hp; [intros _; exists [], p; split; [by left|]; split; [done|cbn; lia]|].
  destruct (Next p) as [n|] eqn:Hn; [|intros _; exists [], p; split; [by right|]; split; [done|cbn; lia]].
  intros Hw. destruct (IH n _ Hw) as (l & q & Hq & Hc & Hl).
  exists (p :: l), q. split; [done|]. split; [|cbn; lia]. cbn. eauto.
Qed.

(** After the length and the index. *)
Lemma off_next_8 : off_next = 8%nat.
Proof. unfold off_next, adapter_decl, field_offset. destruct w; reflexivity. Qed.

(** C35: the walk along the adapters of a buffer stops within as many rounds as
    the buffer has bytes, or never.  When it ends, the result are the adapters on
    the path from the first byte to the nil link, in order, each once, with all
    their links in the buffer; every list the system links that way is found.  The
    link is the pointer eight bytes into an adapter, on both word sizes. *)
Theorem adapters_listed :
  match list_adapters with
  | Done l => path base l 0 /\ NoDup l /\ Forall inside l
  | Outside q => exists l, path base l q /\ q <> 0 /\ ~ inside q
  | Going => forall fuel, walk fuel base [] = Going
  end /\
  (forall l, path base l 0 -> list_adapters = Done l) /\ off_next = 8%nat.
Proof.
  assert (forall l q, stops q -> path base l q -> list_adapters = ended l q) as Hend.
  { intros l q Hq Hc. apply (walk_path _ _ []); [done..|]. pose proof (path_length _ _ _ Hq Hc). lia. }
  split; [|split; [intros l Hc; by apply (Hend l 0); [left|]|apply off_next_8]].
  destruct list_adapters as [l|q|] eqn:Hl.
  - destruct (walk_going (S (length b)) base []) as (l' & q & Hq & Hc & _); [fold list_adapters; by rewrite Hl|].
    specialize (Hend l' q Hq Hc). unfold ended in Hend. case_decide as Hz; [|done].
    injection Hend as <-. subst q. split; [done|]. split; [by eapply path_NoDup|by eapply path_inside].
  - destruct (walk_going (S (length b)) base []) as (l' & q' & Hq & Hc & _); [fold list_adapters; by rewrite Hl|].
    specialize (Hend l' q' Hq Hc). unfold ended in Hend. case_decide as Hz; [done|].
    injection Hend as ->. exists l'. split; [done|]. split; [done|].
    destruct Hq as [?|Hn]; [done|]. unfold Next in Hn. by case_decide.
  - intros fuel. destruct (walk fuel base []) eqn:Hw; [..|done];
      (destruct (walk_going fuel base []) as (l' & q' & Hq & Hc & _); [by rewrite Hw|]);
      specialize (Hend l' q' Hq Hc); unfold ended in Hend; by case_decide.
Qed.
End Adapters.

(** Two adapters on a 64-bit machine, the second at 512. *)
Module AdaptersSample.
Definition buffer : list Z := put 8 (le_bytes 8 (4096 + 512)) (replicate 1024 0).
End AdaptersSample.

Example adapters_listed_sample :
  list_adapters W64 socket_address 8 4096 AdaptersSample.buffer = Done [4096; 4608].
Proof. vm_compute. reflexivity. Qed.

(** A list that is a circle is walked for ever. *)
Example adapters_circle :
  list_adapters W64 socket_address 8 4096 (put 8 (le_bytes 8 4096) (replicate 448 0)) = Going.
Proof. vm_compute. reflexivity. Qed.
