(* ===== verification/Enums.v ===== *)
(** * The constants of the IP helper layer (winipcfg/types.go)

    The integer types of types.go with their constants, as the declarations have
    them: the constant specifications of each block, with [iota], the repetition
    of the specification before, and typed and untyped constants, evaluated by
    the rules of the language. *)

From S2P Require Import Prelude IpTypes.
From Stdlib Require Import ZArith String Lia.
From stdpp Require Import base list strings gmap.
Open Scope Z_scope.
Open Scope string_scope.
Local Open Scope list_scope.

(** ** Constant declarations *)

Record intty : Type := mkInt { bits : Z; signed : bool }.

Definition uint8 : intty := mkInt 8 false.
Definition uint16 : intty := mkInt 16 false.
Definition uint32 : intty := mkInt 32 false.
Definition uint64 : intty := mkInt 64 false.
Definition int32 : intty := mkInt 32 true.

(** A value a type can hold. *)
Definition representable (t : intty) (z : Z) : bool :=
  if signed t then bool_decide (- 2 ^ (bits t - 1) <= z < 2 ^ (bits t - 1))
  else bool_decide (fits (bits t) z).

Inductive cexpr : Type :=
| Lit (z : Z)
| Iota
| Name (ident : string)
| Neg (e : cexpr)
| Add (e1 e2 : cexpr)
| Shl (e1 e2 : cexpr)
| Or (e1 e2 : cexpr).

(** One line of a block; without an expression it repeats the type and the
    expression of the line before. *)
Record spec : Type := mkSpec {
  ident : string;
  declared : option string;
  value : option cexpr;
}.

Definition typed (x t : string) (e : cexpr) : spec := mkSpec x (Some t) (Some e).
Definition plain (x : string) (e : cexpr) : spec := mkSpec x None (Some e).
Definition again (x : string) : spec := mkSpec x None None.

(** [x | y | ...] *)
Definition ors (x : string) (xs : list string) : cexpr :=
  fold_left (fun e y => Or e (Name y)) xs (Name x).

(** A defined type with the block of constants that follows it. *)
Record enumeration : Type := mkEnum {
  enum_name : string;
  underlying : intty;
  specs : list spec;
}.

(** A constant: its defined type, when it has one, and its value. *)
Abbreviation const := (option string * Z)%type.

Section Eval.
Context (types : string -> option intty).

(** Constants of a defined type must be values of it, untyped ones are exact. *)
Definition checked (t : option string) (z : Z) : option const :=
  match t with
  | None => Some (None, z)
  | Some n =>
      match types n with
      | Some ty => if representable ty z then Some (Some n, z) else None
      | None => None
      end
  end.

(** The type of an operation: an untyped operand takes the other's. *)
Definition common (t1 t2 : option string) : option (option string) :=
  match t1, t2 with
  | None, t | t, None => Some t
  | Some n1, Some n2 => if decide (n1 = n2) then Some (Some n1) else None
  end.

Fixpoint eval (known : gmap string const) (iota : Z) (e : cexpr) : option const :=
  match e with
  | Lit z => Some (None, z)
  | Iota => Some (None, iota)
  | Name x => known !! x
  | Neg e => '(t, z) ← eval known iota e; checked t (- z)
  | Add e1 e2 =>
      '(t1, z1) ← eval known iota e1; '(t2, z2) ← eval known iota e2;
      t ← common t1 t2; checked t (z1 + z2)
  | Shl e1 e2 =>
      '(t1, z1) ← eval known iota e1; '(_, z2) ← eval known iota e2;
      if decide (0 <= z2) then checked t1 (Z.shiftl z1 z2) else None
  | Or e1 e2 =>
      '(t1, z1) ← eval known iota e1; '(t2, z2) ← eval known iota e2;
      t ← common t1 t2; checked t (Z.lor z1 z2)
  end.

(** The declaration of one constant; a name is declared once. *)
Definition declare (x : string) (t : option string) (e : cexpr) (iota : Z)
    (known : gmap string const) : option (gmap string const) :=
  match known !! x with
  | Some _ => None
  | None =>
      '(t', z) ← eval known iota e; t'' ← common t t'; c ← checked t'' z;
      Some (<[x := c]> known)
  end.

Fixpoint block (specs : list spec) (before : option (option string * cexpr)) (iota : Z)
    (known : gmap string const) : option (gmap string const) :=
  match specs with
  | [] => Some known
  | s :: specs =>
      let now := match value s with Some e => Some (declared s, e) | None => before end in
      match now with
      | Some (t, e) => known' ← declare (ident s) t e iota known; block specs now (iota + 1) known'
      | None => None
      end
  end.
End Eval.

(** ** The declarations *)

Definition sizes : list spec :=
  [plain "anySize" (Lit 1);
   plain "maxDNSSuffixStringLength" (Lit 256);
   plain "maxDHCPv6DUIDLength" (Lit 130);
   plain "ifMaxStringSize" (Lit 256);
   plain "ifMaxPhysAddressLength" (Lit 32)].

Definition AddressFamily_enum : enumeration := mkEnum "AddressFamily" uint16 [].

Definition IPAAFlags_enum : enumeration :=
  mkEnum "IPAAFlags" uint32
  [typed "IPAAFlagDdnsEnabled" "IPAAFlags" (Shl (Lit 1) Iota);
   again "IPAAFlagRegisterAdapterSuffix";
   again "IPAAFlagDhcpv4Enabled";
   again "IPAAFlagReceiveOnly";
   again "IPAAFlagNoMulticast";
   again "IPAAFlagIpv6OtherStatefulConfig";
   again "IPAAFlagNetbiosOverTcpipEnabled";
   again "IPAAFlagIpv4Enabled";
   again "IPAAFlagIpv6Enabled";
   again "IPAAFlagIpv6ManagedAddressConfigurationSupported"].

Definition IfOperStatus_enum : enumeration :=
  mkEnum "IfOperStatus" uint32
  [typed "IfOperStatusUp" "IfOperStatus" (Add Iota (Lit 1));
   again "IfOperStatusDown";
   again "IfOperStatusTesting";
   again "IfOperStatusUnknown";
   again "IfOperStatusDormant";
   again "IfOperStatusNotPresent";
   again "IfOperStatusLowerLayerDown"].

Definition IfType_consts1 : list spec :=
  [typed "IfTypeOther" "IfType" (Lit 1);
   plain "IfTypeRegular1822" (Lit 2);
   plain "IfTypeHdh1822" (Lit 3);
   plain "IfTypeDdnX25" (Lit 4);
   plain "IfTypeRfc877X25" (Lit 5);
   plain "IfTypeEthernetCSMACD" (Lit 6);
   plain "IfTypeISO88023CSMACD" (Lit 7);
   plain "IfTypeISO88024Tokenbus" (Lit 8);
   plain "IfTypeISO88025Tokenring" (Lit 9);
   plain "IfTypeISO88026Man" (Lit 10);
   plain "IfTypeStarlan" (Lit 11);
   plain "IfTypeProteon10Mbit" (Lit 12);
   plain "IfTypeProteon80Mbit" (Lit 13);
   plain "IfTypeHyperchannel" (Lit 14);
   plain "IfTypeFddi" (Lit 15);
   plain "IfTypeLapB" (Lit 16);
   plain "IfTypeSdlc" (Lit 17);
   plain "IfTypeDs1" (Lit 18);
   plain "IfTypeE1" (Lit 19);
   plain "IfTypeBasicISDN" (Lit 20);
   plain "IfTypePrimaryISDN" (Lit 21);
   plain "IfTypePropPoint2PointSerial" (Lit 22);
   plain "IfTypePPP" (Lit 23);
   plain "IfTypeSoftwareLoopback" (Lit 24);
   plain "IfTypeEon" (Lit 25);
   plain "IfTypeEthernet3Mbit" (Lit 26);
   plain "IfTypeNsip" (Lit 27);
   plain "IfTypeSlip" (Lit 28);
   plain "IfTypeUltra" (Lit 29);
   plain "IfTypeDs3" (Lit 30);
   plain "IfTypeSip" (Lit 31);
   plain "IfTypeFramerelay" (Lit 32);
   plain "IfTypeRs232" (Lit 33);
   plain "IfTypePara" (Lit 34);
   plain "IfTypeArcnet" (Lit 35);
   plain "IfTypeArcnetPlus" (Lit 36);
   plain "IfTypeAtm" (Lit 37);
   plain "IfTypeMioX25" (Lit 38);
   plain "IfTypeSonet" (Lit 39);
   plain "IfTypeX25Ple" (Lit 40);
   plain "IfTypeIso88022LLC" (Lit 41);
   plain "IfTypeLocaltalk" (Lit 42);
   plain "IfTypeSmdsDxi" (Lit 43);
   plain "IfTypeFramerelayService" (Lit 44);
   plain "IfTypeV35" (Lit 45);
   plain "IfTypeHssi" (Lit 46);
   plain "IfTypeHippi" (Lit 47);
   plain "IfTypeModem" (Lit 48);
   plain "IfTypeAal5" (Lit 49);
   plain "IfTypeSonetPath" (Lit 50);
   plain "IfTypeSonetVt" (Lit 51);
   plain "IfTypeSmdsIcip" (Lit 52);
   plain "IfTypePropVirtual" (Lit 53);
   plain "IfTypePropMultiplexor" (Lit 54);
   plain "IfTypeIEEE80212" (Lit 55);
   plain "IfTypeFibrechannel" (Lit 56);
   plain "IfTypeHippiinterface" (Lit 57);
   plain "IfTypeFramerelayInterconnect" (Lit 58);
   plain "IfTypeAflane8023" (Lit 59);
   plain "IfTypeAflane8025" (Lit 60);
   plain "IfTypeCctemul" (Lit 61);
   plain "IfTypeFastether" (Lit 62);
   plain "IfTypeISDN" (Lit 63);
   plain "IfTypeV11" (Lit 64);
   plain "IfTypeV36" (Lit 65);
   plain "IfTypeG703_64k" (Lit 66);
   plain "IfTypeG703_2mb" (Lit 67);
   plain "IfTypeQllc" (Lit 68);
   plain "IfTypeFastetherFX" (Lit 69);
   plain "IfTypeChannel" (Lit 70);
   plain "IfTypeIEEE80211" (Lit 71);
   plain "IfTypeIBM370parchan" (Lit 72);
   plain "IfTypeEscon" (Lit 73);
   plain "IfTypeDlsw" (Lit 74);
   plain "IfTypeISDNS" (Lit 75);
   plain "IfTypeISDNU" (Lit 76);
   plain "IfTypeLapD" (Lit 77);
   plain "IfTypeIpswitch" (Lit 78);
   plain "IfTypeRsrb" (Lit 79);
   plain "IfTypeAtmLogical" (Lit 80);
   plain "IfTypeDs0" (Lit 81);
   plain "IfTypeDs0Bundle" (Lit 82);
   plain "IfTypeBsc" (Lit 83);
   plain "IfTypeAsync" (Lit 84);
   plain "IfTypeCnr" (Lit 85);
   plain "IfTypeIso88025rDtr" (Lit 86);
   plain "IfTypeEplrs" (Lit 87);
   plain "IfTypeArap" (Lit 88);
   plain "IfTypePropCnls" (Lit 89);
   plain "IfTypeHostpad" (Lit 90);
   plain "IfTypeTermpad" (Lit 91);
   plain "IfTypeFramerelayMpi" (Lit 92);
   plain "IfTypeX213" (Lit 93);
   plain "IfTypeAdsl" (Lit 94);
   plain "IfTypeRadsl" (Lit 95);
   plain "IfTypeSdsl" (Lit 96);
   plain "IfTypeVdsl" (Lit 97);
   plain "IfTypeIso88025Crfprint" (Lit 98);
   plain "IfTypeMyrinet" (Lit 99);
   plain "IfTypeVoiceEm" (Lit 100)].

Definition IfType_consts2 : list spec :=
  [plain "IfTypeVoiceFxo" (Lit 101);
   plain "IfTypeVoiceFxs" (Lit 102);
   plain "IfTypeVoiceEncap" (Lit 103);
   plain "IfTypeVoiceOverip" (Lit 104);
   plain "IfTypeAtmDxi" (Lit 105);
   plain "IfTypeAtmFuni" (Lit 106);
   plain "IfTypeAtmIma" (Lit 107);
   plain "IfTypePPPmultilinkbundle" (Lit 108);
   plain "IfTypeIpoverCdlc" (Lit 109);
   plain "IfTypeIpoverClaw" (Lit 110);
   plain "IfTypeStacktostack" (Lit 111);
   plain "IfTypeVirtualipaddress" (Lit 112);
   plain "IfTypeMpc" (Lit 113);
   plain "IfTypeIpoverAtm" (Lit 114);
   plain "IfTypeIso88025Fiber" (Lit 115);
   plain "IfTypeTdlc" (Lit 116);
   plain "IfTypeGigabitethernet" (Lit 117);
   plain "IfTypeHdlc" (Lit 118);
   plain "IfTypeLapF" (Lit 119);
   plain "IfTypeV37" (Lit 120);
   plain "IfTypeX25Mlp" (Lit 121);
   plain "IfTypeX25Huntgroup" (Lit 122);
   plain "IfTypeTransphdlc" (Lit 123);
   plain "IfTypeInterleave" (Lit 124);
   plain "IfTypeFast" (Lit 125);
   plain "IfTypeIP" (Lit 126);
   plain "IfTypeDocscableMaclayer" (Lit 127);
   plain "IfTypeDocscableDownstream" (Lit 128);
   plain "IfTypeDocscableUpstream" (Lit 129);
   plain "IfTypeA12mppswitch" (Lit 130);
   plain "IfTypeTunnel" (Lit 131);
   plain "IfTypeCoffee" (Lit 132);
   plain "IfTypeCes" (Lit 133);
   plain "IfTypeAtmSubinterface" (Lit 134);
   plain "IfTypeL2Vlan" (Lit 135);
   plain "IfTypeL3Ipvlan" (Lit 136);
   plain "IfTypeL3Ipxvlan" (Lit 137);
   plain "IfTypeDigitalpowerline" (Lit 138);
   plain "IfTypeMediamailoverip" (Lit 139);
   plain "IfTypeDtm" (Lit 140);
   plain "IfTypeDcn" (Lit 141);
   plain "IfTypeIpforward" (Lit 142);
   plain "IfTypeMsdsl" (Lit 143);
   plain "IfTypeIEEE1394" (Lit 144);
   plain "IfTypeIfGsn" (Lit 145);
   plain "IfTypeDvbrccMaclayer" (Lit 146);
   plain "IfTypeDvbrccDownstream" (Lit 147);
   plain "IfTypeDvbrccUpstream" (Lit 148);
   plain "IfTypeAtmVirtual" (Lit 149);
   plain "IfTypeMplsTunnel" (Lit 150);
   plain "IfTypeSrp" (Lit 151);
   plain "IfTypeVoiceoveratm" (Lit 152);
   plain "IfTypeVoiceoverframerelay" (Lit 153);
   plain "IfTypeIdsl" (Lit 154);
   plain "IfTypeCompositelink" (Lit 155);
   plain "IfTypeSs7Siglink" (Lit 156);
   plain "IfTypePropWirelessP2P" (Lit 157);
   plain "IfTypeFrForward" (Lit 158);
   plain "IfTypeRfc1483" (Lit 159);
   plain "IfTypeUsb" (Lit 160);
   plain "IfTypeIEEE8023adLag" (Lit 161);
   plain "IfTypeBgpPolicyAccounting" (Lit 162);
   plain "IfTypeFrf16MfrBundle" (Lit 163);
   plain "IfTypeH323Gatekeeper" (Lit 164);
   plain "IfTypeH323Proxy" (Lit 165);
   plain "IfTypeMpls" (Lit 166);
   plain "IfTypeMfSiglink" (Lit 167);
   plain "IfTypeHdsl2" (Lit 168);
   plain "IfTypeShdsl" (Lit 169);
   plain "IfTypeDs1Fdl" (Lit 170);
   plain "IfTypePos" (Lit 171);
   plain "IfTypeDvbAsiIn" (Lit 172);
   plain "IfTypeDvbAsiOut" (Lit 173);
   plain "IfTypePlc" (Lit 174);
   plain "IfTypeNfas" (Lit 175);
   plain "IfTypeTr008" (Lit 176);
   plain "IfTypeGr303Rdt" (Lit 177);
   plain "IfTypeGr303Idt" (Lit 178);
   plain "IfTypeIsup" (Lit 179);
   plain "IfTypePropDocsWirelessMaclayer" (Lit 180);
   plain "IfTypePropDocsWirelessDownstream" (Lit 181);
   plain "IfTypePropDocsWirelessUpstream" (Lit 182);
   plain "IfTypeHiperlan2" (Lit 183);
   plain "IfTypePropBwaP2MP" (Lit 184);
   plain "IfTypeSonetOverheadChannel" (Lit 185);
   plain "IfTypeDigitalWrapperOverheadChannel" (Lit 186);
   plain "IfTypeAal2" (Lit 187);
   plain "IfTypeRadioMac" (Lit 188);
   plain "IfTypeAtmRadio" (Lit 189);
   plain "IfTypeImt" (Lit 190);
   plain "IfTypeMvl" (Lit 191);
   plain "IfTypeReachDsl" (Lit 192);
   plain "IfTypeFrDlciEndpt" (Lit 193);
   plain "IfTypeAtmVciEndpt" (Lit 194);
   plain "IfTypeOpticalChannel" (Lit 195);
   plain "IfTypeOpticalTransport" (Lit 196);
   plain "IfTypeIEEE80216Wman" (Lit 237);
   plain "IfTypeWwanpp" (Lit 243);
   plain "IfTypeWwanpp2" (Lit 244);
   plain "IfTypeIEEE802154" (Lit 259);
   plain "IfTypeXboxWireless" (Lit 281)].

Definition IfType_enum : enumeration :=
  mkEnum "IfType" uint32 (IfType_consts1 ++ IfType_consts2).

Definition MibIfEntryLevel_enum : enumeration :=
  mkEnum "MibIfEntryLevel" uint32
  [typed "MibIfEntryNormal" "MibIfEntryLevel" (Lit 0);
   plain "MibIfEntryNormalWithoutStatistics" (Lit 2)].

Definition NdisMedium_enum : enumeration :=
  mkEnum "NdisMedium" uint32
  [typed "NdisMedium802_3" "NdisMedium" Iota;
   again "NdisMedium802_5";
   again "NdisMediumFddi";
   again "NdisMediumWan";
   again "NdisMediumLocalTalk";
   again "NdisMediumDix";
   again "NdisMediumArcnetRaw";
   again "NdisMediumArcnet878_2";
   again "NdisMediumAtm";
   again "NdisMediumWirelessWan";
   again "NdisMediumIrda";
   again "NdisMediumBpc";
   again "NdisMediumCoWan";
   again "NdisMedium1394";
   again "NdisMediumInfiniBand";
   again "NdisMediumTunnel";
   again "NdisMediumNative802_11";
   again "NdisMediumLoopback";
   again "NdisMediumWiMAX";
   again "NdisMediumIP";
   again "NdisMediumMax"].

Definition NdisPhysicalMedium_enum : enumeration :=
  mkEnum "NdisPhysicalMedium" uint32
  [typed "NdisPhysicalMediumUnspecified" "NdisPhysicalMedium" Iota;
   again "NdisPhysicalMediumWirelessLan";
   again "NdisPhysicalMediumCableModem";
   again "NdisPhysicalMediumPhoneLine";
   again "NdisPhysicalMediumPowerLine";
   again "NdisPhysicalMediumDSL";
   again "NdisPhysicalMediumFibreChannel";
   again "NdisPhysicalMedium1394";
   again "NdisPhysicalMediumWirelessWan";
   again "NdisPhysicalMediumNative802_11";
   again "NdisPhysicalMediumBluetooth";
   again "NdisPhysicalMediumInfiniband";
   again "NdisPhysicalMediumWiMax";
   again "NdisPhysicalMediumUWB";
   again "NdisPhysicalMedium802_3";
   again "NdisPhysicalMedium802_5";
   again "NdisPhysicalMediumIrda";
   again "NdisPhysicalMediumWiredWAN";
   again "NdisPhysicalMediumWiredCoWan";
   again "NdisPhysicalMediumOther";
   again "NdisPhysicalMediumNative802_15_4";
   again "NdisPhysicalMediumMax"].

Definition NetIfAccessType_enum : enumeration :=
  mkEnum "NetIfAccessType" uint32
  [typed "NetIfAccessLoopback" "NetIfAccessType" (Add Iota (Lit 1));
   again "NetIfAccessBroadcast";
   again "NetIfAccessPointToPoint";
   again "NetIfAccessPointToMultiPoint";
   again "NetIfAccessMax"].

Definition NetIfAdminStatus_enum : enumeration :=
  mkEnum "NetIfAdminStatus" uint32
  [typed "NetIfAdminStatusUp" "NetIfAdminStatus" (Add Iota (Lit 1));
   again "NetIfAdminStatusDown";
   again "NetIfAdminStatusTesting"].

Definition NetIfConnectionType_enum : enumeration :=
  mkEnum "NetIfConnectionType" uint32
  [typed "NetIfConnectionDedicated" "NetIfConnectionType" (Add Iota (Lit 1));
   again "NetIfConnectionPassive";
   again "NetIfConnectionDemand";
   again "NetIfConnectionMaximum"].

Definition NetIfDirectionType_enum : enumeration :=
  mkEnum "NetIfDirectionType" uint32
  [typed "NetIfDirectionSendReceive" "NetIfDirectionType" Iota;
   again "NetIfDirectionSendOnly";
   again "NetIfDirectionReceiveOnly";
   again "NetIfDirectionMaximum"].

Definition NetIfMediaConnectState_enum : enumeration :=
  mkEnum "NetIfMediaConnectState" uint32
  [typed "MediaConnectStateUnknown" "NetIfMediaConnectState" Iota;
   again "MediaConnectStateConnected";
   again "MediaConnectStateDisconnected"].

Definition DadState_enum : enumeration :=
  mkEnum "DadState" uint32
  [typed "DadStateInvalid" "DadState" Iota;
   again "DadStateTentative";
   again "DadStateDuplicate";
   again "DadStateDeprecated";
   again "DadStatePreferred"].

Definition PrefixOrigin_enum : enumeration :=
  mkEnum "PrefixOrigin" uint32
  [typed "PrefixOriginOther" "PrefixOrigin" Iota;
   again "PrefixOriginManual";
   again "PrefixOriginWellKnown";
   again "PrefixOriginDHCP";
   again "PrefixOriginRouterAdvertisement";
   plain "PrefixOriginUnchanged" (Shl (Lit 1) (Lit 4))].

Definition LinkLocalAddressBehavior_enum : enumeration :=
  mkEnum "LinkLocalAddressBehavior" int32
  [typed "LinkLocalAddressAlwaysOff" "LinkLocalAddressBehavior" Iota;
   again "LinkLocalAddressDelayed";
   again "LinkLocalAddressAlwaysOn";
   plain "LinkLocalAddressUnchanged" (Neg (Lit 1))].

Definition OffloadRod_enum : enumeration :=
  mkEnum "OffloadRod" uint8
  [typed "ChecksumSupported" "OffloadRod" (Shl (Lit 1) Iota);
   again "OptionsSupported";
   again "DatagramChecksumSupported";
   again "StreamChecksumSupported";
   again "StreamOptionsSupported";
   again "FastPathCompatible";
   again "LargeSendOffloadSupported";
   again "GiantSendOffloadSupported"].

Definition RouteOrigin_enum : enumeration :=
  mkEnum "RouteOrigin" uint32
  [typed "RouteOriginManual" "RouteOrigin" Iota;
   again "RouteOriginWellKnown";
   again "RouteOriginDHCP";
   again "RouteOriginRouterAdvertisement";
   again "RouteOrigin6to4"].

Definition RouteProtocol_enum : enumeration :=
  mkEnum "RouteProtocol" uint32
  [typed "RouteProtocolOther" "RouteProtocol" (Add Iota (Lit 1));
   again "RouteProtocolLocal";
   again "RouteProtocolNetMgmt";
   again "RouteProtocolIcmp";
   again "RouteProtocolEgp";
   again "RouteProtocolGgp";
   again "RouteProtocolHello";
   again "RouteProtocolRip";
   again "RouteProtocolIsIs";
   again "RouteProtocolEsIs";
   again "RouteProtocolCisco";
   again "RouteProtocolBbn";
   again "RouteProtocolOspf";
   again "RouteProtocolBgp";
   again "RouteProtocolIdpr";
   again "RouteProtocolEigrp";
   again "RouteProtocolDvmrp";
   again "RouteProtocolRpl";
   again "RouteProtocolDHCP";
   plain "RouteProtocolNTAutostatic" (Lit 10002);
   plain "RouteProtocolNTStatic" (Lit 10006);
   plain "RouteProtocolNTStaticNonDOD" (Lit 10007)].

Definition RouterDiscoveryBehavior_enum : enumeration :=
  mkEnum "RouterDiscoveryBehavior" int32
  [typed "RouterDiscoveryDisabled" "RouterDiscoveryBehavior" Iota;
   again "RouterDiscoveryEnabled";
   again "RouterDiscoveryDHCP";
   plain "RouterDiscoveryUnchanged" (Neg (Lit 1))].

Definition SuffixOrigin_enum : enumeration :=
  mkEnum "SuffixOrigin" uint32
  [typed "SuffixOriginOther" "SuffixOrigin" Iota;
   again "SuffixOriginManual";
   again "SuffixOriginWellKnown";
   again "SuffixOriginDHCP";
   again "SuffixOriginLinkLayerAddress";
   again "SuffixOriginRandom";
   plain "SuffixOriginUnchanged" (Shl (Lit 1) (Lit 4))].

Definition MibNotificationType_enum : enumeration :=
  mkEnum "MibNotificationType" uint32
  [typed "MibParameterNotification" "MibNotificationType" Iota;
   again "MibAddInstance";
   again "MibDeleteInstance";
   again "MibInitialNotification"].

Definition TunnelType_enum : enumeration :=
  mkEnum "TunnelType" uint32
  [typed "TunnelTypeNone" "TunnelType" (Lit 0);
   plain "TunnelTypeOther" (Lit 1);
   plain "TunnelTypeDirect" (Lit 2);
   plain "TunnelType6to4" (Lit 11);
   plain "TunnelTypeIsatap" (Lit 13);
   plain "TunnelTypeTeredo" (Lit 14);
   plain "TunnelTypeIPHTTPS" (Lit 15)].

Definition InterfaceAndOperStatusFlags_enum : enumeration :=
  mkEnum "InterfaceAndOperStatusFlags" uint8
  [typed "IAOSFHardwareInterface" "InterfaceAndOperStatusFlags" (Shl (Lit 1) Iota);
   again "IAOSFFilterInterface";
   again "IAOSFConnectorPresent";
   again "IAOSFNotAuthenticated";
   again "IAOSFNotMediaConnected";
   again "IAOSFPaused";
   again "IAOSFLowPower";
   again "IAOSFEndPointInterface"].

Definition GAAFlags_enum : enumeration :=
  mkEnum "GAAFlags" uint32
  [typed "GAAFlagSkipUnicast" "GAAFlags" (Shl (Lit 1) Iota);
   again "GAAFlagSkipAnycast";
   again "GAAFlagSkipMulticast";
   again "GAAFlagSkipDNSServer";
   again "GAAFlagIncludePrefix";
   again "GAAFlagSkipFriendlyName";
   again "GAAFlagIncludeWinsInfo";
   again "GAAFlagIncludeGateways";
   again "GAAFlagIncludeAllInterfaces";
   again "GAAFlagIncludeAllCompartments";
   again "GAAFlagIncludeTunnelBindingOrder";
   again "GAAFlagSkipDNSInfo";
   typed "GAAFlagDefault" "GAAFlags" (Lit 0);
   plain "GAAFlagSkipAll" (ors "GAAFlagSkipUnicast"
     ["GAAFlagSkipAnycast";
      "GAAFlagSkipMulticast";
      "GAAFlagSkipDNSServer";
      "GAAFlagSkipFriendlyName";
      "GAAFlagSkipDNSInfo"]);
   plain "GAAFlagIncludeAll" (ors "GAAFlagIncludePrefix"
     ["GAAFlagIncludeWinsInfo";
      "GAAFlagIncludeGateways";
      "GAAFlagIncludeAllInterfaces";
      "GAAFlagIncludeAllCompartments";
      "GAAFlagIncludeTunnelBindingOrder"])].

Definition ScopeLevel_enum : enumeration :=
  mkEnum "ScopeLevel" uint32
  [typed "ScopeLevelInterface" "ScopeLevel" (Lit 1);
   plain "ScopeLevelLink" (Lit 2);
   plain "ScopeLevelSubnet" (Lit 3);
   plain "ScopeLevelAdmin" (Lit 4);
   plain "ScopeLevelSite" (Lit 5);
   plain "ScopeLevelOrganization" (Lit 8);
   plain "ScopeLevelGlobal" (Lit 14);
   plain "ScopeLevelCount" (Lit 16)].

Definition dns_settings_consts : list spec :=
  [plain "DnsInterfaceSettingsVersion1" (Lit 1);
   plain "DnsInterfaceSettingsVersion2" (Lit 2);
   plain "DnsInterfaceSettingsVersion3" (Lit 3);
   plain "DnsInterfaceSettingsFlagIPv6" (Lit 0x0001);
   plain "DnsInterfaceSettingsFlagNameserver" (Lit 0x0002);
   plain "DnsInterfaceSettingsFlagSearchList" (Lit 0x0004);
   plain "DnsInterfaceSettingsFlagRegistrationEnabled" (Lit 0x0008);
   plain "DnsInterfaceSettingsFlagRegisterAdapterName" (Lit 0x0010);
   plain "DnsInterfaceSettingsFlagDomain" (Lit 0x0020);
   plain "DnsInterfaceSettingsFlagHostname" (Lit 0x0040);
   plain "DnsInterfaceSettingsFlagEnableLLMNR" (Lit 0x0080);
   plain "DnsInterfaceSettingsFlagQueryAdapterName" (Lit 0x0100);
   plain "DnsInterfaceSettingsFlagProfileNameserver" (Lit 0x0200);
   plain "DnsInterfaceSettingsFlagDisableUnconstrainedQueries" (Lit 0x0400);
   plain "DnsInterfaceSettingsFlagSupplementalSearchList" (Lit 0x0800);
   plain "DnsInterfaceSettingsFlagDOH" (Lit 0x1000);
   plain "DnsInterfaceSettingsFlagDOHProfile" (Lit 0x2000)].

Definition enumerations : list enumeration :=
  [AddressFamily_enum; IPAAFlags_enum; IfOperStatus_enum; IfType_enum; MibIfEntryLevel_enum;
   NdisMedium_enum; NdisPhysicalMedium_enum; NetIfAccessType_enum; NetIfAdminStatus_enum;
   NetIfConnectionType_enum; NetIfDirectionType_enum; NetIfMediaConnectState_enum;
   DadState_enum; PrefixOrigin_enum; LinkLocalAddressBehavior_enum; OffloadRod_enum;
   RouteOrigin_enum; RouteProtocol_enum; RouterDiscoveryBehavior_enum; SuffixOrigin_enum;
   MibNotificationType_enum; TunnelType_enum; InterfaceAndOperStatusFlags_enum; GAAFlags_enum;
   ScopeLevel_enum].

(** ** The documented values

    The members and values of each enumeration as the documentation of Windows
    (ifdef.h, nldef.h, ntddndis.h, netioapi.h, iptypes.h, ws2def.h) lists them,
    whose numbers the rows and calls carry. *)
(** The interface types numbered 1 to 196, in this order. *)
Definition if_types : list string :=
  ["IfTypeOther"; "IfTypeRegular1822"; "IfTypeHdh1822"; "IfTypeDdnX25"; "IfTypeRfc877X25";
   "IfTypeEthernetCSMACD"; "IfTypeISO88023CSMACD"; "IfTypeISO88024Tokenbus";
   "IfTypeISO88025Tokenring"; "IfTypeISO88026Man"; "IfTypeStarlan"; "IfTypeProteon10Mbit";
   "IfTypeProteon80Mbit"; "IfTypeHyperchannel"; "IfTypeFddi"; "IfTypeLapB"; "IfTypeSdlc";
   "IfTypeDs1"; "IfTypeE1"; "IfTypeBasicISDN"; "IfTypePrimaryISDN";
   "IfTypePropPoint2PointSerial"; "IfTypePPP"; "IfTypeSoftwareLoopback"; "IfTypeEon";
   "IfTypeEthernet3Mbit"; "IfTypeNsip"; "IfTypeSlip"; "IfTypeUltra"; "IfTypeDs3"; "IfTypeSip";
   "IfTypeFramerelay"; "IfTypeRs232"; "IfTypePara"; "IfTypeArcnet"; "IfTypeArcnetPlus";
   "IfTypeAtm"; "IfTypeMioX25"; "IfTypeSonet"; "IfTypeX25Ple"; "IfTypeIso88022LLC";
   "IfTypeLocaltalk"; "IfTypeSmdsDxi"; "IfTypeFramerelayService"; "IfTypeV35"; "IfTypeHssi";
   "IfTypeHippi"; "IfTypeModem"; "IfTypeAal5"; "IfTypeSonetPath"; "IfTypeSonetVt";
   "IfTypeSmdsIcip"; "IfTypePropVirtual"; "IfTypePropMultiplexor"; "IfTypeIEEE80212";
   "IfTypeFibrechannel"; "IfTypeHippiinterface"; "IfTypeFramerelayInterconnect";
   "IfTypeAflane8023"; "IfTypeAflane8025"; "IfTypeCctemul"; "IfTypeFastether"; "IfTypeISDN";
   "IfTypeV11"; "IfTypeV36"; "IfTypeG703_64k"; "IfTypeG703_2mb"; "IfTypeQllc";
   "IfTypeFastetherFX"; "IfTypeChannel"; "IfTypeIEEE80211"; "IfTypeIBM370parchan";
   "IfTypeEscon"; "IfTypeDlsw"; "IfTypeISDNS"; "IfTypeISDNU"; "IfTypeLapD"; "IfTypeIpswitch";
   "IfTypeRsrb"; "IfTypeAtmLogical"; "IfTypeDs0"; "IfTypeDs0Bundle"; "IfTypeBsc";
   "IfTypeAsync"; "IfTypeCnr"; "IfTypeIso88025rDtr"; "IfTypeEplrs"; "IfTypeArap";
   "IfTypePropCnls"; "IfTypeHostpad"; "IfTypeTermpad"; "IfTypeFramerelayMpi"; "IfTypeX213";
   "IfTypeAdsl"; "IfTypeRadsl"; "IfTypeSdsl"; "IfTypeVdsl"; "IfTypeIso88025Crfprint";
   "IfTypeMyrinet"; "IfTypeVoiceEm"; "IfTypeVoiceFxo"; "IfTypeVoiceFxs"; "IfTypeVoiceEncap";
   "IfTypeVoiceOverip"; "IfTypeAtmDxi"; "IfTypeAtmFuni"; "IfTypeAtmIma";
   "IfTypePPPmultilinkbundle"; "IfTypeIpoverCdlc"; "IfTypeIpoverClaw"; "IfTypeStacktostack";
   "IfTypeVirtualipaddress"; "IfTypeMpc"; "IfTypeIpoverAtm"; "IfTypeIso88025Fiber";
   "IfTypeTdlc"; "IfTypeGigabitethernet"; "IfTypeHdlc"; "IfTypeLapF"; "IfTypeV37";
   "IfTypeX25Mlp"; "IfTypeX25Huntgroup"; "IfTypeTransphdlc"; "IfTypeInterleave"; "IfTypeFast";
   "IfTypeIP"; "IfTypeDocscableMaclayer"; "IfTypeDocscableDownstream";
   "IfTypeDocscableUpstream"; "IfTypeA12mppswitch"; "IfTypeTunnel"; "IfTypeCoffee";
   "IfTypeCes"; "IfTypeAtmSubinterface"; "IfTypeL2Vlan"; "IfTypeL3Ipvlan"; "IfTypeL3Ipxvlan";
   "IfTypeDigitalpowerline"; "IfTypeMediamailoverip"; "IfTypeDtm"; "IfTypeDcn";
   "IfTypeIpforward"; "IfTypeMsdsl"; "IfTypeIEEE1394"; "IfTypeIfGsn"; "IfTypeDvbrccMaclayer";
   "IfTypeDvbrccDownstream"; "IfTypeDvbrccUpstream"; "IfTypeAtmVirtual"; "IfTypeMplsTunnel";
   "IfTypeSrp"; "IfTypeVoiceoveratm"; "IfTypeVoiceoverframerelay"; "IfTypeIdsl";
   "IfTypeCompositelink"; "IfTypeSs7Siglink"; "IfTypePropWirelessP2P"; "IfTypeFrForward";
   "IfTypeRfc1483"; "IfTypeUsb"; "IfTypeIEEE8023adLag"; "IfTypeBgpPolicyAccounting";
   "IfTypeFrf16MfrBundle"; "IfTypeH323Gatekeeper"; "IfTypeH323Proxy"; "IfTypeMpls";
   "IfTypeMfSiglink"; "IfTypeHdsl2"; "IfTypeShdsl"; "IfTypeDs1Fdl"; "IfTypePos";
   "IfTypeDvbAsiIn"; "IfTypeDvbAsiOut"; "IfTypePlc"; "IfTypeNfas"; "IfTypeTr008";
   "IfTypeGr303Rdt"; "IfTypeGr303Idt"; "IfTypeIsup"; "IfTypePropDocsWirelessMaclayer";
   "IfTypePropDocsWirelessDownstream"; "IfTypePropDocsWirelessUpstream"; "IfTypeHiperlan2";
   "IfTypePropBwaP2MP"; "IfTypeSonetOverheadChannel"; "IfTypeDigitalWrapperOverheadChannel";
   "IfTypeAal2"; "IfTypeRadioMac"; "IfTypeAtmRadio"; "IfTypeImt"; "IfTypeMvl";
   "IfTypeReachDsl"; "IfTypeFrDlciEndpt"; "IfTypeAtmVciEndpt"; "IfTypeOpticalChannel";
   "IfTypeOpticalTransport"].

Definition documented_lists : list (string * list (string * Z)) :=
  [("IfType",
      combine if_types (map Z.of_nat (seq 1 196)) ++
     [("IfTypeIEEE80216Wman", 237); ("IfTypeWwanpp", 243); ("IfTypeWwanpp2", 244);
      ("IfTypeIEEE802154", 259); ("IfTypeXboxWireless", 281)]);
   ("IPAAFlags",
     [("IPAAFlagDdnsEnabled", 1); ("IPAAFlagRegisterAdapterSuffix", 2);
      ("IPAAFlagDhcpv4Enabled", 4); ("IPAAFlagReceiveOnly", 8); ("IPAAFlagNoMulticast", 16);
      ("IPAAFlagIpv6OtherStatefulConfig", 32); ("IPAAFlagNetbiosOverTcpipEnabled", 64);
      ("IPAAFlagIpv4Enabled", 128); ("IPAAFlagIpv6Enabled", 256);
      ("IPAAFlagIpv6ManagedAddressConfigurationSupported", 512)]);
   ("IfOperStatus",
     [("IfOperStatusUp", 1); ("IfOperStatusDown", 2); ("IfOperStatusTesting", 3);
      ("IfOperStatusUnknown", 4); ("IfOperStatusDormant", 5); ("IfOperStatusNotPresent", 6);
      ("IfOperStatusLowerLayerDown", 7)]);
   ("MibIfEntryLevel",
     [("MibIfEntryNormal", 0); ("MibIfEntryNormalWithoutStatistics", 2)]);
   ("NdisMedium",
     [("NdisMedium802_3", 0); ("NdisMedium802_5", 1); ("NdisMediumFddi", 2);
      ("NdisMediumWan", 3); ("NdisMediumLocalTalk", 4); ("NdisMediumDix", 5);
      ("NdisMediumArcnetRaw", 6); ("NdisMediumArcnet878_2", 7); ("NdisMediumAtm", 8);
      ("NdisMediumWirelessWan", 9); ("NdisMediumIrda", 10); ("NdisMediumBpc", 11);
      ("NdisMediumCoWan", 12); ("NdisMedium1394", 13); ("NdisMediumInfiniBand", 14);
      ("NdisMediumTunnel", 15); ("NdisMediumNative802_11", 16); ("NdisMediumLoopback", 17);
      ("NdisMediumWiMAX", 18); ("NdisMediumIP", 19); ("NdisMediumMax", 20)]);
   ("NdisPhysicalMedium",
     [("NdisPhysicalMediumUnspecified", 0); ("NdisPhysicalMediumWirelessLan", 1);
      ("NdisPhysicalMediumCableModem", 2); ("NdisPhysicalMediumPhoneLine", 3);
      ("NdisPhysicalMediumPowerLine", 4); ("NdisPhysicalMediumDSL", 5);
      ("NdisPhysicalMediumFibreChannel", 6); ("NdisPhysicalMedium1394", 7);
      ("NdisPhysicalMediumWirelessWan", 8); ("NdisPhysicalMediumNative802_11", 9);
      ("NdisPhysicalMediumBluetooth", 10); ("NdisPhysicalMediumInfiniband", 11);
      ("NdisPhysicalMediumWiMax", 12); ("NdisPhysicalMediumUWB", 13);
      ("NdisPhysicalMedium802_3", 14); ("NdisPhysicalMedium802_5", 15);
      ("NdisPhysicalMediumIrda", 16); ("NdisPhysicalMediumWiredWAN", 17);
      ("NdisPhysicalMediumWiredCoWan", 18); ("NdisPhysicalMediumOther", 19);
      ("NdisPhysicalMediumNative802_15_4", 20); ("NdisPhysicalMediumMax", 21)]);
   ("NetIfAccessType",
     [("NetIfAccessLoopback", 1); ("NetIfAccessBroadcast", 2); ("NetIfAccessPointToPoint", 3);
      ("NetIfAccessPointToMultiPoint", 4); ("NetIfAccessMax", 5)]);
   ("NetIfAdminStatus",
     [("NetIfAdminStatusUp", 1); ("NetIfAdminStatusDown", 2); ("NetIfAdminStatusTesting", 3)]);
   ("NetIfConnectionType",
     [("NetIfConnectionDedicated", 1); ("NetIfConnectionPassive", 2);
      ("NetIfConnectionDemand", 3); ("NetIfConnectionMaximum", 4)]);
   ("NetIfDirectionType",
     [("NetIfDirectionSendReceive", 0); ("NetIfDirectionSendOnly", 1);
      ("NetIfDirectionReceiveOnly", 2); ("NetIfDirectionMaximum", 3)]);
   ("NetIfMediaConnectState",
     [("MediaConnectStateUnknown", 0); ("MediaConnectStateConnected", 1);
      ("MediaConnectStateDisconnected", 2)]);
   ("DadState",
     [("DadStateInvalid", 0); ("DadStateTentative", 1); ("DadStateDuplicate", 2);
      ("DadStateDeprecated", 3); ("DadStatePreferred", 4)]);
   ("PrefixOrigin",
     [("PrefixOriginOther", 0); ("PrefixOriginManual", 1); ("PrefixOriginWellKnown", 2);
      ("PrefixOriginDHCP", 3); ("PrefixOriginRouterAdvertisement", 4);
      ("PrefixOriginUnchanged", 16)]);
   ("LinkLocalAddressBehavior",
     [("LinkLocalAddressAlwaysOff", 0); ("LinkLocalAddressDelayed", 1);
      ("LinkLocalAddressAlwaysOn", 2); ("LinkLocalAddressUnchanged", -1)]);
   ("OffloadRod",
     [("ChecksumSupported", 1); ("OptionsSupported", 2); ("DatagramChecksumSupported", 4);
      ("StreamChecksumSupported", 8); ("StreamOptionsSupported", 16);
      ("FastPathCompatible", 32); ("LargeSendOffloadSupported", 64);
      ("GiantSendOffloadSupported", 128)]);
   ("RouteOrigin",
     [("RouteOriginManual", 0); ("RouteOriginWellKnown", 1); ("RouteOriginDHCP", 2);
      ("RouteOriginRouterAdvertisement", 3); ("RouteOrigin6to4", 4)]);
   ("RouteProtocol",
     [("RouteProtocolOther", 1); ("RouteProtocolLocal", 2); ("RouteProtocolNetMgmt", 3);
      ("RouteProtocolIcmp", 4); ("RouteProtocolEgp", 5); ("RouteProtocolGgp", 6);
      ("RouteProtocolHello", 7); ("RouteProtocolRip", 8); ("RouteProtocolIsIs", 9);
      ("RouteProtocolEsIs", 10); ("RouteProtocolCisco", 11); ("RouteProtocolBbn", 12);
      ("RouteProtocolOspf", 13); ("RouteProtocolBgp", 14); ("RouteProtocolIdpr", 15);
      ("RouteProtocolEigrp", 16); ("RouteProtocolDvmrp", 17); ("RouteProtocolRpl", 18);
      ("RouteProtocolDHCP", 19); ("RouteProtocolNTAutostatic", 10002);
      ("RouteProtocolNTStatic", 10006); ("RouteProtocolNTStaticNonDOD", 10007)]);
   ("RouterDiscoveryBehavior",
     [("RouterDiscoveryDisabled", 0); ("RouterDiscoveryEnabled", 1);
      ("RouterDiscoveryDHCP", 2); ("RouterDiscoveryUnchanged", -1)]);
   ("SuffixOrigin",
     [("SuffixOriginOther", 0); ("SuffixOriginManual", 1); ("SuffixOriginWellKnown", 2);
      ("SuffixOriginDHCP", 3); ("SuffixOriginLinkLayerAddress", 4); ("SuffixOriginRandom", 5);
      ("SuffixOriginUnchanged", 16)]);
   ("MibNotificationType",
     [("MibParameterNotification", 0); ("MibAddInstance", 1); ("MibDeleteInstance", 2);
      ("MibInitialNotification", 3)]);
   ("TunnelType",
     [("TunnelTypeNone", 0); ("TunnelTypeOther", 1); ("TunnelTypeDirect", 2);
      ("TunnelType6to4", 11); ("TunnelTypeIsatap", 13); ("TunnelTypeTeredo", 14);
      ("TunnelTypeIPHTTPS", 15)]);
   ("InterfaceAndOperStatusFlags",
     [("IAOSFHardwareInterface", 1); ("IAOSFFilterInterface", 2); ("IAOSFConnectorPresent", 4);
      ("IAOSFNotAuthenticated", 8); ("IAOSFNotMediaConnected", 16); ("IAOSFPaused", 32);
      ("IAOSFLowPower", 64); ("IAOSFEndPointInterface", 128)]);
   ("GAAFlags",
     [("GAAFlagSkipUnicast", 1); ("GAAFlagSkipAnycast", 2); ("GAAFlagSkipMulticast", 4);
      ("GAAFlagSkipDNSServer", 8); ("GAAFlagIncludePrefix", 16);
      ("GAAFlagSkipFriendlyName", 32); ("GAAFlagIncludeWinsInfo", 64);
      ("GAAFlagIncludeGateways", 128); ("GAAFlagIncludeAllInterfaces", 256);
      ("GAAFlagIncludeAllCompartments", 512); ("GAAFlagIncludeTunnelBindingOrder", 1024);
      ("GAAFlagSkipDNSInfo", 2048); ("GAAFlagDefault", 0); ("GAAFlagSkipAll", 2095);
      ("GAAFlagIncludeAll", 2000)]);
   ("ScopeLevel",
     [("ScopeLevelInterface", 1); ("ScopeLevelLink", 2); ("ScopeLevelSubnet", 3);
      ("ScopeLevelAdmin", 4); ("ScopeLevelSite", 5); ("ScopeLevelOrganization", 8);
      ("ScopeLevelGlobal", 14); ("ScopeLevelCount", 16)])].

Definition documented (name : string) : list (string * Z) :=
  from_option snd [] (List.find (fun '(n, _) => String.eqb n name) documented_lists).

(** ** The constants of the package *)

Definition types (n : string) : option intty :=
  head (omap (fun e => if decide (enum_name e = n) then Some (underlying e) else None) enumerations).

Definition blocks : list (list spec) := [sizes] ++ map specs enumerations ++ [dns_settings_consts].

(** [None] when a declaration would not compile. *)
Definition constants : option (gmap string const) :=
  fold_left (fun known b => known ← known; block types b None 0 known) blocks (Some ∅).

Definition constant (x : string) : option const := known ← constants; known !! x.

(** A constant of an enumeration as a value of its type. *)
Definition member (e : enumeration) (s : spec) (known : gmap string const) : bool :=
  match known !! ident s with
  | Some (Some n, z) => bool_decide (n = enum_name e) && representable (underlying e) z
  | Some (None, z) =>
      bool_decide (declared s = None) && bool_decide (is_Some (value s)) &&
      representable (underlying e) z
  | None => false
  end.

Definition number (known : gmap string const) (s : spec) : option Z := snd <$> known !! ident s.

(** Name and value of each constant, in order. *)
Definition valued (known : gmap string const) (e : enumeration) : list (string * option Z) :=
  map (fun s => (ident s, number known s)) (specs e).

Definition well_formed (known : gmap string const) (e : enumeration) : bool :=
  forallb (fun s => member e s known) (specs e) &&
  bool_decide (NoDup (map (number known) (specs e))) &&
  bool_decide (valued known e = map (fun '(x, z) => (x, Some z)) (documented (enum_name e))).

Lemma all_well_formed :
  match constants with Some known => forallb (well_formed known) enumerations | None => false end
  = true.
Proof. vm_compute. reflexivity. Qed.

(** The constants that are definitions of IpTypes.v. *)
Definition used : list (string * Z) :=
  [("DadStatePreferred", DadStatePreferred); ("GAAFlagDefault", GAAFlagDefault);
   ("DnsInterfaceSettingsVersion1", DnsInterfaceSettingsVersion1);
   ("DnsInterfaceSettingsFlagIPv6", DnsInterfaceSettingsFlagIPv6);
   ("DnsInterfaceSettingsFlagNameserver", DnsInterfaceSettingsFlagNameserver);
   ("DnsInterfaceSettingsFlagSearchList", DnsInterfaceSettingsFlagSearchList)].


Lemma used_values : Forall (fun '(x, v) => snd <$> constant x = Some v) used.
Proof. apply (bool_decide_unpack _). vm_compute. exact I. Qed.

(** C39: the constants of every enumeration are, in order, the documented members,
    each with its documented value; it is a value of the enumeration's type, and
    no other constant of the enumeration has it; the constant is of that type
    itself, or untyped when its line gives an expression without a type.  The
    constants the code uses have the values IpTypes.v gives them. *)
Theorem enumerations_typed e s :
  e ∈ enumerations -> s ∈ specs e ->
  map ident (specs e) = map fst (documented (enum_name e)) /\
  exists t z,
    constant (ident s) = Some (t, z) /\ (ident s, z) ∈ documented (enum_name e) /\
    representable (underlying e) z = true /\
    (t = Some (enum_name e) \/ t = None /\ declared s = None /\ is_Some (value s)) /\
    (forall s' t', s' ∈ specs e -> constant (ident s') = Some (t', z) -> s' = s) /\
    Forall (fun '(x, v) => snd <$> constant x = Some v) used.
Proof.
  intros He Hs. pose proof used_values as Hu. pose proof all_well_formed as Hw. unfold constant in *.
  destruct constants as [known|]; [|done]. cbn [mbind option_bind] in *.
  apply (forallb_elem _ _ e) in Hw; [|done].
  apply andb_prop in Hw as [[Hm Hn%bool_decide_eq_true]%andb_prop Hv%bool_decide_eq_true].
  apply (forallb_elem _ _ s) in Hm; [|done].
  assert (map ident (specs e) = map fst (documented (enum_name e))) as Hnames.
  { apply (f_equal (map fst)) in Hv. unfold valued in Hv. rewrite !map_map in Hv.
    etransitivity; [exact Hv|]. apply map_ext. by intros []. }
  split; [exact Hnames|].
  unfold member in Hm. destruct (known !! ident s) as [[t z]|] eqn:Hk; [|done].
  exists t, z. split; [done|].
  assert ((ident s, z) ∈ documented (enum_name e)) as Hdoc.
  { assert ((ident s, Some z) ∈ valued known e) as Hin.
    { apply list_elem_of_fmap. exists s. unfold number. by rewrite Hk. }
    rewrite Hv in Hin. by apply list_elem_of_fmap in Hin as ([x y] & [= -> ->] & Hin). }
  split; [exact Hdoc|].
  assert (forall s' t', s' ∈ specs e -> known !! ident s' = Some (t', z) -> s' = s) as Huniq.
  { intros s' t' Hs' Hk'. apply (NoDup_map_inj (number known) (specs e)); try done.
    unfold number. by rewrite Hk, Hk'. }
  destruct t as [n|].
  - apply andb_prop in Hm as [->%bool_decide_eq_true Hr]. eauto.
  - apply andb_prop in Hm as [[Hd%bool_decide_eq_true Hx%bool_decide_eq_true]%andb_prop Hr]. eauto 10.
Qed.

(** Repeated lines are of the type of the first; a line with an expression of its
    own is not. *)
Lemma enumerations_typed_witness :
  constant "PrefixOriginDHCP" = Some (Some "PrefixOrigin", 3) /\
  constant "PrefixOriginUnchanged" = Some (None, 16) /\
  representable uint32 16 = true.
Proof.
  split; [vm_compute; reflexivity|].
  assert (plain "PrefixOriginUnchanged" (Shl (Lit 1) (Lit 4)) ∈ specs PrefixOrigin_enum) as Hs.
  { do 5 apply list_elem_of_further. apply list_elem_of_here. }
  assert (PrefixOrigin_enum ∈ enumerations) as He.
  { do 13 apply list_elem_of_further. apply list_elem_of_here. }
  destruct (enumerations_typed PrefixOrigin_enum _ He Hs) as (_ & t & z & Hc & _ & Hr & _).
  assert (constant "PrefixOriginUnchanged" = Some (None, 16)) as Hv by (vm_compute; reflexivity).
  split; [exact Hv|]. cbn [ident plain] in Hc. rewrite Hv in Hc. injection Hc as _ <-. exact Hr.
Defined.

(** ** Flags *)

Definition flag (x : string) : Z := from_option snd 0 (constant x).

(** Flags are combined with [|] and tested with [&]. *)
Definition or_flags (xs : list string) : Z := foldr (fun x v => Z.lor (flag x) v) 0 xs.
Definition has (v : Z) (x : string) : bool := negb (Z.land v (flag x) =? 0)%Z.

Definition gaa_flags : list string := map ident (take 12 (specs GAAFlags_enum)).
Definition dns_flags : list string := map ident (drop 3 dns_settings_consts).

Definition flag_types : list (intty * list string) :=
  [(uint32, map ident (specs IPAAFlags_enum)); (uint8, map ident (specs OffloadRod_enum));
   (uint8, map ident (specs InterfaceAndOperStatusFlags_enum)); (uint32, gaa_flags);
   (uint64, dns_flags)].

(** The bit of a flag, and what makes a list of names flags of a type. *)
Definition bit (x : string) : Z := Z.log2 (flag x).

Definition flags_ok (t : intty) (xs : list string) : bool :=
  negb (signed t) && (0 <? bits t)%Z && bool_decide (NoDup (map bit xs)) &&
  forallb (fun x => (flag x =? 2 ^ bit x)%Z && (bit x <? bits t)%Z) xs.

Lemma flag_types_ok : forallb (fun '(t, xs) => flags_ok t xs) flag_types = true.
Proof. vm_compute. reflexivity. Qed.

Section Flags.
Context (t : intty) (xs : list string) (Hok : flags_ok t xs = true).

Lemma flag_bit x : x ∈ xs -> flag x = 2 ^ bit x /\ 0 <= bit x < bits t.
Proof.
  intros Hx. apply andb_prop in Hok as [_ Hf]. apply (forallb_elem _ _ x) in Hf; [|exact Hx].
  cbn beta in Hf.  apply andb_prop in Hf as [Hv Hb]. split; [lia|]. split; [apply Z.log2_nonneg|lia].
Qed.

Lemma testbit_or_flags ys k :
  ys ⊆ xs -> 0 <= k -> Z.testbit (or_flags ys) k = existsb (fun y => bit y =? k)%Z ys.
Proof.
  intros Hys Hk. induction ys as [|y ys IH]; [apply Z.testbit_0_l|]. cbn [or_flags foldr existsb].
  destruct (flag_bit y) as [-> Hb]; [apply Hys, list_elem_of_here|].
  fold (or_flags ys). rewrite Z.lor_spec, IH by (intros z Hz; apply Hys; by apply list_elem_of_further).
  by rewrite Z.pow2_bits_eqb by apply Hb.
Qed.

Lemma or_flags_representable ys : ys ⊆ xs -> representable t (or_flags ys) = true.
Proof.
  intros Hys. pose proof Hok as [[[Hs Hw]%andb_prop _]%andb_prop _]%andb_prop.
  unfold representable. apply negb_true_iff in Hs. rewrite Hs. apply bool_decide_eq_true.
  induction ys as [|y ys IH].
  - split; [done|]. apply Z.pow_pos_nonneg; lia.
  - cbn [or_flags foldr]. apply fits_lor; [lia| |apply IH; set_solver].
    destruct (flag_bit y) as [-> Hb]; [apply Hys, list_elem_of_here|].
    split; [by apply Z.pow_nonneg|]. apply Z.pow_lt_mono_r; lia.
Qed.

Lemma has_or_flags ys x : ys ⊆ xs -> x ∈ xs -> has (or_flags ys) x = bool_decide (x ∈ ys).
Proof.
  intros Hys Hx. unfold has. destruct (flag_bit x Hx) as [-> Hb].
  assert (Z.land (or_flags ys) (2 ^ bit x) =
          if Z.testbit (or_flags ys) (bit x) then 2 ^ bit x else 0) as ->.
  { apply Z.bits_inj'. intros k Hk. rewrite Z.land_spec, Z.pow2_bits_eqb by lia.
    destruct (Z.eqb_spec (bit x) k) as [<-|Hne].
    - destruct (Z.testbit (or_flags ys) (bit x)); [rewrite Z.pow2_bits_true by lia; done|].
      by rewrite Z.testbit_0_l.
    - rewrite andb_false_r. destruct (Z.testbit (or_flags ys) (bit x)); [|by rewrite Z.testbit_0_l].
      rewrite Z.pow2_bits_false by done; done. }
  rewrite (testbit_or_flags ys (bit x) Hys (proj1 Hb)).
  pose proof Hok as [[_ Hn%bool_decide_eq_true]%andb_prop _]%andb_prop.
  destruct (existsb (fun y => bit y =? bit x)%Z ys) eqn:He.
  - apply existsb_exists in He as (y & Hy%list_elem_of_In & Heq).
    assert (y = x) as -> by exact (NoDup_map_inj bit xs y x Hn (Hys y Hy) Hx (proj1 (Z.eqb_eq _ _) Heq)).
    rewrite bool_decide_true by done. assert (0 < 2 ^ bit x) by (apply Z.pow_pos_nonneg; [done|apply Hb]).
    apply negb_true_iff. lia.
  - rewrite bool_decide_false; [done|]. intros Hin. apply not_true_iff_false in He.
    apply He, existsb_exists. exists x. split; [by apply list_elem_of_In|apply Z.eqb_refl].
Qed.
End Flags.

(** Whatever flags of a type are combined, the result is a value of the type
    and a flag tests true in it exactly when it is one of them; skipping all and
    including all of GetAdaptersAddresses are its flags of these names, and the
    default is no flag. *)
Theorem flag_sets t xs ys :
  (t, xs) ∈ flag_types -> ys ⊆ xs ->
  representable t (or_flags ys) = true /\
  (forall x, x ∈ xs -> has (or_flags ys) x = bool_decide (x ∈ ys)) /\
  flag "GAAFlagSkipAll" = or_flags (filter (fun x => String.prefix "GAAFlagSkip" x) gaa_flags) /\
  flag "GAAFlagIncludeAll" = or_flags (filter (fun x => String.prefix "GAAFlagInclude" x) gaa_flags) /\
  flag "GAAFlagDefault" = or_flags [].
Proof.
  intros Ht Hys. pose proof (forallb_elem _ _ _ flag_types_ok Ht) as Hok. cbn in Hok.
  split; [by apply or_flags_representable with xs|].
  split; [intros x; by apply has_or_flags with t|]. by vm_compute.
Qed.

Lemma flag_sets_witness :
  or_flags ["LargeSendOffloadSupported"; "ChecksumSupported"] = 65 /\
  has 65 "ChecksumSupported" = true /\ has 65 "OptionsSupported" = false.
Proof.
  assert (or_flags ["LargeSendOffloadSupported"; "ChecksumSupported"] = 65) as Hv
    by (vm_compute; reflexivity).
  split; [exact Hv|].
  destruct (flag_sets uint8 (map ident (specs OffloadRod_enum))
              ["LargeSendOffloadSupported"; "ChecksumSupported"]) as (_ & Hh & _).
  - apply list_elem_of_further, list_elem_of_here.
  - intros x Hx. apply elem_of_cons in Hx as [->|Hx]; [|apply list_elem_of_singleton in Hx as ->];
      [do 6 apply list_elem_of_further|]; apply list_elem_of_here.
  - rewrite Hv in Hh. split; rewrite Hh.
    + vm_compute. reflexivity.
    + apply list_elem_of_here.
    + vm_compute. reflexivity.
    + apply list_elem_of_further, list_elem_of_here.
Defined.
