(* ===== verification/IpHelper.v ===== *)
(** * The IP helper API (winipcfg/zwinipcfg_windows.go, winipcfg.go)

    The system calls as a signature, their generated wrappers, and the
    functions that read whole tables.  A call returns a code, 0 for success;
    calls that fill a row answer with the row as it is afterwards.  A table is
    memory the system allocates: the caller frees it with [FreeMibTable]. *)

From S2P Require Import Prelude Netip Sockaddr IpTypes.
From Stdlib Require Import ZArith Lia.
From stdpp Require Import base list strings.
Open Scope Z_scope.

(** A table in system memory: its handle and its [numEntries] rows. *)
Record table (R : Type) : Type := mkTable {
  tab_handle : Z;
  tab_rows : list R;
}.
Arguments mkTable {R} tab_handle tab_rows.
Arguments tab_handle {R} t.
Arguments tab_rows {R} t.

(** A pointer to a NUL-terminated UTF-16 string. *)
Inductive utf16 : Type := mkUtf16 (id : Z).

#[export] Instance utf16_eq_dec : EqDecision utf16.
Proof. solve_decision. Defined.

Record DnsInterfaceSettings : Type := mkDns {
  Version : Z;
  DnsFlags : Z;
  NameServer : option utf16;
  SearchList : option utf16;
}.

Inductive ipE : Type -> Type :=
| FreeMibTable (handle : Z) : ipE unit
| InitializeIpForwardEntry (row : MibIPforwardRow2.t) : ipE MibIPforwardRow2.t
| InitializeIpInterfaceEntry (row : MibIPInterfaceRow.t) : ipE MibIPInterfaceRow.t
| InitializeUnicastIpAddressEntry (row : MibUnicastIPAddressRow.t) : ipE MibUnicastIPAddressRow.t
| GetIpForwardEntry2 (row : MibIPforwardRow2.t) : ipE (Z * MibIPforwardRow2.t)
| GetIpInterfaceEntry (row : MibIPInterfaceRow.t) : ipE (Z * MibIPInterfaceRow.t)
| GetIfEntry2 (row : MibIfRow2.t) : ipE (Z * MibIfRow2.t)
| GetUnicastIpAddressEntry (row : MibUnicastIPAddressRow.t) : ipE (Z * MibUnicastIPAddressRow.t)
| GetAnycastIpAddressEntry (row : MibAnycastIPAddressRow.t) : ipE (Z * MibAnycastIPAddressRow.t)
| SetIpForwardEntry2 (row : MibIPforwardRow2.t) : ipE Z
| CreateIpForwardEntry2 (row : MibIPforwardRow2.t) : ipE Z
| DeleteIpForwardEntry2 (row : MibIPforwardRow2.t) : ipE Z
| SetIpInterfaceEntry (row : MibIPInterfaceRow.t) : ipE Z
| SetUnicastIpAddressEntry (row : MibUnicastIPAddressRow.t) : ipE Z
| CreateUnicastIpAddressEntry (row : MibUnicastIPAddressRow.t) : ipE Z
| DeleteUnicastIpAddressEntry (row : MibUnicastIPAddressRow.t) : ipE Z
| CreateAnycastIpAddressEntry (row : MibAnycastIPAddressRow.t) : ipE Z
| DeleteAnycastIpAddressEntry (row : MibAnycastIPAddressRow.t) : ipE Z
| GetIpForwardTable2 (family : Z) : ipE (Z * table MibIPforwardRow2.t)
| GetIpInterfaceTable (family : Z) : ipE (Z * table MibIPInterfaceRow.t)
| GetIfTable2Ex_ (level : Z) : ipE (Z * table MibIfRow2.t)
| GetUnicastIpAddressTable (family : Z) : ipE (Z * table MibUnicastIPAddressRow.t)
| GetAnycastIpAddressTable (family : Z) : ipE (Z * table MibAnycastIPAddressRow.t)
| ConvertInterfaceLuidToGuid (luid : Z) : ipE (Z * GUID)
| ConvertInterfaceGuidToLuid (guid : GUID) : ipE (Z * Z)
| ConvertInterfaceIndexToLuid (index : Z) : ipE (Z * Z)
| FindSetInterfaceDnsSettings : ipE (option error)
| SetInterfaceDnsSettings_ (args : list Z + GUID) (settings : DnsInterfaceSettings) : ipE Z
| GetAdaptersAddresses_ (family flags size : Z)
    : ipE (option error * Z * list IPAdapterAddresses.t).

(** [if r0 != 0 { ret = syscall.Errno(r0) }] *)
Definition ret (r0 : Z) : option error := if decide (r0 = 0) then None else Some (Errno r0).

Section IpHelper.
Context {F : Type -> Type} `{Sub ipE F}.

Abbreviation M := (prog F).

Definition freeMibTable (memory : Z) : M unit := invoke (FreeMibTable memory).

(** ** Generated wrappers *)

Definition initializeIPForwardEntry (row : MibIPforwardRow2.t) : M MibIPforwardRow2.t := invoke (InitializeIpForwardEntry row).

Definition initializeIPInterfaceEntry (row : MibIPInterfaceRow.t) : M MibIPInterfaceRow.t := invoke (InitializeIpInterfaceEntry row).

Definition initializeUnicastIPAddressEntry (row : MibUnicastIPAddressRow.t) : M MibUnicastIPAddressRow.t := invoke (InitializeUnicastIpAddressEntry row).

Definition getIPForwardEntry2 (row : MibIPforwardRow2.t) : M (MibIPforwardRow2.t * option error) :=
  let! (r0, row) := invoke (GetIpForwardEntry2 row) in Ret (row, ret r0).

Definition getIPInterfaceEntry (row : MibIPInterfaceRow.t) : M (MibIPInterfaceRow.t * option error) :=
  let! (r0, row) := invoke (GetIpInterfaceEntry row) in Ret (row, ret r0).

Definition getIfEntry2 (row : MibIfRow2.t) : M (MibIfRow2.t * option error) :=
  let! (r0, row) := invoke (GetIfEntry2 row) in Ret (row, ret r0).

Definition getUnicastIPAddressEntry (row : MibUnicastIPAddressRow.t) : M (MibUnicastIPAddressRow.t * option error) :=
  let! (r0, row) := invoke (GetUnicastIpAddressEntry row) in Ret (row, ret r0).

Definition getAnycastIPAddressEntry (row : MibAnycastIPAddressRow.t) : M (MibAnycastIPAddressRow.t * option error) :=
  let! (r0, row) := invoke (GetAnycastIpAddressEntry row) in Ret (row, ret r0).

Definition setIPForwardEntry2 (row : MibIPforwardRow2.t) : M (option error) :=
  let! r0 := invoke (SetIpForwardEntry2 row) in Ret (ret r0).

Definition createIPForwardEntry2 (row : MibIPforwardRow2.t) : M (option error) :=
  let! r0 := invoke (CreateIpForwardEntry2 row) in Ret (ret r0).

Definition deleteIPForwardEntry2 (row : MibIPforwardRow2.t) : M (option error) :=
  let! r0 := invoke (DeleteIpForwardEntry2 row) in Ret (ret r0).

Definition setIPInterfaceEntry (row : MibIPInterfaceRow.t) : M (option error) :=
  let! r0 := invoke (SetIpInterfaceEntry row) in Ret (ret r0).

Definition setUnicastIPAddressEntry (row : MibUnicastIPAddressRow.t) : M (option error) :=
  let! r0 := invoke (SetUnicastIpAddressEntry row) in Ret (ret r0).

Definition createUnicastIPAddressEntry (row : MibUnicastIPAddressRow.t) : M (option error) :=
  let! r0 := invoke (CreateUnicastIpAddressEntry row) in Ret (ret r0).

Definition deleteUnicastIPAddressEntry (row : MibUnicastIPAddressRow.t) : M (option error) :=
  let! r0 := invoke (DeleteUnicastIpAddressEntry row) in Ret (ret r0).

Definition createAnycastIPAddressEntry (row : MibAnycastIPAddressRow.t) : M (option error) :=
  let! r0 := invoke (CreateAnycastIpAddressEntry row) in Ret (ret r0).

Definition deleteAnycastIPAddressEntry (row : MibAnycastIPAddressRow.t) : M (option error) :=
  let! r0 := invoke (DeleteAnycastIpAddressEntry row) in Ret (ret r0).

(** A table call that fails gives no table. *)
Definition table_result {R} (r0 : Z) (tab : table R) : result (table R) :=
  match ret r0 with None => Ok tab | Some e => Err e end.

Definition getIPForwardTable2 (family : Z) : M (result (table MibIPforwardRow2.t)) :=
  let! (r0, tab) := invoke (GetIpForwardTable2 family) in Ret (table_result r0 tab).

Definition getIPInterfaceTable (family : Z) : M (result (table MibIPInterfaceRow.t)) :=
  let! (r0, tab) := invoke (GetIpInterfaceTable family) in Ret (table_result r0 tab).

Definition getIfTable2Ex (level : Z) : M (result (table MibIfRow2.t)) :=
  let! (r0, tab) := invoke (GetIfTable2Ex_ level) in Ret (table_result r0 tab).

Definition getUnicastIPAddressTable (family : Z) : M (result (table MibUnicastIPAddressRow.t)) :=
  let! (r0, tab) := invoke (GetUnicastIpAddressTable family) in Ret (table_result r0 tab).

Definition getAnycastIPAddressTable (family : Z) : M (result (table MibAnycastIPAddressRow.t)) :=
  let! (r0, tab) := invoke (GetAnycastIpAddressTable family) in Ret (table_result r0 tab).

Definition value_result {V} (r0 : Z) (v : V) : result V :=
  match ret r0 with None => Ok v | Some e => Err e end.

Definition convertInterfaceLUIDToGUID (luid : Z) : M (result GUID) :=
  let! (r0, guid) := invoke (ConvertInterfaceLuidToGuid luid) in Ret (value_result r0 guid).

Definition convertInterfaceGUIDToLUID (guid : GUID) : M (result Z) :=
  let! (r0, luid) := invoke (ConvertInterfaceGuidToLuid guid) in Ret (value_result r0 luid).

Definition convertInterfaceIndexToLUID (index : Z) : M (result Z) :=
  let! (r0, luid) := invoke (ConvertInterfaceIndexToLuid index) in Ret (value_result r0 luid).

(** The three ways of passing the GUID; all look the procedure up first. *)
Definition setInterfaceDnsSettings (args : list Z + GUID) (settings : DnsInterfaceSettings)
    : M (option error) :=
  let! missing := invoke FindSetInterfaceDnsSettings in
  match missing with
  | Some e => Ret (Some e)
  | None => let! r0 := invoke (SetInterfaceDnsSettings_ args settings) in Ret (ret r0)
  end.

Definition setInterfaceDnsSettingsByPtr (guid : GUID) (settings : DnsInterfaceSettings) :=
  setInterfaceDnsSettings (inr guid) settings.
Definition setInterfaceDnsSettingsByQwords (guid1 guid2 : Z) (settings : DnsInterfaceSettings) :=
  setInterfaceDnsSettings (inl [guid1; guid2]) settings.
Definition setInterfaceDnsSettingsByDwords (guid1 guid2 guid3 guid4 : Z)
    (settings : DnsInterfaceSettings) :=
  setInterfaceDnsSettings (inl [guid1; guid2; guid3; guid4]) settings.

(** ** Methods of rows and tables (winipcfg/types.go) *)

Definition MibIPInterfaceRow_Init (row : MibIPInterfaceRow.t) : M MibIPInterfaceRow.t := initializeIPInterfaceEntry row.
Definition MibIPInterfaceRow_Set (row : MibIPInterfaceRow.t) : M (option error) := setIPInterfaceEntry row.
Definition MibIfRow2_get (row : MibIfRow2.t) : M (MibIfRow2.t * option error) := getIfEntry2 row.
Definition MibUnicastIPAddressRow_Init (row : MibUnicastIPAddressRow.t) : M MibUnicastIPAddressRow.t := initializeUnicastIPAddressEntry row.
Definition MibUnicastIPAddressRow_get (row : MibUnicastIPAddressRow.t) : M (MibUnicastIPAddressRow.t * option error) := getUnicastIPAddressEntry row.
Definition MibUnicastIPAddressRow_Set (row : MibUnicastIPAddressRow.t) : M (option error) := setUnicastIPAddressEntry row.
Definition MibUnicastIPAddressRow_Create (row : MibUnicastIPAddressRow.t) : M (option error) := createUnicastIPAddressEntry row.
Definition MibUnicastIPAddressRow_Delete (row : MibUnicastIPAddressRow.t) : M (option error) := deleteUnicastIPAddressEntry row.
Definition MibAnycastIPAddressRow_get (row : MibAnycastIPAddressRow.t) : M (MibAnycastIPAddressRow.t * option error) := getAnycastIPAddressEntry row.
Definition MibAnycastIPAddressRow_Create (row : MibAnycastIPAddressRow.t) : M (option error) := createAnycastIPAddressEntry row.
Definition MibAnycastIPAddressRow_Delete (row : MibAnycastIPAddressRow.t) : M (option error) := deleteAnycastIPAddressEntry row.
Definition MibIPforwardRow2_Init (row : MibIPforwardRow2.t) : M MibIPforwardRow2.t := initializeIPForwardEntry row.
Definition MibIPforwardRow2_get (row : MibIPforwardRow2.t) : M (MibIPforwardRow2.t * option error) := getIPForwardEntry2 row.
Definition MibIPforwardRow2_Set (row : MibIPforwardRow2.t) : M (option error) := setIPForwardEntry2 row.
Definition MibIPforwardRow2_Create (row : MibIPforwardRow2.t) : M (option error) := createIPForwardEntry2 row.
Definition MibIPforwardRow2_Delete (row : MibIPforwardRow2.t) : M (option error) := deleteIPForwardEntry2 row.

(** [get] of an interface row, with the correction of prefix lengths the system
    would refuse. *)
Definition patch_SitePrefixLength (row : MibIPInterfaceRow.t) : MibIPInterfaceRow.t :=
  if decide (MibIPInterfaceRow.Family row = AF_INET) then
    if decide (32 < MibIPInterfaceRow.SitePrefixLength row)
    then MibIPInterfaceRow.set_SitePrefixLength 0 row else row
  else if decide (MibIPInterfaceRow.Family row = AF_INET6) then
    if decide (128 < MibIPInterfaceRow.SitePrefixLength row)
    then MibIPInterfaceRow.set_SitePrefixLength 128 row else row
  else row.

Definition MibIPInterfaceRow_get (row : MibIPInterfaceRow.t)
    : M (MibIPInterfaceRow.t * option error) :=
  let! (row, err) := getIPInterfaceEntry row in
  match err with
  | Some e => Ret (row, Some e)
  | None => Ret (patch_SitePrefixLength row, None)
  end.

(** The methods of tables, the same for every kind of row. *)
Definition table_get {R} (tab : table R) : list R := tab_rows tab.
Definition table_free {R} (tab : table R) : M unit := freeMibTable (tab_handle tab).

(** ** Whole tables (winipcfg/winipcfg.go) *)

(** Copy the rows and free the table. *)
Definition read_table {R} (get : M (result (table R))) : M (result (list R)) :=
  let! tab := get in
  match tab with
  | Err e => Ret (Err e)
  | Ok tab =>
      let t := table_get tab in
      do! table_free tab in
      Ret (Ok t)
  end.

Definition GetIPInterfaceTable (family : Z) : M (result (list MibIPInterfaceRow.t)) := read_table (getIPInterfaceTable family).
Definition GetIfTable2Ex (level : Z) : M (result (list MibIfRow2.t)) := read_table (getIfTable2Ex level).
Definition GetUnicastIPAddressTable (family : Z) : M (result (list MibUnicastIPAddressRow.t)) := read_table (getUnicastIPAddressTable family).
Definition GetAnycastIPAddressTable (family : Z) : M (result (list MibAnycastIPAddressRow.t)) := read_table (getAnycastIPAddressTable family).
Definition GetIPForwardTable2 (family : Z) : M (result (list MibIPforwardRow2.t)) := read_table (getIPForwardTable2 family).

(** [windows.ERROR_BUFFER_OVERFLOW] *)
Definition ERROR_BUFFER_OVERFLOW : error := Errno 111.

(** One round of the loop of [GetAdaptersAddresses] with a buffer of [size]
    bytes: the adapters, an error, or the larger size to try next. *)
Definition adapters_round (family flags size : Z)
    : M (Z + result (list IPAdapterAddresses.t)) :=
  let! (err, size', adapters) := invoke (GetAdaptersAddresses_ family flags size) in
  match err with
  | None => Ret (inr (Ok adapters))
  | Some e =>
      if decide (e <> ERROR_BUFFER_OVERFLOW \/ size' <= size) then Ret (inr (Err e))
      else Ret (inl size')
  end.

(** At most [2 ^ n] rounds of a loop. *)
Fixpoint rounds {A B} (n : nat) (body : A -> M (A + B)) (a : A) : M (A + B) :=
  match n with
  | O => body a
  | S n =>
      let! r := rounds n body a in
      match r with
      | inl a' => rounds n body a'
      | inr b => Ret (inr b)
      end
  end.

(** The size is a uint32 and grows every round, so [2 ^ 32] rounds are enough. *)
Definition GetAdaptersAddresses (family flags : Z)
    : M (Z + result (list IPAdapterAddresses.t)) :=
  rounds 32 (adapters_round family flags) 15000.

(** The three calling conventions of a GUID passed by value. *)
Definition guid_bytes (g : GUID) : list Z :=
  le_bytes 4 (Data1 g) ++ le_bytes 2 (Data2 g) ++ le_bytes 2 (Data3 g) ++ Data4 g.

Definition SetInterfaceDnsSettings (arch : string) (guid : GUID)
    (settings : DnsInterfaceSettings) : option (M (option error)) :=
  let qword i := get_u 8 (8 * i) (guid_bytes guid) in
  let dword i := get_u 4 (4 * i) (guid_bytes guid) in
  if decide (arch = "amd64"%string) then Some (setInterfaceDnsSettingsByPtr guid settings)
  else if decide (arch = "arm64"%string) then
    Some (setInterfaceDnsSettingsByQwords (qword 0%nat) (qword 1%nat) settings)
  else if decide (arch = "arm"%string \/ arch = "386"%string) then
    Some (setInterfaceDnsSettingsByDwords (dword 0%nat) (dword 1%nat) (dword 2%nat) (dword 3%nat)
            settings)
  else None.
End IpHelper.
