(* ===== verification/Tables.v ===== *)
(** * Tables in system memory (winipcfg/types.go, winipcfg.go)

    The functions that return whole tables, down to the memory: the system
    allocates a block and fills it, [get] makes a slice over it, the rows are
    copied and [free] gives the block back.  IpHelper.v has these functions with
    the rows as the answer of the call; here they are shown to be the same, on
    either word size, whatever the padding and the rest of the block hold. *)

From Stdlib Require Import ZArith String Lia.
From stdpp Require Import base list strings gmap.
From S2P Require Import Prelude Netip Sockaddr IpTypes Layout Memory RowMemory IpHelper.
Open Scope Z_scope.
Local Open Scope string_scope.
Local Open Scope list_scope.

(** The procedures that return a table; the rows of each. *)
Inductive tableCall : Type -> Type :=
| InterfaceTable (family : Z) : tableCall MibIPInterfaceRow.t
| IfTable (level : Z) : tableCall MibIfRow2.t
| UnicastTable (family : Z) : tableCall MibUnicastIPAddressRow.t
| AnycastTable (family : Z) : tableCall MibAnycastIPAddressRow.t
| ForwardTable (family : Z) : tableCall MibIPforwardRow2.t.

#[export] Instance tableCall_row {R} (c : tableCall R) : Row R :=
  match c with
  | InterfaceTable _ => MibIPInterfaceRow_row
  | IfTable _ => MibIfRow2_row
  | UnicastTable _ => MibUnicastIPAddressRow_row
  | AnycastTable _ => MibAnycastIPAddressRow_row
  | ForwardTable _ => MibIPforwardRow2_row
  end.

(** The same call with the rows as its answer. *)
Definition system_call {R} (c : tableCall R) : ipE (Z * table R) :=
  match c with
  | InterfaceTable family => GetIpInterfaceTable family
  | IfTable level => GetIfTable2Ex_ level
  | UnicastTable family => GetUnicastIpAddressTable family
  | AnycastTable family => GetAnycastIpAddressTable family
  | ForwardTable family => GetIpForwardTable2 family
  end.

(** What the code does outside its own memory: calls of the system, table calls,
    which answer with a code and the address of the table, and reads of [n]
    bytes at an offset of a block, which fault if they are not there. *)
Inductive memE : Type -> Type :=
| Sys {R} (e : ipE R) : memE R
| Fill {R} (c : tableCall R) : memE (Z * Z)
| Load (p : Z) (off n : nat) : memE (option (list Z)).

(** ** Reading a table *)
Section Code.
Context (w : word).

Abbreviation M := (prog memE).

(** A program that may fault. *)
Definition checked {A B} (p : M (option A)) (q : A -> M (option B)) : M (option B) :=
  let! r := p in match r with None => Ret None | Some a => q a end.

(** The table's wrapper, as the generated ones of IpHelper.v. *)
Definition getTable {R} (c : tableCall R) : M (result Z) :=
  let! (r0, tab) := call (Fill c) in Ret (value_result r0 tab).

Section Table.
Context {R : Type} `{Row R}.

(** [tab.numEntries] and the offset of [tab.table]. *)
Definition numEntries (tab : Z) : M (option Z) :=
  let! b := call (Load tab (field_offset (go_rules w) (table_decl w) "numEntries") 4) in
  Ret match b with Some b => Some (le_value b) | None => None end.

Definition off_table : nat := field_offset (go_rules w) (table_decl w) "table".

(** A slice of rows over a block. *)
Record view : Type := mkView { v_block : Z; v_off : nat; v_len : nat }.

(** [unsafe.Slice(&tab.table[0], tab.numEntries)] *)
Definition tab_get (tab : Z) : M (option view) :=
  checked (numEntries tab) (fun n => Ret (Some (mkView tab off_table (Z.to_nat n)))).

(** The rows in the bytes of a slice. *)
Definition rows_of (n : nat) (b : list Z) : list R :=
  map (fun i => go_read w (get (i * row_size w) (row_size w) b)) (seq 0 n).

(** [append(make([]R, 0, n), s...)]: copies the bytes of the slice. *)
Definition append_rows (s : view) : M (option (list R)) :=
  let! b := call (Load (v_block s) (v_off s) (v_len s * row_size w)) in
  Ret match b with Some b => Some (rows_of (v_len s) b) | None => None end.

Definition tab_free (tab : Z) : M unit := call (Sys (FreeMibTable tab)).

Definition copy_table (tab : Z) : M (option (list R)) :=
  checked (numEntries tab) (fun _ =>
  checked (tab_get tab) (fun s =>
  checked (append_rows s) (fun t =>
  do! tab_free tab in Ret (Some t)))).
End Table.

Definition get_table {R} (c : tableCall R) : M (option (result (list R))) :=
  let! tab := getTable c in
  match tab with
  | Err e => Ret (Some (Err e))
  | Ok tab => checked (copy_table (H := tableCall_row c) tab) (fun t => Ret (Some (Ok t)))
  end.

Definition GetIPInterfaceTable (family : Z) := get_table (InterfaceTable family).
Definition GetIfTable2Ex (level : Z) := get_table (IfTable level).
Definition GetUnicastIPAddressTable (family : Z) := get_table (UnicastTable family).
Definition GetAnycastIPAddressTable (family : Z) := get_table (AnycastTable family).
Definition GetIPForwardTable2 (family : Z) := get_table (ForwardTable family).
End Code.

(** The methods of the tables, by their receivers. *)
Section Methods.
Context (w : word).
Definition mibIPInterfaceTable_get := tab_get (R := MibIPInterfaceRow.t) w.
Definition mibIPInterfaceTable_free := tab_free.
Definition mibIfTable2_get := tab_get (R := MibIfRow2.t) w.
Definition mibIfTable2_free := tab_free.
Definition mibUnicastIPAddressTable_get := tab_get (R := MibUnicastIPAddressRow.t) w.
Definition mibUnicastIPAddressTable_free := tab_free.
Definition mibAnycastIPAddressTable_get := tab_get (R := MibAnycastIPAddressRow.t) w.
Definition mibAnycastIPAddressTable_free := tab_free.
Definition mibIPforwardTable2_get := tab_get (R := MibIPforwardRow2.t) w.
Definition mibIPforwardTable2_free := tab_free.
End Methods.

(** The functions of IpHelper.v. *)
Definition system_table {F} `{Sub ipE F} {R} (c : tableCall R) : prog F (result (list R)) :=
  match c with
  | InterfaceTable family => IpHelper.GetIPInterfaceTable family
  | IfTable level => IpHelper.GetIfTable2Ex level
  | UnicastTable family => IpHelper.GetUnicastIPAddressTable family
  | AnycastTable family => IpHelper.GetAnycastIPAddressTable family
  | ForwardTable family => IpHelper.GetIPForwardTable2 family
  end.

(** ** The system

    Blocks of memory by address.  A new block holds anything: [garbage n] are
    the [n] bytes it starts with. *)
Definition memory : Type := gmap Z (list Z).

Section System.
Context (w : word) (garbage : nat -> list Z).

Section Block.
Context {R : Type} `{Row R}.

Definition sys_size : nat := Z.to_nat (size (sys_rules w) (row_decl W64)).
Definition sys_offset (f : string) : nat := field_offset (sys_rules w) (table_decl W64) f.

Fixpoint write_rows (off : nat) (rows : list R) (blk : list Z) : list Z :=
  match rows with
  | [] => blk
  | r :: rows =>
      let blk := write_rows (off + sys_size) rows blk in
      put off (sys_write w r (get off sys_size blk)) blk
  end.

Definition table_block (rows : list R) : list Z :=
  put (sys_offset "numEntries") (le_bytes 4 (Z.of_nat (length rows)))
    (write_rows (sys_offset "table") rows
       (garbage (sys_offset "table" + length rows * sys_size))).
End Block.

(** The system in memory, given the system with rows. *)
Definition in_memory {S} (h : handler ipE S) : handler memE (S * memory) :=
  fun A e '(s, mem) =>
    match e in memE A return A * (S * memory) with
    | Sys e =>
        let '(a, s') := h _ e s in
        (a, (s', match e with FreeMibTable p => delete p mem | _ => mem end))
    | Fill c =>
        let '((r0, tab), s') := h _ (system_call c) s in
        ((r0, tab_handle tab),
         (s', if decide (r0 = 0)
              then <[tab_handle tab := table_block (H := tableCall_row c) (tab_rows tab)]> mem
              else mem))
    | Load p off n =>
        (match mem !! p with
         | Some b => if decide (off + n <= length b)%nat then Some (get off n b) else None
         | None => None
         end, (s, mem))
    end.
End System.

(** ** Blocks *)

Lemma get_get {A} o n o' n' (b : list A) :
  (o + n <= n')%nat -> get o n (get o' n' b) = get (o' + o) n b.
Proof.
  intros Hn. unfold get. rewrite skipn_firstn_comm, firstn_firstn, drop_drop. f_equal. lia.
Qed.

Lemma length_get {A} o n (b : list A) : (o + n <= length b)%nat -> length (get o n b) = n.
Proof. intros Hn. unfold get. rewrite length_take, length_drop. lia. Qed.

Section Blocks.
Context (w : word) {R : Type} `{Row R}.

Lemma sys_size_go : sys_size w = row_size w.
Proof. unfold sys_size, row_size. by rewrite row_size_agree. Qed.

Lemma sys_offset_go f : sys_offset w f = field_offset (go_rules w) (table_decl w) f.
Proof. unfold sys_offset, field_offset. by rewrite table_agree. Qed.

Lemma length_write_rows off rows blk :
  (off + length rows * sys_size w <= length blk)%nat ->
  length (write_rows w off rows blk) = length blk.
Proof.
  revert off. induction rows as [|r rows IH]; intros off Hl; cbn [write_rows]; [done|].
  cbn [length Nat.mul] in Hl. assert (length (write_rows w (off + sys_size w) rows blk) = length blk)
    as Hw by (apply IH; lia).
  rewrite length_put; [done|]. rewrite sys_write_go, length_go_write; rewrite ?sys_size_go in *; [lia|].
  apply length_get. lia.
Qed.

(** The row at an index of a table. *)
Lemma get_write_rows off rows blk i r :
  rows !! i = Some r -> (off + length rows * sys_size w <= length blk)%nat ->
  exists g, length g = row_size w /\
    get (off + i * sys_size w) (sys_size w) (write_rows w off rows blk) = go_write w r g.
Proof.
  revert off i. induction rows as [|r' rows IH]; intros off i Hi Hl; [done|].
  cbn [write_rows]. cbn [length Nat.mul] in Hl.
  assert (length (write_rows w (off + sys_size w) rows blk) = length blk) as Hw
    by (apply length_write_rows; lia).
  set (blk' := write_rows w (off + sys_size w) rows blk) in *.
  assert (length (get off (sys_size w) blk') = row_size w) as Hg
    by (rewrite <- sys_size_go; apply length_get; lia).
  pose proof (length_go_write w r' _ Hg) as Hlen. rewrite sys_write_go.
  destruct i as [|i].
  - injection Hi as <-. exists (get off (sys_size w) blk'). split; [done|].
    rewrite Nat.mul_0_l, Nat.add_0_r. rewrite get_put; rewrite ?Hlen, ?sys_size_go in *; [done..|lia].
  - destruct (IH (off + sys_size w)%nat i Hi ltac:(lia)) as (g & Hlg & Heq).
    exists g. split; [done|]. rewrite <- Heq. unfold blk' in *. cbn [Nat.mul].
    rewrite get_put_other; rewrite ?Hlen, <- ?sys_size_go; [|lia..]. f_equal. lia.
Qed.

Lemma rows_of_write off rows blk :
  Forall (typed_row) rows -> (off + length rows * sys_size w <= length blk)%nat ->
  rows_of w (length rows) (get off (length rows * row_size w) (write_rows w off rows blk)) = rows.
Proof.
  intros Hr Hl. unfold rows_of. apply list_eq. intros i.
  rewrite list_lookup_fmap. destruct (decide (i < length rows)%nat) as [Hi|Hi].
  - rewrite lookup_seq_lt by done. cbn.
    destruct (lookup_lt_is_Some_2 rows i Hi) as [r Hri]. rewrite Hri. f_equal.
    rewrite <- sys_size_go. rewrite get_get by nia.
    destruct (get_write_rows off rows blk i r Hri Hl) as (g & Hg & ->).
    apply go_read_write; [|done]. by eapply Forall_lookup_1.
  - rewrite lookup_seq_ge by lia. by rewrite lookup_ge_None_2 by lia.
Qed.
End Blocks.

(** ** The code over memory and the code over rows *)
Section Refinement.
Context (w : word) (garbage : nat -> list Z).
Context (length_garbage : forall n, length (garbage n) = n).
Context {S : Type} (h : handler ipE S).

Abbreviation M := (in_memory w garbage h).

Section Block.
Context {R : Type} `{Row R} (rows : list R).
Context (typed : Forall typed_row rows) (few : fits 32 (Z.of_nat (length rows))).

Abbreviation block := (table_block w garbage rows).

Lemma length_rows_block :
  length (write_rows w (sys_offset w "table") rows
            (garbage (sys_offset w "table" + length rows * sys_size w)))
  = (off_table w + length rows * row_size w)%nat.
Proof.
  rewrite length_write_rows; rewrite length_garbage; [|lia].
  by rewrite sys_offset_go, sys_size_go.
Qed.

Lemma length_table_block : length block = (off_table w + length rows * row_size w)%nat.
Proof.
  pose proof (table_header w) as Hh. fold (@off_table w R _) in Hh.
  unfold table_block. rewrite length_put; rewrite ?length_le_bytes, length_rows_block; [done|].
  rewrite sys_offset_go. lia.
Qed.

Lemma run_numEntries p s mem :
  mem !! p = Some block ->
  run M (numEntries w p) (s, mem) = (Some (Z.of_nat (length rows)), (s, mem)).
Proof.
  intros Hp. pose proof (table_header w) as Hh. fold (@off_table w R _) in Hh.
  unfold numEntries. cbn -[get]. rewrite Hp. cbn -[get]. rewrite decide_True by (rewrite length_table_block; lia).
  cbn -[get]. unfold table_block. rewrite sys_offset_go, get_put; [|by rewrite length_le_bytes|].
  - by rewrite le_value_bytes by (by apply few).
  - rewrite length_le_bytes, <- sys_offset_go, sys_offset_go, length_rows_block. lia.
Qed.

Lemma run_append p s mem :
  mem !! p = Some block ->
  run M (append_rows w (mkView p (off_table w) (length rows))) (s, mem) = (Some rows, (s, mem)).
Proof.
  intros Hp. pose proof (table_header w) as Hh. fold (@off_table w R _) in Hh.
  unfold append_rows. cbn -[get]. rewrite Hp. cbn -[get]. rewrite decide_True by (rewrite length_table_block; lia).
  cbn -[get]. f_equal. f_equal. unfold table_block.
  rewrite get_put_other; rewrite ?length_le_bytes, ?length_rows_block, ?sys_offset_go; [|lia..].
  apply rows_of_write; [done|]. rewrite length_garbage, sys_size_go. lia.
Qed.

(** The rows are copied before the block is freed. *)
Lemma run_copy_table p s mem :
  mem !! p = Some block ->
  run M (copy_table w p) (s, mem)
  = (Some rows, ((h _ (FreeMibTable p) s).2, delete p mem)).
Proof.
  intros Hp. unfold copy_table, checked, tab_get, checked.
  rewrite run_bind, run_numEntries by done. rewrite run_bind, run_bind, run_numEntries by done.
  cbn [run]. rewrite Nat2Z.id, run_bind, run_append by done. cbn.
  by destruct (h unit (FreeMibTable p) s) as [[] s'].
Qed.
End Block.

Lemma run_getTable {R} (c : tableCall R) s mem :
  run M (getTable c) (s, mem)
  = let '((r0, tab), s') := h _ (system_call c) s in
    (value_result r0 (tab_handle tab),
     (s', if decide (r0 = 0)
          then <[tab_handle tab := table_block w (H := tableCall_row c) garbage (tab_rows tab)]> mem
          else mem)).
Proof. unfold getTable. cbn. by destruct (h _ (system_call c) s) as [[r0 tab] s']. Qed.

(** What a table call is answered: values of the Go types, few enough to be
    counted, at an address that is not in use. *)
Definition answered {R} (c : tableCall R) (s : S) (mem : memory) : Prop :=
  let '((r0, tab), _) := h _ (system_call c) s in
  r0 = 0 ->
  Forall (typed_row (H := tableCall_row c)) (tab_rows tab) /\
  fits 32 (Z.of_nat (length (tab_rows tab))) /\ mem !! tab_handle tab = None.
End Refinement.

(** The function over rows, in terms of its call. *)
Lemma run_system_table {S} (h : handler ipE S) {R} (c : tableCall R) s :
  run h (system_table c) s
  = let '((r0, tab), s') := h _ (system_call c) s in
    if decide (r0 = 0) then (Ok (tab_rows tab), (h _ (FreeMibTable (tab_handle tab)) s').2)
    else (Err (Errno r0), s').
Proof.
  destruct c; cbn; unfold embed, Sub_refl;
    destruct (h _ _ s) as [[r0 tab] s']; cbn; unfold table_result, IpHelper.ret;
    destruct (decide (r0 = 0)); cbn; unfold embed, Sub_refl; try done;
    by destruct (h unit _ s') as [[] s''].
Qed.

(** C36: on 32-bit and 64-bit machines, whatever fills the padding, a function
    that returns a table of the system, down to the bytes of the block the
    system fills and the code slices, copies and frees, gives exactly the rows of
    the table or the error of the call, and makes the calls of the function over
    rows.  It never reads what is not there or is freed, and leaves no block
    behind. *)
Theorem tables_refine (w : word) (garbage : nat -> list Z) {S R} (h : handler ipE S)
    (c : tableCall R) (s : S) (mem : memory) :
  (forall n, length (garbage n) = n) -> answered h c s mem ->
  run (in_memory w garbage h) (get_table w c) (s, mem)
  = let '(rows, s') := run h (system_table c) s in (Some rows, (s', mem)).
Proof.
  intros Hg Ha. rewrite run_system_table. unfold get_table, answered in *.
  rewrite run_bind, run_getTable. destruct (h _ (system_call c) s) as [[r0 tab] s'].
  unfold value_result, IpHelper.ret. destruct (decide (r0 = 0)) as [->|Hr]; [|done].
  destruct (Ha eq_refl) as (Ht & Hn & Hm). unfold checked at 1. rewrite run_bind.
  rewrite (run_copy_table w garbage Hg h (H := tableCall_row c) (tab_rows tab) Ht Hn)
    by apply lookup_insert_eq.
  cbn [run]. do 3 f_equal. by apply delete_insert_id.
Qed.

(** ** Two routes on a 32-bit machine, an address on a 64-bit one *)
Module TablesSample.
Definition route (luid metric : Z) : MibIPforwardRow2.t :=
  MibIPforwardRow2.set_Metric metric
    (MibIPforwardRow2.set_InterfaceLUID luid
      (MibIPforwardRow2.set_NextHop (mkSockaddr AF_INET (replicate 26 7)) MibIPforwardRow2.zero)).
Definition routes : table MibIPforwardRow2.t := mkTable 4096 [route 5 1; route 6 4294967295].

(** An address made before the epoch. *)
Definition addresses : table MibUnicastIPAddressRow.t :=
  mkTable 8192 [MibUnicastIPAddressRow.mk (mkSockaddr AF_INET (replicate 26 7)) 5 1 3 3 60 60 24
                  false 4 0 (-1)].

(** A system that answers a table call with these and counts the calls. *)
Definition system : handler ipE Z := fun R e n =>
  (match e in ipE R return R with
   | FreeMibTable _ => tt
   | InitializeIpForwardEntry row => row
   | InitializeIpInterfaceEntry row => row
   | InitializeUnicastIpAddressEntry row => row
   | GetIpForwardEntry2 row => (0, row)
   | GetIpInterfaceEntry row => (0, row)
   | GetIfEntry2 row => (0, row)
   | GetUnicastIpAddressEntry row => (0, row)
   | GetAnycastIpAddressEntry row => (0, row)
   | SetIpForwardEntry2 _ | CreateIpForwardEntry2 _ | DeleteIpForwardEntry2 _
   | SetIpInterfaceEntry _ | SetUnicastIpAddressEntry _ | CreateUnicastIpAddressEntry _
   | DeleteUnicastIpAddressEntry _ | CreateAnycastIpAddressEntry _
   | DeleteAnycastIpAddressEntry _ => 0
   | GetIpForwardTable2 _ => (0, routes)
   | GetIpInterfaceTable _ => (0, mkTable 1 [])
   | GetIfTable2Ex_ _ => (0, mkTable 1 [])
   | GetUnicastIpAddressTable _ => (0, addresses)
   | GetAnycastIpAddressTable _ => (0, mkTable 1 [])
   | ConvertInterfaceLuidToGuid _ => (0, zero_GUID)
   | ConvertInterfaceGuidToLuid _ => (0, 0)
   | ConvertInterfaceIndexToLuid _ => (0, 0)
   | FindSetInterfaceDnsSettings => None
   | SetInterfaceDnsSettings_ _ _ => 0
   | GetAdaptersAddresses_ _ _ size => (None, size, [])
   end, n + 1).

(** New blocks hold 170 in every byte. *)
Definition garbage (n : nat) : list Z := replicate n 170.

Ltac answered_tac :=
  intros _; split; [|split; [unfold fits; cbn; lia|apply lookup_empty]];
  repeat (apply Forall_cons_2 || apply Forall_nil_2);
  cbn; unfold wf_sockaddr, fits, AF_INET; cbn; repeat split; try lia;
  repeat first [apply Forall_nil_2 | apply Forall_cons_2; [lia|]].

Lemma routes_answered : answered system (ForwardTable AF_INET) 0 ∅.
Proof. answered_tac. Qed.

Lemma addresses_answered : answered system (UnicastTable AF_INET) 0 ∅.
Proof. answered_tac. Qed.
End TablesSample.
Import TablesSample.

Lemma tables_refine_witness :
  run (in_memory W32 garbage system) (GetIPForwardTable2 W32 AF_INET) (0, ∅)
  = (Some (Ok (tab_rows routes)), (2, ∅)) /\
  run (in_memory W64 garbage system) (GetUnicastIPAddressTable W64 AF_INET) (0, ∅)
  = (Some (Ok (tab_rows addresses)), (2, ∅)).
Proof.
  split.
  - exact (tables_refine W32 garbage system (ForwardTable AF_INET) 0 ∅
             (fun n => length_replicate n 170) routes_answered).
  - exact (tables_refine W64 garbage system (UnicastTable AF_INET) 0 ∅
             (fun n => length_replicate n 170) addresses_answered).
Defined.
