(* ===== verification/Luid.v ===== *)
(** * Interface configuration by LUID (winipcfg/luid.go)

    Addresses, routes and DNS of one interface, over the IP helper API
    ([ipE]) and the registry and service calls of the DNS fallback ([winE]). *)

From S2P Require Import Prelude GoStrings Netip Sockaddr IpTypes IpHelper.
From Stdlib Require Import ZArith Ascii String.
From stdpp Require Import base list strings.
Open Scope Z_scope.
Open Scope string_scope.
Local Open Scope list_scope.

Abbreviation LUID := Z.

(** Calls to the registry, the service manager and the UTF-16 conversion, which
    refuses a string with a NUL. *)
Inductive winE : Type -> Type :=
| UTF16PtrFromString (s : string) : winE (result utf16)
| OpenKey (path : string) : winE (result Z)
| SetStringValue (key : Z) (name value : string) : winE (option error)
| Key_Close (key : Z) : winE unit
| Mgr_Connect : winE (result Z)
| Mgr_Disconnect (scm : Z) : winE unit
| OpenService (scm : Z) (name : string) : winE (result Z)
| Service_Control (s : Z) : winE unit
| Service_Close (s : Z) : winE unit.

Definition ERROR_PROC_NOT_FOUND : error := Errno 127.
(** The errors of package windows that luid.go names. *)
Definition ERROR_PROTOCOL_UNREACHABLE : error := Errno 1234.

(** [RouteData] *)
Record RouteData : Type := mkRouteData {
  Destination : Prefix;
  NextHop : Addr;
  Metric : Z;
}.

Section Luid.
Context {F : Type -> Type} `{Sub ipE F}.

Abbreviation M := (prog F).

(** A setter that may refuse, inside a program. *)
Definition setting {R A} (x : R * option error) (fail : error -> A) (k : R -> M A) : M A :=
  let '(r, err) := x in
  match err with Some e => Ret (fail e) | None => k r end.

(** ** Rows *)

Definition IPInterface (luid : LUID) (family : Z) : M (result MibIPInterfaceRow.t) :=
  let! row := MibIPInterfaceRow_Init MibIPInterfaceRow.zero in
  let row := MibIPInterfaceRow.set_InterfaceLUID luid row in
  let row := MibIPInterfaceRow.set_Family family row in
  let! (row, err) := MibIPInterfaceRow_get row in
  match err with Some e => Ret (Err e) | None => Ret (Ok row) end.

Definition Interface (luid : LUID) : M (result MibIfRow2.t) :=
  let row := MibIfRow2.set_InterfaceLUID luid MibIfRow2.zero in
  let! (row, err) := MibIfRow2_get row in
  match err with Some e => Ret (Err e) | None => Ret (Ok row) end.

Definition Luid_GUID (luid : LUID) : M (result GUID) := convertInterfaceLUIDToGUID luid.
Definition LUIDFromGUID (guid : GUID) : M (result LUID) := convertInterfaceGUIDToLUID guid.
Definition LUIDFromIndex (index : Z) : M (result LUID) := convertInterfaceIndexToLUID index.

(** ** Addresses *)

Definition IPAddress (luid : LUID) (addr : Addr) : M (result MibUnicastIPAddressRow.t) :=
  let row := MibUnicastIPAddressRow.set_InterfaceLUID luid MibUnicastIPAddressRow.zero in
  setting (SetAddr addr (MibUnicastIPAddressRow.Address row)) Err (fun a =>
  let! (row, err) := MibUnicastIPAddressRow_get (MibUnicastIPAddressRow.set_Address a row) in
  match err with Some e => Ret (Err e) | None => Ret (Ok row) end).

Definition AddIPAddress (luid : LUID) (address : Prefix) : M (option error) :=
  let! row := MibUnicastIPAddressRow_Init MibUnicastIPAddressRow.zero in
  let row := MibUnicastIPAddressRow.set_InterfaceLUID luid row in
  let row := MibUnicastIPAddressRow.set_DadState DadStatePreferred row in
  let row := MibUnicastIPAddressRow.set_ValidLifetime 0xffffffff row in
  let row := MibUnicastIPAddressRow.set_PreferredLifetime 0xffffffff row in
  setting (SetAddr (Prefix_Addr address) (MibUnicastIPAddressRow.Address row)) Some (fun a =>
  let row := MibUnicastIPAddressRow.set_Address a row in
  let row := MibUnicastIPAddressRow.set_OnLinkPrefixLength (u8 (Bits address)) row in
  MibUnicastIPAddressRow_Create row).

(** A loop that stops at the first error. *)
Fixpoint until_error {X} (f : X -> M (option error)) (xs : list X) : M (option error) :=
  match xs with
  | [] => Ret None
  | x :: xs' =>
      let! err := f x in
      match err with
      | Some e => Ret (Some e)
      | None => until_error f xs'
      end
  end.

Definition AddIPAddresses (luid : LUID) (addresses : list Prefix) : M (option error) :=
  until_error (AddIPAddress luid) addresses.

(** The loop of [FlushIPAddresses]: errors are ignored. *)
Fixpoint delete_addresses (luid : LUID) (t : list MibUnicastIPAddressRow.t) : M unit :=
  match t with
  | [] => Ret tt
  | row :: t' =>
      if decide (MibUnicastIPAddressRow.InterfaceLUID row = luid) then
        do! MibUnicastIPAddressRow_Delete row in delete_addresses luid t'
      else delete_addresses luid t'
  end.

Definition FlushIPAddresses (luid : LUID) (family : Z) : M (option error) :=
  let! tab := getUnicastIPAddressTable family in
  match tab with
  | Err e => Ret (Some e)
  | Ok tab =>
      do! delete_addresses luid (table_get tab) in
      do! table_free tab in
      Ret None
  end.

Definition SetIPAddresses (luid : LUID) (addresses : list Prefix) : M (option error) :=
  let! err := FlushIPAddresses luid AF_UNSPEC in
  match err with
  | Some e => Ret (Some e)
  | None => AddIPAddresses luid addresses
  end.

(** Addresses of the other family are skipped. *)
Definition other_family (family : Z) (a : Addr) : bool :=
  (negb (Is4 a) && bool_decide (family = AF_INET))
  || (negb (Is6 a) && bool_decide (family = AF_INET6)).

Definition SetIPAddressesForFamily (luid : LUID) (family : Z) (addresses : list Prefix)
    : M (option error) :=
  let! err := FlushIPAddresses luid family in
  match err with
  | Some e => Ret (Some e)
  | None =>
      until_error
        (fun a => if other_family family (Prefix_Addr a) then Ret None else AddIPAddress luid a)
        addresses
  end.

Definition DeleteIPAddress (luid : LUID) (address : Prefix) : M (option error) :=
  let! row := MibUnicastIPAddressRow_Init MibUnicastIPAddressRow.zero in
  let row := MibUnicastIPAddressRow.set_InterfaceLUID luid row in
  setting (SetAddr (Prefix_Addr address) (MibUnicastIPAddressRow.Address row)) Some (fun a =>
  let row := MibUnicastIPAddressRow.set_Address a row in
  let row := MibUnicastIPAddressRow.set_OnLinkPrefixLength (u8 (Bits address)) row in
  MibUnicastIPAddressRow_Delete row).

(** ** Routes *)

(** The row of a route, on a row the system initialised. *)
Definition fill_route {A} (row : MibIPforwardRow2.t) (destination : Prefix) (nextHop : Addr)
    (fail : error -> A) (k : MibIPforwardRow2.t -> M A) : M A :=
  setting (SetPrefix destination (MibIPforwardRow2.DestinationPrefix row)) fail (fun p =>
  let row := MibIPforwardRow2.set_DestinationPrefix p row in
  setting (SetAddr nextHop (MibIPforwardRow2.NextHop row)) fail (fun a =>
  k (MibIPforwardRow2.set_NextHop a row))).

Definition Route (luid : LUID) (destination : Prefix) (nextHop : Addr)
    : M (result MibIPforwardRow2.t) :=
  let! row := MibIPforwardRow2_Init MibIPforwardRow2.zero in
  let row := MibIPforwardRow2.set_InterfaceLUID luid row in
  let row := MibIPforwardRow2.set_ValidLifetime 0xffffffff row in
  let row := MibIPforwardRow2.set_PreferredLifetime 0xffffffff row in
  fill_route row destination nextHop Err (fun row =>
  let! (row, err) := MibIPforwardRow2_get row in
  match err with Some e => Ret (Err e) | None => Ret (Ok row) end).

Definition AddRoute (luid : LUID) (destination : Prefix) (nextHop : Addr) (metric : Z)
    : M (option error) :=
  let! row := MibIPforwardRow2_Init MibIPforwardRow2.zero in
  let row := MibIPforwardRow2.set_InterfaceLUID luid row in
  fill_route row destination nextHop Some (fun row =>
  MibIPforwardRow2_Create (MibIPforwardRow2.set_Metric metric row)).

Definition AddRoutes (luid : LUID) (routesData : list RouteData) : M (option error) :=
  until_error (fun rd => AddRoute luid (Destination rd) (NextHop rd) (Metric rd)) routesData.

(** The loop of [FlushRoutes]: goes on after an error and keeps the last. *)
Fixpoint delete_routes (luid : LUID) (t : list MibIPforwardRow2.t) (err : option error)
    : M (option error) :=
  match t with
  | [] => Ret err
  | row :: t' =>
      if decide (MibIPforwardRow2.InterfaceLUID row = luid) then
        let! err2 := MibIPforwardRow2_Delete row in
        delete_routes luid t' (match err2 with Some _ => err2 | None => err end)
      else delete_routes luid t' err
  end.

Definition FlushRoutes (luid : LUID) (family : Z) : M (option error) :=
  let! tab := getIPForwardTable2 family in
  match tab with
  | Err e => Ret (Some e)
  | Ok tab =>
      let! err := delete_routes luid (table_get tab) None in
      do! table_free tab in
      Ret err
  end.

Definition SetRoutes (luid : LUID) (routesData : list RouteData) : M (option error) :=
  let! err := FlushRoutes luid AF_UNSPEC in
  match err with
  | Some e => Ret (Some e)
  | None => AddRoutes luid routesData
  end.

Definition SetRoutesForFamily (luid : LUID) (family : Z) (routesData : list RouteData)
    : M (option error) :=
  let! err := FlushRoutes luid family in
  match err with
  | Some e => Ret (Some e)
  | None =>
      until_error
        (fun rd => if other_family family (Prefix_Addr (Destination rd)) then Ret None
                   else AddRoute luid (Destination rd) (NextHop rd) (Metric rd))
        routesData
  end.

Definition DeleteRoute (luid : LUID) (destination : Prefix) (nextHop : Addr) : M (option error) :=
  let! row := MibIPforwardRow2_Init MibIPforwardRow2.zero in
  let row := MibIPforwardRow2.set_InterfaceLUID luid row in
  fill_route row destination nextHop Some (fun row =>
  let! (row, err) := MibIPforwardRow2_get row in
  match err with
  | Some e => Ret (Some e)
  | None => MibIPforwardRow2_Delete row
  end).

(** ** DNS *)

(** The loop of [DNS] over the servers of one adapter: an address that is
    neither IPv4 nor IPv6 ends it. *)
Fixpoint adapter_dns (servers : list (option (list Z))) (r : list Addr) : result (list Addr) :=
  match servers with
  | [] => Ok r
  | None :: _ => Err ERROR_INVALID_PARAMETER
  | Some ip :: rest =>
      adapter_dns rest (match AddrFromSlice ip with Some a => r ++ [a] | None => r end)
  end.

Fixpoint adapters_dns (luid : LUID) (addresses : list IPAdapterAddresses.t) (r : list Addr)
    : result (list Addr) :=
  match addresses with
  | [] => Ok r
  | addr :: rest =>
      if decide (IPAdapterAddresses.LUID addr = luid) then
        match adapter_dns (IPAdapterAddresses.FirstDNSServerAddress addr) r with
        | Ok r => adapters_dns luid rest r
        | Err e => Err e
        end
      else adapters_dns luid rest r
  end.

Definition DNS (luid : LUID) : M (Z + result (list Addr)) :=
  let! addresses := GetAdaptersAddresses AF_UNSPEC GAAFlagDefault in
  match addresses with
  | inl size => Ret (inl size)
  | inr (Err e) => Ret (inr (Err e))
  | inr (Ok addresses) => Ret (inr (adapters_dns luid addresses []))
  end.
End Luid.

Section SetDNS.
Context {F : Type -> Type} `{Sub ipE F} `{Sub winE F}.
(** The machine's architecture and the text of a GUID. *)
Context (arch : string) (guid_text : GUID -> string).

Abbreviation M := (prog F).

(** [strings.Join(l, ",")] *)
Definition join_commas (l : list string) : string :=
  of_bytes (Netip.join ","%char (map to_bytes l)).

(** The servers of the family, as text. *)
Definition filter_servers (family : Z) (servers : list Addr) : list string :=
  map Addr_String
    (filter (fun s => (Is4 s && bool_decide (family = AF_INET))
                      || (Is6 s && bool_decide (family = AF_INET6))) servers).

(** The settings of [SetDNS]. *)
Definition dns_settings (family : Z) (servers16 domains16 : utf16) : DnsInterfaceSettings :=
  let flags := Z.lor DnsInterfaceSettingsFlagNameserver DnsInterfaceSettingsFlagSearchList in
  mkDns DnsInterfaceSettingsVersion1
    (if decide (family = AF_INET6) then Z.lor flags DnsInterfaceSettingsFlagIPv6 else flags)
    (Some servers16) (Some domains16).

Definition reg_path (family : Z) (guid : GUID) : string :=
  (if decide (family = AF_INET)
   then "SYSTEM\CurrentControlSet\Services\Tcpip\Parameters\Interfaces\"
   else "SYSTEM\CurrentControlSet\Services\Tcpip6\Parameters\Interfaces\") +:+ guid_text guid.

(** The part after the registry values: tell the DNS cache, if it can be
    reached. *)
Definition notify_dnscache : M (option error) :=
  let! scm := invoke Mgr_Connect in
  match scm with
  | Err _ => Ret None
  | Ok scm =>
      let! s := invoke (OpenService scm "dnscache") in
      do! (match s with
           | Err _ => Ret tt
           | Ok s =>
               do! invoke (Service_Control s) in
               invoke (Service_Close s)
           end) in
      do! invoke (Mgr_Disconnect scm) in
      Ret None
  end.

(** For Windows before 10 1809: the registry.  The deferred closes run last
    opened first. *)
Definition set_dns_registry (family : Z) (guid : GUID) (servers domains : string)
    : M (option error) :=
  let! key := invoke (OpenKey (reg_path family guid)) in
  match key with
  | Err e => Ret (Some (Errorf "opening interface registry key" e))
  | Ok key =>
      let! err :=
        (let! err := invoke (SetStringValue key "NameServer" servers) in
         match err with
         | Some e => Ret (Some (Errorf "setting NameServer registry value" e))
         | None =>
             let! err := invoke (SetStringValue key "SearchList" domains) in
             match err with
             | Some e => Ret (Some (Errorf "setting SearchList registry value" e))
             | None => notify_dnscache
             end
         end) in
      do! invoke (Key_Close key) in
      Ret err
  end.

(** [None] is the panic on an unknown architecture. *)
Definition SetDNS (luid : LUID) (family : Z) (servers : list Addr) (domains : list string)
    : M (option (option error)) :=
  if decide (family <> AF_INET /\ family <> AF_INET6) then
    Ret (Some (Some ERROR_PROTOCOL_UNREACHABLE))
  else
    let filteredServers := filter_servers family servers in
    let! servers16 := invoke (UTF16PtrFromString (join_commas filteredServers)) in
    match servers16 with
    | Err e => Ret (Some (Some e))
    | Ok servers16 =>
    let! domains16 := invoke (UTF16PtrFromString (join_commas domains)) in
    match domains16 with
    | Err e => Ret (Some (Some e))
    | Ok domains16 =>
    let! guid := Luid_GUID luid in
    match guid with
    | Err e => Ret (Some (Some e))
    | Ok guid =>
    match SetInterfaceDnsSettings arch guid (dns_settings family servers16 domains16) with
    | None => Ret None
    | Some set =>
    let! err := set in
    match err with
    | None => Ret (Some None)
    | Some e =>
        if errors_Is e ERROR_PROC_NOT_FOUND then
          let! err := set_dns_registry family guid (join_commas filteredServers)
                        (join_commas domains) in
          Ret (Some err)
        else Ret (Some (Some e))
    end end end end end.

Definition FlushDNS (luid : LUID) (family : Z) : M (option (option error)) :=
  SetDNS luid family [] [].
End SetDNS.

(** All the calls to the system together. *)
Inductive sysE : Type -> Type :=
| Ip {R} (e : ipE R) : sysE R
| Win {R} (e : winE R) : sysE R.

#[export] Instance Sub_ip_sys : Sub ipE sysE := fun R e => Ip e.
#[export] Instance Sub_win_sys : Sub winE sysE := fun R e => Win e.
