(* ===== verification/LuidProps.v ===== *)
(** * What the interface configuration guarantees (winipcfg/luid.go)

    The exact calls of flushing and adding routes, the rows they create, and the
    family filters. *)

From S2P Require Import Prelude GoStrings Netip Sockaddr IpTypes IpHelper Luid.
From Stdlib Require Import ZArith Ascii String Lia.
From stdpp Require Import base list strings.
Open Scope Z_scope.
Open Scope string_scope.
Local Open Scope list_scope.

(** ** Loops *)
Section Loops.
Context {F : Type -> Type} `{Sub ipE F}.

Abbreviation ev e a := (Ev (E := F) (embed e) a).

(** The deletions of the rows [mine] with their codes. *)
Definition deletions (mine : list MibIPforwardRow2.t) (codes : list Z) : list (event F) :=
  zip_with (fun row c => ev (DeleteIpForwardEntry2 row) c) mine codes.

(** The last code that is not 0, as an error. *)
Fixpoint last_error (codes : list Z) (err : option error) : option error :=
  match codes with
  | [] => err
  | c :: cs => last_error cs (match ret c with Some e => Some e | None => err end)
  end.

Lemma exec_delete_routes luid t err tr r :
  exec (delete_routes luid t err : prog F _) tr r <->
  exists codes, let mine := filter (fun row => MibIPforwardRow2.InterfaceLUID row = luid) t in
    length codes = length mine /\ tr = deletions mine codes /\ r = last_error codes err.
Proof.
  revert err tr. induction t as [|row t IH]; intros err tr; cbn [delete_routes].
  - split.
    + intros [-> ->]. by exists [].
    + intros (codes & Hl & -> & ->). by destruct codes.
  - rewrite filter_cons. case_decide as Hd; [|apply IH].
    unfold MibIPforwardRow2_Delete, deleteIPForwardEntry2.
    rewrite exec_bind. setoid_rewrite exec_bind. setoid_rewrite IH. split.
    + intros (tr1 & tr2 & a & -> & (tr3 & tr4 & c & -> & Hc & Ha) & codes & Hl & -> & ->).
      apply exec_invoke in Hc as ->. destruct Ha as [-> ->].
      exists (c :: codes). simpl. split; [by rewrite Hl|]. split; [done|].
      by destruct (ret c).
    + intros ([|c codes] & Hl & -> & ->); [done|]. simpl in Hl.
      exists [ev (DeleteIpForwardEntry2 row) c],
        (deletions (filter (fun row => MibIPforwardRow2.InterfaceLUID row = luid) t) codes), (ret c).
      split; [done|]. split.
      * exists [ev (DeleteIpForwardEntry2 row) c], [], c. by rewrite exec_invoke.
      * exists codes. split; [congruence|]. split; [done|]. simpl. by destruct (ret c).
Qed.

Lemma exec_until_error_nil {X} (f : X -> prog F (option error)) tr err :
  exec (until_error f []) tr err <-> tr = [] /\ err = None.
Proof. done. Qed.

Lemma exec_until_error_cons {X} (f : X -> prog F (option error)) x xs tr err :
  exec (until_error f (x :: xs)) tr err <->
  exists tr1 tr2 e, tr = tr1 ++ tr2 /\ exec (f x) tr1 e /\
    match e with
    | Some _ => tr2 = [] /\ err = e
    | None => exec (until_error f xs) tr2 err
    end.
Proof.
  cbn [until_error]. rewrite exec_bind.
  split; intros (tr1 & tr2 & e & -> & He & Hr); exists tr1, tr2, e; (split; [done|]);
    (split; [done|]); by destruct e.
Qed.

(** Skipping elements in a loop is looping over the others. *)
Lemma exec_until_error_filter {X} (skip : X -> bool) (f : X -> prog F (option error)) xs tr err :
  exec (until_error (fun x => if skip x then Ret None else f x) xs) tr err <->
  exec (until_error f (filter (fun x => skip x = false) xs)) tr err.
Proof.
  revert tr. induction xs as [|x xs IH]; intros tr; [done|].
  rewrite exec_until_error_cons, filter_cons. destruct (skip x) eqn:Hs; cbn iota.
  - rewrite decide_False by done. rewrite <- IH. split.
    + by intros (tr1 & tr2 & e & -> & [-> ->] & Hr).
    + intros Hr. exists [], tr, None. done.
  - rewrite decide_True by done. rewrite exec_until_error_cons.
    split; intros (tr1 & tr2 & e & -> & He & Hr); exists tr1, tr2, e; (split; [done|]);
      (split; [done|]); destruct e; try done; by apply IH.
Qed.
End Loops.

(** ** Routes *)
Section Routes.
Context {F : Type -> Type} `{Sub ipE F}.

Abbreviation ev e a := (Ev (E := F) (embed e) a).

(** The row of a route to [destination] over [nextHop], made from the row the
    system initialised. *)
Definition route_row (luid : LUID) (rd : RouteData) (row : MibIPforwardRow2.t)
    : MibIPforwardRow2.t :=
  let row := MibIPforwardRow2.set_InterfaceLUID luid row in
  let row := MibIPforwardRow2.set_DestinationPrefix
               (SetPrefix (Destination rd) (MibIPforwardRow2.DestinationPrefix row)).1 row in
  let row := MibIPforwardRow2.set_NextHop
               (SetAddr (NextHop rd) (MibIPforwardRow2.NextHop row)).1 row in
  MibIPforwardRow2.set_Metric (Metric rd) row.

(** Destination and next hop are addresses. *)
Definition valid_route (rd : RouteData) : Prop :=
  IsValid (ip (Destination rd)) = true /\ IsValid (NextHop rd) = true.

Lemma SetPrefix_err q p :
  (SetPrefix q p).2 = if IsValid (ip q) then None else Some ERROR_INVALID_PARAMETER.
Proof.
  unfold SetPrefix. pose proof (sockaddr_refused_fact (Prefix_Addr q) (RawPrefix p)) as Hr.
  destruct (SetAddr _ _) as [raw err]. simpl in Hr. subst. unfold Prefix_Addr.
  by destruct (IsValid (ip q)).
Qed.

Lemma exec_AddRoute luid rd tr err :
  valid_route rd ->
  exec (AddRoute luid (Destination rd) (NextHop rd) (Metric rd) : prog F _) tr err <->
  exists row c,
    tr = [ev (InitializeIpForwardEntry MibIPforwardRow2.zero) row;
          ev (CreateIpForwardEntry2 (route_row luid rd row)) c] /\ err = ret c.
Proof.
  intros [Hd Hn]. unfold AddRoute, fill_route, setting.
  setoid_rewrite exec_bind. setoid_rewrite exec_invoke.
  assert (forall row, SetPrefix (Destination rd) row = ((SetPrefix (Destination rd) row).1, None)) as Hp.
  { intros row. pose proof (SetPrefix_err (Destination rd) row) as He. rewrite Hd in He.
    destruct (SetPrefix _ _). simpl in *. by subst. }
  assert (forall row, SetAddr (NextHop rd) row = ((SetAddr (NextHop rd) row).1, None)) as Ha.
  { intros row. pose proof (sockaddr_refused_fact (NextHop rd) row) as He. rewrite Hn in He.
    destruct (SetAddr _ _). simpl in *. by subst. }
  split.
  - intros (tr1 & tr2 & row & -> & -> & He). rewrite Hp, Ha in He.
    apply exec_bind in He as (tr3 & tr4 & c & -> & Hc & He). apply exec_invoke in Hc as ->.
    destruct He as [-> ->]. by exists row, c.
  - intros (row & c & -> & ->).
    exists [ev (InitializeIpForwardEntry MibIPforwardRow2.zero) row],
      [ev (CreateIpForwardEntry2 (route_row luid rd row)) c], row.
    split; [done|]. split; [done|]. rewrite Hp, Ha.
    apply exec_bind. exists [ev (CreateIpForwardEntry2 (route_row luid rd row)) c], [], c.
    by rewrite exec_invoke.
Qed.

(** Without a next hop only the row is initialised. *)
Lemma exec_AddRoute_invalid luid rd tr err :
  IsValid (NextHop rd) = false ->
  exec (AddRoute luid (Destination rd) (NextHop rd) (Metric rd) : prog F _) tr err ->
  (exists row, tr = [ev (InitializeIpForwardEntry MibIPforwardRow2.zero) row]) /\ err <> None.
Proof.
  intros Hn He. unfold AddRoute, fill_route, setting in He.
  apply exec_bind in He as (tr1 & tr2 & row & -> & Hr & He). apply exec_invoke in Hr as ->.
  destruct (SetPrefix _ _) as [p [e|]]; [destruct He as [-> ->]; eauto|].
  match type of He with context [SetAddr _ ?r] =>
    pose proof (sockaddr_refused_fact (NextHop rd) r) as Ha end.
  destruct (SetAddr _ _) as [q e']. rewrite Hn in Ha. simpl in Ha. subst e'.
  destruct He as [-> ->]. eauto.
Qed.

(** Adding routes one by one until one is refused. *)
Inductive added (luid : LUID) : list RouteData -> list (event F) -> option error -> Prop :=
| added_all : added luid [] [] None
| added_refused rd rds row c :
    c <> 0 ->
    added luid (rd :: rds)
      [ev (InitializeIpForwardEntry MibIPforwardRow2.zero) row;
       ev (CreateIpForwardEntry2 (route_row luid rd row)) c] (Some (Errno c))
| added_next rd rds row tr err :
    added luid rds tr err ->
    added luid (rd :: rds)
      (ev (InitializeIpForwardEntry MibIPforwardRow2.zero) row ::
       ev (CreateIpForwardEntry2 (route_row luid rd row)) 0 :: tr) err.

Lemma exec_AddRoutes luid rds tr err :
  Forall valid_route rds ->
  exec (AddRoutes luid rds : prog F _) tr err <-> added luid rds tr err.
Proof.
  intros Hv. revert tr. unfold AddRoutes.
  induction Hv as [|rd rds Hrd Hv IH]; intros tr.
  - split; [intros [-> ->]; constructor|]. intros Ha. by inversion Ha.
  - rewrite exec_until_error_cons. setoid_rewrite exec_AddRoute; [|done]. split.
    + intros (tr1 & tr2 & e & -> & (row & c & -> & ->) & Hr). unfold ret in Hr.
      destruct (decide (c = 0)) as [->|Hc].
      * apply added_next, IH, Hr.
      * destruct Hr as [-> ->]. by apply added_refused.
    + intros Ha. inversion Ha as [|rd' rds' row c Hc|rd' rds' row tr' err' Hr]; subst.
      * eexists [_; _], [], (Some (Errno c)). split; [done|].
        split; [|done]. exists row, c. unfold ret. by rewrite decide_False.
      * eexists [_; _], tr', None. split; [done|]. split; [|by apply IH].
        exists row, 0. done.
Qed.

(** The trace of reading and freeing the route table. *)
Lemma exec_FlushRoutes luid family tr err :
  exec (FlushRoutes luid family : prog F _) tr err <->
  exists r0 tab,
    if decide (r0 = 0) then
      exists codes,
        let mine := filter (fun row => MibIPforwardRow2.InterfaceLUID row = luid) (tab_rows tab) in
        length codes = length mine /\
        tr = ev (GetIpForwardTable2 family) (0, tab) :: deletions mine codes
             ++ [ev (FreeMibTable (tab_handle tab)) tt] /\
        err = last_error codes None
    else tr = [ev (GetIpForwardTable2 family) (r0, tab)] /\ err = Some (Errno r0).
Proof.
  unfold FlushRoutes, getIPForwardTable2. setoid_rewrite exec_bind. setoid_rewrite exec_bind.
  setoid_rewrite exec_invoke. split.
  - intros (tr1 & tr2 & res & -> & (tr3 & tr4 & [r0 tab] & -> & -> & [-> ->]) & He).
    exists r0, tab. unfold table_result, ret in He. destruct (decide (r0 = 0)) as [->|Hr0].
    + apply exec_bind in He as (tr5 & tr6 & e & -> & Hd & He).
      apply exec_delete_routes in Hd as (codes & Hl & -> & ->).
      apply exec_bind in He as (tr7 & tr8 & [] & -> & Hf & [-> ->]).
      apply exec_invoke in Hf as ->. exists codes. by rewrite app_nil_r.
    + by destruct He as [-> ->].
  - intros (r0 & tab & He). exists [ev (GetIpForwardTable2 family) (r0, tab)].
    unfold table_result, ret. destruct (decide (r0 = 0)) as [->|Hr0].
    + destruct He as (codes & Hl & -> & ->). eexists _, (Ok tab). split; [done|].
      split; [by exists [ev (GetIpForwardTable2 family) (0, tab)], [], (0, tab)|].
      apply exec_bind. eexists _, _, (last_error codes None). split; [done|].
      split; [apply exec_delete_routes; by exists codes|].
      apply exec_bind. exists [ev (FreeMibTable (tab_handle tab)) tt], [], tt.
      split; [done|]. split; [by apply exec_invoke|done].
    + destruct He as [-> ->]. exists [], (Err (Errno r0)). split; [done|].
      split; [|done]. exists [ev (GetIpForwardTable2 family) (r0, tab)], [], (r0, tab).
      split; [done|]. split; [done|]. by rewrite decide_False.
Qed.
End Routes.

(** ** What each method does *)

Abbreviation sys e a := (Ev (E := sysE) (Ip e) a).

(** C33: flushing the routes of an interface deletes exactly its own rows of the
    table, in order, whatever the codes of the deletions, then frees the table,
    and returns the last failure; when the table cannot be read nothing else is
    done. *)
Theorem flush_routes_exact (luid family : Z) (tr : list (event sysE)) (err : option error) :
  exec (FlushRoutes luid family) tr err ->
  exists r0 tab,
    if decide (r0 = 0) then
      exists codes,
        let mine := filter (fun row => MibIPforwardRow2.InterfaceLUID row = luid) (tab_rows tab) in
        length codes = length mine /\
        tr = sys (GetIpForwardTable2 family) (0, tab) :: deletions mine codes
             ++ [sys (FreeMibTable (tab_handle tab)) tt] /\
        err = last_error codes None
    else tr = [sys (GetIpForwardTable2 family) (r0, tab)] /\ err = Some (Errno r0).
Proof. intros He. by apply exec_FlushRoutes in He. Qed.

(** Adding routes initialises and creates one row per route, in order, and
    stops at the first that is refused, whose code is the error; no error means
    that every route was created. *)
Theorem add_routes_exact (luid : LUID) (rds : list RouteData) (tr : list (event sysE))
    (err : option error) :
  Forall valid_route rds ->
  (exec (AddRoutes luid rds) tr err <-> added luid rds tr err) /\
  (exec (AddRoutes luid rds) tr None -> length tr = (2 * length rds)%nat).
Proof.
  intros Hv. split; [by apply exec_AddRoutes|].
  intros He. apply exec_AddRoutes in He; [|done].
  remember None as e eqn:Hnone. induction He as [|rd rds row c Hc|rd rds row tr' err' Ha IH];
    [done|done|]. apply Forall_cons in Hv as [_ Hv]. specialize (IH Hv Hnone).
  simpl. rewrite IH. lia.
Qed.

(** The row created for a route says what was asked: the interface, the
    destination prefix, the next hop (its zone in canonical form) and the metric;
    everything else is as the system initialised it. *)
Theorem route_row_reads_back (luid : LUID) (rd : RouteData) (row : MibIPforwardRow2.t) :
  wf_prefix (Destination rd) -> wf_addr (NextHop rd) -> valid_route rd ->
  length (data (RawPrefix (MibIPforwardRow2.DestinationPrefix row))) = 26%nat ->
  length (data (MibIPforwardRow2.NextHop row)) = 26%nat ->
  let row' := route_row luid rd row in
  MibIPforwardRow2.InterfaceLUID row' = luid /\
  IPPrefix_Prefix (MibIPforwardRow2.DestinationPrefix row') = Destination rd /\
  Sockaddr_Addr (MibIPforwardRow2.NextHop row')
    = WithZone (NextHop rd) (canonical_zone (Zone (NextHop rd))) /\
  MibIPforwardRow2.Metric row' = Metric rd /\
  row' = MibIPforwardRow2.set_InterfaceLUID luid
           (MibIPforwardRow2.set_DestinationPrefix (MibIPforwardRow2.DestinationPrefix row')
             (MibIPforwardRow2.set_NextHop (MibIPforwardRow2.NextHop row')
               (MibIPforwardRow2.set_Metric (Metric rd) row))).
Proof.
  intros Hp Ha [Hvp Hva] Hd Hn row'. split; [done|].
  split; [|split; [|done]].
  - by apply IPPrefix_set.
  - by apply Sockaddr_set.
Qed.

(** Setting the routes or addresses of one family flushes that family and
    then adds exactly the entries of that family, in order; for AF_UNSPEC no
    entry is left out. *)
Theorem set_for_family (luid : LUID) (family : Z) (rds : list RouteData) (ps : list Prefix)
    (tr : list (event sysE)) (err : option error) :
  let then_ (flush add : prog sysE (option error)) :=
    let! e := flush in match e with Some e => Ret (Some e) | None => add end in
  (exec (SetRoutesForFamily luid family rds) tr err <->
   exec (then_ (FlushRoutes luid family)
          (AddRoutes luid
            (filter (fun rd => other_family family (ip (Destination rd)) = false) rds))) tr err) /\
  (exec (SetIPAddressesForFamily luid family ps) tr err <->
   exec (then_ (FlushIPAddresses luid family)
          (AddIPAddresses luid (filter (fun p => other_family family (ip p) = false) ps))) tr err) /\
  (family = AF_UNSPEC ->
   filter (fun rd => other_family family (ip (Destination rd)) = false) rds = rds /\
   filter (fun p => other_family family (ip p) = false) ps = ps).
Proof.
  intros then_. split_and!.
  - unfold then_, SetRoutesForFamily. rewrite !exec_bind.
    split; intros (tr1 & tr2 & e & -> & Hf & Hr); exists tr1, tr2, e; (split; [done|]);
      (split; [done|]); destruct e; try done.
    + by apply (exec_until_error_filter
                  (fun rd => other_family family (Prefix_Addr (Destination rd)))) in Hr.
    + by apply (exec_until_error_filter
                  (fun rd => other_family family (Prefix_Addr (Destination rd)))).
  - unfold then_, SetIPAddressesForFamily. rewrite !exec_bind.
    split; intros (tr1 & tr2 & e & -> & Hf & Hr); exists tr1, tr2, e; (split; [done|]);
      (split; [done|]); destruct e; try done.
    + by apply (exec_until_error_filter (fun p => other_family family (Prefix_Addr p))) in Hr.
    + by apply (exec_until_error_filter (fun p => other_family family (Prefix_Addr p))).
  - intros ->. unfold other_family.
    split; apply filter_all, Forall_true; intros x;
      rewrite !(bool_decide_false (AF_UNSPEC = _)) by done; by rewrite !andb_false_r.
Qed.

(** ** At concrete inputs *)
Module LuidSample.

Definition on (luid : Z) : MibIPforwardRow2.t :=
  MibIPforwardRow2.set_InterfaceLUID luid MibIPforwardRow2.zero.
Definition tab : table MibIPforwardRow2.t := mkTable 9 [on 5; on 6; on 5].
Definition a10 : Addr := Addr4 [10; 0; 0; 1].
Definition rd : RouteData := mkRouteData (PrefixFrom a10 24) (Addr4 [0; 0; 0; 0]) 7.

Lemma wf_a10 : wf_addr a10.
Proof. split; [done|]. by apply (bool_decide_eq_true_1 _). Qed.
Lemma wf_hop : wf_addr (NextHop rd).
Proof. split; [done|]. by apply (bool_decide_eq_true_1 _). Qed.

End LuidSample.
Import LuidSample.

(** Two of three rows belong to the interface; the first deletion fails, the
    second goes on. *)
Lemma flush_routes_exact_witness :
  exists r0 tab',
    if decide (r0 = 0) then
      exists codes, length codes = length (filter (fun row => MibIPforwardRow2.InterfaceLUID row = 5)
                                             (tab_rows tab')) /\
        Some (Errno 31) = last_error codes None
    else Some (Errno 31) = Some (Errno r0).
Proof.
  assert (exec (FlushRoutes (F := sysE) 5 2)
            [sys (GetIpForwardTable2 2) (0, tab); sys (DeleteIpForwardEntry2 (on 5)) 31;
             sys (DeleteIpForwardEntry2 (on 5)) 0; sys (FreeMibTable 9) tt]
            (Some (Errno 31))) as He.
  { apply exec_FlushRoutes. exists 0, tab. rewrite decide_True by done.
    by exists [31; 0]. }
  destruct (flush_routes_exact 5 2 _ _ He) as (r0 & tab' & Hc). exists r0, tab'.
  destruct (decide (r0 = 0)) as [_|_].
  - destruct Hc as (codes & Hl & _ & Herr). exists codes. split; [exact Hl|exact Herr].
  - exact (proj2 Hc).
Defined.

Lemma add_routes_exact_witness :
  Forall valid_route [rd; rd] /\
  added (F := sysE) 5 [rd; rd]
    [sys (InitializeIpForwardEntry MibIPforwardRow2.zero) (on 0);
     sys (CreateIpForwardEntry2 (route_row 5 rd (on 0))) 87] (Some (Errno 87)).
Proof.
  assert (Forall valid_route [rd; rd]) as Hv by (repeat constructor).
  split; [exact Hv|].
  apply (proj1 (add_routes_exact 5 [rd; rd] _ _ Hv)).
  do 2 eexists; split; [reflexivity|]. do 2 eexists; split; [reflexivity|]. by split.
Defined.

Lemma route_row_reads_back_witness :
  IPPrefix_Prefix (MibIPforwardRow2.DestinationPrefix (route_row 5 rd (on 1))) = PrefixFrom a10 24 /\
  Sockaddr_Addr (MibIPforwardRow2.NextHop (route_row 5 rd (on 1))) = Addr4 [0; 0; 0; 0].
Proof.
  destruct (route_row_reads_back 5 rd (on 1) (PrefixFrom_wf _ _ wf_a10) wf_hop
              (conj eq_refl eq_refl) eq_refl eq_refl) as (_ & Hd & Hn & _).
  split; [exact Hd|exact Hn].
Defined.
