(* ===== verification/SystemProps.v ===== *)
(** * Discipline towards the system (winipcfg/luid.go, winipcfg.go)

    Every table, registry key and service handle is given back exactly once, in
    the reverse order of being taken; the loop over the adapters' buffer sizes
    ends; setting DNS servers reports success only when they were set. *)

From S2P Require Import Prelude GoStrings Utf8 Netip Sockaddr IpTypes IpHelper Luid.
From Stdlib Require Import ZArith Ascii String Lia.
From stdpp Require Import base list sets strings.
Open Scope Z_scope.
Open Scope string_scope.
Local Open Scope list_scope.

(** ** Resources *)
Inductive resource : Type :=
| RTable (handle : Z)
| RKey (key : Z)
| RScm (scm : Z)
| RService (s : Z).

#[export] Instance resource_eq_dec : EqDecision resource.
Proof. solve_decision. Defined.

Definition taken_table {R} (h : R -> resource) (ok : Z) (x : R) : option resource :=
  if decide (ok = 0) then Some (h x) else None.

Definition taken_handle {R} (h : R -> resource) (x : result R) : option resource :=
  match x with Ok a => Some (h a) | Err _ => None end.

(** What a call takes, by its answer. *)
Definition acquires_ip {R} (e : ipE R) : R -> option resource :=
  match e with
  | GetIpForwardTable2 _ => fun a => taken_table (fun t => RTable (tab_handle t)) a.1 a.2
  | GetIpInterfaceTable _ => fun a => taken_table (fun t => RTable (tab_handle t)) a.1 a.2
  | GetIfTable2Ex_ _ => fun a => taken_table (fun t => RTable (tab_handle t)) a.1 a.2
  | GetUnicastIpAddressTable _ => fun a => taken_table (fun t => RTable (tab_handle t)) a.1 a.2
  | GetAnycastIpAddressTable _ => fun a => taken_table (fun t => RTable (tab_handle t)) a.1 a.2
  | _ => fun _ => None
  end.

Definition acquires_win {R} (e : winE R) : R -> option resource :=
  match e with
  | OpenKey _ => taken_handle RKey
  | Mgr_Connect => taken_handle RScm
  | OpenService _ _ => taken_handle RService
  | _ => fun _ => None
  end.

(** What a call gives back. *)
Definition releases_ip {R} (e : ipE R) : option resource :=
  match e with FreeMibTable h => Some (RTable h) | _ => None end.

Definition releases_win {R} (e : winE R) : option resource :=
  match e with
  | Key_Close k => Some (RKey k)
  | Mgr_Disconnect s => Some (RScm s)
  | Service_Close s => Some (RService s)
  | _ => None
  end.

Definition acquires {R} (e : sysE R) : R -> option resource :=
  match e with Ip e => acquires_ip e | Win e => acquires_win e end.
Definition releases {R} (e : sysE R) : option resource :=
  match e with Ip e => releases_ip e | Win e => releases_win e end.

(** The resources held, the last taken first.  Only the last taken one can be
    given back. *)
Definition resources : monitor_step sysE (list resource) :=
  fun R e r held =>
    match releases e with
    | Some x =>
        match held with
        | y :: held => if decide (x = y) then Some held else None
        | [] => None
        end
    | None => Some (match acquires e r with Some x => x :: held | None => held end)
    end.

(** A program that, whatever it is answered, gives back all it took and nothing
    else. *)
Definition balanced {A} (p : prog sysE A) : Prop :=
  forall held tr a, exec p tr a -> monitor resources held tr = Some held.

Abbreviation keeps p := (forall held, wp resources any_answer p (fun _ held' => held' = held) held).

Lemma keeps_balanced {A} (p : prog sysE A) : keeps p -> balanced p.
Proof.
  intros Hp held tr a He.
  destruct (wp_exec _ _ _ _ _ _ _ (Hp held) He (admissible_any _ _ _)) as (held' & Hm & ->).
  done.
Qed.

Lemma keeps_bind {A B} (p : prog sysE A) (f : A -> prog sysE B) :
  keeps p -> (forall a, keeps (f a)) -> keeps (bind p f).
Proof.
  intros Hp Hf held. apply wp_bind. eapply wp_mono; [|apply Hp]. intros a held' ->. apply Hf.
Qed.

Lemma keeps_call {R} (e : sysE R) :
  releases e = None -> (forall r, acquires e r = None) -> keeps (call e).
Proof.
  intros Hr Ha held r _. unfold resources. rewrite Hr, Ha. by exists held.
Qed.

(** A table is read, used, and freed. *)
Lemma keeps_table {R A B} (get : prog sysE (result (table R))) (f : error -> B)
    (k : table R -> prog sysE A) (g : table R -> A -> prog sysE B) :
  (forall held, wp resources any_answer get
     (fun r held' => held' = match r with Ok tab => RTable (tab_handle tab) :: held
                             | Err _ => held end) held) ->
  (forall tab, keeps (k tab)) -> (forall tab a, keeps (g tab a)) ->
  keeps (let! tab := get in
         match tab with
         | Err e => Ret (f e)
         | Ok tab => let! a := k tab in do! table_free tab in g tab a
         end).
Proof.
  intros Hget Hk Hg held. apply wp_bind. eapply wp_mono; [|apply Hget].
  intros [tab|e] held' ->; [|done]. apply wp_bind. eapply wp_mono; [|apply Hk].
  intros a held' ->. apply wp_bind. unfold table_free, freeMibTable.
  intros [] _. unfold resources. cbn. rewrite decide_True by done.
  eexists. split; [done|]. apply Hg.
Qed.

(** The calls that take a table. *)
Lemma takes_table {R} (e : ipE (Z * table R)) held :
  releases_ip e = None ->
  (forall a, acquires_ip e a = taken_table (fun t => RTable (tab_handle t)) a.1 a.2) ->
  wp resources any_answer
    (bind (invoke e) (fun '(r0, tab) => Ret (table_result r0 tab)))
    (fun r held' => held' = match r with Ok tab => RTable (tab_handle tab) :: held
                            | Err _ => held end) held.
Proof.
  intros Hr Ha. apply wp_bind. intros [r0 tab] _. unfold resources. cbn. rewrite Hr, Ha.
  eexists. split; [done|]. unfold table_result, ret, taken_table. cbn.
  by destruct (decide (r0 = 0)).
Qed.

(** Walks a program without tables; recursive programs are hints. *)
Create HintDb keeps.

Ltac keeps_step :=
  match goal with
  | |- forall held, wp _ _ (bind (invoke _) _) _ held => apply keeps_bind; [apply keeps_call; done|intros]
  | |- forall held, wp _ _ (bind _ _) _ held => apply keeps_bind; [|intros]
  | |- forall held, wp _ _ (Ret _) _ held => done
  | |- forall held, wp _ _ (invoke _) _ held => apply keeps_call; done
  | |- forall held, wp _ _ (match ?x with _ => _ end) _ held => destruct x
  | |- _ => solve [auto 2 with keeps nocore]
  end.
Ltac keeps_go := repeat (keeps_step; cbn beta iota zeta).

Lemma keeps_until_error {X} (f : X -> prog sysE (option error)) xs :
  (forall x, keeps (f x)) -> keeps (until_error f xs).
Proof.
  intros Hf. induction xs as [|x xs IH]; cbn [until_error]; [done|].
  apply keeps_bind; [apply Hf|]. intros [e|]; [done|apply IH].
Qed.

Lemma keeps_rounds {A B} n (body : A -> prog sysE (A + B)) a :
  (forall a, keeps (body a)) -> keeps (rounds n body a).
Proof.
  intros Hb. revert a. induction n as [|n IH]; intros a; cbn [rounds]; [done|].
  apply keeps_bind; [done|]. by intros [a'|b].
Qed.

(** ** Each operation gives back what it takes *)

Lemma keeps_delete_addresses luid t : keeps (delete_addresses (F := sysE) luid t).
Proof.
  induction t as [|row t IH]; cbn [delete_addresses]; [done|].
  destruct (decide _); [|done]. apply keeps_bind; [|done].
  apply keeps_bind; [by apply keeps_call|done].
Qed.

Lemma keeps_delete_routes luid t err : keeps (delete_routes (F := sysE) luid t err).
Proof.
  revert err. induction t as [|row t IH]; intros err; cbn [delete_routes]; [done|].
  destruct (decide _); [|done]. apply keeps_bind; [|done].
  apply keeps_bind; [by apply keeps_call|done].
Qed.

Lemma keeps_AddIPAddress luid a : keeps (AddIPAddress (F := sysE) luid a).
Proof.
  unfold AddIPAddress, setting. apply keeps_bind; [by apply keeps_call|]. intros row.
  destruct (SetAddr _ _) as [raw [e|]]; [done|]. apply keeps_bind; [by apply keeps_call|done].
Qed.

Lemma keeps_AddRoute luid d n m : keeps (AddRoute (F := sysE) luid d n m).
Proof.
  unfold AddRoute, fill_route, setting. apply keeps_bind; [by apply keeps_call|]. intros row.
  destruct (SetPrefix _ _) as [raw [e|]]; [done|]. destruct (SetAddr _ _) as [raw' [e|]]; [done|].
  apply keeps_bind; [by apply keeps_call|done].
Qed.

Lemma keeps_FlushIPAddresses luid family : keeps (FlushIPAddresses (F := sysE) luid family).
Proof.
  apply (keeps_table _ Some (fun tab => delete_addresses luid (table_get tab)) (fun _ _ => Ret None)).
  - intros held. by apply takes_table.
  - intros tab. apply keeps_delete_addresses.
  - done.
Qed.

Lemma keeps_FlushRoutes luid family : keeps (FlushRoutes (F := sysE) luid family).
Proof.
  apply (keeps_table _ Some (fun tab => delete_routes luid (table_get tab) None)
           (fun _ err => Ret err)).
  - intros held. by apply takes_table.
  - intros tab. apply keeps_delete_routes.
  - done.
Qed.

#[export] Hint Resolve keeps_AddIPAddress keeps_AddRoute keeps_FlushIPAddresses
  keeps_FlushRoutes keeps_until_error : keeps.

Lemma keeps_read_table {R} (get : prog sysE (result (table R))) :
  (forall held, wp resources any_answer get
     (fun r held' => held' = match r with Ok tab => RTable (tab_handle tab) :: held
                             | Err _ => held end) held) ->
  keeps (read_table get).
Proof.
  intros Hget. apply (keeps_table _ Err (fun _ => Ret tt) (fun tab _ => Ret (Ok (table_get tab))));
    done.
Qed.

Lemma keeps_adapters family flags : keeps (GetAdaptersAddresses (F := sysE) family flags).
Proof.
  apply keeps_rounds. intros size. apply keeps_bind; [by apply keeps_call|].
  intros [[[e|] size'] adapters]; [|done]. by destruct (decide _).
Qed.

Lemma keeps_notify_dnscache : keeps (notify_dnscache (F := sysE)).
Proof.
  intros held [scm|e] _; unfold resources; cbn; (eexists; split; [reflexivity|]); [|done].
  intros [s|e] _; cbn; (eexists; split; [reflexivity|]).
  - intros [] _. eexists. split; [reflexivity|]. intros [] _. cbn.
    rewrite decide_True by done. eexists. split; [reflexivity|]. intros [] _. cbn.
    rewrite decide_True by done. by eexists.
  - intros [] _. cbn. rewrite decide_True by done. by eexists.
Qed.

Lemma keeps_key {B} (key : Z) (p : prog sysE B) held :
  keeps p ->
  wp resources any_answer (let! err := p in do! invoke (Key_Close key) in Ret err)
    (fun _ held' => held' = held) (RKey key :: held).
Proof.
  intros Hp. apply wp_bind. eapply wp_mono; [|apply Hp]. intros a held' -> [] _.
  unfold resources. cbn. rewrite decide_True by done. by eexists.
Qed.

Lemma keeps_set_dns_registry text family guid servers domains :
  keeps (set_dns_registry (F := sysE) text family guid servers domains).
Proof.
  intros held. apply wp_bind. intros [key|e] _; unfold resources; cbn [releases acquires];
    (eexists; split; [reflexivity|]); [|done].
  apply keeps_key. clear held. apply keeps_bind; [by apply keeps_call|]. intros [e|]; [done|].
  apply keeps_bind; [by apply keeps_call|]. intros [e|]; [done|]. apply keeps_notify_dnscache.
Qed.

Lemma keeps_SetInterfaceDnsSettings arch guid settings set :
  SetInterfaceDnsSettings (F := sysE) arch guid settings = Some set -> keeps set.
Proof.
  assert (forall args, keeps (setInterfaceDnsSettings (F := sysE) args settings)) as Hs.
  { intros args. apply keeps_bind; [by apply keeps_call|]. intros [e|]; [done|].
    apply keeps_bind; [by apply keeps_call|done]. }
  unfold SetInterfaceDnsSettings. intros He. repeat destruct (decide _); simplify_eq; apply Hs.
Qed.

Lemma keeps_SetDNS arch text luid family servers domains :
  keeps (SetDNS (F := sysE) arch text luid family servers domains).
Proof.
  unfold SetDNS. destruct (decide _); [done|]. cbv zeta.
  apply keeps_bind; [by apply keeps_call|]. intros [s16|e]; [|done].
  apply keeps_bind; [by apply keeps_call|]. intros [d16|e]; [|done].
  apply keeps_bind; [by apply keeps_bind; [apply keeps_call|intros []]|]. intros [guid|e]; [|done].
  destruct (SetInterfaceDnsSettings _ _ _) as [set|] eqn:Hset; [|done].
  apply keeps_bind; [by eapply keeps_SetInterfaceDnsSettings|]. intros [e|]; [|done].
  destruct (errors_Is _ _); [|done]. apply keeps_bind; [apply keeps_set_dns_registry|done].
Qed.

Lemma keeps_unless {E'} (flush : prog sysE (option E')) (add : prog sysE (option E')) :
  keeps flush -> keeps add ->
  keeps (let! err := flush in match err with Some e => Ret (Some e) | None => add end).
Proof. intros Hf Ha. apply keeps_bind; [done|]. by intros [e|]. Qed.

Lemma keeps_SetRoutesForFamily luid family rds :
  keeps (SetRoutesForFamily (F := sysE) luid family rds).
Proof.
  apply keeps_unless; [apply keeps_FlushRoutes|]. apply keeps_until_error. intros rd.
  destruct (other_family _ _); [done|apply keeps_AddRoute].
Qed.

Lemma keeps_SetIPAddressesForFamily luid family ps :
  keeps (SetIPAddressesForFamily (F := sysE) luid family ps).
Proof.
  apply keeps_unless; [apply keeps_FlushIPAddresses|]. apply keeps_until_error. intros p.
  destruct (other_family _ _); [done|apply keeps_AddIPAddress].
Qed.

(** C31: whatever the system answers, every operation on an interface gives back
    each table, registry key and service handle it took exactly once, last taken
    first, on the error paths too. *)
Theorem operations_balanced (arch : string) (text : GUID -> string) (luid family : Z)
    (ps : list Prefix) (rds : list RouteData) (servers : list Addr) (domains : list string) :
  balanced (FlushIPAddresses luid family) /\
  balanced (FlushRoutes luid family) /\
  balanced (SetIPAddresses luid ps) /\
  balanced (SetIPAddressesForFamily luid family ps) /\
  balanced (SetRoutes luid rds) /\
  balanced (SetRoutesForFamily luid family rds) /\
  balanced (SetDNS arch text luid family servers domains) /\
  balanced (DNS luid) /\
  balanced (GetIPInterfaceTable family) /\ balanced (GetIfTable2Ex family) /\
  balanced (GetUnicastIPAddressTable family) /\ balanced (GetAnycastIPAddressTable family) /\
  balanced (GetIPForwardTable2 family).
Proof.
  split_and!; apply keeps_balanced.
  - apply keeps_FlushIPAddresses.
  - apply keeps_FlushRoutes.
  - apply keeps_unless; [apply keeps_FlushIPAddresses|].
    apply keeps_until_error, keeps_AddIPAddress.
  - apply keeps_SetIPAddressesForFamily.
  - apply keeps_unless; [apply keeps_FlushRoutes|].
    apply keeps_until_error. intros rd. apply keeps_AddRoute.
  - apply keeps_SetRoutesForFamily.
  - apply keeps_SetDNS.
  - apply keeps_bind; [apply keeps_adapters|]. by intros [size|[addresses|e]].
  - apply keeps_read_table. intros held. by apply takes_table.
  - apply keeps_read_table. intros held. by apply takes_table.
  - apply keeps_read_table. intros held. by apply takes_table.
  - apply keeps_read_table. intros held. by apply takes_table.
  - apply keeps_read_table. intros held. by apply takes_table.
Qed.

(** ** The loop over buffer sizes *)

Abbreviation adapters_call family flags size err size' l :=
  (Ev (E := sysE) (Ip (GetAdaptersAddresses_ family flags size)) (err, size', l)).

(** What the calls for adapters can be, from a buffer of [size] bytes: it grows
    while the system says it is too small and asks for more. *)
Inductive adapter_calls (family flags : Z) : Z -> list (event sysE) ->
    Z + result (list IPAdapterAddresses.t) -> Prop :=
| calls_more size : adapter_calls family flags size [] (inl size)
| calls_done size size' l :
    adapter_calls family flags size [adapters_call family flags size None size' l] (inr (Ok l))
| calls_failed size e size' l :
    e <> ERROR_BUFFER_OVERFLOW \/ size' <= size ->
    adapter_calls family flags size [adapters_call family flags size (Some e) size' l] (inr (Err e))
| calls_grow size size' l tr r :
    size < size' -> adapter_calls family flags size' tr r ->
    adapter_calls family flags size
      (adapters_call family flags size (Some ERROR_BUFFER_OVERFLOW) size' l :: tr) r.

Lemma adapter_calls_app family flags size tr1 size' tr2 r :
  adapter_calls family flags size tr1 (inl size') -> adapter_calls family flags size' tr2 r ->
  adapter_calls family flags size (tr1 ++ tr2) r.
Proof.
  intros H1 H2. remember (inl size') as r1 eqn:Hr1.
  induction H1; simplify_eq/=; [done|]. constructor; auto.
Qed.

(** The answered sizes are 32-bit integers. *)
Definition size_ok (ev : event sysE) : Prop :=
  match ev with
  | Ev (Ip e) a =>
      match e in ipE R return R -> Prop with
      | GetAdaptersAddresses_ _ _ _ => fun a => fits 32 a.1.2
      | _ => fun _ => True
      end a
  | _ => True
  end.

Lemma exec_adapters_rounds family flags n size tr r :
  fits 32 size -> Forall size_ok tr ->
  exec (rounds n (adapters_round family flags) size : prog sysE _) tr r ->
  adapter_calls family flags size tr r /\
  forall size', r = inl size' -> size + 2 ^ Z.of_nat n <= size' /\ fits 32 size'.
Proof.
  revert size tr r. induction n as [|n IH]; intros size tr r Hs Htr He.
  - unfold rounds, adapters_round in He. apply exec_bind in He as (tr1 & tr2 & a & -> & Hc & He).
    apply exec_invoke in Hc as ->. destruct a as [[[e|] size'] l]; simpl in He.
    + destruct (decide _) as [Hd|Hd]; destruct He as [-> ->].
      * split; [by constructor|done].
      * assert (e = ERROR_BUFFER_OVERFLOW) as -> by (destruct (decide (e = ERROR_BUFFER_OVERFLOW)); tauto).
        split; [apply calls_grow; [lia|constructor]|].
        intros ? [= <-]. apply Forall_cons in Htr as [Htr _]. simpl in Htr. simpl. split; [lia|done].
    + destruct He as [-> ->]. split; [constructor|done].
  - cbn [rounds] in He. apply exec_bind in He as (tr1 & tr2 & a & -> & H1 & H2).
    apply Forall_app in Htr as [Htr1 Htr2]. apply IH in H1 as [H1 Hg]; [|done|done].
    destruct a as [size'|b].
    + destruct (Hg _ eq_refl) as [Hg1 Hg2]. apply IH in H2 as [H2 Hg']; [|done|done].
      split; [by eapply adapter_calls_app|]. intros size'' ->.
      destruct (Hg' _ eq_refl) as [Hg3 Hg4]. split; [|done].
      rewrite Nat2Z.inj_succ, Z.pow_succ_r by lia. lia.
    + destruct H2 as [-> ->]. by rewrite app_nil_r.
Qed.

Lemma GetAdaptersAddresses_eq family flags :
  GetAdaptersAddresses (F := sysE) family flags = rounds 32 (adapters_round family flags) 15000.
Proof. reflexivity. Qed.

(** C34: reading the adapters always ends with a result: the buffer starts with
    15000 bytes and grows strictly with every overflow, which a 32-bit size does
    not allow for ever; the result is the last call's, and any error but an
    overflow that asks for more ends the loop. *)
Theorem adapters_terminates (family flags : Z) (tr : list (event sysE)) r :
  Forall size_ok tr -> exec (GetAdaptersAddresses family flags) tr r ->
  exists res, r = inr res /\ adapter_calls family flags 15000 tr (inr res).
Proof.
  intros Htr He. rewrite GetAdaptersAddresses_eq in He.
  apply exec_adapters_rounds in He as [Hc Hg]; [|unfold fits; lia|done].
  destruct r as [size|res]; [|by exists res].
  destruct (Hg _ eq_refl) as [Hg1 Hg2]. exfalso. unfold fits in Hg2. simpl in Hg1, Hg2. lia.
Qed.

(** ** Passing a GUID by value *)

Definition wf_guid (g : GUID) : Prop :=
  length (Data4 g) = 8%nat /\ Forall (fits 8) (Data4 g).

Lemma guid_bytes_wf g : wf_guid g -> length (guid_bytes g) = 16%nat /\ Forall (fits 8) (guid_bytes g).
Proof.
  intros [Hl Hf]. unfold guid_bytes. split.
  - by rewrite !length_app, !length_le_bytes, Hl.
  - rewrite !Forall_app. split_and!; try apply le_bytes_fits. done.
Qed.

(** The bytes an argument list puts where the callee looks for the GUID. *)
Definition passed (args : list Z + GUID) : list Z :=
  match args with
  | inl ws => concat (map (le_bytes (16 / length ws)) ws)
  | inr g => guid_bytes g
  end.

Lemma le_bytes_get_u n off d :
  Forall (fits 8) d -> (off + n <= length d)%nat -> le_bytes n (get_u n off d) = Sockaddr.get off n d.
Proof.
  intros Hd Hl. unfold get_u.
  assert (length (Sockaddr.get off n d) = n) as Hg.
  { unfold Sockaddr.get. rewrite length_take, length_drop. lia. }
  rewrite <- Hg at 1. apply le_bytes_value. unfold Sockaddr.get. by apply Forall_take, Forall_drop.
Qed.

Lemma passed_qwords d :
  Forall (fits 8) d -> length d = 16%nat -> passed (inl [get_u 8 0 d; get_u 8 8 d]) = d.
Proof.
  intros Hd Hl. unfold passed. cbn [length map concat]. change (16 / 2)%nat with 8%nat.
  rewrite !le_bytes_get_u by (done || lia). unfold Sockaddr.get. rewrite app_nil_r.
  by do 17 (destruct d; try done).
Qed.

Lemma passed_dwords d :
  Forall (fits 8) d -> length d = 16%nat ->
  passed (inl [get_u 4 0 d; get_u 4 4 d; get_u 4 8 d; get_u 4 12 d]) = d.
Proof.
  intros Hd Hl. unfold passed. cbn [length map concat]. change (16 / 4)%nat with 4%nat.
  rewrite !le_bytes_get_u by (done || lia). unfold Sockaddr.get. rewrite app_nil_r.
  by do 17 (destruct d; try done).
Qed.

Lemma guid_settings_args (arch : string) (guid : GUID) (settings : DnsInterfaceSettings) :
  wf_guid guid ->
  match SetInterfaceDnsSettings (F := sysE) arch guid settings with
  | Some set =>
      exists args, set = setInterfaceDnsSettings args settings /\ passed args = guid_bytes guid
  | None => True
  end.
Proof.
  intros Hg. apply guid_bytes_wf in Hg as [Hl Hf]. unfold SetInterfaceDnsSettings.
  destruct (decide (arch = "amd64")); [by exists (inr guid)|].
  destruct (decide (arch = "arm64")).
  { eexists (inl _). split; [reflexivity|]. by apply passed_qwords. }
  destruct (decide _); [|done].
  eexists (inl _). split; [reflexivity|]. by apply passed_dwords.
Qed.

(** On every architecture the build supports the settings procedure gets
    the very bytes of the GUID, whether by pointer, in two quadwords or in four
    doublewords; on any other architecture nothing is called. *)
Theorem guid_calling_conventions (arch : string) (guid : GUID) (settings : DnsInterfaceSettings) :
  wf_guid guid ->
  match SetInterfaceDnsSettings (F := sysE) arch guid settings with
  | Some set =>
      arch ∈ ["amd64"; "arm64"; "arm"; "386"] /\
      exists args, set = setInterfaceDnsSettings args settings /\ passed args = guid_bytes guid
  | None => arch ∉ ["amd64"; "arm64"; "arm"; "386"]
  end.
Proof.
  intros Hg. apply (guid_settings_args arch guid settings) in Hg.
  destruct (SetInterfaceDnsSettings _ _ _) eqn:Hset; [split; [|done]|];
    unfold SetInterfaceDnsSettings in Hset; repeat destruct (decide _); simplify_eq;
    rewrite ?elem_of_cons, ?not_elem_of_cons; set_solver.
Qed.

(** ** DNS servers *)

Section Dns.
Context (arch : string) (text : GUID -> string).

Abbreviation win e a := (Ev (E := sysE) (Win e) a).
Abbreviation ip e a := (Ev (E := sysE) (Ip e) a).

(** The settings of the servers and domains were accepted by the system, or,
    when it has no such procedure, both registry values were written. *)
Definition dns_set (family : Z) (servers : list Addr) (domains : list string)
    (guid : GUID) (tr : list (event sysE)) : Prop :=
  let servers_text := join_commas (filter_servers family servers) in
  let domains_text := join_commas domains in
  (exists s16 d16 args,
    win (UTF16PtrFromString servers_text) (Ok s16) ∈ tr /\
    win (UTF16PtrFromString domains_text) (Ok d16) ∈ tr /\
    passed args = guid_bytes guid /\
    ip (SetInterfaceDnsSettings_ args (dns_settings family s16 d16)) 0 ∈ tr) \/
  (exists key,
    win (OpenKey (reg_path text family guid)) (Ok key) ∈ tr /\
    win (SetStringValue key "NameServer" servers_text) None ∈ tr /\
    win (SetStringValue key "SearchList" domains_text) None ∈ tr).

Lemma exec_settings args settings tr :
  exec (setInterfaceDnsSettings (F := sysE) args settings) tr None ->
  ip (SetInterfaceDnsSettings_ args settings) 0 ∈ tr.
Proof.
  intros He. unfold setInterfaceDnsSettings in He. exec_inv.
  match goal with H : None = ret ?c |- _ => unfold ret in H; destruct (decide (c = 0)) as [->|]; [|done] end.
  in_trace.
Qed.

Lemma exec_registry family guid servers domains tr :
  exec (set_dns_registry (F := sysE) text family guid servers domains) tr None ->
  exists key,
    win (OpenKey (reg_path text family guid)) (Ok key) ∈ tr /\
    win (SetStringValue key "NameServer" servers) None ∈ tr /\
    win (SetStringValue key "SearchList" domains) None ∈ tr.
Proof.
  intros He. unfold set_dns_registry in He.
  apply exec_bind in He as (tr1 & tr2 & a & -> & H1 & He). apply exec_invoke in H1 as ->.
  destruct a as [key|e]; [|by destruct He as [_ He]].
  apply exec_bind in He as (tr3 & tr4 & err & -> & He & Hc).
  apply exec_bind in Hc as (tr5 & tr6 & [] & -> & _ & [-> <-]).
  apply exec_bind in He as (tr7 & tr8 & a & -> & H1 & He). apply exec_invoke in H1 as ->.
  destruct a as [e|]; [by destruct He as [_ He]|].
  apply exec_bind in He as (tr9 & tr10 & a & -> & H1 & He). apply exec_invoke in H1 as ->.
  destruct a as [e|]; [by destruct He as [_ He]|].
  exists key. split_and!; in_trace.
Qed.

(** C32: SetDNS answers an unknown family at once, calling nothing; it reports
    success only if the family's servers and the domains were set for the GUID
    of the interface, in the system or in its registry. *)
Theorem set_dns_outcomes (luid family : Z) (servers : list Addr) (domains : list string)
    (tr : list (event sysE)) (res : option (option error)) :
  (forall c guid, ip (ConvertInterfaceLuidToGuid luid) (c, guid) ∈ tr -> wf_guid guid) ->
  exec (SetDNS arch text luid family servers domains) tr res ->
  (family <> AF_INET /\ family <> AF_INET6 ->
     tr = [] /\ res = Some (Some ERROR_PROTOCOL_UNREACHABLE)) /\
  (res = Some None ->
     (family = AF_INET \/ family = AF_INET6) /\
     exists guid, ip (ConvertInterfaceLuidToGuid luid) (0, guid) ∈ tr /\
                  dns_set family servers domains guid tr).
Proof.
  intros Hwf He. unfold SetDNS in He.
  destruct (decide _) as [Hd|Hd].
  { destruct He as [-> ->]. by split. }
  split; [done|]. intros ->. split; [lia|]. cbv zeta in He.
  apply exec_bind in He as (tr1 & tr2 & a & -> & H1 & He). apply exec_invoke in H1 as ->.
  destruct a as [s16|e]; [|by destruct He as [_ [=]]].
  apply exec_bind in He as (tr3 & tr4 & a & -> & H1 & He). apply exec_invoke in H1 as ->.
  destruct a as [d16|e]; [|by destruct He as [_ [=]]].
  apply exec_bind in He as (tr5 & tr6 & a & -> & H1 & He).
  apply exec_bind in H1 as (tr7 & tr8 & [c guid] & -> & H1 & [-> ->]). apply exec_invoke in H1 as ->.
  unfold value_result, ret in He. destruct (decide (c = 0)) as [->|]; [|by destruct He as [_ [=]]].
  exists guid. split; [in_trace|].
  assert (wf_guid guid) as Hg by (eapply Hwf; in_trace).
  apply guid_bytes_wf in Hg as Hg'. clear Hwf.
  pose proof (guid_settings_args arch guid (dns_settings family s16 d16) Hg) as Hc.
  destruct (SetInterfaceDnsSettings _ _ _) as [set|]; [|by destruct He as [_ [=]]].
  destruct Hc as (args & -> & Hp).
  apply exec_bind in He as (tr9 & tr10 & [e|] & -> & Hs & He).
  - destruct (errors_Is _ _); [|by destruct He as [_ [=]]].
    apply exec_bind in He as (tr11 & tr12 & err & -> & Hr & [-> [= <-]]).
    apply exec_registry in Hr as (key & Hk & Hn & Hl).
    right. exists key. split_and!; in_trace.
  - apply exec_settings in Hs. left. exists s16, d16, args. split_and!; done || in_trace.
Qed.
End Dns.

(** ** At concrete inputs *)

(** What the first round decides, all the rounds decide. *)
Lemma exec_rounds_first {A B} n (body : A -> prog sysE (A + B)) a tr b :
  exec (body a) tr (inr b) -> exec (rounds n body a) tr (inr b).
Proof.
  intros He. induction n as [|n IH]; [done|]. cbn [rounds]. apply exec_bind.
  exists tr, [], (inr b). by rewrite app_nil_r.
Qed.

Lemma exec_rounds_second {A B} n (body : A -> prog sysE (A + B)) a tr1 a' tr2 b :
  exec (body a) tr1 (inl a') -> exec (body a') tr2 (inr b) ->
  exec (rounds (S n) body a) (tr1 ++ tr2) (inr b).
Proof.
  intros H1 H2. induction n as [|n IH].
  - cbn [rounds]. apply exec_bind. by exists tr1, tr2, (inl a').
  - cbn [rounds]. apply exec_bind. exists (tr1 ++ tr2), [], (inr b).
    rewrite app_nil_r. by split.
Qed.

Module SystemSample.
Definition grow : list (event sysE) :=
  [adapters_call 0 0 15000 (Some ERROR_BUFFER_OVERFLOW) 20000 []].
Definition finish : list (event sysE) := [adapters_call 0 0 20000 None 20000 []].

Lemma exec_grow : exec (GetAdaptersAddresses (F := sysE) 0 0) (grow ++ finish) (inr (Ok [])).
Proof.
  rewrite GetAdaptersAddresses_eq. apply (exec_rounds_second 31 _ _ _ 20000).
  - by exists (Some ERROR_BUFFER_OVERFLOW, 20000, []), [].
  - by exists (None, 20000, []), [].
Qed.

Definition guid : GUID := mkGUID 1 2 3 [4; 5; 6; 7; 8; 9; 10; 11].
Definition server : Addr := Addr4 [9; 9; 9; 9].
Definition text (_ : GUID) : string := "{g}".

(** A system without the settings procedure: the registry is written. *)
Definition dns_trace : list (event sysE) :=
  [Ev (E := sysE) (Win (UTF16PtrFromString "9.9.9.9")) (Ok (mkUtf16 1));
   Ev (E := sysE) (Win (UTF16PtrFromString "")) (Ok (mkUtf16 2));
   Ev (E := sysE) (Ip (ConvertInterfaceLuidToGuid 5)) (0, guid);
   Ev (E := sysE) (Ip FindSetInterfaceDnsSettings) (Some ERROR_PROC_NOT_FOUND);
   Ev (E := sysE) (Win (OpenKey
     "SYSTEM\CurrentControlSet\Services\Tcpip\Parameters\Interfaces\{g}")) (Ok 70);
   Ev (E := sysE) (Win (SetStringValue 70 "NameServer" "9.9.9.9")) None;
   Ev (E := sysE) (Win (SetStringValue 70 "SearchList" "")) None;
   Ev (E := sysE) (Win Mgr_Connect) (Err (Errno 5));
   Ev (E := sysE) (Win (Key_Close 70)) tt].

Lemma exec_dns : exec (SetDNS (F := sysE) "amd64" text 5 AF_INET [server] []) dns_trace (Some None).
Proof.
  do 9 (eexists _, _; split; [reflexivity|]). by split.
Qed.

Lemma wf_sample : wf_guid guid.
Proof. split; [done|]. unfold guid. repeat constructor; by vm_compute. Qed.

Lemma dns_guids c g : Ev (E := sysE) (Ip (ConvertInterfaceLuidToGuid 5)) (c, g) ∈ dns_trace -> wf_guid g.
Proof.
  intros Hin. apply list_elem_of_In in Hin.
  assert (Some g = Some guid) as [= ->].
  { set (pick := fun ev : event sysE =>
      match ev with
      | Ev (Ip e) a =>
          match e in ipE R return R -> option GUID with
          | ConvertInterfaceLuidToGuid _ => fun a => Some a.2
          | _ => fun _ => None
          end a
      | _ => None
      end).
    assert (pick (Ev (E := sysE) (Ip (ConvertInterfaceLuidToGuid 5)) (c, g)) = Some g) as <- by done.
    simpl in Hin. repeat (destruct Hin as [Hin|Hin]; [apply (f_equal pick) in Hin; simpl in Hin|]);
      congruence || done. }
  exact wf_sample.
Qed.
End SystemSample.

Lemma adapters_terminates_witness :
  adapter_calls 0 0 15000 (SystemSample.grow ++ SystemSample.finish) (inr (Ok [])).
Proof.
  assert (Forall size_ok (SystemSample.grow ++ SystemSample.finish)) as Hs.
  { unfold SystemSample.grow, SystemSample.finish. simpl.
    repeat constructor; simpl; unfold fits; lia. }
  destruct (adapters_terminates 0 0 _ _ Hs SystemSample.exec_grow) as (res & [= <-] & Hc).
  exact Hc.
Defined.

Lemma guid_calling_conventions_witness :
  match SetInterfaceDnsSettings (F := sysE) "arm" SystemSample.guid (mkDns 1 2 None None) with
  | Some set => exists args, set = setInterfaceDnsSettings args (mkDns 1 2 None None) /\
      passed args = [1; 0; 0; 0; 2; 0; 3; 0; 4; 5; 6; 7; 8; 9; 10; 11]
  | None => False
  end.
Proof.
  destruct (guid_calling_conventions "arm" SystemSample.guid (mkDns 1 2 None None)
              SystemSample.wf_sample) as [_ Hc].
  exact Hc.
Defined.

Lemma set_dns_outcomes_witness :
  exists guid, dns_set SystemSample.text AF_INET [SystemSample.server] [] guid SystemSample.dns_trace.
Proof.
  destruct (set_dns_outcomes "amd64" SystemSample.text 5 AF_INET [SystemSample.server] []
              SystemSample.dns_trace (Some None) SystemSample.dns_guids SystemSample.exec_dns)
    as [_ Hs].
  destruct (Hs eq_refl) as [_ (guid & _ & Hd)]. exists guid. exact Hd.
Defined.
