(* ===== verification/JsonString.v ===== *)
(** * JSON strings (Go's encoding/json)

    How [json.Marshal] writes a string (HTML characters, control characters,
    U+2028/9 and invalid UTF-8 escaped) and how the scanner finds its end and
    [unquote] reads it back. *)

From S2P Require Import Prelude GoStrings Utf8 Utf16.
From Stdlib Require Import ZArith Ascii String Lia.
From stdpp Require Import base list strings.
Open Scope Z_scope.

Definition dquote : ascii := "034"%char.
Definition backslash : ascii := "092"%char.

(** The [d]-th character of "0123456789abcdef". *)
Definition hex (d : Z) : ascii := byte (if d <? 10 then 48 + d else 87 + d).

Definition unhex (b : ascii) : option Z :=
  let c := code b in
  if in_range 48 57 c then Some (c - 48)
  else if in_range 97 102 c then Some (c - 87)
  else if in_range 65 70 c then Some (c - 55)
  else None.

(** ** Writing *)

(** The characters that need no escape: printable ASCII (and DEL) but the
    quote, the backslash and the HTML characters [<], [>] and [&]. *)
Definition htmlSafe (b : ascii) : bool :=
  in_range 0x20 0x7F (code b) &&
  negb (existsb (fun c => bool_decide (b = c)) [dquote; backslash; "<"%char; ">"%char; "&"%char]).

Definition escape_ascii (b : ascii) : bytes :=
  if htmlSafe b then [b]
  else if decide (b = dquote \/ b = backslash) then [backslash; b]
  else if decide (b = "008"%char) then to_bytes "\b"
  else if decide (b = "012"%char) then to_bytes "\f"
  else if decide (b = newline) then to_bytes "\n"
  else if decide (b = carriage) then to_bytes "\r"
  else if decide (b = "009"%char) then to_bytes "\t"
  else to_bytes "\u00" ++ [hex (Z.shiftr (code b) 4); hex (Z.land (code b) 0xF)].

Fixpoint escape (fuel : nat) (s : bytes) : bytes :=
  match fuel, s with
  | S fuel, b :: t =>
      if code b <? RuneSelf then escape_ascii b ++ escape fuel t
      else
        let '(c, n) := DecodeRune s in
        if decide ((c, n) = (RuneError, 1%nat)) then to_bytes "\ufffd" ++ escape fuel t
        else if (c =? 0x2028) || (c =? 0x2029) then
          to_bytes "\u202" ++ [hex (Z.land c 0xF)] ++ escape fuel (drop n s)
        else take n s ++ escape fuel (drop n s)
  | _, _ => []
  end.

(** [appendString]; a rune has at least one byte, so the length is enough. *)
Definition quote (s : bytes) : bytes := dquote :: escape (length s) s ++ [dquote].

(** ** Reading *)

(** The scanner inside a string: on ordinary characters, after a backslash, or
    with [S k] hex digits of a [\u] escape to come. *)
Inductive sstate : Type := SIn | SEsc | SHex (k : nat).

Definition is_escape (b : ascii) : bool :=
  existsb (fun c => bool_decide (b = c))
    [dquote; backslash; "/"; "b"; "f"; "n"; "r"; "t"]%char.

(** From after the opening quote: the raw text and what follows the closing
    quote. *)
Fixpoint scan_string (st : sstate) (s : bytes) : option (bytes * bytes) :=
  match s with
  | [] => None
  | b :: t =>
      let go st := '(raw, rest) ← scan_string st t; Some (b :: raw, rest) in
      match st with
      | SIn =>
          if decide (b = dquote) then Some ([], t)
          else if decide (b = backslash) then go SEsc
          else if code b <? 0x20 then None
          else go SIn
      | SEsc =>
          if is_escape b then go SIn
          else if decide (b = "u"%char) then go (SHex 3)
          else None
      | SHex k =>
          match unhex b with
          | None => None
          | Some _ => go (match k with O => SIn | S k => SHex k end)
          end
      end
  end.

(** [getu4]: the value of a [\uXXXX] escape at the front. *)
Definition getu4 (s : bytes) : option Z :=
  match s with
  | b :: u :: a3 :: a2 :: a1 :: a0 :: _ =>
      if decide (b = backslash /\ u = "u"%char) then
        d3 ← unhex a3; d2 ← unhex a2; d1 ← unhex a1; d0 ← unhex a0;
        Some (((d3 * 16 + d2) * 16 + d1) * 16 + d0)
      else None
  | _ => None
  end.

(** The character a one-letter escape stands for. *)
Definition unescape (b : ascii) : option ascii :=
  if existsb (fun c => bool_decide (b = c)) [dquote; backslash; "/"; "'"]%char then Some b
  else if decide (b = "b"%char) then Some "008"%char
  else if decide (b = "f"%char) then Some "012"%char
  else if decide (b = "n"%char) then Some newline
  else if decide (b = "r"%char) then Some carriage
  else if decide (b = "t"%char) then Some "009"%char
  else None.

Fixpoint unquote (fuel : nat) (s : bytes) : option bytes :=
  match fuel, s with
  | _, [] => Some []
  | O, _ => None
  | S fuel, b :: t =>
      if decide (b = backslash) then
        match t with
        | [] => None
        | e :: t' =>
            if decide (e = "u"%char) then
              rr ← getu4 s;
              let s' := drop 6 s in
              if is_surrogate rr then
                match (rr1 ← getu4 s'; DecodeSurrogates rr rr1) with
                | Some dec => app (EncodeRune dec) <$> unquote fuel (drop 6 s')
                | None => app (EncodeRune RuneError) <$> unquote fuel s'
                end
              else app (EncodeRune rr) <$> unquote fuel s'
            else
              c ← unescape e;
              cons c <$> unquote fuel t'
        end
      else if bool_decide (b = dquote) || (code b <? 0x20) then None
      else if code b <? RuneSelf then cons b <$> unquote fuel t
      else
        let '(c, n) := DecodeRune s in
        app (EncodeRune c) <$> unquote fuel (drop n s)
  end.

(** A string at the front of the input, after its opening quote.  The raw
    text is shorter than the input. *)
Definition parse_string (s : bytes) : option (bytes * bytes) :=
  '(raw, rest) ← scan_string SIn s;
  str ← unquote (length raw) raw;
  Some (str, rest).

(** ** Escaped text is scanned to its end *)

(** The scanner passes over [p] and is back among ordinary characters. *)
Definition passes (p : bytes) : Prop :=
  forall t, scan_string SIn (p ++ t)
            = ('(raw, rest) ← scan_string SIn t; Some (p ++ raw, rest)).

Lemma passes_app p q : passes p -> passes q -> passes (p ++ q).
Proof.
  intros Hp Hq t. rewrite <- app_assoc, Hp, Hq.
  destruct (scan_string SIn t) as [[raw rest]|]; simpl; [|done]. by rewrite <- app_assoc.
Qed.

Lemma passes_nil : passes [].
Proof. intros t. simpl. by destruct (scan_string SIn t) as [[??]|]. Qed.

Lemma passes_plain p :
  Forall (fun b => b <> dquote /\ b <> backslash /\ 0x20 <= code b) p -> passes p.
Proof.
  induction 1 as [|b p (Hq & Hb & Hc) _ IH]; [apply passes_nil|].
  intros t. simpl. rewrite !decide_False by done.
  replace (code b <? 0x20) with false by lia. rewrite IH.
  by destruct (scan_string SIn t) as [[??]|].
Qed.

Lemma passes_hex4 a3 a2 a1 a0 :
  is_Some (unhex a3) -> is_Some (unhex a2) -> is_Some (unhex a1) -> is_Some (unhex a0) ->
  passes (backslash :: "u"%char :: [a3; a2; a1; a0]).
Proof.
  intros [? H3] [? H2] [? H1] [? H0] t. simpl. rewrite H3, H2, H1, H0.
  by destruct (scan_string SIn t) as [[??]|].
Qed.

Lemma unhex_hex d : 0 <= d < 16 -> unhex (hex d) = Some d.
Proof.
  intros Hd. unfold unhex, hex, in_range.
  destruct (d <? 10) eqn:Hlt; rewrite code_byte by lia;
    repeat match goal with |- context [if ?b then _ else _] => destruct b eqn:? end;
    f_equal; lia.
Qed.

Lemma passes_escape_ascii b : code b < RuneSelf -> passes (escape_ascii b).
Proof.
  intros Hb t.
  destruct b as [[] [] [] [] [] [] [] []]; try (vm_compute in Hb; discriminate Hb);
    cbv -[scan_string app]; simpl; by destruct (scan_string SIn t) as [[??]|].
Qed.

Lemma high_plain l : Forall (fun b => RuneSelf <= code b) l ->
  Forall (fun b => b <> dquote /\ b <> backslash /\ 0x20 <= code b) l.
Proof.
  intros Hl. eapply Forall_impl; [exact Hl|]. unfold RuneSelf. intros b Hb.
  split_and!; [intros ->; vm_compute in Hb; congruence..|lia].
Qed.

(** The pieces [escape] writes for the bytes at the front of a string. *)
Inductive piece : bytes -> nat -> bytes -> Prop :=
| piece_ascii b t : code b < RuneSelf -> piece (b :: t) 1 (escape_ascii b)
| piece_bad b t :
    RuneSelf <= code b -> DecodeRune (b :: t) = (RuneError, 1%nat) ->
    piece (b :: t) 1 (to_bytes "\ufffd")
| piece_separator b t (l : bytes) c :
    RuneSelf <= code b -> DecodeRune (b :: t) = (c, length l) -> c = 0x2028 \/ c = 0x2029 ->
    piece (b :: t) (length l) (to_bytes "\u202" ++ [hex (Z.land c 0xF)])
| piece_rune b t (l rest : bytes) c :
    RuneSelf <= code b -> b :: t = l ++ rest -> (2 <= length l)%nat -> EncodeRune c = l ->
    Forall (fun b => RuneSelf <= code b) l ->
    (forall r, DecodeRune (l ++ r) = (c, length l)) -> piece (b :: t) (length l) l.

Lemma escape_piece fuel b t :
  exists n p, escape (S fuel) (b :: t) = p ++ escape fuel (drop n (b :: t)) /\
    piece (b :: t) n p /\ (1 <= n)%nat.
Proof.
  cbn [escape]. destruct (code b <? RuneSelf) eqn:Hb.
  - exists 1%nat, (escape_ascii b). split; [done|]. split; [constructor; lia|lia].
  - destruct (DecodeRune (b :: t)) as [c n] eqn:Hd.
    case_decide as Hbad.
    + injection Hbad as -> ->. exists 1%nat, (to_bytes "\ufffd"). split; [done|].
      split; [constructor; [lia|done]|lia].
    + destruct (DecodeRune_multi b t c n) as (l & rest & Hl & Hlen & Hn & He & Hh & Hr);
        [lia|done|done|].
      destruct ((c =? 0x2028) || (c =? 0x2029)) eqn:Hc.
      * exists n, (to_bytes "\u202" ++ [hex (Z.land c 0xF)]).
        split; [by rewrite <- app_assoc|]. split; [|lia]. rewrite <- Hlen in *.
        constructor; [lia|done|lia].
      * exists n, l. split; [by rewrite Hl, take_app_length'|]. split; [|lia].
        rewrite <- Hlen in *. by eapply piece_rune; [lia|..].
Qed.

Lemma escape_nil fuel : escape fuel [] = [].
Proof. by destruct fuel. Qed.

(** Every property of the pieces that concatenation keeps holds of the escaped
    text. *)
Lemma escape_ind (P : bytes -> Prop) fuel s :
  P [] -> (forall p q, P p -> P q -> P (p ++ q)) ->
  (forall s n p, piece s n p -> P p) -> P (escape fuel s).
Proof.
  intros H0 Happ Hpiece. revert s. induction fuel as [|fuel IH]; intros s; [done|].
  destruct s as [|b t]; [done|].
  destruct (escape_piece fuel b t) as (n & p & -> & Hp & _). eauto.
Qed.

Lemma separator_hex c : c = 0x2028 \/ c = 0x2029 -> is_Some (unhex (hex (Z.land c 0xF))).
Proof. intros [-> | ->]; by eexists. Qed.

Lemma passes_escape fuel s : passes (escape fuel s).
Proof.
  apply escape_ind; [apply passes_nil|apply passes_app|].
  intros s' n p [b t Hb|b t Hb Hd|b t l c Hb Hd Hc|b t l rest c Hb Hl Hn He Hh Hr].
  - by apply passes_escape_ascii.
  - apply passes_hex4; by eexists.
  - apply passes_hex4; [by eexists..|by apply separator_hex].
  - by apply passes_plain, high_plain.
Qed.

Lemma escape_ascii_no_newline b : code b < RuneSelf -> newline ∉ escape_ascii b.
Proof.
  intros Hb Hin. apply list_elem_of_In in Hin.
  destruct b as [[] [] [] [] [] [] [] []]; try (vm_compute in Hb; discriminate Hb);
    vm_compute in Hin; intuition discriminate.
Qed.

Lemma escape_no_newline fuel s : newline ∉ escape fuel s.
Proof.
  apply escape_ind; [apply not_elem_of_nil|intros; by rewrite not_elem_of_app|].
  intros s' n p [b t Hb|b t Hb Hd|b t l c Hb Hd Hc|b t l rest c Hb Hl Hn He Hh Hr].
  - by apply escape_ascii_no_newline.
  - intros Hin%list_elem_of_In. simpl in Hin. intuition discriminate.
  - intros Hin%list_elem_of_In. destruct Hc as [-> | ->]; simpl in Hin; intuition discriminate.
  - intros Hin. rewrite Forall_forall in Hh. apply Hh in Hin. vm_compute in Hin. congruence.
Qed.

Lemma quote_no_newline s : newline ∉ quote s.
Proof.
  unfold quote. rewrite not_elem_of_cons, not_elem_of_app.
  split_and!; [done|apply escape_no_newline|]. by rewrite list_elem_of_singleton.
Qed.

(** ** Reading back what was written *)

Lemma unquote_escape_ascii b fuel r :
  code b < RuneSelf -> unquote (S fuel) (escape_ascii b ++ r) = cons b <$> unquote fuel r.
Proof.
  intros Hb.
  destruct b as [[] [] [] [] [] [] [] []]; try (vm_compute in Hb; discriminate Hb);
    cbv -[unquote app]; simpl; try reflexivity; by destruct (unquote fuel r).
Qed.

Lemma unquote_high l c r fuel :
  (2 <= length l)%nat -> EncodeRune c = l -> Forall (fun b => RuneSelf <= code b) l ->
  DecodeRune (l ++ r) = (c, length l) ->
  unquote (S fuel) (l ++ r) = app l <$> unquote fuel r.
Proof.
  intros Hn He Hh Hd. pose proof (high_plain l Hh) as Hp.
  destruct l as [|b l]; [simpl in Hn; lia|]. apply Forall_cons in Hp as [(Hq & Hb & Hc) _].
  apply Forall_cons in Hh as [Hb0 _].
  change ((b :: l) ++ r) with (b :: (l ++ r)) in Hd |- *. cbn [unquote].
  rewrite decide_False, bool_decide_false by done. cbn [orb].
  replace (code b <? 0x20) with false by lia. replace (code b <? RuneSelf) with false by lia.
  rewrite Hd, He. do 2 f_equal. change (b :: (l ++ r)) with ((b :: l) ++ r).
  apply drop_app_length'. done.
Qed.

(** Reading a separator's escape. *)
Lemma unquote_separator c r fuel :
  c = 0x2028 \/ c = 0x2029 ->
  unquote (S fuel) ((to_bytes "\u202" ++ [hex (Z.land c 0xF)]) ++ r)
  = app (EncodeRune c) <$> unquote fuel r.
Proof. by intros [-> | ->]. Qed.

(** At the front of a valid string the piece is read back to the bytes it was
    written for. *)
Lemma unquote_piece b t n p r fuel :
  utf8 (b :: t) -> piece (b :: t) n p ->
  unquote (S fuel) (p ++ r) = app (take n (b :: t)) <$> unquote fuel r /\
  utf8 (drop n (b :: t)) /\ (1 <= length p)%nat.
Proof.
  intros Hu Hp. inversion Hu as [|b' t' c n' Hd Hne Hrest]; subst.
  inversion Hp as [b' t' Hb|b' t' Hb Hd'|b' t' l c' Hb Hd' Hc|b' t' l rest c' Hb Hl Hn He Hh Hr]; subst.
  - rewrite DecodeRune_ascii in Hd by done. injection Hd as <- <-.
    split; [by apply unquote_escape_ascii|]. split; [done|].
    destruct b as [[] [] [] [] [] [] [] []]; try (vm_compute in Hb; discriminate Hb);
      vm_compute; lia.
  - by rewrite Hd' in Hd.
  - rewrite Hd' in Hd. injection Hd as <- <-.
    destruct (DecodeRune_multi b t c' (length l)) as (l' & rest & Hl & Hlen & Hn & He & Hh & Hr);
      [done|done|done|].
    split; [|split; [done|simpl; lia]]. rewrite unquote_separator by done.
    by rewrite He, Hl, take_app_length'.
  - specialize (Hr rest) as Hr0. rewrite <- Hl, Hd in Hr0. injection Hr0 as -> ->.
    split; [|split; [done|lia]]. rewrite (unquote_high _ c') by (done || lia).
    by rewrite Hl, take_app_length'.
Qed.

Lemma unquote_escape fuel1 fuel2 s :
  utf8 s -> (length s <= fuel1)%nat -> (length (escape fuel1 s) <= fuel2)%nat ->
  unquote fuel2 (escape fuel1 s) = Some s.
Proof.
  revert s fuel2. induction fuel1 as [|fuel1 IH]; intros [|b t] fuel2 Hu H1 H2;
    try (by destruct fuel2); [simpl in H1; lia|].
  destruct (escape_piece fuel1 b t) as (n & p & He & Hp & Hn). rewrite He in *.
  rewrite length_app in H2.
  destruct fuel2 as [|fuel2].
  { destruct (unquote_piece b t n p [] 0 Hu Hp) as (_ & _ & ?). lia. }
  destruct (unquote_piece b t n p (escape fuel1 (drop n (b :: t))) fuel2 Hu Hp) as (-> & Hu' & Hp').
  rewrite IH; [|done|rewrite length_drop; simpl in *; lia|lia].
  simpl. f_equal. apply take_drop.
Qed.

Lemma parse_string_quote s rest :
  utf8 s -> parse_string (escape (length s) s ++ dquote :: rest) = Some (s, rest).
Proof.
  intros Hu. unfold parse_string. rewrite (passes_escape (length s) s). simpl.
  rewrite app_nil_r, unquote_escape; [done|done|lia|lia].
Qed.

(** A parsed string leaves less input. *)
Lemma scan_string_length st s raw rest :
  scan_string st s = Some (raw, rest) -> (length rest < length s)%nat.
Proof.
  revert st raw. induction s as [|b t IH]; intros st raw Hs; [done|]. simpl in Hs |- *.
  assert (forall st', ('(raw, rest) ← scan_string st' t; Some (b :: raw, rest)) = Some (raw, rest) ->
            (length rest < S (length t))%nat) as Hgo.
  { intros st' Hst. destruct (scan_string st' t) as [[raw' rest']|] eqn:Hst'; [|done].
    simpl in Hst. simplify_eq. apply IH in Hst'. lia. }
  destruct st; repeat case_decide; simplify_eq; try case_match; simplify_eq; eauto with lia.
Qed.

Lemma parse_string_length s str rest :
  parse_string s = Some (str, rest) -> (length rest < length s)%nat.
Proof.
  unfold parse_string. destruct (scan_string SIn s) as [[raw rest']|] eqn:Hs; [|done]. simpl.
  destruct (unquote _ raw); [|done]. intros [= _ <-]. by eapply scan_string_length.
Qed.

(** ** What is read is valid UTF-8, whatever the text *)

Lemma utf8_cons_ascii b s : code b < RuneSelf -> utf8 s -> utf8 (b :: s).
Proof. intros Hb Hs. change (b :: s) with ([b] ++ s). apply utf8_app; [by apply utf8_ascii|done]. Qed.

Lemma unescape_ascii e c : unescape e = Some c -> code c < RuneSelf.
Proof.
  unfold unescape. destruct (existsb _ _) eqn:He.
  - intros [= <-]. apply existsb_exists in He as (x & Hx & ->%bool_decide_eq_true).
    cbn in Hx. destruct Hx as [<-|[<-|[<-|[<-|[]]]]]; reflexivity.
  - repeat case_decide; intros [= <-]; reflexivity.
Qed.

Lemma unquote_utf8 fuel s str : unquote fuel s = Some str -> utf8 str.
Proof.
  revert s str. induction fuel as [|fuel IH]; intros s str.
  { destruct s; [|done]. intros [= <-]. constructor. }
  assert (forall c s', app (EncodeRune c) <$> unquote fuel s' = Some str -> utf8 str) as Hrune.
  { intros c s' (x & Hx & ->)%fmap_Some. apply utf8_app; [apply utf8_EncodeRune|by eapply IH]. }
  assert (forall c s', code c < RuneSelf -> cons c <$> unquote fuel s' = Some str -> utf8 str) as Hbyte.
  { intros c s' Hc (x & Hx & ->)%fmap_Some. apply utf8_cons_ascii; [done|by eapply IH]. }
  destruct s as [|b t]; [intros [= <-]; constructor|]. cbn [unquote]. case_decide.
  - destruct t as [|e t]; [done|]. case_decide; cbn [mbind option_bind].
    + destruct (getu4 (b :: e :: t)) as [rr|]; [|done]. cbv zeta. cbn [mbind option_bind].
      destruct (is_surrogate rr); [|intros Hu; exact (Hrune _ _ Hu)].
      match goal with |- match ?x with _ => _ end = _ -> _ => destruct x end;
        intros Hu; exact (Hrune _ _ Hu).
    + destruct (unescape e) as [c|] eqn:Hc; [|done].
      intros Hu. exact (Hbyte c t (unescape_ascii _ _ Hc) Hu).
  - destruct (_ || _); [done|]. destruct (code b <? RuneSelf) eqn:Hb; [|].
    + intros Hu. apply (Hbyte b t); [unfold RuneSelf in *; lia|exact Hu].
    + destruct (DecodeRune _) as [c n]. intros Hu. exact (Hrune _ _ Hu).
Qed.

Lemma parse_string_utf8 s str r : parse_string s = Some (str, r) -> utf8 str.
Proof.
  unfold parse_string. destruct (scan_string SIn s) as [[raw rest]|]; [|done].
  cbn [mbind option_bind]. destruct (unquote _ raw) as [x|] eqn:Hx; [|done].
  intros [= <- <-]. by eapply unquote_utf8.
Qed.
