(* ===== verification/Json.v ===== *)
(** * JSON texts (Go's encoding/json)

    The syntax tree of a JSON text, the compact printer of [json.Marshal] and
    the scanner of [json.Unmarshal] with its limit on nesting, and that
    printing and parsing are inverse. *)

From S2P Require Import Prelude GoStrings Utf8 Strconv JsonString.
From Stdlib Require Import ZArith Ascii String Lia.
From stdpp Require Import base list strings sets.
Open Scope Z_scope.

(** ** Syntax trees *)

Inductive json : Type :=
| JNull
| JBool (b : bool)
| JNum (lit : bytes)
| JStr (s : bytes)
| JArr (l : list json)
| JObj (kvs : list (bytes * json)).

(** Words with a comma between them. *)
Fixpoint commas (ws : list bytes) : bytes :=
  match ws with
  | [] => []
  | [w] => w
  | w :: ws' => w ++ ","%char :: commas ws'
  end.

(** The compact text [json.Marshal] writes. *)
Fixpoint print (j : json) : bytes :=
  match j with
  | JNull => to_bytes "null"
  | JBool true => to_bytes "true"
  | JBool false => to_bytes "false"
  | JNum lit => lit
  | JStr s => quote s
  | JArr l => "["%char :: commas (map print l) ++ ["]"%char]
  | JObj kvs =>
      "{"%char :: commas (map (fun kv => quote kv.1 ++ ":"%char :: print kv.2) kvs) ++ ["}"%char]
  end.

(** ** The scanner *)

Definition is_space (b : ascii) : bool :=
  existsb (fun c => bool_decide (b = c)) [" "%char; "009"%char; carriage; newline].

Fixpoint skip_space (s : bytes) : bytes :=
  match s with
  | b :: t => if is_space b then skip_space t else s
  | [] => []
  end.

Fixpoint take_digits (s : bytes) : bytes * bytes :=
  match s with
  | b :: t =>
      if is_digit b then let '(ds, r) := take_digits t in (b :: ds, r) else ([], s)
  | [] => ([], [])
  end.

(** [.5] *)
Definition scan_fraction (s : bytes) : option (bytes * bytes) :=
  match s with
  | b :: t =>
      if decide (b = "."%char) then
        let '(ds, r) := take_digits t in
        if decide (ds = []) then None else Some (b :: ds, r)
      else Some ([], s)
  | [] => Some ([], s)
  end.

(** [e+5] *)
Definition scan_exponent (s : bytes) : option (bytes * bytes) :=
  match s with
  | b :: t =>
      if decide (b = "e"%char \/ b = "E"%char) then
        let '(sign, t) :=
          match t with
          | c :: t' => if decide (c = "+"%char \/ c = "-"%char) then ([c], t') else ([], t)
          | [] => ([], t)
          end in
        let '(ds, r) := take_digits t in
        if decide (ds = []) then None else Some (b :: sign ++ ds, r)
      else Some ([], s)
  | [] => Some ([], s)
  end.

(** The digits before the point: a zero, or no leading zero. *)
Definition scan_integer (s : bytes) : option (bytes * bytes) :=
  match s with
  | b :: t =>
      if decide (b = "0"%char) then Some ([b], t)
      else if is_digit b then let '(ds, r) := take_digits t in Some (b :: ds, r)
      else None
  | [] => None
  end.

Definition scan_number (s : bytes) : option (bytes * bytes) :=
  let '(sign, s) :=
    match s with
    | b :: t => if decide (b = "-"%char) then ([b], t) else ([], s)
    | [] => ([], s)
    end in
  '(int, s) ← scan_integer s;
  '(frac, s) ← scan_fraction s;
  '(exp, s) ← scan_exponent s;
  Some (sign ++ int ++ frac ++ exp, s).

(** The rest of a literal whose first letter was seen. *)
Definition expect (lit : bytes) (s : bytes) : option bytes :=
  if decide (take (length lit) s = lit) then Some (drop (length lit) s) else None.

(** Objects and arrays may be nested this deep. *)
Definition maxNestingDepth : Z := 10000.

(** A value, the members of an object and the elements of an array at the
    front of the input; [depth] is the nesting still allowed. *)
Fixpoint parse_value (fuel : nat) (depth : Z) (s : bytes) : option (json * bytes) :=
  match fuel with
  | O => None
  | S fuel =>
      match skip_space s with
      | [] => None
      | b :: t =>
          if decide (b = dquote) then
            '(str, r) ← parse_string t; Some (JStr str, r)
          else if decide (b = "{"%char) then
            if depth <=? 0 then None
            else
              match skip_space t with
              | [] => None
              | c :: r =>
                  if decide (c = "}"%char) then Some (JObj [], r)
                  else '(kvs, r) ← parse_members fuel (depth - 1) (c :: r); Some (JObj kvs, r)
              end
          else if decide (b = "["%char) then
            if depth <=? 0 then None
            else
              match skip_space t with
              | [] => None
              | c :: r =>
                  if decide (c = "]"%char) then Some (JArr [], r)
                  else '(l, r) ← parse_elements fuel (depth - 1) (c :: r); Some (JArr l, r)
              end
          else if decide (b = "t"%char) then r ← expect (to_bytes "rue") t; Some (JBool true, r)
          else if decide (b = "f"%char) then r ← expect (to_bytes "alse") t; Some (JBool false, r)
          else if decide (b = "n"%char) then r ← expect (to_bytes "ull") t; Some (JNull, r)
          else '(lit, r) ← scan_number (b :: t); Some (JNum lit, r)
      end
  end

with parse_members (fuel : nat) (depth : Z) (s : bytes)
    : option (list (bytes * json) * bytes) :=
  match fuel with
  | O => None
  | S fuel =>
      match skip_space s with
      | b :: t =>
          if decide (b = dquote) then
            '(key, r) ← parse_string t;
            match skip_space r with
            | c :: r =>
                if decide (c = ":"%char) then
                  '(v, r) ← parse_value fuel depth r;
                  match skip_space r with
                  | d :: r =>
                      if decide (d = "}"%char) then Some ([(key, v)], r)
                      else if decide (d = ","%char) then
                        '(kvs, r) ← parse_members fuel depth r; Some ((key, v) :: kvs, r)
                      else None
                  | [] => None
                  end
                else None
            | [] => None
            end
          else None
      | [] => None
      end
  end

with parse_elements (fuel : nat) (depth : Z) (s : bytes) : option (list json * bytes) :=
  match fuel with
  | O => None
  | S fuel =>
      '(v, r) ← parse_value fuel depth s;
      match skip_space r with
      | d :: r =>
          if decide (d = "]"%char) then Some ([v], r)
          else if decide (d = ","%char) then
            '(l, r) ← parse_elements fuel depth r; Some (v :: l, r)
          else None
      | [] => None
      end
  end.

(** The fuel that is enough for an input: every byte is looked at by at most
    two nested calls. *)
Definition parse_fuel (s : bytes) : nat := 2 * length s + 1.

(** A whole JSON text. *)
Definition parse (s : bytes) : option json :=
  '(j, r) ← parse_value (parse_fuel s) maxNestingDepth s;
  if decide (skip_space r = []) then Some j else None.

(** ** The fuel is enough

    Every parser leaves less input than it got, so the fuel of [parse] is
    never used up. *)

Lemma skip_space_length s : (length (skip_space s) <= length s)%nat.
Proof. induction s as [|b t IH]; simpl; [lia|]. destruct (is_space b); simpl; lia. Qed.

Lemma take_digits_app s : (take_digits s).1 ++ (take_digits s).2 = s.
Proof.
  induction s as [|b t IH]; simpl; [done|]. destruct (is_digit b); [|done].
  destruct (take_digits t). simpl in *. by rewrite IH.
Qed.

Lemma take_digits_length s : (length (take_digits s).2 <= length s)%nat.
Proof. rewrite <- (take_digits_app s) at 2. rewrite length_app. lia. Qed.

Lemma scan_fraction_length s l r : scan_fraction s = Some (l, r) -> (length r <= length s)%nat.
Proof.
  unfold scan_fraction. destruct s as [|b t]; [by intros [= <- <-]|].
  case_decide; [|by intros [= <- <-]].
  pose proof (take_digits_length t). destruct (take_digits t).
  case_decide; [done|]. intros [= <- <-]. simpl in *. lia.
Qed.

Lemma scan_exponent_length s l r : scan_exponent s = Some (l, r) -> (length r <= length s)%nat.
Proof.
  unfold scan_exponent. destruct s as [|b t]; [by intros [= <- <-]|].
  case_decide; [|by intros [= <- <-]].
  destruct t as [|c t]; [done|].
  case_decide.
  - pose proof (take_digits_length t). destruct (take_digits t).
    case_decide; [done|]. intros [= <- <-]. simpl in *. lia.
  - pose proof (take_digits_length (c :: t)). destruct (take_digits (c :: t)).
    case_decide; [done|]. intros [= <- <-]. simpl in *. lia.
Qed.

Lemma scan_integer_length s l r : scan_integer s = Some (l, r) -> (length r < length s)%nat.
Proof.
  unfold scan_integer. destruct s as [|b t]; [done|].
  case_decide; [intros [= <- <-]; simpl; lia|]. destruct (is_digit b); [|done].
  pose proof (take_digits_length t). destruct (take_digits t). intros [= <- <-]. simpl in *. lia.
Qed.

Lemma scan_number_length s l r : scan_number s = Some (l, r) -> (length r < length s)%nat.
Proof.
  unfold scan_number.
  assert (forall sign s0, (length s0 <= length s)%nat ->
    ('(int, s) ← scan_integer s0; '(frac, s) ← scan_fraction s; '(exp, s) ← scan_exponent s;
     Some (sign ++ int ++ frac ++ exp, s)) = Some (l, r) -> (length r < length s)%nat) as Hgo.
  { intros sign s0 H0 He.
    destruct (scan_integer s0) as [[int s1]|] eqn:H1; [|done]. simpl in He.
    destruct (scan_fraction s1) as [[frac s2]|] eqn:H2; [|done]. simpl in He.
    destruct (scan_exponent s2) as [[ex s3]|] eqn:H3; [|done]. simplify_eq/=.
    apply scan_integer_length in H1. apply scan_fraction_length in H2.
    apply scan_exponent_length in H3. lia. }
  destruct s as [|b t]; [apply Hgo; simpl; lia|].
  case_decide; apply Hgo; simpl; lia.
Qed.

Lemma expect_length lit s r : expect lit s = Some r -> (length r <= length s)%nat.
Proof. unfold expect. case_decide; [|done]. intros [= <-]. rewrite length_drop. lia. Qed.

(** The three parsers together leave less input. *)
Definition shrinks {A} (p : bytes -> option (A * bytes)) : Prop :=
  forall s x r, p s = Some (x, r) -> (length r < length s)%nat.

(** Takes apart the option binds and the matches of a parser's equation. *)
Ltac parse_cases H :=
  repeat (
    match type of H with
    | context [decide ?P] => destruct (decide P)
    | context [if ?b then _ else _] => destruct b eqn:?
    | context [mbind _ (expect ?l ?s)] => destruct (expect l s) eqn:?
    | context [mbind _ (?f ?s)] => destruct (f s) as [[??]|] eqn:?
    | context [match skip_space ?s with _ => _ end] =>
        let Hs := fresh "Hskip" in
        pose proof (skip_space_length s) as Hs; destruct (skip_space s) eqn:?
    end; simplify_eq/=).

Lemma parse_shrinks fuel :
  (forall d, shrinks (parse_value fuel d)) /\ (forall d, shrinks (parse_members fuel d)) /\
  (forall d, shrinks (parse_elements fuel d)).
Proof.
  induction fuel as [|fuel (IHv & IHm & IHe)]; [done|].
  split_and!; intros d s x r Hp.
  - cbn [parse_value] in Hp. parse_cases Hp;
      repeat match goal with
        | Hx : parse_string _ = _ |- _ => apply parse_string_length in Hx
        | Hx : parse_members _ _ _ = _ |- _ => apply IHm in Hx
        | Hx : parse_elements _ _ _ = _ |- _ => apply IHe in Hx
        | Hx : expect _ _ = _ |- _ => apply expect_length in Hx
        | Hx : scan_number _ = _ |- _ => apply scan_number_length in Hx
        end; simpl in *; lia.
  - cbn [parse_members] in Hp. parse_cases Hp;
      repeat match goal with
        | Hx : parse_string _ = _ |- _ => apply parse_string_length in Hx
        | Hx : parse_members _ _ _ = _ |- _ => apply IHm in Hx
        | Hx : parse_value _ _ _ = _ |- _ => apply IHv in Hx
        end; simpl in *; lia.
  - cbn [parse_elements] in Hp. parse_cases Hp;
      repeat match goal with
        | Hx : parse_value _ _ _ = _ |- _ => apply IHv in Hx
        | Hx : parse_elements _ _ _ = _ |- _ => apply IHe in Hx
        end; simpl in *; lia.
Qed.

(** [f] and [f'] agree as fuel on every input [f] is meant to be enough for. *)
Definition agree (f f' : nat) : Prop :=
  (forall d s, (2 * length s + 1 <= f)%nat -> parse_value f d s = parse_value f' d s) /\
  (forall d s, (2 * length s + 1 <= f)%nat -> parse_members f d s = parse_members f' d s) /\
  (forall d s, (2 * length s + 2 <= f)%nat -> parse_elements f d s = parse_elements f' d s).

(** Goes down two equal parsers side by side. *)
Ltac parse_goal tac :=
  repeat (
    match goal with
    | |- ?x = ?x => reflexivity
    | |- context [decide ?P] => destruct (decide P)
    | |- context [if ?b then _ else _] => destruct b eqn:?
    | |- mbind _ ?x = mbind _ ?x => destruct x as [[??]|] eqn:?
    | |- mbind _ ?x = mbind _ ?x => destruct x eqn:?
    | |- mbind _ _ = mbind _ _ => tac
    | |- context [match skip_space ?s with _ => _ end] =>
        let Hs := fresh "Hskip" in
        pose proof (skip_space_length s) as Hs; destruct (skip_space s) eqn:?
    end; cbn [mbind option_bind] in *; simpl length in *).

Lemma agree_step f f' : agree f f' -> agree (S f) (S f').
Proof.
  intros (IHv & IHm & IHe). destruct (parse_shrinks f) as (Sv & Sm & Se).
  assert (forall d s x r, parse_value f d s = Some (x, r) -> (length r < length s)%nat) as Hv
    by exact Sv.
  split_and!; intros d s Hf; cbn [parse_value parse_members parse_elements];
    parse_goal ltac:(
      repeat match goal with
        | Hx : parse_value _ _ _ = _ |- _ => apply Hv in Hx
        | Hx : parse_string _ = _ |- _ => apply parse_string_length in Hx
        end;
      first [ rewrite <- IHm by (simpl; lia) | rewrite <- IHe by (simpl; lia)
            | rewrite <- IHv by (simpl; lia) ]).
Qed.

Lemma agree_le f k : agree f (f + k).
Proof.
  induction f as [|f IH]; [split_and!; intros; lia|]. by apply agree_step.
Qed.

Lemma parse_value_fuel f d s :
  (parse_fuel s <= f)%nat -> parse_value f d s = parse_value (parse_fuel s) d s.
Proof.
  intros Hf. replace f with (parse_fuel s + (f - parse_fuel s))%nat by lia.
  symmetry. apply agree_le. done.
Qed.

(** ** Printed texts are parsed back *)

Lemma json_ind_nested (P : json -> Prop) :
  P JNull -> (forall b, P (JBool b)) -> (forall lit, P (JNum lit)) -> (forall s, P (JStr s)) ->
  (forall l, Forall P l -> P (JArr l)) -> (forall kvs, Forall (fun kv => P kv.2) kvs -> P (JObj kvs)) ->
  forall j, P j.
Proof.
  intros Hnull Hbool Hnum Hstr Harr Hobj.
  fix IH 1. intros [|b|lit|s|l|kvs].
  - apply Hnull.
  - apply Hbool.
  - apply Hnum.
  - apply Hstr.
  - apply Harr. induction l; constructor; [apply IH|done].
  - apply Hobj. induction kvs as [|[k v] kvs IHl]; constructor; [apply IH|done].
Qed.

(** What can follow a value in a compact text. *)
Definition stops (s : bytes) : Prop :=
  match s with
  | [] => True
  | b :: _ => b ∈ [","%char; "]"%char; "}"%char; newline]
  end.

(** A number's text, whatever follows it. *)
Record number (lit : bytes) : Prop := {
  number_scan rest : stops rest -> scan_number (lit ++ rest) = Some (lit, rest);
  number_head : exists b t, lit = b :: t /\ (b = "-"%char \/ is_digit b = true);
}.

(** Trees whose text can be read back, nested at most [d] deep. *)
Fixpoint readable (d : Z) (j : json) : Prop :=
  match j with
  | JNull | JBool _ => True
  | JNum lit => number lit
  | JStr s => utf8 s
  | JArr l => 0 < d /\ foldr (fun v P => readable (d - 1) v /\ P) True l
  | JObj kvs => 0 < d /\ foldr (fun kv P => utf8 kv.1 /\ readable (d - 1) kv.2 /\ P) True kvs
  end.

Lemma take_digits_stop ds rest :
  Forall (fun b => is_digit b = true) ds -> stops rest -> take_digits (ds ++ rest) = (ds, rest).
Proof.
  intros Hds Hr. induction Hds as [|b ds Hb _ IH]; simpl.
  - destruct rest as [|b t]; [done|]. simpl in *.
    assert (is_digit b = false) as ->; [|done].
    repeat (apply elem_of_cons in Hr as [-> | Hr]; [done|]). by apply not_elem_of_nil in Hr.
  - by rewrite Hb, IH.
Qed.

Lemma stops_no_number rest :
  stops rest -> scan_fraction rest = Some ([], rest) /\ scan_exponent rest = Some ([], rest).
Proof.
  intros Hr. destruct rest as [|b t]; [done|]. simpl in Hr.
  repeat (apply elem_of_cons in Hr as [-> | Hr]; [done|]). by apply not_elem_of_nil in Hr.
Qed.

Lemma numeral_scan n ds rest :
  numeral n ds -> stops rest -> scan_integer (ds ++ rest) = Some (ds, rest).
Proof.
  intros [Hds _ (b & t & -> & Hb)] Hr. apply Forall_cons in Hds as [Hbd Hds].
  simpl. case_decide as H0.
  - destruct t as [|c t]; [done|]. by destruct (Hb ltac:(done)).
  - by rewrite Hbd, take_digits_stop.
Qed.

Lemma number_FormatUint n : fits 64 n -> number (FormatUint n).
Proof.
  intros Hn. pose proof (FormatUint_numeral n Hn) as Hnum.
  pose proof (numeral_digits _ _ Hnum) as Hds.
  destruct (numeral_head _ _ Hnum) as (b & t & Hbt & _).
  assert (is_digit b = true) as Hb by (rewrite Hbt in Hds; by apply Forall_cons in Hds as [? _]).
  split; [|eauto].
  intros rest Hr. unfold scan_number. pose proof (numeral_scan _ _ rest Hnum Hr) as Hs.
  rewrite Hbt in Hs |- *. cbn [app] in Hs |- *.
  rewrite decide_False by (intros ->; vm_compute in Hb; congruence).
  rewrite Hs. simpl. destruct (stops_no_number _ Hr) as [-> ?]. simpl.
  destruct (stops_no_number _ Hr) as [_ ->]. simpl. by rewrite app_nil_r.
Qed.

Lemma number_FormatInt z : fits_int64 z -> number (FormatInt z).
Proof.
  unfold fits_int64, FormatInt. intros Hz. destruct (z <? 0) eqn:Hneg.
  - assert (fits 64 (- z)) as Hf by (unfold fits; lia).
    pose proof (FormatUint_numeral _ Hf) as Hnum. split; [|by eexists _, _; eauto].
    intros rest Hr. unfold scan_number. cbn [app]. rewrite decide_True by done.
    rewrite (numeral_scan _ _ _ Hnum Hr). simpl.
    destruct (stops_no_number _ Hr) as [-> ?]. simpl.
    destruct (stops_no_number _ Hr) as [_ ->]. simpl. by rewrite app_nil_r.
  - apply number_FormatUint. unfold fits. lia.
Qed.

(** The first character of a text is not one the parser skips or ends at. *)
Definition opens (b : ascii) : Prop :=
  is_space b = false /\ b <> "]"%char /\ b <> "}"%char.

Lemma skip_opens b t : opens b -> skip_space (b :: t) = b :: t.
Proof. intros [Hb _]. simpl. by rewrite Hb. Qed.

Lemma digit_opens b : is_digit b = true -> opens b /\ b <> dquote /\ b <> "{"%char /\
  b <> "["%char /\ b <> "t"%char /\ b <> "f"%char /\ b <> "n"%char.
Proof.
  intros Hb. repeat split; try (intros ->; vm_compute in Hb; discriminate Hb).
  unfold is_space, existsb. rewrite !bool_decide_false; [done|..];
    intros ->; vm_compute in Hb; discriminate Hb.
Qed.

Lemma number_opens lit : number lit -> exists b t, lit = b :: t /\ opens b /\ b <> dquote /\
  b <> "{"%char /\ b <> "["%char /\ b <> "t"%char /\ b <> "f"%char /\ b <> "n"%char.
Proof.
  intros [_ (b & t & -> & [-> | Hb])]; exists b, t || exists "-"%char, t; split; try done.
  by apply digit_opens.
Qed.

Lemma print_opens d j : readable d j -> exists b t, print j = b :: t /\ opens b.
Proof.
  destruct j as [|[]|lit|s|l|kvs]; simpl; intros Hr; try (eexists _, _; split; [done|]; done).
  apply number_opens in Hr as (b & t & -> & Hb & _). by eexists _, _.
Qed.

(** [p] gives [x] and leaves [rest] with any fuel from some point on. *)
Definition eventually {A} (p : nat -> option A) (x : A) : Prop :=
  exists f0, forall f, (f0 <= f)%nat -> p f = Some x.

Definition parses (j : json) : Prop :=
  forall d rest, readable d j -> stops rest ->
  eventually (fun f => parse_value f d (print j ++ rest)) (j, rest).

Lemma eventually_S {A} (p : nat -> option A) x :
  (exists f0, forall f, (f0 <= f)%nat -> p (S f) = Some x) -> eventually p x.
Proof. intros [f0 H]. exists (S f0). intros [|f] Hf; [lia|]. apply H. lia. Qed.

Lemma stops_close c rest : c ∈ [","%char; "]"%char; "}"%char] -> stops (c :: rest).
Proof. unfold stops. set_solver. Qed.

Lemma parses_elements l : Forall parses l -> forall d v rest,
  parses v -> readable d v -> foldr (fun v P => readable d v /\ P) True l ->
  eventually (fun f => parse_elements f d (commas (map print (v :: l)) ++ "]"%char :: rest))
    (v :: l, rest).
Proof.
  intros Hl d v rest Hv. revert v Hv. induction Hl as [|v2 l Hv2 Hl IH]; intros v Hv Hr Hrl.
  - destruct (Hv d ("]"%char :: rest) Hr ltac:(by apply stops_close; set_solver)) as [f0 H0].
    apply eventually_S. exists f0. intros f Hf. cbn [parse_elements map commas].
    by rewrite H0.
  - destruct Hrl as [Hr2 Hrl]. destruct (IH v2 Hv2 Hr2 Hrl) as [f1 H1].
    set (rest1 := commas (map print (v2 :: l)) ++ "]"%char :: rest) in *.
    destruct (Hv d (","%char :: rest1) Hr ltac:(by apply stops_close; set_solver)) as [f0 H0].
    apply eventually_S. exists (Nat.max f0 f1). intros f Hf. cbn [parse_elements].
    replace (commas (map print (v :: v2 :: l)) ++ "]"%char :: rest)
      with (print v ++ ","%char :: rest1) by (unfold rest1; simpl; by rewrite <- app_assoc).
    rewrite H0 by lia. cbn [mbind option_bind skip_space is_space existsb].
    rewrite !bool_decide_false by done. cbn [orb]. rewrite decide_False, decide_True by done.
    by rewrite H1 by lia.
Qed.

(** The text of one member. *)
Definition print_member (kv : bytes * json) : bytes := quote kv.1 ++ ":"%char :: print kv.2.

(** What the parser of members does after the first one. *)
Lemma parse_members_first f d k v c rest :
  utf8 k -> c = ","%char \/ c = "}"%char ->
  parse_value f d (print v ++ c :: rest) = Some (v, c :: rest) ->
  parse_members (S f) d (print_member (k, v) ++ c :: rest) =
  if decide (c = "}"%char) then Some ([(k, v)], rest)
  else '(kvs, r) ← parse_members f d rest; Some ((k, v) :: kvs, r).
Proof.
  intros Hk Hc Hv. cbn [parse_members]. unfold print_member, quote. cbn [fst snd].
  replace ((dquote :: escape (length k) k ++ [dquote]) ++ ":"%char :: print v)
    with (dquote :: escape (length k) k ++ dquote :: ":"%char :: print v)
    by (simpl; by rewrite <- app_assoc).
  cbn [app]. rewrite <- app_assoc. cbn [app]. rewrite skip_opens by done.
  rewrite decide_True by done. rewrite parse_string_quote by done.
  cbn [mbind option_bind]. rewrite skip_opens, decide_True by done. rewrite Hv.
  cbn [mbind option_bind]. by destruct Hc as [-> | ->].
Qed.

Lemma parses_members kvs : Forall (fun kv => parses kv.2) kvs -> forall d kv rest,
  parses kv.2 -> readable d kv.2 -> utf8 kv.1 ->
  foldr (fun kv P => utf8 kv.1 /\ readable d kv.2 /\ P) True kvs ->
  eventually
    (fun f => parse_members f d (commas (map print_member (kv :: kvs)) ++ "}"%char :: rest))
    (kv :: kvs, rest).
Proof.
  intros Hl d [k v] rest Hv. revert k v Hv.
  induction Hl as [|[k2 v2] kvs Hv2 Hl IH]; intros k v Hv Hr Hk Hrl; cbn [fst snd] in *.
  - destruct (Hv d ("}"%char :: rest) Hr ltac:(by apply stops_close; set_solver)) as [f0 H0].
    apply eventually_S. exists f0. intros f Hf. cbn [map commas].
    rewrite parse_members_first; [done|done|auto|by apply H0].
  - destruct Hrl as (Hk2 & Hr2 & Hrl). cbn [fst snd] in *.
    destruct (IH k2 v2 Hv2 Hr2 Hk2 Hrl) as [f1 H1].
    set (rest1 := commas (map print_member ((k2, v2) :: kvs)) ++ "}"%char :: rest) in *.
    destruct (Hv d (","%char :: rest1) Hr ltac:(by apply stops_close; set_solver)) as [f0 H0].
    apply eventually_S. exists (Nat.max f0 f1). intros f Hf.
    replace (commas (map print_member ((k, v) :: (k2, v2) :: kvs)) ++ "}"%char :: rest)
      with (print_member (k, v) ++ ","%char :: rest1)
      by (unfold rest1; cbn [map commas]; by rewrite <- app_assoc).
    rewrite parse_members_first; [|done|auto|apply H0; lia].
    rewrite decide_False by done. by rewrite H1 by lia.
Qed.

(** The commas of a non-empty sequence come after its first word. *)
Lemma commas_first w ws : exists t, commas (w :: ws) = w ++ t.
Proof. destruct ws; [exists []; by rewrite app_nil_r|by eexists]. Qed.

Lemma print_parses j : parses j.
Proof.
  induction j as [|b|lit|s|l IH|kvs IH] using json_ind_nested; intros d rest Hr Hstop;
    apply eventually_S.
  - exists 0%nat. intros f _. done.
  - exists 0%nat. intros f _. by destruct b.
  - exists 0%nat. intros f _. simpl in Hr. cbn [parse_value print].
    pose proof (number_scan _ Hr rest Hstop) as Hs.
    apply number_opens in Hr as (b & t & -> & Ho & Hne). cbn [app] in Hs |- *.
    rewrite skip_opens by done. rewrite !decide_False by tauto. by rewrite Hs.
  - exists 0%nat. intros f _. simpl in Hr. cbn [parse_value print]. unfold quote.
    cbn [app]. rewrite skip_opens, decide_True by done.
    rewrite <- app_assoc. cbn [app]. by rewrite parse_string_quote.
  - destruct Hr as [Hd Hr]. destruct l as [|v l].
    + exists 0%nat. intros f _. cbn [parse_value print map commas app].
      rewrite skip_opens, !decide_False, decide_True by done.
      by replace (d <=? 0) with false by lia.
    + apply Forall_cons in IH as [Hv Hl]. destruct Hr as [Hrv Hr].
      destruct (parses_elements l Hl (d - 1) v rest Hv Hrv Hr) as [f0 H0].
      exists f0. intros f Hf. specialize (H0 f Hf).
      destruct (commas_first (print v) (map print l)) as [t0 Ht0].
      destruct (print_opens _ _ Hrv) as (b & t & Hbt & Ho).
      cbn [parse_value print map]. cbn [app]. rewrite <- app_assoc. cbn [app].
      rewrite skip_opens, !decide_False, decide_True by done.
      replace (d <=? 0) with false by lia. cbn [map] in H0.
      rewrite Ht0, Hbt in H0 |- *. cbn [app] in H0 |- *. rewrite skip_opens by done.
      rewrite decide_False by apply Ho. by rewrite H0.
  - destruct Hr as [Hd Hr]. change (print (JObj kvs)) with
      ("{"%char :: commas (map print_member kvs) ++ ["}"%char]).
    destruct kvs as [|[k v] kvs].
    + exists 0%nat. intros f _. cbn [parse_value map commas app].
      rewrite skip_opens, !decide_False, decide_True by done.
      by replace (d <=? 0) with false by lia.
    + apply Forall_cons in IH as [Hv Hl]. destruct Hr as (Hk & Hrv & Hr).
      destruct (parses_members kvs Hl (d - 1) (k, v) rest Hv Hrv Hk Hr) as [f0 H0].
      exists f0. intros f Hf. specialize (H0 f Hf).
      destruct (commas_first (print_member (k, v)) (map print_member kvs)) as [t0 Ht0].
      cbn [parse_value map]. cbn [app]. rewrite <- app_assoc. cbn [app].
      rewrite skip_opens, decide_False, decide_True by done.
      replace (d <=? 0) with false by lia. cbn [map] in H0.
      rewrite Ht0 in H0 |- *. unfold print_member, quote in H0 |- *. cbn [app] in H0 |- *.
      rewrite skip_opens by done. rewrite decide_False by done. by rewrite H0.
Qed.

(** The compact text of a tree, alone or on a line of its own, is parsed back
    to the tree. *)
Lemma parse_print j s :
  readable maxNestingDepth j -> Forall (fun b => b = newline) s -> parse (print j ++ s) = Some j.
Proof.
  intros Hr Hs. unfold parse.
  assert (stops s) as Hstop.
  { destruct Hs as [|b s -> _]; [done|]. unfold stops. set_solver. }
  destruct (print_parses j maxNestingDepth s Hr Hstop) as [f0 H0].
  rewrite <- (parse_value_fuel (Nat.max f0 (parse_fuel (print j ++ s)))) by lia.
  rewrite H0 by lia. simpl.
  assert (skip_space s = []) as ->; [|done].
  clear -Hs. induction Hs as [|b s -> _ IH]; [done|]. exact IH.
Qed.

(** ** A printed text is one line *)

Fixpoint one_line (j : json) : Prop :=
  match j with
  | JNum lit => newline ∉ lit
  | JArr l => foldr (fun v P => one_line v /\ P) True l
  | JObj kvs => foldr (fun kv P => one_line kv.2 /\ P) True kvs
  | _ => True
  end.

Lemma commas_no_newline ws : Forall (fun w => newline ∉ w) ws -> newline ∉ commas ws.
Proof.
  induction 1 as [|w ws Hw Hws IH]; [apply not_elem_of_nil|].
  destruct ws; [done|]. cbn [commas]. rewrite not_elem_of_app, not_elem_of_cons. done.
Qed.

Lemma print_no_newline j : one_line j -> newline ∉ print j.
Proof.
  induction j as [|[]|lit|s|l IH|kvs IH] using json_ind_nested; cbn [print one_line];
    intros Hj; try done; try (intros Hin%list_elem_of_In; simpl in Hin; intuition discriminate).
  - apply quote_no_newline.
  - rewrite not_elem_of_cons, not_elem_of_app, list_elem_of_singleton.
    split_and!; [done| |done]. apply commas_no_newline.
    induction IH as [|v l Hv _ IHl]; constructor; [by apply Hv, Hj|by apply IHl, Hj].
  - rewrite not_elem_of_cons, not_elem_of_app, list_elem_of_singleton.
    split_and!; [done| |done]. apply commas_no_newline.
    induction IH as [|kv kvs Hv _ IHl]; constructor; [|by apply IHl, Hj].
    rewrite not_elem_of_app, not_elem_of_cons.
    split_and!; [apply quote_no_newline|done|by apply Hv, Hj].
Qed.

(** ** What is parsed holds valid texts *)

Fixpoint texts_valid (j : json) : Prop :=
  match j with
  | JStr s => utf8 s
  | JArr l => foldr (fun v P => texts_valid v /\ P) True l
  | JObj kvs => foldr (fun kv P => texts_valid kv.2 /\ P) True kvs
  | _ => True
  end.

Lemma parse_texts fuel :
  (forall d s j r, parse_value fuel d s = Some (j, r) -> texts_valid j) /\
  (forall d s kvs r, parse_members fuel d s = Some (kvs, r) -> texts_valid (JObj kvs)) /\
  (forall d s l r, parse_elements fuel d s = Some (l, r) -> texts_valid (JArr l)).
Proof.
  induction fuel as [|fuel (IHv & IHm & IHe)]; [done|].
  split_and!; intros d s j r Hp.
  - cbn [parse_value] in Hp. parse_cases Hp; try done;
      first [by eapply IHm|by eapply IHe|by eapply parse_string_utf8].
  - cbn [parse_members] in Hp. parse_cases Hp; cbn; split; try done;
      first [by eapply IHv|by apply (IHm _ _ _ _ ltac:(eassumption))].
  - cbn [parse_elements] in Hp. parse_cases Hp; cbn; split; try done;
      first [by eapply IHv|by apply (IHe _ _ _ _ ltac:(eassumption))].
Qed.

Lemma parse_texts_valid s j : parse s = Some j -> texts_valid j.
Proof.
  unfold parse. destruct (parse_value _ _ s) as [[x r]|] eqn:Hx; [|done]. cbn [mbind option_bind].
  case_decide; [|done]. intros [= <-]. by eapply parse_texts.
Qed.
