(* ===== verification/Proto.v ===== *)
(** * Control protocol: the data (control/proto.go)

    The request and response structures of the control channel, field for
    field.  Pointers that may be nil are options.  A nil and an empty slice are
    the same list where the field's tag says [omitempty] (both are left out of
    the JSON text); [Peers] of a parsed configuration has no such tag, so there
    nil is [None].  Integers keep their Go width through the
    well-formedness predicates. *)

From S2P Require Import Prelude.
From Stdlib Require Import ZArith.
From stdpp Require Import base list strings.
Open Scope Z_scope.
Open Scope string_scope.

(** Command names. *)
Definition CmdStatus : string := "status".
Definition CmdConnect : string := "connect".
Definition CmdDisconnect : string := "disconnect".
Definition CmdLogs : string := "logs".
Definition CmdParseConfig : string := "parseConfig".
Definition CmdSerializeConfig : string := "serializeConfig".

Module ParsedInterface.
Record t : Type := mk {
  PrivateKey : string;
  Address : string;
  BindAddress : string;
  ListenPort : Z;
  NID : string;
  NetSecret : string;
  NetSecretInsecure : bool;
  AllowInsecureNetSecret : bool;
  Padding : string;
  DNS : string;
  FwMark : Z;
}.
End ParsedInterface.

Module ParsedPeer.
Record t : Type := mk {
  PublicKey : string;
  AllowedIPs : list string;
  Endpoint : string;
  PersistentKeepalive : Z;
  PresharedKey : string;
}.
End ParsedPeer.

Module ParsedConfig.
Record t : Type := mk {
  Interface : ParsedInterface.t;
  Peers : option (list ParsedPeer.t);
}.
End ParsedConfig.

(** One captured line of log output; [Seq] is the cursor, [Time] unix seconds. *)
Module LogLine.
Record t : Type := mk {
  Seq : Z;
  Time : Z;
  Level : string;
  Msg : string;
}.
End LogLine.

(** The coarse tunnel state. *)
Definition StateDisconnected : string := "disconnected".
Definition StateConnecting : string := "connecting".
Definition StateConnected : string := "connected".

Module PeerStatus.
Record t : Type := mk {
  PublicKey : string;
  Endpoint : string;
  Connected : bool;
  LastHandshake : Z;
  LastReceived : Z;
  RxBytes : Z;
  TxBytes : Z;
  FrameBudget : Z;
}.
End PeerStatus.

Module Status.
Record t : Type := mk {
  State : string;
  Name : string;
  Iface : string;
  Peers : list PeerStatus.t;
}.
End Status.

Module Request.
Record t : Type := mk {
  Cmd : string;
  Config : string;
  Name : string;
  Since : Z;
  ParsedConfig : option ParsedConfig.t;
}.

(** [Request{Cmd: c}] *)
Definition of_cmd (c : string) : t := mk c "" "" 0 None.
End Request.

Module Response.
Record t : Type := mk {
  OK : bool;
  Error : string;
  Status : option Status.t;
  Logs : list LogLine.t;
  ParsedConfig : option ParsedConfig.t;
  Config : string;
}.

(** [Response{}], [Response{Error: m}] and [Response{OK: true, Status: &st}] *)
Definition zero : t := mk false "" None [] None "".
Definition fail (m : string) : t := mk false m None [] None "".
Definition with_status (st : Status.t) : t := mk true "" (Some st) [] None "".
End Response.

#[export] Instance LogLine_eq_dec : EqDecision LogLine.t.
Proof. solve_decision. Defined.
#[export] Instance ParsedInterface_eq_dec : EqDecision ParsedInterface.t.
Proof. solve_decision. Defined.
#[export] Instance ParsedPeer_eq_dec : EqDecision ParsedPeer.t.
Proof. solve_decision. Defined.
#[export] Instance ParsedConfig_eq_dec : EqDecision ParsedConfig.t.
Proof. solve_decision. Defined.
#[export] Instance PeerStatus_eq_dec : EqDecision PeerStatus.t.
Proof. solve_decision. Defined.
#[export] Instance Status_eq_dec : EqDecision Status.t.
Proof. solve_decision. Defined.
#[export] Instance Request_eq_dec : EqDecision Request.t.
Proof. solve_decision. Defined.
#[export] Instance Response_eq_dec : EqDecision Response.t.
Proof. solve_decision. Defined.
