(* ===== verification/LogBuf.v ===== *)
(** * The log ring buffer (control/logbuf.go)

    [LogBuffer] field for field with its operations [NewLogBuffer], [Append],
    [Since] and [Write], and the abstract log they implement: the list of
    every line ever appended, numbered from 1.  Each operation holds the
    buffer's mutex for its whole body (a [Write] once per line), so a
    concurrent use is a sequence of these steps. *)

From S2P Require Import Prelude GoStrings Proto.
From Stdlib Require Import ZArith Ascii Lia.
From stdpp Require Import base list strings.
Open Scope Z_scope.

Definition defaultLogCapacity : Z := 2000.

Record LogBuffer : Type := mkLogBuffer {
  cap : Z;
  lines : list LogLine.t;
  nextSeq : Z;    (* uint64 *)
  overflow : Z;   (* uint64 *)
}.

Definition NewLogBuffer (capacity : Z) : LogBuffer :=
  let capacity := if decide (capacity <= 0) then defaultLogCapacity else capacity in
  mkLogBuffer capacity [] 1 0.

(** Add one line, tagged with the next sequence number and the time [now].
    [None] is the panic of [b.lines[1:]] and [b.lines[:len-1]] on a full
    buffer without lines, which a non-positive capacity would give. *)
Definition Append (now : Z) (msg : string) (b : LogBuffer)
    : option (LogLine.t * LogBuffer) :=
  let line := LogLine.mk b.(nextSeq) now "" msg in
  let next := u64 (b.(nextSeq) + 1) in
  if decide (b.(cap) <= Z.of_nat (length b.(lines))) then
    match slice_from 1 b.(lines) with
    | None => None
    | Some rest =>
        let shifted := go_copy b.(lines) rest in
        let kept := take (length b.(lines) - 1) shifted in
        Some (line, mkLogBuffer b.(cap) (kept ++ [line]) next (u64 (b.(overflow) + 1)))
    end
  else Some (line, mkLogBuffer b.(cap) (b.(lines) ++ [line]) next b.(overflow)).

(** The scan of [Since]: the index of the first line with [Seq > since]. *)
Fixpoint since_start (since : Z) (ls : list LogLine.t) : nat :=
  match ls with
  | [] => 0
  | l :: ls' => if decide (l.(LogLine.Seq) <= since) then S (since_start since ls') else 0
  end.

Definition zero_line : LogLine.t := LogLine.mk 0 0 "" "".

(** Every retained line with [Seq > since], oldest first, in a fresh slice. *)
Definition Since (since : Z) (b : LogBuffer) : list LogLine.t :=
  let start := since_start since b.(lines) in
  go_copy (replicate (length b.(lines) - start) zero_line) (drop start b.(lines)).

(** The lines [Write] appends for the bytes [p]. *)
Definition write_lines (p : bytes) : list string :=
  let raws := split_on newline (trim_right newline p) in
  filter (fun l => l <> EmptyString) (map (fun raw => of_bytes (trim_right carriage raw)) raws).

(** The loop of [Write]; [clock] gives each [Append] its time. *)
Fixpoint append_all (clock : nat -> Z) (msgs : list string) (b : LogBuffer)
    : option LogBuffer :=
  match msgs with
  | [] => Some b
  | m :: ms =>
      match Append (clock 0%nat) m b with
      | None => None
      | Some (_, b') => append_all (fun i => clock (S i)) ms b'
      end
  end.

(** [io.Writer]: the number of bytes taken and no error. *)
Definition Write (clock : nat -> Z) (p : bytes) (b : LogBuffer)
    : option (Z * option error * LogBuffer) :=
  match append_all clock (write_lines p) b with
  | None => None
  | Some b' => Some (Z.of_nat (length p), None, b')
  end.

(** ** The abstract log

    A log is the list of all [(time, message)] pairs appended so far; line
    [i] of it (from 0) carries the sequence number [i + 1]. *)
Module Spec.
Definition entry : Type := (Z * string)%type.

Definition number (i : nat) (e : entry) : LogLine.t :=
  LogLine.mk (Z.of_nat i + 1) e.1 "" e.2.

Definition numbered (h : list entry) : list LogLine.t := imap number h.

(** What a reader at cursor [since] gets from a buffer that keeps [c] lines. *)
Definition read (c : nat) (since : Z) (h : list entry) : list LogLine.t :=
  filter (fun l => since < l.(LogLine.Seq)) (lastn c (numbered h)).

Lemma length_numbered h : length (numbered h) = length h.
Proof. apply length_imap. Qed.

Lemma numbered_snoc h e :
  numbered (h ++ [e]) = numbered h ++ [number (length h) e].
Proof. unfold numbered. rewrite imap_app. simpl. by rewrite Nat.add_0_r. Qed.

Lemma numbered_prefix h1 h2 :
  numbered h1 = take (length h1) (numbered (h1 ++ h2)).
Proof.
  unfold numbered. rewrite (imap_app _ h1 h2), take_app_length'; [done|].
  symmetry. apply length_imap.
Qed.

Lemma numbered_lookup h i l :
  numbered h !! i = Some l -> l.(LogLine.Seq) = Z.of_nat i + 1.
Proof.
  unfold numbered. rewrite list_lookup_imap.
  destruct (h !! i) as [e|]; simpl; [|done]. by intros [= <-].
Qed.

End Spec.

(** A run of lines whose sequence numbers count up from [k + 1]. *)
Definition segment (k : nat) (ls : list LogLine.t) : Prop :=
  forall i l, ls !! i = Some l -> l.(LogLine.Seq) = Z.of_nat (k + i) + 1.

Lemma segment_numbered h : segment 0 (Spec.numbered h).
Proof. intros i l. apply Spec.numbered_lookup. Qed.

Lemma segment_drop k n ls : segment k ls -> segment (k + n) (drop n ls).
Proof. intros H i l Hl. rewrite lookup_drop in Hl. apply H in Hl. lia. Qed.

Lemma segment_tail k l ls : segment k (l :: ls) -> segment (S k) ls.
Proof. intros H i x Hx. specialize (H (S i) x Hx). lia. Qed.

Lemma segment_lastn n h :
  segment (length h - n) (lastn n (Spec.numbered h)).
Proof.
  unfold lastn. rewrite Spec.length_numbered.
  apply (segment_drop 0), segment_numbered.
Qed.

Lemma segment_above k s ls :
  segment k ls -> s <= Z.of_nat k -> Forall (fun l => s < l.(LogLine.Seq)) ls.
Proof. intros H Hs. apply Forall_lookup. intros i l Hl. apply H in Hl. lia. Qed.

(** The scan stops exactly at the lines a filter keeps. *)
Lemma since_start_filter k s ls :
  segment k ls ->
  drop (since_start s ls) ls = filter (fun l => s < l.(LogLine.Seq)) ls.
Proof.
  revert k. induction ls as [|l ls IH]; intros k Hseg; simpl; [done|].
  case_decide as Hs.
  - rewrite filter_cons_False by lia. simpl. eapply IH, segment_tail, Hseg.
  - rewrite filter_all; [done|].
    apply (segment_above k); [done|]. specialize (Hseg 0%nat l eq_refl). lia.
Qed.

Lemma since_start_le s ls : (since_start s ls <= length ls)%nat.
Proof. induction ls as [|l ls IH]; simpl; [lia|]. case_decide; lia. Qed.

Lemma Since_drop s b : Since s b = drop (since_start s b.(lines)) b.(lines).
Proof.
  unfold Since. apply go_copy_fill. rewrite length_replicate, length_drop. done.
Qed.

(** ** Refinement

    [repr h b]: the buffer [b] holds the last [cap] lines of the abstract log
    [h], and its counters are those of [h]. *)
Record repr (h : list Spec.entry) (b : LogBuffer) : Prop := {
  repr_cap : 0 < b.(cap);
  repr_lines : b.(lines) = lastn (Z.to_nat b.(cap)) (Spec.numbered h);
  repr_seq : b.(nextSeq) = Z.of_nat (length h) + 1;
  repr_overflow : b.(overflow) = Z.of_nat (length h) - Z.of_nat (length b.(lines));
}.

Lemma repr_length h b :
  repr h b -> length b.(lines) = Nat.min (Z.to_nat b.(cap)) (length h).
Proof.
  intros []. rewrite repr_lines0, length_lastn, Spec.length_numbered. done.
Qed.

Lemma repr_new c : repr [] (NewLogBuffer c).
Proof.
  unfold NewLogBuffer, defaultLogCapacity. case_decide; split; simpl; lia || done.
Qed.

Lemma append_repr now msg h b :
  repr h b -> Z.of_nat (length h) + 2 < 2 ^ 64 ->
  exists b', Append now msg b = Some (Spec.number (length h) (now, msg), b') /\
             b'.(cap) = b.(cap) /\ repr (h ++ [(now, msg)]) b'.
Proof.
  intros Hr Hw. pose proof (repr_length h b Hr) as Hlen. destruct Hr as [Hc Hl Hs Ho].
  assert (u64 (Z.of_nat (length h) + 1 + 1) = Z.of_nat (length h) + 2) as Hnext.
  { rewrite wrap_succ; lia. }
  unfold Append. rewrite Hs. case_decide as Hfull.
  - assert (Z.to_nat (cap b) <= length h)%nat as Hge by lia.
    unfold slice_from. rewrite decide_True by lia.
    eexists. split; [done|]. split; [done|].
    assert (length (drop 1 (lines b)) = length (lines b) - 1)%nat as Hd
      by (rewrite length_drop; lia).
    assert (take (length (lines b) - 1) (go_copy (lines b) (drop 1 (lines b)))
            = drop 1 (lines b)) as ->.
    { unfold go_copy. rewrite (take_ge (drop 1 _)) by lia. by apply take_app_length'. }
    split; simpl.
    + done.
    + rewrite Spec.numbered_snoc, lastn_snoc_full by (rewrite Spec.length_numbered; lia).
      by rewrite Hl at 1.
    + rewrite Hnext, length_app. simpl. lia.
    + rewrite Ho, wrap_succ, !length_app, Hd; simpl; lia.
  - eexists. split; [done|]. split; [done|]. split; simpl.
    + done.
    + rewrite Spec.numbered_snoc, lastn_snoc_room.
      * by rewrite <- Hl.
      * rewrite length_lastn, Spec.length_numbered. lia.
    + rewrite Hnext, length_app. simpl. lia.
    + rewrite !length_app. simpl. lia.
Qed.

(** The log entries a run of appends adds. *)
Definition entries (clock : nat -> Z) (msgs : list string) : list Spec.entry :=
  imap (fun i m => (clock i, m)) msgs.

Lemma append_all_repr clock msgs h b :
  repr h b -> Z.of_nat (length h + length msgs) + 2 < 2 ^ 64 ->
  exists b', append_all clock msgs b = Some b' /\ b'.(cap) = b.(cap) /\
             repr (h ++ entries clock msgs) b'.
Proof.
  revert clock h b. induction msgs as [|m ms IH]; intros clock h b Hr Hw; simpl.
  - exists b. by rewrite app_nil_r.
  - simpl in Hw.
    destruct (append_repr (clock 0%nat) m h b Hr) as (b1 & -> & Hc1 & Hr1); [lia|].
    destruct (IH (fun i => clock (S i)) _ _ Hr1) as (b2 & -> & Hc2 & Hr2).
    { rewrite length_app. simpl. lia. }
    exists b2. split; [done|]. split; [congruence|].
    unfold entries in *. simpl. by rewrite <- app_assoc in Hr2.
Qed.

Lemma since_repr s h b :
  repr h b -> Since s b = Spec.read (Z.to_nat b.(cap)) s h.
Proof.
  intros [_ Hl _ _]. rewrite Since_drop. unfold Spec.read. rewrite <- Hl.
  eapply since_start_filter. rewrite Hl. apply segment_lastn.
Qed.

(** What a reader whose cursor is at the end of [h] sees later: the retained
    part of the new lines. *)
Lemma read_new c h new :
  Spec.read c (Z.of_nat (length h)) (h ++ new)
  = lastn c (drop (length h) (Spec.numbered (h ++ new))).
Proof.
  set (N := Spec.numbered (h ++ new)).
  assert (length N = length h + length new)%nat as HN
    by (unfold N; rewrite Spec.length_numbered, length_app; done).
  unfold Spec.read. fold N. unfold lastn. rewrite length_drop, drop_drop, HN.
  destruct (decide (length h <= length h + length new - c)%nat) as [Hle|Hgt].
  - rewrite (filter_all _ (drop _ N)).
    + f_equal. lia.
    + apply (segment_above (0 + (length h + length new - c)%nat)); [|lia].
      apply segment_drop, segment_numbered.
  - set (k := (length h + length new - c)%nat) in *.
    rewrite <- (take_drop (length h - k) (drop k N)), filter_app, filter_none.
    + rewrite filter_all.
      * rewrite drop_drop. simpl. f_equal. lia.
      * rewrite drop_drop. apply (segment_above (0 + (k + (length h - k))%nat)); [|lia].
        apply segment_drop, segment_numbered.
    + apply Forall_lookup. intros i l [Hl Hi]%lookup_take_Some.
      rewrite lookup_drop in Hl. apply segment_numbered in Hl. lia.
Qed.

(** ** Lines and bytes *)

(** A line as [Write] stores it. *)
Definition clean (l : string) : Prop :=
  (l <> EmptyString) /\ (newline ∉ to_bytes l) /\ last (to_bytes l) <> Some carriage.

#[export] Instance clean_dec l : Decision (clean l).
Proof. unfold clean. apply _. Defined.

Lemma write_lines_clean p : Forall clean (write_lines p).
Proof.
  apply Forall_forall. intros l [Hne Hl]%list_elem_of_filter.
  apply list_elem_of_fmap in Hl as (raw & -> & Hraw).
  pose proof (split_on_free newline (trim_right newline p)) as Hfree.
  rewrite Forall_forall in Hfree. apply Hfree in Hraw.
  split; [done|]. rewrite String.list_ascii_of_string_of_list_ascii.
  auto using trim_right_not_elem, last_trim_right.
Qed.

Lemma clean_trim l : clean l -> of_bytes (trim_right carriage (to_bytes l)) = l.
Proof.
  intros (_ & _ & H). rewrite trim_right_id by done.
  apply String.string_of_list_ascii_of_string.
Qed.

Lemma clean_last l u : clean l -> last (u ++ to_bytes l) <> Some newline.
Proof.
  intros (Hne & Hnl & _). destruct (to_bytes l) as [|x w _] eqn:Hl using rev_ind.
  - destruct l; done.
  - rewrite app_assoc, last_snoc. intros [= ->]. apply Hnl, elem_of_app. right.
    by apply list_elem_of_here.
Qed.

Lemma write_lines_terminated ls :
  Forall clean ls -> write_lines (terminate newline (map to_bytes ls)) = ls.
Proof.
  intros Hcl. unfold write_lines.
  assert (forall us : list string, Forall clean us ->
            filter (fun l => l <> EmptyString)
              (map (fun raw => of_bytes (trim_right carriage raw)) (map to_bytes us)) = us) as Hmap.
  { intros us Hus. rewrite map_map, filter_all.
    - induction Hus; simpl; [done|]. rewrite clean_trim by done. congruence.
    - induction Hus as [|l us Hl _ IH]; simpl; constructor; [|done].
      rewrite clean_trim by done. by destruct Hl. }
  destruct ls as [|l ls _] using rev_ind; [done|].
  apply Forall_app in Hcl as [Hls [Hl _]%Forall_cons].
  rewrite map_app, terminate_app. simpl. rewrite (app_assoc _ (to_bytes l)).
  rewrite trim_right_snoc, trim_right_id by (by apply clean_last).
  rewrite split_on_terminate, split_on_word.
  - rewrite <- (map_app to_bytes ls [l] : _ = map to_bytes ls ++ [to_bytes l]).
    apply Hmap. apply Forall_app. auto.
  - by destruct Hl as (_ & ? & _).
  - apply Forall_map. eapply Forall_impl; [done|]. by intros x (_ & ? & _).
Qed.

Lemma write_repr clock p h b :
  repr h b -> Z.of_nat (length h + length (write_lines p)) + 2 < 2 ^ 64 ->
  exists b', Write clock p b = Some (Z.of_nat (length p), None, b') /\
             b'.(cap) = b.(cap) /\ repr (h ++ entries clock (write_lines p)) b'.
Proof.
  intros Hr Hw. destruct (append_all_repr clock _ h b Hr Hw) as (b' & Hb & ?).
  exists b'. unfold Write. by rewrite Hb.
Qed.

(** ** Sessions of writes and polls *)

(** A history of [Write] calls, each with its clock. *)
Fixpoint write_all (ws : list ((nat -> Z) * bytes)) (b : LogBuffer) : option LogBuffer :=
  match ws with
  | [] => Some b
  | (clock, p) :: ws' =>
      match Write clock p b with
      | None => None
      | Some (_, _, b') => write_all ws' b'
      end
  end.

Definition written (ws : list ((nat -> Z) * bytes)) : list Spec.entry :=
  concat (map (fun w => entries w.1 (write_lines w.2)) ws).

Lemma length_entries clock ms : length (entries clock ms) = length ms.
Proof. apply length_imap. Qed.

Lemma write_all_repr ws h b :
  repr h b -> Z.of_nat (length h + length (written ws)) + 2 < 2 ^ 64 ->
  exists b', write_all ws b = Some b' /\ b'.(cap) = b.(cap) /\ repr (h ++ written ws) b'.
Proof.
  revert h b. induction ws as [|[clock p] ws IH]; intros h b Hr Hw; simpl.
  - exists b. unfold written. simpl. by rewrite app_nil_r.
  - unfold written in *. simpl in *. rewrite length_app, length_entries in Hw.
    destruct (write_repr clock p h b Hr) as (b1 & -> & Hc1 & Hr1); [lia|].
    destruct (IH _ _ Hr1) as (b2 & -> & Hc2 & Hr2).
    { rewrite length_app, length_entries. lia. }
    exists b2. rewrite <- app_assoc in Hr2. split; [done|]. split; [congruence|done].
Qed.

(** A front-end that polls: it asks for the lines after its cursor and moves
    the cursor to the highest [Seq] it has seen. *)
Definition next_cursor (since : Z) (out : list LogLine.t) : Z :=
  match last out with Some l => l.(LogLine.Seq) | None => since end.

Fixpoint poll_rounds (since : Z) (rounds : list ((nat -> Z) * list string)) (b : LogBuffer)
    : option (list LogLine.t) :=
  match rounds with
  | [] => Some []
  | (clock, ms) :: rounds' =>
      match append_all clock ms b with
      | None => None
      | Some b' =>
          let out := Since since b' in
          match poll_rounds (next_cursor since out) rounds' b' with
          | None => None
          | Some rest => Some (out ++ rest)
          end
      end
  end.

Definition appended (rounds : list ((nat -> Z) * list string)) : list Spec.entry :=
  concat (map (fun r => entries r.1 r.2) rounds).

Lemma next_cursor_end h new :
  next_cursor (Z.of_nat (length h)) (drop (length h) (Spec.numbered (h ++ new)))
  = Z.of_nat (length (h ++ new)).
Proof.
  unfold next_cursor. destruct new as [|e new _] using rev_ind.
  - rewrite app_nil_r, drop_ge by (rewrite Spec.length_numbered; lia). done.
  - rewrite app_assoc, Spec.numbered_snoc, drop_app_le, last_snoc.
    + simpl. rewrite !length_app. simpl. lia.
    + rewrite Spec.length_numbered, length_app. lia.
Qed.

Lemma poll_rounds_repr rounds h b :
  repr h b ->
  Forall (fun r => Z.of_nat (length r.2) <= b.(cap)) rounds ->
  Z.of_nat (length h + length (appended rounds)) + 2 < 2 ^ 64 ->
  poll_rounds (Z.of_nat (length h)) rounds b
  = Some (drop (length h) (Spec.numbered (h ++ appended rounds))).
Proof.
  revert h b. induction rounds as [|[clock ms] rounds IH]; intros h b Hr Hcap Hw; simpl.
  - rewrite app_nil_r, drop_ge by (rewrite Spec.length_numbered; lia). done.
  - apply Forall_cons in Hcap as [Hms Hcap]. simpl in Hms.
    unfold appended in *. simpl in *. rewrite length_app, length_entries in Hw.
    destruct (append_all_repr clock ms h b Hr) as (b1 & -> & Hc1 & Hr1); [lia|].
    rewrite (since_repr _ _ _ Hr1), read_new, lastn_all.
    2: { rewrite length_drop, Spec.length_numbered, length_app, length_entries. lia. }
    rewrite next_cursor_end, (IH _ _ Hr1).
    + f_equal. rewrite <- app_assoc, length_app.
      set (N2 := Spec.numbered (h ++ entries clock ms ++ _)).
      rewrite (Spec.numbered_prefix (h ++ entries clock ms)
                 (concat (map (fun r => entries r.1 r.2) rounds))), <- app_assoc, length_app.
      fold N2. rewrite skipn_firstn_comm, Nat.add_comm, Nat.add_sub, Nat.add_comm.
      rewrite <- (drop_drop N2). apply take_drop.
    + rewrite Hc1. done.
    + rewrite length_app, length_entries. lia.
Qed.

(** ** Properties *)

(** C5: whatever is written to a new buffer of capacity [c], no call panics,
    and a reader at any cursor [s] gets from [Since] exactly what the abstract
    log prescribes: of the last [cap] lines written, those numbered above [s],
    oldest first.  The eviction counter accounts for every line not retained. *)
Theorem logbuffer_refines (c s : Z) (ws : list ((nat -> Z) * bytes)) :
  Z.of_nat (length (written ws)) + 2 < 2 ^ 64 ->
  exists b, write_all ws (NewLogBuffer c) = Some b /\
    b.(cap) = (if decide (c <= 0) then defaultLogCapacity else c) /\
    Since s b = Spec.read (Z.to_nat b.(cap)) s (written ws) /\
    b.(overflow) + Z.of_nat (length b.(lines)) = Z.of_nat (length (written ws)) /\
    Z.of_nat (length b.(lines)) <= b.(cap).
Proof.
  intros Hw. destruct (write_all_repr ws [] (NewLogBuffer c) (repr_new c) Hw)
    as (b & Hb & Hc & Hr).
  exists b. split; [done|]. split; [by rewrite Hc|].
  pose proof (repr_length _ _ Hr) as Hlen. destruct (Hr) as [Hcap _ _ Ho]. simpl in *.
  split; [by apply since_repr|]. lia.
Qed.

Lemma logbuffer_refines_witness :
  exists b, write_all [(fun _ => 7, to_bytes ("a" +:+ String newline "b"));
                       (fun _ => 8, to_bytes "c")] (NewLogBuffer 2) = Some b /\
    Since 0 b = [LogLine.mk 2 7 "" "b"; LogLine.mk 3 8 "" "c"].
Proof.
  destruct (logbuffer_refines 2 0
    [(fun _ => 7, to_bytes ("a" +:+ String newline "b")); (fun _ => 8, to_bytes "c")])
    as (b & Hb & Hc & Hs & _); [vm_compute; reflexivity|].
  exists b. split; [exact Hb|]. rewrite Hs, Hc. vm_compute. reflexivity.
Defined.

(** On a buffer representing the log [h], [Append] returns the line
    numbered [len h + 1] stamped with the current time, keeps the capacity,
    and leaves a buffer representing the log with that entry added; it does
    not panic. *)
Theorem append_refines (now : Z) (msg : string) (h : list Spec.entry) (b : LogBuffer) :
  repr h b -> Z.of_nat (length h) + 2 < 2 ^ 64 ->
  exists b', Append now msg b
             = Some (LogLine.mk (Z.of_nat (length h) + 1) now "" msg, b') /\
             b'.(cap) = b.(cap) /\ repr (h ++ [(now, msg)]) b'.
Proof. apply append_repr. Qed.

Lemma append_refines_witness :
  exists b', Append 5 "x" (NewLogBuffer 3) = Some (LogLine.mk 1 5 "" "x", b') /\
             repr [(5, "x")] b'.
Proof.
  destruct (append_refines 5 "x" [] (NewLogBuffer 3) (repr_new 3)) as (b' & H & _ & Hr);
    [vm_compute; reflexivity|]. exists b'. exact (conj H Hr).
Defined.

(** C14: a front-end that polls with the highest sequence number it has seen,
    and is never more than the capacity behind, receives every line of the log
    exactly once and in order. *)
Theorem poll_complete (c : Z) (rounds : list ((nat -> Z) * list string)) :
  Forall (fun r => Z.of_nat (length r.2) <= (NewLogBuffer c).(cap)) rounds ->
  Z.of_nat (length (appended rounds)) + 2 < 2 ^ 64 ->
  poll_rounds 0 rounds (NewLogBuffer c) = Some (Spec.numbered (appended rounds)).
Proof.
  intros Hr Hw. apply (poll_rounds_repr rounds [] (NewLogBuffer c)); auto using repr_new.
Qed.

Lemma poll_complete_witness :
  poll_rounds 0 [(fun _ => 1, ["a"; "b"]); (fun _ => 2, []); (fun _ => 3, ["c"; "d"])]
    (NewLogBuffer 2)
  = Some [LogLine.mk 1 1 "" "a"; LogLine.mk 2 1 "" "b";
          LogLine.mk 3 3 "" "c"; LogLine.mk 4 3 "" "d"].
Proof.
  rewrite (poll_complete 2); [reflexivity| |vm_compute; reflexivity].
  repeat constructor; vm_compute; discriminate.
Defined.

(** C19: a front-end that fell behind sees a gap and nothing else: polling at
    the cursor [len h] after more lines gives the last [cap] of the new lines. *)
Theorem poll_gap (clock : nat -> Z) (ms : list string) (h : list Spec.entry) (b : LogBuffer) :
  repr h b -> Z.of_nat (length h + length ms) + 2 < 2 ^ 64 ->
  exists b', append_all clock ms b = Some b' /\
    Since (Z.of_nat (length h)) b'
    = lastn (Z.to_nat b.(cap)) (drop (length h) (Spec.numbered (h ++ entries clock ms))).
Proof.
  intros Hr Hw. destruct (append_all_repr clock ms h b Hr Hw) as (b' & Hb & Hc & Hr').
  exists b'. split; [done|]. by rewrite (since_repr _ _ _ Hr'), read_new, Hc.
Qed.

Lemma poll_gap_witness :
  exists b', append_all (fun _ => 9) ["a"; "b"; "c"] (NewLogBuffer 2) = Some b' /\
    Since 0 b' = [LogLine.mk 2 9 "" "b"; LogLine.mk 3 9 "" "c"].
Proof.
  destruct (poll_gap (fun _ => 9) ["a"; "b"; "c"] [] (NewLogBuffer 2) (repr_new 2))
    as (b' & Hb & Hs); [vm_compute; reflexivity|]. exists b'. split; [exact Hb|].
  change (Z.of_nat (length (@nil Spec.entry))) with 0 in Hs. rewrite Hs. vm_compute. reflexivity.
Defined.

(** [Write] takes all its bytes and reports no error; written as
    newline-terminated records, clean lines (non-empty, without newline, not
    ending in a carriage return) are appended as they are. *)
Theorem write_roundtrip (clock : nat -> Z) (ls : list string) (h : list Spec.entry)
    (b : LogBuffer) :
  Forall clean ls -> repr h b -> Z.of_nat (length h + length ls) + 2 < 2 ^ 64 ->
  let p := terminate newline (map to_bytes ls) in
  exists b', Write clock p b = Some (Z.of_nat (length p), None, b') /\
             append_all clock ls b = Some b' /\ repr (h ++ entries clock ls) b'.
Proof.
  intros Hcl Hr Hw p. pose proof (write_lines_terminated ls Hcl) as Hls.
  destruct (append_all_repr clock ls h b Hr Hw) as (b' & Hb & _ & Hr').
  exists b'. unfold Write. fold p in Hls. by rewrite Hls, Hb.
Qed.

Lemma write_roundtrip_witness :
  exists b', Write (fun _ => 1) (to_bytes ("alpha" +:+ String newline ("beta" +:+ String newline "")))
               (NewLogBuffer 10) = Some (11, None, b') /\
             repr [(1, "alpha"); (1, "beta")] b'.
Proof.
  destruct (write_roundtrip (fun _ => 1) ["alpha"; "beta"] [] (NewLogBuffer 10))
    as (b' & H & _ & Hr);
    [apply (bool_decide_unpack _); vm_compute; exact I | apply repr_new
    | vm_compute; reflexivity |].
  exists b'. exact (conj H Hr).
Defined.

(** Whatever bytes are written, every stored line is non-empty, holds no
    newline and does not end in a carriage return. *)
Theorem write_stores_clean_lines (clock : nat -> Z) (p : bytes) (c : Z) :
  Z.of_nat (length (write_lines p)) + 2 < 2 ^ 64 ->
  exists b, Write clock p (NewLogBuffer c) = Some (Z.of_nat (length p), None, b) /\
            Forall (fun l => clean l.(LogLine.Msg)) b.(lines).
Proof.
  intros Hw. destruct (write_repr clock p [] (NewLogBuffer c) (repr_new c) Hw)
    as (b & Hb & _ & Hr). exists b. split; [done|].
  rewrite (repr_lines _ _ Hr). apply Forall_drop, Forall_lookup.
  intros i l Hl. unfold Spec.numbered, entries in Hl. simpl in Hl.
  rewrite !list_lookup_imap in Hl. destruct (write_lines p !! i) as [m|] eqn:Hm; [|done].
  injection Hl as <-. simpl.
  exact (proj1 (Forall_lookup _ _) (write_lines_clean p) i m Hm).
Qed.

Lemma write_stores_clean_lines_witness :
  exists b, Write (fun _ => 0) (to_bytes (String newline "only-line")) (NewLogBuffer 0)
            = Some (10, None, b) /\ Forall (fun l => clean l.(LogLine.Msg)) b.(lines).
Proof.
  apply (write_stores_clean_lines (fun _ => 0) (to_bytes (String newline "only-line")) 0).
  vm_compute. reflexivity.
Defined.
