(* ===== verification/Transport.v ===== *)
(** * Control protocol: framing (control/proto.go, readMessage and writeMessage)

    One message is one line of JSON.  [bufio.Reader] is modelled over the
    chunks its reader delivers, the codec is an interface ([Codec], with its
    laws in [CodecLaws]) which the JSON component implements. *)

From S2P Require Import Prelude GoStrings.
From Stdlib Require Import ZArith Ascii String Lia.
From stdpp Require Import base list strings.
Open Scope Z_scope.

(** What [json.Marshal] and [json.Unmarshal] (into a zero value) do for a
    type. *)
Class Codec (A : Type) : Type := {
  marshal : A -> result bytes;
  unmarshal : bytes -> result A;
}.

(** No encoding holds a newline, and the encodings of the values of
    [codec_valid] are read back, also with the line's end after them. *)
Class CodecLaws (A : Type) `{Codec A} : Type := {
  codec_valid : A -> Prop;
  marshal_line (a : A) : exists b, marshal a = Ok b /\ newline ∉ b;
  unmarshal_marshal (a : A) (b : bytes) :
    codec_valid a -> marshal a = Ok b -> unmarshal (b ++ [newline]) = Ok a;
}.

(** ** bufio.Reader

    The bytes already buffered, the chunks the underlying reader will still
    deliver and the error it ends with. *)
Record reader : Type := mkReader {
  buffered : bytes;
  chunks : list bytes;
  final : error;
}.

(** The bytes up to and with the first newline, and the rest. *)
Fixpoint cut_line (s : bytes) : option (bytes * bytes) :=
  match s with
  | [] => None
  | x :: t =>
      if decide (x = newline) then Some ([x], t)
      else match cut_line t with
           | Some (l, rest) => Some (x :: l, rest)
           | None => None
           end
  end.

Fixpoint fill_line (acc : bytes) (buf : bytes) (cs : list bytes) (err : error)
    : result bytes * reader :=
  match cut_line buf with
  | Some (l, rest) => (Ok (acc ++ l), mkReader rest cs err)
  | None =>
      match cs with
      | [] => (Err err, mkReader [] [] err)
      | c :: cs' => fill_line (acc ++ buf) c cs' err
      end
  end.

(** [r.ReadBytes('\n')]; the bytes read before an error are of no use to the
    caller and left out. *)
Definition ReadBytes (r : reader) : result bytes * reader :=
  fill_line [] (buffered r) (chunks r) (final r).

(** Everything still to be read. *)
Definition contents (r : reader) : bytes := buffered r ++ concat (chunks r).

(** The complete lines of a byte string, each with its newline; what is after
    the last newline is not one. *)
Fixpoint whole_lines (s : bytes) : list bytes :=
  match s with
  | [] => []
  | x :: t =>
      if decide (x = newline) then [x] :: whole_lines t
      else match whole_lines t with
           | [] => []
           | l :: ls => (x :: l) :: ls
           end
  end.

Lemma cut_line_lines s :
  match cut_line s with
  | Some (l, rest) => whole_lines s = l :: whole_lines rest /\ s = l ++ rest
  | None => whole_lines s = []
  end.
Proof.
  induction s as [|x t IH]; simpl; [done|].
  case_decide; [done|]. destruct (cut_line t) as [[l rest]|].
  - destruct IH as [-> ->]. done.
  - by rewrite IH.
Qed.

Lemma cut_line_app s1 s2 :
  cut_line (s1 ++ s2) =
  match cut_line s1 with
  | Some (l, rest) => Some (l, rest ++ s2)
  | None => match cut_line s2 with Some (l, rest) => Some (s1 ++ l, rest) | None => None end
  end.
Proof.
  induction s1 as [|x t IH]; simpl.
  - by destruct (cut_line s2) as [[??]|].
  - case_decide; [done|]. rewrite IH.
    destruct (cut_line t) as [[l rest]|]; [done|]. by destruct (cut_line s2) as [[??]|].
Qed.

(** Where the chunks are cut does not matter. *)
Lemma fill_line_cut acc buf cs err :
  match cut_line (buf ++ concat cs) with
  | Some (l, rest) =>
      exists r, fill_line acc buf cs err = (Ok (acc ++ l), r) /\
                contents r = rest /\ final r = err
  | None => fill_line acc buf cs err = (Err err, mkReader [] [] err)
  end.
Proof.
  revert acc buf. induction cs as [|c cs IH]; intros acc buf; simpl.
  - rewrite app_nil_r. destruct (cut_line buf) as [[l rest]|]; [|done].
    eexists. split; [done|]. unfold contents. simpl. by rewrite app_nil_r.
  - rewrite cut_line_app. destruct (cut_line buf) as [[l rest]|].
    + by eexists.
    + specialize (IH (acc ++ buf) c).
      destruct (cut_line (c ++ concat cs)) as [[l rest]|]; [|done].
      destruct IH as (r & -> & Hr). exists r. by rewrite <- app_assoc.
Qed.

Lemma ReadBytes_cut r :
  match cut_line (contents r) with
  | Some (l, rest) =>
      exists r', ReadBytes r = (Ok l, r') /\ contents r' = rest /\ final r' = final r
  | None => exists r', ReadBytes r = (Err (final r), r') /\ contents r' = []
  end.
Proof.
  pose proof (fill_line_cut [] (buffered r) (chunks r) (final r)) as Hf.
  unfold ReadBytes, contents. destruct (cut_line _) as [[l rest]|]; [done|].
  by eexists.
Qed.

Lemma whole_lines_line b s :
  newline ∉ b -> whole_lines ((b ++ [newline]) ++ s) = (b ++ [newline]) :: whole_lines s.
Proof.
  rewrite <- app_assoc. simpl. induction b as [|x t IH]; simpl.
  - done.
  - rewrite not_elem_of_cons. intros [Hx Ht]. rewrite decide_False by done. by rewrite IH.
Qed.

Lemma cut_line_line b s :
  newline ∉ b -> cut_line ((b ++ [newline]) ++ s) = Some (b ++ [newline], s).
Proof.
  rewrite <- app_assoc. simpl. induction b as [|x t IH]; simpl.
  - done.
  - rewrite not_elem_of_cons. intros [Hx Ht]. rewrite decide_False by done. by rewrite IH.
Qed.

Lemma whole_lines_terminate bs s :
  Forall (fun b => newline ∉ b) bs ->
  whole_lines (terminate newline bs ++ s) = map (fun b => b ++ [newline]) bs ++ whole_lines s.
Proof.
  induction 1 as [|b bs Hb _ IH]; simpl; [done|].
  rewrite <- IH, <- (whole_lines_line b _ Hb). by rewrite <- !app_assoc.
Qed.

Lemma whole_lines_partial s : newline ∉ s -> whole_lines s = [].
Proof.
  induction s as [|x t IH]; simpl; [done|].
  rewrite not_elem_of_cons. intros [Hx Ht]. rewrite decide_False by done. by rewrite IH.
Qed.

Lemma cut_line_length s l rest : cut_line s = Some (l, rest) -> (length rest < length s)%nat.
Proof.
  revert l rest. induction s as [|x t IH]; intros l rest; simpl; [done|].
  case_decide; [intros [= <- <-]; lia|].
  destruct (cut_line t) as [[l' rest']|]; [|done]. intros [= <- <-].
  specialize (IH _ _ eq_refl). lia.
Qed.

(** ** Messages *)

(** Writing to a connection or to standard output. *)
Inductive writeE : Type -> Type :=
| Write (b : bytes) : writeE (option error).

Section Messages.
Context {A : Type} `{Codec A}.

Definition writeMessage {F} `{Sub writeE F} (v : A) : prog F (option error) :=
  match marshal v with
  | Err e => Ret (Some e)
  | Ok b => invoke (Write (b ++ [newline]))
  end.

(** What [readMessage] makes of the line, or of the error it got. *)
Definition decode_line (line : result bytes) : result A :=
  match line with
  | Err e => Err e
  | Ok line => unmarshal line
  end.

Definition readMessage (r : reader) : result A * reader :=
  let '(line, r) := ReadBytes r in (decode_line line, r).
End Messages.
