(* ===== verification/JsonTypes.v ===== *)
(** * Go values as JSON (Go's encoding/json)

    How [json.Marshal] and [json.Unmarshal] treat the kinds of types the
    control protocol uses: strings, booleans, 64-bit integers, slices,
    pointers, and structs by their field tags.  [JsonType] is the behaviour,
    [JsonLaws] what makes a type's values survive the trip, and that decoding
    any text gives such a value ([unmarshal_valid]); the structs get both from a
    description of their fields. *)

From S2P Require Import Prelude GoStrings Utf8 Strconv JsonString Json Transport.
From Stdlib Require Import ZArith Ascii String Lia.
From stdpp Require Import base list strings.
Open Scope Z_scope.

(** [dec j old] decodes into a variable that holds [old]: a JSON null and the
    fields that are not mentioned leave it as it is.  [None] is an
    [UnmarshalTypeError]. *)
Class JsonType (V : Type) : Type := {
  zero : V;
  is_empty : V -> bool;
  enc : V -> json;
  dec : json -> V -> option V;
}.

Class JsonLaws (V : Type) `{JsonType V} : Type := {
  nesting : Z;
  valid : V -> Prop;
  enc_readable (v : V) (d : Z) : valid v -> nesting <= d -> readable d (enc v);
  enc_line (v : V) : one_line (enc v);
  dec_enc (v : V) : valid v -> dec (enc v) zero = Some v;
  empty_zero (v : V) : is_empty v = true -> v = zero;
  zero_valid : valid zero;
  dec_valid (j : json) (old v : V) :
    texts_valid j -> valid old -> dec j old = Some v -> valid v;
}.
Arguments nesting V {_ _}.

(** ** Basic kinds *)

#[export] Instance string_type : JsonType string := {|
  zero := EmptyString;
  is_empty s := bool_decide (s = EmptyString);
  enc s := JStr (to_bytes s);
  dec j old :=
    match j with
    | JStr s => Some (of_bytes s)
    | JNull => Some old
    | _ => None
    end;
|}.

#[export, refine] Instance string_laws : JsonLaws string := {|
  nesting := 0;
  valid s := utf8 (to_bytes s);
|}.
Proof.
  - done.
  - done.
  - intros v _. simpl. by rewrite string_of_list_ascii_of_string.
  - intros v. simpl. by intros Hv%bool_decide_eq_true.
  - constructor.
  - intros [] old v Hj Hold; cbn; try done; intros [= <-]; [done|].
    by rewrite list_ascii_of_string_of_list_ascii.
Defined.

#[export] Instance bool_type : JsonType bool := {|
  zero := false;
  is_empty b := negb b;
  enc b := JBool b;
  dec j old :=
    match j with
    | JBool b => Some b
    | JNull => Some old
    | _ => None
    end;
|}.

#[export, refine] Instance bool_laws : JsonLaws bool := {|
  nesting := 0;
  valid _ := True;
|}.
Proof. all: try done. by intros []. Defined.

(** uint64; int64 and int (which has 64 bits). *)
Definition uint64_type : JsonType Z := {|
  zero := 0;
  is_empty n := n =? 0;
  enc n := JNum (FormatUint n);
  dec j old :=
    match j with
    | JNum lit => ParseUint 64 lit
    | JNull => Some old
    | _ => None
    end;
|}.

Definition int64_type : JsonType Z := {|
  zero := 0;
  is_empty n := n =? 0;
  enc n := JNum (FormatInt n);
  dec j old :=
    match j with
    | JNum lit => ParseInt lit
    | JNull => Some old
    | _ => None
    end;
|}.

#[refine] Definition uint64_laws : @JsonLaws Z uint64_type := {|
  nesting := 0;
  valid n := fits 64 n;
|}.
Proof.
  - intros v d Hv _. by apply number_FormatUint.
  - intros v. apply FormatUint_no_newline.
  - intros v Hv. apply ParseUint_FormatUint; [lia|done].
  - intros v. simpl. lia.
  - done.
  - intros [] old v _ Hold; cbn; try done; [by intros [= <-]|apply ParseUint_fits].
Defined.

#[refine] Definition int64_laws : @JsonLaws Z int64_type := {|
  nesting := 0;
  valid n := fits_int64 n;
|}.
Proof.
  - intros v d Hv _. by apply number_FormatInt.
  - intros v. apply FormatInt_no_newline.
  - intros v Hv. by apply ParseInt_FormatInt.
  - intros v. simpl. lia.
  - done.
  - intros [] old v _ Hold; cbn; try done; [by intros [= <-]|apply ParseInt_fits].
Defined.

(** ** Slices and pointers *)

Section Containers.
Context {V : Type} `{JsonType V}.

(** Elements are decoded into the ones already there, if any. *)
Fixpoint dec_elements (l : list json) (old : list V) : option (list V) :=
  match l with
  | [] => Some []
  | j :: l' =>
      v ← dec j (default zero (head old));
      vs ← dec_elements l' (tail old);
      Some (v :: vs)
  end.

#[export] Instance slice_type : JsonType (list V) := {|
  zero := [];
  is_empty l := bool_decide (length l = 0%nat);
  enc l := JArr (map enc l);
  dec j old :=
    match j with
    | JArr l => dec_elements l old
    | JNull => Some []
    | _ => None
    end;
|}.

(** A pointer; it is also how a slice whose nil is told from empty is
    encoded. *)
#[export] Instance pointer_type : JsonType (option V) := {|
  zero := None;
  is_empty v := match v with None => true | Some _ => false end;
  enc v := match v with None => JNull | Some v => enc v end;
  dec j old :=
    match j with
    | JNull => Some None
    | _ => Some <$> dec j (default zero old)
    end;
|}.
End Containers.

Lemma dec_elements_valid {V} `{JsonLaws V} (l : list json) (old vs : list V) :
  texts_valid (JArr l) -> Forall valid old -> dec_elements l old = Some vs -> Forall valid vs.
Proof.
  revert old vs. induction l as [|j l IH]; intros old vs Hl Hold; cbn; [intros [= <-]; constructor|].
  destruct Hl as [Hj Hl].
  assert (valid (default zero (head old)) /\ Forall valid (tail old)) as [Hh Ht].
  { destruct Hold as [|x old Hx Hold]; [|done]. split; [apply zero_valid|constructor]. }
  destruct (dec j (default zero (head old))) as [v|] eqn:Hv; [|done]. cbn [mbind option_bind].
  destruct (dec_elements l (tail old)) as [vs'|] eqn:Hvs; [|done]. intros [= <-].
  constructor; [by eapply dec_valid|by eapply IH].
Qed.

#[export, refine] Instance slice_laws {V} `{JsonLaws V} : JsonLaws (list V) := {|
  nesting := 1 + Z.max 0 (nesting V);
  valid l := Forall valid l;
|}.
Proof.
  - intros l d Hl Hd. simpl. split; [lia|].
    induction Hl as [|v l Hv _ IH]; simpl; [done|]. split; [|done].
    apply enc_readable; [done|lia].
  - intros l. simpl. induction l as [|v l IH]; simpl; [done|]. split; [apply enc_line|done].
  - intros l Hl. simpl. induction Hl as [|v l Hv _ IH]; simpl; [done|].
    by rewrite dec_enc, IH.
  - intros [|v l]; [done|]. by intros ?%bool_decide_eq_true.
  - constructor.
  - intros [] old v Hj Hold; cbn; try done; [intros [= <-]; constructor|by apply dec_elements_valid].
Defined.

(** The encoding of a value is not null. *)
Class NotNull (V : Type) `{JsonType V} : Prop := not_null (v : V) : enc v <> JNull.

#[export, refine] Instance pointer_laws {V} `{JsonLaws V} `{!NotNull V} : JsonLaws (option V) := {|
  nesting := nesting V;
  valid v := match v with None => True | Some v => valid v end;
|}.
Proof.
  - intros [v|] d Hv Hd; [exact (enc_readable v d Hv Hd)|done].
  - intros [v|]; [exact (enc_line v)|done].
  - intros [v|] Hv; [|done]. simpl. pose proof (not_null v) as Hn.
    pose proof (dec_enc v Hv) as Hd. destruct (enc v); by rewrite ?Hd.
  - by intros [v|].
  - done.
  - intros j old v Hj Hold Hd.
    assert (v = None \/ Some <$> dec j (default zero old) = Some v) as [->|He]; [|done|].
    { destruct j; cbn in Hd; auto. left. congruence. }
    apply fmap_Some in He as (x & Hx & ->). apply (dec_valid j (default zero old)); [done| |done].
    destruct old; [done|apply zero_valid].
Defined.

#[export] Instance slice_not_null {V} `{JsonType V} : NotNull (list V).
Proof. done. Qed.

(** ** Structs

    The fields in order, each with its name and whether its tag says
    [omitempty]; the values of the fields form a tuple. *)
Inductive fields : Type -> Type :=
| FNil : fields unit
| FCons {V T} {type : JsonType V} {laws : JsonLaws V} (name : string) (omit : bool)
    (rest : fields T) : fields (V * T).

(** The folding of a key's case: the ASCII letters, and the two other
    characters (long s and the Kelvin sign) that fold to one.  Every other
    character stays different from all ASCII names. *)
Definition upper (b : ascii) : ascii :=
  if in_range 97 122 (code b) then byte (code b - 32) else b.

Fixpoint fold_name (s : bytes) : bytes :=
  match s with
  | [] => []
  | b :: t =>
      match t with
      | c :: u =>
          if decide (code b = 0xC5 /\ code c = 0xBF) then "S"%char :: fold_name u
          else
            match u with
            | d :: v =>
                if decide (code b = 0xE2 /\ code c = 0x84 /\ code d = 0xAA) then
                  "K"%char :: fold_name v
                else upper b :: fold_name t
            | [] => upper b :: fold_name t
            end
      | [] => upper b :: fold_name t
      end
  end.

Definition same_name (name : string) (key : bytes) : bool := bool_decide (to_bytes name = key).
Definition same_fold (name : string) (key : bytes) : bool :=
  bool_decide (fold_name (to_bytes name) = fold_name key).

Fixpoint zeros {T} (fs : fields T) : T :=
  match fs with
  | FNil => tt
  | FCons _ _ rest => (zero, zeros rest)
  end.

Fixpoint enc_fields {T} (fs : fields T) : T -> list (bytes * json) :=
  match fs with
  | FNil => fun _ => []
  | FCons name omit rest => fun '(v, t) =>
      (if omit && is_empty v then [] else [(to_bytes name, enc v)]) ++ enc_fields rest t
  end.

(** Decode into the first field whose name matches: [None] when there is no
    such field, [Some None] on a type error. *)
Fixpoint set_field (same : string -> bytes -> bool) {T} (fs : fields T) (key : bytes) (j : json)
    : T -> option (option T) :=
  match fs with
  | FNil => fun _ => None
  | FCons name _ rest => fun '(v, t) =>
      if same name key then Some (v' ← dec j v; Some (v', t))
      else r ← set_field same rest key j t; Some (t' ← r; Some (v, t'))
  end.

(** The field of exactly that name, else the one equal under folding; unknown
    keys are skipped. *)
Definition set_key {T} (fs : fields T) (key : bytes) (j : json) (t : T) : option T :=
  match set_field same_name fs key j t with
  | Some r => r
  | None => match set_field same_fold fs key j t with Some r => r | None => Some t end
  end.

Fixpoint dec_fields {T} (fs : fields T) (kvs : list (bytes * json)) (t : T) : option T :=
  match kvs with
  | [] => Some t
  | (key, j) :: kvs' => t' ← set_key fs key j t; dec_fields fs kvs' t'
  end.

Fixpoint names {T} (fs : fields T) : list string :=
  match fs with
  | FNil => []
  | FCons name _ rest => name :: names rest
  end.

Fixpoint fields_valid {T} (fs : fields T) : T -> Prop :=
  match fs with
  | FNil => fun _ => True
  | FCons _ _ rest => fun '(v, t) => valid v /\ fields_valid rest t
  end.

Fixpoint fields_nesting {T} (fs : fields T) : Z :=
  match fs with
  | FNil => 0
  | @FCons V _ _ _ _ _ rest => Z.max (nesting V) (fields_nesting rest)
  end.

Lemma enc_fields_names {T} (fs : fields T) t key j :
  (key, j) ∈ enc_fields fs t -> exists name, name ∈ names fs /\ key = to_bytes name.
Proof.
  induction fs as [|V T type laws name omit rest IH]; simpl.
  - by intros ?%not_elem_of_nil.
  - destruct t as [v t]. rewrite elem_of_app. intros [Hin|Hin].
    + exists name. split; [apply list_elem_of_here|].
      destruct (omit && is_empty v); [by apply not_elem_of_nil in Hin|].
      apply list_elem_of_singleton in Hin. by injection Hin.
    + destruct (IH t Hin) as (n & Hn & ->). exists n. split; [by apply list_elem_of_further|done].
Qed.

Lemma to_bytes_inj a b : to_bytes a = to_bytes b -> a = b.
Proof.
  intros Hab. rewrite <- (string_of_list_ascii_of_string a), Hab.
  apply string_of_list_ascii_of_string.
Qed.

Lemma set_field_known {T} (fs : fields T) name j t :
  name ∈ names fs -> is_Some (set_field same_name fs (to_bytes name) j t).
Proof.
  induction fs as [|V T type laws n omit rest IH]; simpl; [by intros ?%not_elem_of_nil|].
  destruct t as [v t]. intros [->|Hin]%elem_of_cons.
  - unfold same_name. rewrite bool_decide_true by done. by eexists.
  - destruct (same_name n _); [by eexists|]. destruct (IH t Hin) as [r ->]. by eexists.
Qed.

(** Keys of later fields do not touch an earlier one. *)
Lemma set_key_rest {V T} `{JsonLaws V} (rest : fields T) n omit name j (v : V) t :
  name ∈ names rest -> n <> name ->
  set_key (FCons n omit rest) (to_bytes name) j (v, t)
  = (t' ← set_key rest (to_bytes name) j t; Some (v, t')).
Proof.
  intros Hin Hne. unfold set_key. cbn [set_field].
  assert (same_name n (to_bytes name) = false) as ->.
  { unfold same_name. apply bool_decide_false. by intros ?%to_bytes_inj. }
  by destruct (set_field_known rest name j t Hin) as [[t'|] ->].
Qed.

Lemma dec_fields_rest {V T} `{JsonLaws V} (rest : fields T) n omit kvs (v : V) t :
  (forall key j, (key, j) ∈ kvs -> exists name, name ∈ names rest /\ key = to_bytes name) ->
  n ∉ names rest ->
  dec_fields (FCons n omit rest) kvs (v, t) = (t' ← dec_fields rest kvs t; Some (v, t')).
Proof.
  intros Hk Hn. revert t. induction kvs as [|[key j] kvs IH]; intros t; [done|].
  cbn [dec_fields]. destruct (Hk key j) as (name & Hin & ->); [apply list_elem_of_here|].
  rewrite set_key_rest by (done || congruence).
  destruct (set_key rest (to_bytes name) j t); [|done]. simpl. apply IH.
  intros key' j' Hin'. eapply Hk. by apply list_elem_of_further.
Qed.

Lemma dec_enc_fields {T} (fs : fields T) t :
  NoDup (names fs) -> fields_valid fs t -> dec_fields fs (enc_fields fs t) (zeros fs) = Some t.
Proof.
  induction fs as [|V T type laws n omit rest IH]; [by destruct t|].
  destruct t as [v t]. cbn [names fields_valid enc_fields zeros].
  intros [Hn Hnd]%NoDup_cons [Hv Ht].
  assert (forall v', dec_fields (FCons n omit rest) (enc_fields rest t) (v', zeros rest)
                     = Some (v', t)) as Hrest.
  { intros v'. rewrite dec_fields_rest by (done || (intros *; apply enc_fields_names)).
    by rewrite IH. }
  destruct (omit && is_empty v) eqn:He.
  - apply andb_true_iff in He as [_ He]. simpl app. rewrite Hrest.
    by rewrite (empty_zero v He).
  - simpl app. cbn [dec_fields]. unfold set_key. cbn [set_field].
    unfold same_name at 1. rewrite bool_decide_true by done.
    rewrite dec_enc by done. cbn [mbind option_bind]. apply Hrest.
Qed.

Lemma enc_fields_line {T} (fs : fields T) t :
  foldr (fun kv P => one_line kv.2 /\ P) True (enc_fields fs t).
Proof.
  induction fs as [|V T type laws n omit rest IH]; [done|]. destruct t as [v t].
  simpl. destruct (omit && is_empty v); simpl; [apply IH|]. split; [apply enc_line|apply IH].
Qed.

Lemma enc_fields_readable {T} (fs : fields T) t d :
  Forall (fun n => utf8 (to_bytes n)) (names fs) -> fields_valid fs t -> fields_nesting fs <= d ->
  foldr (fun kv P => utf8 kv.1 /\ readable d kv.2 /\ P) True (enc_fields fs t).
Proof.
  induction fs as [|V T type laws n omit rest IH]; [done|]. destruct t as [v t].
  cbn [names fields_valid fields_nesting enc_fields].
  intros [Hn Hns]%Forall_cons [Hv Ht] Hd.
  destruct (omit && is_empty v); simpl; [apply IH; [done|done|lia]|].
  split_and!; [done|apply enc_readable; [done|lia]|apply IH; [done|done|lia]].
Qed.

Lemma zeros_valid {T} (fs : fields T) : fields_valid fs (zeros fs).
Proof. induction fs; cbn; [done|]. split; [apply zero_valid|done]. Qed.

Lemma set_field_valid same {T} (fs : fields T) key j t t' :
  texts_valid j -> fields_valid fs t -> set_field same fs key j t = Some (Some t') ->
  fields_valid fs t'.
Proof.
  intros Hj. revert t t'. induction fs as [|V T type laws n omit rest IH]; intros t t' Ht; [done|].
  destruct t as [v t]. destruct Ht as [Hv Ht]. cbn [set_field]. destruct (same n key).
  - destruct (dec j v) as [v'|] eqn:Hd; [|done]. intros [= <-]. split; [by eapply dec_valid|done].
  - destruct (set_field same rest key j t) as [[t1|]|] eqn:Hs; try done. intros [= <-].
    split; [done|by eapply IH].
Qed.

Lemma set_key_valid {T} (fs : fields T) key j t t' :
  texts_valid j -> fields_valid fs t -> set_key fs key j t = Some t' -> fields_valid fs t'.
Proof.
  intros Hj Ht. unfold set_key.
  destruct (set_field same_name fs key j t) as [r|] eqn:Hs.
  - intros ->. by eapply set_field_valid.
  - destruct (set_field same_fold fs key j t) as [r|] eqn:Hf.
    + intros ->. by eapply set_field_valid.
    + by intros [= <-].
Qed.

Lemma dec_fields_valid {T} (fs : fields T) kvs t t' :
  texts_valid (JObj kvs) -> fields_valid fs t -> dec_fields fs kvs t = Some t' -> fields_valid fs t'.
Proof.
  revert t. induction kvs as [|[key j] kvs IH]; intros t Hk Ht; cbn; [by intros [= <-]|].
  destruct Hk as [Hj Hk]. destruct (set_key fs key j t) as [t1|] eqn:Hs; [|done].
  apply IH; [done|]. by eapply set_key_valid.
Qed.

(** A struct type: its fields and how its values are tuples of them. *)
Class Struct (R : Type) : Type := {
  tuple : Type;
  desc : fields tuple;
  to_tuple : R -> tuple;
  of_tuple : tuple -> R;
  of_to_tuple (r : R) : of_tuple (to_tuple r) = r;
  to_of_tuple (t : tuple) : to_tuple (of_tuple t) = t;
  names_distinct : NoDup (names desc);
  names_utf8 : Forall (fun n => utf8 (to_bytes n)) (names desc);
}.

Section Structs.
Context {R : Type} `{Struct R}.

Definition struct_type : JsonType R := {|
  zero := of_tuple (zeros desc);
  is_empty _ := false;
  enc r := JObj (enc_fields desc (to_tuple r));
  dec j old :=
    match j with
    | JObj kvs => of_tuple <$> dec_fields desc kvs (to_tuple old)
    | JNull => Some old
    | _ => None
    end;
|}.

#[refine] Definition struct_laws : @JsonLaws R struct_type := {|
  nesting := 1 + Z.max 0 (fields_nesting desc);
  valid r := fields_valid desc (to_tuple r);
|}.
Proof.
  - intros r d Hr Hd. simpl. split; [lia|].
    apply enc_fields_readable; [apply names_utf8|done|lia].
  - intros r. apply enc_fields_line.
  - intros r Hr. simpl. rewrite to_of_tuple, dec_enc_fields; [|apply names_distinct|done].
    simpl. by rewrite of_to_tuple.
  - done.
  - cbn. rewrite to_of_tuple. apply zeros_valid.
  - intros [] old v Hj Hold; cbn; try done; [by intros [= <-]|].
    intros (t & Ht & ->)%fmap_Some. rewrite to_of_tuple. by eapply dec_fields_valid.
Defined.

Lemma struct_not_null : @NotNull R struct_type.
Proof. done. Qed.
End Structs.

(** ** Messages *)

(** [json.Marshal] and [json.Unmarshal] of a zero value; the texts of their
    errors are never looked at. *)
Definition json_codec {V} `{JsonType V} : Codec V := {|
  marshal v := Ok (print (enc v));
  unmarshal b :=
    match parse b with
    | None => Err (ErrText "json: syntax error")
    | Some j =>
        match dec j zero with
        | None => Err (ErrText "json: cannot unmarshal")
        | Some v => Ok v
        end
    end;
|}.

#[refine] Definition json_codec_laws {V} `{JsonLaws V} (Hn : nesting V <= maxNestingDepth) :
  @CodecLaws V json_codec := {|
  codec_valid := valid;
|}.
Proof.
  - intros v. eexists. split; [done|]. apply print_no_newline, enc_line.
  - intros v b Hv [= <-]. simpl. rewrite parse_print; [|by apply enc_readable|by constructor].
    by rewrite dec_enc.
Defined.

(** Whatever text is decoded, the value is valid. *)
Lemma unmarshal_valid {V} `{JsonLaws V} (b : bytes) (v : V) :
  @unmarshal V json_codec b = Ok v -> valid v.
Proof.
  unfold unmarshal, json_codec. destruct (parse b) as [j|] eqn:Hp; [|done]. destruct (dec j zero) as [x|] eqn:Hd; [|done].
  intros [= <-]. eapply dec_valid; [by eapply parse_texts_valid|apply zero_valid|done].
Qed.
