(* ===== verification/ProtoJson.v ===== *)
(** * The messages as JSON (control/proto.go)

    The field tags of the protocol's structs, and the codec of requests and
    responses they give. *)

From S2P Require Import Prelude GoStrings Utf8 Strconv Json Transport JsonTypes Proto.
From Stdlib Require Import ZArith String.
From stdpp Require Import base list strings.
Open Scope Z_scope.
Open Scope string_scope.

Abbreviation u64_field := (FCons (type := uint64_type) (laws := uint64_laws)).
Abbreviation i64_field := (FCons (type := int64_type) (laws := int64_laws)).

(** The side conditions of a [Struct]. *)
Ltac struct_tac :=
  repeat match goal with
    | |- forall t : prod _ _, _ =>
        intros t; repeat match goal with p : prod _ _ |- _ => destruct p end;
        match goal with u : unit |- _ => destruct u end; reflexivity
    | |- forall r, _ => intros []; reflexivity
    | |- NoDup _ => apply (bool_decide_unpack _); vm_compute; exact I
    | |- Forall _ _ => repeat constructor; apply Valid_utf8; vm_compute; reflexivity
    end.

#[export, refine] Instance ParsedInterface_struct : Struct ParsedInterface.t := {|
  desc :=
    FCons "privateKey" false (FCons "address" true (FCons "bindAddress" true
    (i64_field "listenPort" true (FCons "nid" false (FCons "netSecret" true
    (FCons "netSecretInsecure" true (FCons "allowInsecureNetSecret" true
    (FCons "padding" true (FCons "dns" true (i64_field "fwMark" true FNil))))))))));
  to_tuple i :=
    (ParsedInterface.PrivateKey i, (ParsedInterface.Address i, (ParsedInterface.BindAddress i,
    (ParsedInterface.ListenPort i, (ParsedInterface.NID i, (ParsedInterface.NetSecret i,
    (ParsedInterface.NetSecretInsecure i, (ParsedInterface.AllowInsecureNetSecret i,
    (ParsedInterface.Padding i, (ParsedInterface.DNS i, (ParsedInterface.FwMark i, tt)))))))))));
  of_tuple '(a, (b, (c, (d, (e, (f, (g, (h, (i, (j, (k, _))))))))))) :=
    ParsedInterface.mk a b c d e f g h i j k;
|}.
Proof. all: struct_tac. Defined.
#[export] Instance ParsedInterface_type : JsonType ParsedInterface.t := struct_type.
#[export] Instance ParsedInterface_laws : JsonLaws ParsedInterface.t := struct_laws.

#[export, refine] Instance ParsedPeer_struct : Struct ParsedPeer.t := {|
  desc :=
    FCons "publicKey" false (FCons "allowedIPs" true (FCons "endpoint" true
    (i64_field "persistentKeepalive" true (FCons "presharedKey" true FNil))));
  to_tuple p :=
    (ParsedPeer.PublicKey p, (ParsedPeer.AllowedIPs p, (ParsedPeer.Endpoint p,
    (ParsedPeer.PersistentKeepalive p, (ParsedPeer.PresharedKey p, tt)))));
  of_tuple '(a, (b, (c, (d, (e, _))))) := ParsedPeer.mk a b c d e;
|}.
Proof. all: struct_tac. Defined.
#[export] Instance ParsedPeer_type : JsonType ParsedPeer.t := struct_type.
#[export] Instance ParsedPeer_laws : JsonLaws ParsedPeer.t := struct_laws.

#[export, refine] Instance ParsedConfig_struct : Struct ParsedConfig.t := {|
  desc := FCons "interface" false (FCons "peers" false FNil);
  to_tuple c := (ParsedConfig.Interface c, (ParsedConfig.Peers c, tt));
  of_tuple '(a, (b, _)) := ParsedConfig.mk a b;
|}.
Proof. all: struct_tac. Defined.
#[export] Instance ParsedConfig_type : JsonType ParsedConfig.t := struct_type.
#[export] Instance ParsedConfig_laws : JsonLaws ParsedConfig.t := struct_laws.
#[export] Instance ParsedConfig_not_null : NotNull ParsedConfig.t := struct_not_null.

#[export, refine] Instance LogLine_struct : Struct LogLine.t := {|
  desc :=
    u64_field "seq" false (i64_field "time" false (FCons "level" true (FCons "msg" false FNil)));
  to_tuple l := (LogLine.Seq l, (LogLine.Time l, (LogLine.Level l, (LogLine.Msg l, tt))));
  of_tuple '(a, (b, (c, (d, _)))) := LogLine.mk a b c d;
|}.
Proof. all: struct_tac. Defined.
#[export] Instance LogLine_type : JsonType LogLine.t := struct_type.
#[export] Instance LogLine_laws : JsonLaws LogLine.t := struct_laws.

#[export, refine] Instance PeerStatus_struct : Struct PeerStatus.t := {|
  desc :=
    FCons "public_key" false (FCons "endpoint" true (FCons "connected" false
    (i64_field "last_handshake" true (i64_field "last_received" true
    (u64_field "rx_bytes" false (u64_field "tx_bytes" false
    (i64_field "frame_budget" false FNil)))))));
  to_tuple p :=
    (PeerStatus.PublicKey p, (PeerStatus.Endpoint p, (PeerStatus.Connected p,
    (PeerStatus.LastHandshake p, (PeerStatus.LastReceived p, (PeerStatus.RxBytes p,
    (PeerStatus.TxBytes p, (PeerStatus.FrameBudget p, tt))))))));
  of_tuple '(a, (b, (c, (d, (e, (f, (g, (h, _)))))))) := PeerStatus.mk a b c d e f g h;
|}.
Proof. all: struct_tac. Defined.
#[export] Instance PeerStatus_type : JsonType PeerStatus.t := struct_type.
#[export] Instance PeerStatus_laws : JsonLaws PeerStatus.t := struct_laws.

#[export, refine] Instance Status_struct : Struct Status.t := {|
  desc :=
    FCons "state" false (FCons "name" true (FCons "iface" true (FCons "peers" true FNil)));
  to_tuple s := (Status.State s, (Status.Name s, (Status.Iface s, (Status.Peers s, tt))));
  of_tuple '(a, (b, (c, (d, _)))) := Status.mk a b c d;
|}.
Proof. all: struct_tac. Defined.
#[export] Instance Status_type : JsonType Status.t := struct_type.
#[export] Instance Status_laws : JsonLaws Status.t := struct_laws.
#[export] Instance Status_not_null : NotNull Status.t := struct_not_null.

#[export, refine] Instance Request_struct : Struct Request.t := {|
  desc :=
    FCons "cmd" false (FCons "config" true (FCons "name" true
    (u64_field "since" true (FCons "parsedConfig" true FNil))));
  to_tuple r :=
    (Request.Cmd r, (Request.Config r, (Request.Name r,
    (Request.Since r, (Request.ParsedConfig r, tt)))));
  of_tuple '(a, (b, (c, (d, (e, _))))) := Request.mk a b c d e;
|}.
Proof. all: struct_tac. Defined.
#[export] Instance Request_type : JsonType Request.t := struct_type.
#[export] Instance Request_laws : JsonLaws Request.t := struct_laws.

#[export, refine] Instance Response_struct : Struct Response.t := {|
  desc :=
    FCons "ok" false (FCons "error" true (FCons "status" true (FCons "logs" true
    (FCons "parsedConfig" true (FCons "config" true FNil)))));
  to_tuple r :=
    (Response.OK r, (Response.Error r, (Response.Status r, (Response.Logs r,
    (Response.ParsedConfig r, (Response.Config r, tt))))));
  of_tuple '(a, (b, (c, (d, (e, (f, _)))))) := Response.mk a b c d e f;
|}.
Proof. all: struct_tac. Defined.
#[export] Instance Response_type : JsonType Response.t := struct_type.
#[export] Instance Response_laws : JsonLaws Response.t := struct_laws.

(** The codecs of the two messages. *)
#[export] Instance Request_codec : Codec Request.t := json_codec.
#[export] Instance Response_codec : Codec Response.t := json_codec.
#[export] Instance Request_codec_laws : CodecLaws Request.t :=
  json_codec_laws (V := Request.t) ltac:(apply Z.leb_le; vm_compute; reflexivity).
#[export] Instance Response_codec_laws : CodecLaws Response.t :=
  json_codec_laws (V := Response.t) ltac:(apply Z.leb_le; vm_compute; reflexivity).

(** Shows that a message is valid: its strings and numbers are known to be. *)
Ltac valid_tac :=
  cbn; repeat
    match goal with
    | |- True => exact I
    | |- _ => assumption
    | |- _ /\ _ => split
    | |- Forall _ [] => apply Forall_nil_2
    | |- Forall _ (_ :: _) => apply Forall_cons_2; cbn
    | |- utf8 _ => apply Valid_utf8; reflexivity
    | |- fits _ _ => unfold fits; lia
    | |- fits_int64 _ => unfold fits_int64; lia
    end.
