(* ===== verification/Server.v ===== *)
(** * The control server (control/server.go)

    [dispatch] and the request loop [ServeIO] over the calls to a [Handler]
    and to the writer.  [session] is what a server promises: one reply per
    request line, in order, until a line cannot be read as a request or a
    reply cannot be written. *)

From S2P Require Import Prelude GoStrings Proto Transport.
From Stdlib Require Import ZArith Ascii String Lia.
From stdpp Require Import base list strings.
Open Scope Z_scope.
Open Scope string_scope.
Local Open Scope list_scope.

(** The [Handler] interface. *)
Inductive handlerE : Type -> Type :=
| HConnect (configText name : string) : handlerE (option error)
| HDisconnect : handlerE (option error)
| HStatus : handlerE Status.t
| HLogs (since : Z) : handlerE (list LogLine.t)
| HParseConfig (configText : string) : handlerE (result ParsedConfig.t)
| HSerializeConfig (cfg : ParsedConfig.t) : handlerE (result string).

(** The calls of a server on one connection. *)
Inductive serveE : Type -> Type :=
| Handle {R} (h : handlerE R) : serveE R
| Out {R} (w : writeE R) : serveE R
| Close : serveE (option error).

#[export] Instance Sub_handler_serve : Sub handlerE serveE := fun R h => Handle h.
#[export] Instance Sub_write_serve : Sub writeE serveE := fun R w => Out w.

Section Dispatch.
(** The system's texts for error codes. *)
Context (errno_text : Z -> string).
Context {F : Type -> Type} `{Sub handlerE F}.

Abbreviation text := (Error_text errno_text).

Definition dispatch (req : Request.t) : prog F Response.t :=
  let ok := let! st := invoke HStatus in Ret (Response.with_status st) in
  let cmd := Request.Cmd req in
  if decide (cmd = CmdStatus) then ok
  else if decide (cmd = CmdConnect) then
    let! err := invoke (HConnect (Request.Config req) (Request.Name req)) in
    match err with
    | Some e => Ret (Response.fail (text e))
    | None => ok
    end
  else if decide (cmd = CmdDisconnect) then
    let! err := invoke HDisconnect in
    match err with
    | Some e => Ret (Response.fail (text e))
    | None => ok
    end
  else if decide (cmd = CmdLogs) then
    let! logs := invoke (HLogs (Request.Since req)) in
    let! st := invoke HStatus in
    Ret (Response.mk true "" (Some st) logs None "")
  else if decide (cmd = CmdParseConfig) then
    let! pc := invoke (HParseConfig (Request.Config req)) in
    match pc with
    | Err e => Ret (Response.fail (text e))
    | Ok pc => Ret (Response.mk true "" None [] (Some pc) "")
    end
  else if decide (cmd = CmdSerializeConfig) then
    match Request.ParsedConfig req with
    | None => Ret (Response.fail "serializeConfig: missing parsedConfig")
    | Some cfg =>
        let! r := invoke (HSerializeConfig cfg) in
        match r with
        | Err e => Ret (Response.fail (text e))
        | Ok t => Ret (Response.mk true "" None [] None t)
        end
    end
  else Ret (Response.fail ("unknown command: " +:+ cmd)).
End Dispatch.

Section Serve.
Context (errno_text : Z -> string).
Context `{Codec Request.t} `{Codec Response.t}.
Context {F : Type -> Type} `{Sub handlerE F} `{Sub writeE F}.

(** The loop of [ServeIO]; every round takes a line off the reader, so the
    bytes still to be read bound the rounds. *)
Fixpoint serve_loop (fuel : nat) (r : reader) : prog F unit :=
  match fuel with
  | O => Ret tt
  | S fuel =>
      let '(req, r) := readMessage (A := Request.t) r in
      match req with
      | Err _ => Ret tt
      | Ok req =>
          let! resp := dispatch errno_text req in
          let! err := writeMessage resp in
          match err with
          | Some _ => Ret tt
          | None => serve_loop fuel r
          end
      end
  end.

Definition ServeIO (r : reader) : prog F unit := serve_loop (S (length (contents r))) r.

(** ** What a server promises

    [session ls tr]: on the request lines [ls] the calls made are [tr]. *)
Inductive session : list bytes -> list (event F) -> Prop :=
| session_end : session [] []
| session_bad l ls e : unmarshal (A := Request.t) l = Err e -> session (l :: ls) []
| session_unwritten l ls req tr resp e :
    unmarshal l = Ok req -> exec (dispatch errno_text req) tr resp ->
    marshal resp = Err e -> session (l :: ls) tr
| session_broken l ls req tr resp b e :
    unmarshal l = Ok req -> exec (dispatch errno_text req) tr resp ->
    marshal resp = Ok b ->
    session (l :: ls) (tr ++ [Ev (embed (Write (b ++ [newline]))) (Some e)])
| session_next l ls req tr resp b tr' :
    unmarshal l = Ok req -> exec (dispatch errno_text req) tr resp ->
    marshal resp = Ok b -> session ls tr' ->
    session (l :: ls) (tr ++ Ev (embed (Write (b ++ [newline]))) None :: tr').

Lemma exec_writeMessage (v : Response.t) tr err :
  exec (writeMessage v) tr err <->
  match marshal v with
  | Err e => tr = [] /\ err = Some e
  | Ok b => tr = [Ev (embed (Write (b ++ [newline]))) err]
  end.
Proof. unfold writeMessage. destruct (marshal v); [apply exec_invoke|done]. Qed.

Lemma serve_loop_session fuel r tr :
  (length (contents r) < fuel)%nat ->
  exec (serve_loop fuel r) tr tt <-> session (whole_lines (contents r)) tr.
Proof.
  revert r tr. induction fuel as [|fuel IH]; intros r tr Hf; [lia|].
  cbn [serve_loop]. unfold readMessage.
  pose proof (ReadBytes_cut r) as Hr. pose proof (cut_line_lines (contents r)) as Hl.
  destruct (cut_line (contents r)) as [[l rest]|] eqn:Hc.
  - destruct Hr as (r' & -> & Hrest & _). destruct Hl as [-> _]. simpl.
    apply cut_line_length in Hc. rewrite <- Hrest in *.
    destruct (unmarshal l) as [req|e] eqn:Hu; simpl.
    + setoid_rewrite exec_bind. setoid_rewrite exec_bind. setoid_rewrite exec_writeMessage.
      split.
      * intros (tr1 & tr2 & resp & -> & Hd & tr3 & tr4 & err & -> & Hw & Ht).
        destruct (marshal resp) as [b|e] eqn:Hm; [|destruct Hw as [-> ->]].
        -- subst. destruct err as [e|].
           ++ destruct Ht as [-> _]. by eapply session_broken.
           ++ apply IH in Ht; [|lia]. by eapply session_next.
        -- destruct Ht as [-> _]. rewrite app_nil_r. by eapply session_unwritten.
      * intros Hs.
        inversion Hs as [|? ? ? Hu'|? ? req' tr' resp e Hu' Hd Hm
                        |? ? req' tr' resp b e Hu' Hd Hm|? ? req' tr' resp b tr'' Hu' Hd Hm Ht];
          subst; try (rewrite Hu in Hu'; injection Hu' as <-); [congruence|..].
        -- exists tr, [], resp. rewrite app_nil_r. repeat split; [done|].
           exists [], [], (Some e). by rewrite Hm.
        -- eexists _, _, resp. repeat split; [done|]. eexists _, [], (Some e).
           rewrite Hm. by rewrite app_nil_r.
        -- eexists _, _, resp. repeat split; [done|]. eexists [_], tr'', None.
           rewrite Hm. repeat split. apply IH; [lia|done].
    + split; [intros [-> _]; by eapply session_bad|]. intros Hs. inversion Hs; subst; first [done|congruence].
  - destruct Hr as (r' & -> & _). rewrite Hl. simpl.
    split; [intros [-> _]; constructor|]. intros Hs. by inversion Hs.
Qed.
End Serve.

(** ** Connections *)

(** A connection accepted, with what its peer sends. *)
Inductive Conn : Type := mkConn (id : Z).

Inductive listenE : Type -> Type :=
| Accept : listenE (result Conn)
| Go_serveConn (c : Conn) : listenE unit.

Section Connections.
Context (errno_text : Z -> string).
Context `{Codec Request.t} `{Codec Response.t}.

(** The deferred [Close] runs however [ServeIO] returns. *)
Definition serveConn (r : reader) : prog serveE unit :=
  do! ServeIO errno_text r in
  do! call Close in
  Ret tt.

(** The first [n] rounds of the accept loop: the error it returned, if it
    did. *)
Fixpoint Serve (n : nat) : prog listenE (option error) :=
  match n with
  | O => Ret None
  | S n =>
      let! conn := call Accept in
      match conn with
      | Err e => Ret (Some e)
      | Ok c => do! call (Go_serveConn c) in Serve n
      end
  end.

(** Every accepted connection gets its goroutine, and the loop ends with the
    listener's first error. *)
Lemma serve_accepts (conns : list Conn) (e : error) (n : nat) :
  (length conns < n)%nat ->
  exec (Serve n)
    (flat_map (fun c => [Ev Accept (Ok c); Ev (Go_serveConn c) tt]) conns ++ [Ev Accept (Err e)])
    (Some e).
Proof.
  revert n. induction conns as [|c conns IH]; intros [|n] Hn; simpl in *; try lia.
  - by repeat eexists.
  - repeat eexists. apply IH. lia.
Qed.
End Connections.

(** ** A server over a handler with a state

    [serve_world h] answers the handler's calls with [h] and collects what is
    written; no write fails. *)
Section World.
Context (errno_text : Z -> string).
Context `{CodecLaws Request.t} `{CodecLaws Response.t}.
Context {S : Type} (h : handler handlerE S).

Definition serve_world : handler serveE (S * bytes) := fun R e '(s, out) =>
  match e in serveE R return R * (S * bytes) with
  | Handle c => let '(r, s') := h _ c s in (r, (s', out))
  | Out w =>
      match w in writeE R return R * (S * bytes) with
      | Write b => (None, (s, out ++ b))
      end
  | Close => (None, (s, out))
  end.

(** One request, and several in order, on the handler itself. *)
Definition serve_one (req : Request.t) (s : S) : Response.t * S :=
  run h (dispatch errno_text req) s.

Fixpoint serve_all (reqs : list Request.t) (s : S) : list Response.t * S :=
  match reqs with
  | [] => ([], s)
  | req :: reqs' =>
      let '(resp, s1) := serve_one req s in
      let '(resps, s2) := serve_all reqs' s1 in
      (resp :: resps, s2)
  end.

Lemma run_dispatch req s out :
  run serve_world (dispatch errno_text req) (s, out)
  = ((serve_one req s).1, ((serve_one req s).2, out)).
Proof.
  unfold serve_one, dispatch.
  repeat match goal with
    | |- context [decide ?P] => destruct (decide P)
    | |- context [match Request.ParsedConfig ?r with _ => _ end] =>
        destruct (Request.ParsedConfig r)
    | |- _ => rewrite run_bind
    | |- context [h ?R ?c ?s] => destruct (h R c s) as [? ?] eqn:?
    | |- context [match ?x with _ => _ end] => is_var x; destruct x
    | |- _ => progress (simpl; unfold embed, Sub_handler_serve, Sub_refl)
    end; first [done|congruence].
Qed.

(** The encoding of a message. *)
Definition encode {A} `{Codec A} (a : A) : bytes :=
  match marshal a with Ok b => b | Err _ => [] end.

Lemma marshal_encode {A} `{CodecLaws A} (a : A) :
  marshal a = Ok (encode a) /\ newline ∉ encode a.
Proof. unfold encode. by destruct (marshal_line a) as (b & -> & ?). Qed.

Definition lines_of {A} `{Codec A} (l : list A) : bytes := terminate newline (map encode l).

Lemma encode_lines {A} `{CodecLaws A} (l : list A) :
  Forall (fun b => newline ∉ b) (map encode l).
Proof. induction l; constructor; [apply marshal_encode|done]. Qed.

Lemma lines_of_cons {A} `{Codec A} (a : A) l s :
  lines_of (a :: l) ++ s = (encode a ++ [newline]) ++ (lines_of l ++ s).
Proof. unfold lines_of. simpl. by rewrite <- !app_assoc. Qed.

Lemma serve_loop_world fuel r reqs partial s out :
  (length (contents r) < fuel)%nat ->
  contents r = lines_of reqs ++ partial -> newline ∉ partial ->
  Forall codec_valid reqs ->
  run serve_world (serve_loop errno_text fuel r) (s, out)
  = (tt, ((serve_all reqs s).2, out ++ lines_of (serve_all reqs s).1)).
Proof.
  revert r reqs s out. induction fuel as [|fuel IH]; intros r reqs s out Hf Hc Hp Hv; [lia|].
  cbn [serve_loop]. unfold readMessage.
  pose proof (ReadBytes_cut r) as Hr. pose proof (cut_line_lines (contents r)) as Hl.
  destruct (cut_line (contents r)) as [[l rest]|] eqn:Hcut.
  - destruct Hr as (r' & -> & Hrest & _). destruct Hl as [Hl Hlr].
    apply cut_line_length in Hcut. rewrite <- Hrest in *. destruct reqs as [|req reqs].
    { simpl in Hc. rewrite Hc, (whole_lines_partial _ Hp) in Hl. done. }
    apply Forall_cons in Hv as [Hq Hv]. rewrite lines_of_cons in Hc.
    destruct (marshal_encode req) as [Hm Hn].
    rewrite Hc, (whole_lines_line _ _ Hn) in Hl. injection Hl as <- _.
    rewrite Hc in Hlr. apply app_inv_head in Hlr.
    simpl. rewrite (unmarshal_marshal req _ Hq Hm), run_bind, run_dispatch.
    destruct (serve_one req s) as [resp s1] eqn:Hone. simpl.
    unfold writeMessage. destruct (marshal_encode resp) as [Hmr _]. rewrite Hmr.
    rewrite run_bind. simpl. rewrite (IH _ reqs); [|lia|congruence|done|done].
    destruct (serve_all reqs s1) as [resps s2]. simpl. unfold lines_of. simpl.
    by rewrite <- !app_assoc.
  - destruct Hr as (r' & -> & _). destruct reqs as [|req reqs].
    { unfold lines_of. simpl. by rewrite app_nil_r. }
    rewrite Hc, lines_of_cons in Hl. destruct (marshal_encode req) as [_ Hn].
    by rewrite (whole_lines_line _ _ Hn) in Hl.
Qed.
End World.
