(* ===== verification/Client.v ===== *)
(** * The control client (control/client.go)

    [Do] sends a request and reads the reply, on a connection whose mutex is
    held for the whole exchange; [link] is a connection to a server over a
    handler with a state. *)

From S2P Require Import Prelude GoStrings Proto Transport Server.
From Stdlib Require Import ZArith Ascii String Lia.
From stdpp Require Import base list strings.
Open Scope Z_scope.
Open Scope string_scope.
Local Open Scope list_scope.

(** A client's calls on its connection; [ReadLine] is [ReadBytes('\n')] of the
    client's buffered reader. *)
Inductive connE : Type -> Type :=
| Send {R} (w : writeE R) : connE R
| ReadLine : connE (result bytes)
| Conn_Close : connE (option error).

#[export] Instance Sub_write_conn : Sub writeE connE := fun R w => Send w.

Section Client.
Context `{Codec Request.t} `{Codec Response.t}.

Definition Do (req : Request.t) : prog connE (result Response.t) :=
  let! err := writeMessage req in
  match err with
  | Some e => Ret (Err e)
  | None =>
      let! line := call ReadLine in
      Ret (decode_line line)
  end.

Definition Status_ : prog connE (result Response.t) := Do (Request.of_cmd CmdStatus).

Definition Connect (configText name : string) : prog connE (result Response.t) :=
  Do (Request.mk CmdConnect configText name 0 None).

Definition Disconnect : prog connE (result Response.t) := Do (Request.of_cmd CmdDisconnect).

(** [&responseError{msg}]: an error with that text. *)
Definition responseError (msg : string) : error := ErrText msg.

Definition Logs (since : Z) : prog connE (result (list LogLine.t)) :=
  let! resp := Do (Request.mk CmdLogs "" "" since None) in
  match resp with
  | Err e => Ret (Err e)
  | Ok resp =>
      if Response.OK resp then Ret (Ok (Response.Logs resp))
      else Ret (Err (responseError (Response.Error resp)))
  end.

Definition Close : prog connE (option error) := call Conn_Close.
End Client.

(** ** A client connected to a server

    What the client writes is served at once by [ServeIO] on the handler [h];
    what the server writes waits in the inbox until it is read. *)
Section Link.
Context (errno_text : Z -> string).
Context `{CodecLaws Request.t} `{CodecLaws Response.t}.
Context {S : Type} (h : handler handlerE S).

Definition link : handler connE (S * bytes) := fun R e '(s, inbox) =>
  match e in connE R return R * (S * bytes) with
  | Send w =>
      match w in writeE R return R * (S * bytes) with
      | Write b =>
          let '(_, (s', out)) :=
            run (serve_world h) (ServeIO errno_text (mkReader [] [b] (ErrText "EOF"))) (s, [])
          in (None, (s', inbox ++ out))
      end
  | ReadLine =>
      match cut_line inbox with
      | Some (l, rest) => (Ok l, (s, rest))
      | None => (Err (ErrText "EOF"), (s, []))
      end
  | Conn_Close => (None, (s, inbox))
  end.

(** One exchange is one request on the handler. *)
Lemma run_Do (req : Request.t) (s : S) :
  codec_valid req -> codec_valid (serve_one errno_text h req s).1 ->
  run link (Do req) (s, [])
  = (Ok (serve_one errno_text h req s).1, ((serve_one errno_text h req s).2, [])).
Proof.
  intros Hq Hr. unfold Do, writeMessage. destruct (marshal_encode req) as [-> Hn].
  rewrite run_bind. cbn [run invoke call embed Sub_write_conn link]. unfold ServeIO.
  rewrite (serve_loop_world errno_text h _ _ [req] []).
  - cbn [serve_all]. destruct (serve_one errno_text h req s) as [resp s'] eqn:Hone. simpl in *.
    destruct (marshal_encode resp) as [Hm Hn'].
    rewrite <- (app_nil_r (lines_of [resp])), lines_of_cons, (cut_line_line _ _ Hn').
    simpl. by rewrite (unmarshal_marshal resp _ Hr Hm).
  - lia.
  - unfold contents, lines_of. simpl. by rewrite !app_nil_r.
  - apply not_elem_of_nil.
  - by constructor.
Qed.
End Link.
