(* ===== verification/ControlProps.v ===== *)
(** * What the control channel guarantees (package control)

    Framing and encoding of the messages, the server's replies on every branch
    of [dispatch], the request loop for any way the input arrives, and a
    client's exchanges with a server. *)

From S2P Require Import Prelude GoStrings Utf8 Strconv JsonString Json JsonTypes Proto ProtoJson.
From S2P Require Import Transport Server Client.
From Stdlib Require Import ZArith Ascii String Lia.
From stdpp Require Import base list strings.
Open Scope Z_scope.
Open Scope string_scope.
Local Open Scope list_scope.

(** ** Messages *)

(** C10: a request or response whose strings are valid UTF-8 and whose numbers
    fit their Go types is read back from its JSON line exactly as it was
    sent. *)
Theorem message_roundtrip (req : Request.t) (resp : Response.t) :
  valid req -> valid resp ->
  unmarshal (encode req ++ [newline]) = Ok req /\
  unmarshal (encode resp ++ [newline]) = Ok resp.
Proof.
  intros Hq Hr. split.
  - by apply (unmarshal_marshal req), marshal_encode.
  - by apply (unmarshal_marshal resp), marshal_encode.
Qed.

Lemma line_is_whole (b : bytes) :
  newline ∉ b -> whole_lines (b ++ [newline]) = [b ++ [newline]].
Proof. intros Hb. rewrite <- (app_nil_r (b ++ _)) at 1. by rewrite whole_lines_line. Qed.

(** Whatever its strings hold, a message is written as exactly one line: no
    newline but the last byte. *)
Theorem message_is_one_line (req : Request.t) (resp : Response.t) :
  whole_lines (encode req ++ [newline]) = [encode req ++ [newline]] /\
  whole_lines (encode resp ++ [newline]) = [encode resp ++ [newline]].
Proof. split; apply line_is_whole, marshal_encode. Qed.

(** The parser of JSON texts never fails for want of fuel: with any more
    it gives the same answer on every input, valid JSON or not. *)
Theorem parse_fuel_enough (s : bytes) (extra : nat) :
  parse s = '(j, r) ← parse_value (parse_fuel s + extra) maxNestingDepth s;
            if decide (skip_space r = []) then Some j else None.
Proof. unfold parse. by rewrite (parse_value_fuel (parse_fuel s + extra)) by lia. Qed.

(** ** The server *)
Section Dispatch.
Context (errno_text : Z -> string).

Abbreviation dispatch := (dispatch (F := handlerE) errno_text).

(** The commands that answer with a configuration and not with the state. *)
Definition config_command (cmd : string) : bool :=
  bool_decide (cmd = CmdParseConfig \/ cmd = CmdSerializeConfig).

(** Takes [dispatch] apart along the commands. *)
Ltac dispatch_cases H :=
  unfold Server.dispatch in H;
  repeat match type of H with
    | context [decide ?P] => destruct (decide P)
    | context [match Request.ParsedConfig ?r with _ => _ end] =>
        destruct (Request.ParsedConfig r) eqn:?
    end; exec_inv.

(** C17: a reply that is not OK has one of three reasons: a command that does
    not exist or a missing [parsedConfig], when the handler was not called at
    all, or the error of the one call made, whose text it carries.  It
    carries nothing else. *)
Theorem dispatch_error (req : Request.t) (tr : list (event handlerE)) (resp : Response.t) :
  exec (dispatch req) tr resp -> Response.OK resp = false ->
  resp = Response.fail (Response.Error resp) /\
  match tr with
  | [] =>
      (Request.Cmd req = CmdSerializeConfig /\ Request.ParsedConfig req = None /\
       Response.Error resp = "serializeConfig: missing parsedConfig") \/
      (Request.Cmd req ∉ [CmdStatus; CmdConnect; CmdDisconnect; CmdLogs; CmdParseConfig;
                          CmdSerializeConfig] /\
       Response.Error resp = "unknown command: " +:+ Request.Cmd req)
  | [ev] =>
      exists e, Response.Error resp = Error_text errno_text e /\
        (ev = Ev (HConnect (Request.Config req) (Request.Name req)) (Some e) \/
         ev = Ev HDisconnect (Some e) \/ ev = Ev (HParseConfig (Request.Config req)) (Err e) \/
         exists cfg, Request.ParsedConfig req = Some cfg /\
                     ev = Ev (HSerializeConfig cfg) (Err e))
  | _ => False
  end.
Proof.
  intros He Hok. dispatch_cases He; simpl in *; try discriminate;
    (split; [reflexivity|]); simpl; eauto 10.
  right. rewrite !not_elem_of_cons. auto 10 using not_elem_of_nil.
Qed.

(** C16: an OK reply to any command but the two configuration ones carries the
    state asked for last, after everything else the command did; connecting
    and disconnecting are made first and succeeded; a logs reply carries the
    lines after the cursor.  A configuration reply carries the result and no
    state. *)
Theorem dispatch_ok (req : Request.t) (tr : list (event handlerE)) (resp : Response.t) :
  exec (dispatch req) tr resp -> Response.OK resp = true ->
  Response.Error resp = "" /\
  if config_command (Request.Cmd req) then
    Response.Status resp = None /\
    ((exists pc, tr = [Ev (HParseConfig (Request.Config req)) (Ok pc)] /\
                 Response.ParsedConfig resp = Some pc) \/
     (exists cfg text, Request.ParsedConfig req = Some cfg /\
                 tr = [Ev (HSerializeConfig cfg) (Ok text)] /\ Response.Config resp = text))
  else
    exists first st, tr = first ++ [Ev HStatus st] /\ Response.Status resp = Some st /\
      ((Request.Cmd req = CmdStatus /\ first = []) \/
       (Request.Cmd req = CmdConnect /\
        first = [Ev (HConnect (Request.Config req) (Request.Name req)) None]) \/
       (Request.Cmd req = CmdDisconnect /\ first = [Ev HDisconnect None]) \/
       (Request.Cmd req = CmdLogs /\
        first = [Ev (HLogs (Request.Since req)) (Response.Logs resp)])).
Proof.
  intros He Hok. unfold config_command. dispatch_cases He; simpl in *; try discriminate;
    (split; [reflexivity|]).
  all: match goal with Hc : Request.Cmd ?q = _ |- _ => rewrite Hc end; simpl.
  all: try (eexists _, _; split; [|split; [reflexivity|]]; [|eauto 10]; reflexivity).
  all: split; [reflexivity|]; eauto 10.
Qed.
End Dispatch.

Section Serve.
Context (errno_text : Z -> string).

(** C6: however the input is cut into reads, the server makes exactly the
    calls of a session on the input's complete lines: for every line in order
    it decodes a fresh request, dispatches it and writes one reply line, until
    a line is not a request or a reply cannot be written.  What follows the
    last newline is never served. *)
Theorem serve_session (r : reader) (tr : list (event serveE)) :
  exec (ServeIO errno_text r) tr tt <-> session errno_text (whole_lines (contents r)) tr.
Proof. apply serve_loop_session. lia. Qed.

(** The arguments of a handler call are proper Go values: strings of valid
    UTF-8 and numbers of their width. *)
Definition call_valid {R} (h : handlerE R) : Prop :=
  match h with
  | HConnect text name => utf8 (to_bytes text) /\ utf8 (to_bytes name)
  | HLogs since => fits 64 since
  | HParseConfig text => utf8 (to_bytes text)
  | HSerializeConfig cfg => valid cfg
  | HDisconnect | HStatus => True
  end.

(** What a server lets through: valid arguments to the handler, and whole
    lines to the client. *)
Definition served (ev : event serveE) : Prop :=
  match ev_call _ ev with
  | Handle h => call_valid h
  | Out (Write b) => whole_lines b = [b]
  | Close => False
  end.

Lemma served_dispatch (req : Request.t) :
  valid req -> always served (dispatch errno_text req : prog serveE _).
Proof.
  intros (Hcmd & Htext & Hname & Hsince & Hcfg & _). cbn in *. unfold Server.dispatch.
  repeat first
    [ case_decide
    | apply always_bind; [apply always_invoke; intros; cbn; by auto|intros]
    | exact I
    | match goal with
      | |- context [match Request.ParsedConfig ?r with _ => _ end] =>
          destruct (Request.ParsedConfig r)
      | |- always _ (match ?x with _ => _ end) => destruct x
      end ].
Qed.

Lemma served_writeMessage (resp : Response.t) :
  always served (writeMessage resp : prog serveE _).
Proof.
  unfold writeMessage. destruct (marshal_encode resp) as [-> Hb].
  apply always_invoke. intros r. by apply line_is_whole.
Qed.

Lemma served_loop (fuel : nat) (r : reader) : always served (serve_loop errno_text fuel r).
Proof.
  revert r. induction fuel as [|fuel IH]; intros r; cbn [serve_loop]; [exact I|].
  unfold readMessage. destruct (ReadBytes r) as [[line|e] r']; [|exact I].
  cbn [decode_line]. destruct (unmarshal line) as [req|e] eqn:Hu; [|exact I].
  apply always_bind; [by apply served_dispatch, (unmarshal_valid line)|]. intros resp.
  apply always_bind; [apply served_writeMessage|]. intros [e|]; [exact I|apply IH].
Qed.

(** The client's side: whole lines to the server. *)
Definition sent (ev : event connE) : Prop :=
  match ev_call _ ev with
  | Send (Write b) => whole_lines b = [b]
  | ReadLine => True
  | Conn_Close => False
  end.

Lemma sent_Do (req : Request.t) : always sent (Do req).
Proof.
  unfold Do, writeMessage. destruct (marshal_encode req) as [-> Hb].
  apply always_bind; [apply always_invoke; intros r; by apply line_is_whole|].
  intros [e|]; [exact I|]. apply always_bind; [|intros; exact I].
  intros r. split; exact I.
Qed.

(** C18: whatever bytes a client sends - broken UTF-8, escapes of lone
    surrogates, numbers of any size, repeated keys, null - the handler is only
    called with strings of valid UTF-8 and numbers of their Go types, and each
    write to the client is one whole line.  On the client's side, whatever the
    request and whatever bytes the server sends, each write is one whole line
    and the response returned is a value of that kind. *)
Theorem messages_typed (r : reader) (req : Request.t) (tr : list (event serveE))
    (conn : list (event connE)) (out : result Response.t) :
  exec (ServeIO errno_text r) tr tt -> exec (Do req) conn out ->
  Forall served tr /\ Forall sent conn /\ forall resp, out = Ok resp -> valid resp.
Proof.
  intros Hs Hd. split; [by eapply always_exec; [apply served_loop|]|].
  split; [by eapply always_exec; [apply sent_Do|]|]. intros resp ->. unfold Do in Hd.
  apply exec_bind in Hd as (tr1 & tr2 & [e|] & _ & _ & Hd); [by destruct Hd|].
  apply exec_bind in Hd as (tr3 & tr4 & [line|e] & _ & _ & Hd); destruct Hd as [_ Hd]; [|done].
  symmetry in Hd. by apply (unmarshal_valid line).
Qed.

(** A server over a handler with a state answers valid requests, sent one
    after the other in any number of chunks, with the replies of the handler
    to the same requests in order, and leaves the handler in the state they
    lead to; an unfinished line at the end changes nothing. *)
Theorem serve_pipelined {S} (h : handler handlerE S) (reqs : list Request.t)
    (cs : list bytes) (partial : bytes) (s : S) :
  Forall valid reqs -> newline ∉ partial -> concat cs = lines_of reqs ++ partial ->
  run (serve_world h) (ServeIO errno_text (mkReader [] cs (ErrText "EOF"))) (s, [])
  = (tt, ((serve_all errno_text h reqs s).2, lines_of (serve_all errno_text h reqs s).1)).
Proof.
  intros Hv Hp Hc. unfold ServeIO.
  by rewrite (serve_loop_world errno_text h _ _ reqs partial) by (done || lia).
Qed.

(** ** The client *)

(** An exchange of a connected client and server is one request on the
    handler behind the server, whatever its state: the client gets exactly the
    reply [dispatch] computes, the handler ends in the state it leads to, and
    nothing is left unread.  Strings and numbers are assumed valid. *)
Theorem client_exchange {S} (h : handler handlerE S) (req : Request.t) (s s' : S)
    (resp : Response.t) :
  valid req -> valid resp ->
  run h (dispatch errno_text req) s = (resp, s') ->
  run (link errno_text h) (Do req) (s, []) = (Ok resp, (s', [])).
Proof.
  intros Hq Hr He. assert (serve_one errno_text h req s = (resp, s')) as Hone by exact He.
  rewrite (run_Do errno_text h req s); [by rewrite Hone|exact Hq|by rewrite Hone].
Qed.

(** A client that connects a configuration and then reads the logs makes
    on the handler exactly the calls [Connect], [Status], [Logs], [Status], and
    gets the state after connecting and the lines after its cursor. *)
Theorem client_connect_logs {S} (h : handler handlerE S) (text name : string) (since : Z)
    (st st' : Status.t) (logs : list LogLine.t) (s s1 s2 s3 s4 : S) :
  h _ (HConnect text name) s = (None, s1) -> h _ HStatus s1 = (st, s2) ->
  h _ (HLogs since) s2 = (logs, s3) -> h _ HStatus s3 = (st', s4) ->
  utf8 (to_bytes text) -> utf8 (to_bytes name) -> fits 64 since ->
  valid st -> valid logs -> valid st' ->
  run (link errno_text h) (let! r := Connect text name in let! l := Logs since in Ret (r, l))
    (s, [])
  = ((Ok (Response.with_status st), Ok logs), (s4, [])).
Proof.
  intros H1 H2 H3 H4 Ht Hn Hs Hst Hlogs Hst'.
  assert (serve_one errno_text h (Request.mk CmdConnect text name 0 None) s
          = (Response.with_status st, s2)) as Hone.
  { unfold serve_one. simpl. unfold embed, Sub_refl. rewrite H1. simpl.
    unfold embed, Sub_refl. by rewrite H2. }
  assert (serve_one errno_text h (Request.mk CmdLogs "" "" since None) s2
          = (Response.mk true "" (Some st') logs None "", s4)) as Htwo.
  { unfold serve_one. simpl. unfold embed, Sub_refl. rewrite H3. simpl.
    unfold embed, Sub_refl. by rewrite H4. }
  rewrite run_bind. unfold Connect. rewrite (run_Do errno_text h _ s).
  - rewrite Hone. cbn [fst snd]. rewrite run_bind. unfold Logs. rewrite run_bind.
    rewrite (run_Do errno_text h _ s2).
    + by rewrite Htwo.
    + valid_tac.
    + rewrite Htwo. valid_tac.
  - valid_tac.
  - rewrite Hone. valid_tac.
Qed.
End Serve.

(** A client's request fails in one of three ways only: the write failed,
    no line could be read, or the line is not a response; otherwise it is the
    response of the line.  A failed request is not sent twice. *)
Theorem client_do_outcome (req : Request.t) (tr : list (event connE)) (r : result Response.t) :
  exec (Do req) tr r ->
  let sent e := Ev (Send (Write (encode req ++ [newline]))) e in
  match r with
  | Err e =>
      tr = [sent (Some e)] \/ tr = [sent None; Ev ReadLine (Err e)] \/
      exists line, tr = [sent None; Ev ReadLine (Ok line)] /\
                   unmarshal (A := Response.t) line = Err e
  | Ok resp =>
      exists line, tr = [sent None; Ev ReadLine (Ok line)] /\ unmarshal line = Ok resp
  end.
Proof.
  intros He sent. unfold Do, writeMessage in He. destruct (marshal_encode req) as [Hm _].
  rewrite Hm in He. apply exec_bind in He as (tr1 & tr2 & err & -> & Hw & He).
  apply exec_invoke in Hw as ->. destruct err as [e|].
  - destruct He as [-> ->]. by left.
  - apply exec_bind in He as (tr3 & tr4 & line & -> & Hr & He).
    apply exec_call in Hr as ->. destruct He as [-> ->]. destruct line as [line|e].
    + unfold decode_line. destruct (unmarshal line) as [resp|e] eqn:Hu; [by exists line|].
      right. right. by exists line.
    + right. by left.
Qed.

(** [Logs] turns a reply that is not OK into an error with the server's
    text, and otherwise returns the reply's lines. *)
Theorem client_logs_outcome (since : Z) (tr : list (event connE)) (r : result (list LogLine.t)) :
  exec (Logs since) tr r ->
  exists r', exec (Do (Request.mk CmdLogs "" "" since None)) tr r' /\
    match r' with
    | Err e => r = Err e
    | Ok resp =>
        if Response.OK resp then r = Ok (Response.Logs resp)
        else r = Err (ErrText (Response.Error resp))
    end.
Proof.
  intros He. unfold Logs in He. apply exec_bind in He as (tr1 & tr2 & r' & -> & Hd & He).
  exists r'. destruct r' as [resp|e].
  - destruct (Response.OK resp); destruct He as [-> ->]; by rewrite app_nil_r.
  - destruct He as [-> ->]. by rewrite app_nil_r.
Qed.

(** ** Examples

    A handler in memory: it counts the log lines it made, and refuses an empty
    configuration. *)
Module FakeHandler.
Record state : Type := mk { st : Status.t; logs : list LogLine.t }.

Definition down : Status.t := Status.mk StateDisconnected "" "" [].

Definition handle : handler handlerE state := fun R e s =>
  match e in handlerE R return R * state with
  | HConnect cfg name =>
      if decide (cfg = "") then (Some (Errorf "parse config" (ErrText "empty")), s)
      else (None, mk (Status.mk StateConnected name "veil0" [])
                    (logs s ++ [LogLine.mk (Z.of_nat (length (logs s)) + 1) 7 "" cfg]))
  | HDisconnect => (None, mk down (logs s))
  | HStatus => (st s, s)
  | HLogs since => (filter (fun l => since < LogLine.Seq l) (logs s), s)
  | HParseConfig text =>
      (Ok (ParsedConfig.mk
             (ParsedInterface.mk text "" "" 0 "" "" false false "" "" 0) None), s)
  | HSerializeConfig cfg =>
      (Ok (ParsedInterface.PrivateKey (ParsedConfig.Interface cfg)), s)
  end.

Definition start : state := mk down [].

Definition no_text (_ : Z) : string := "".

Definition connect : Request.t := Request.mk CmdConnect "[Interface]" "Home <1>" 0 None.
Definition bad : Request.t := Request.mk CmdConnect "" "" 0 None.

(** A program's result and trace on [handle]. *)
Definition result_of {A} (p : prog handlerE A) : A := (run (traced handle) p (start, [])).1.
Definition trace_of {A} (p : prog handlerE A) : list (event handlerE) :=
  (run (traced handle) p (start, [])).2.2.

Lemma exec_of {A} (p : prog handlerE A) : exec p (trace_of p) (result_of p).
Proof. apply run_exec. Qed.
End FakeHandler.

Section Witnesses.
Import FakeHandler.

Lemma message_roundtrip_witness :
  unmarshal (encode connect ++ [newline]) = Ok connect /\
  unmarshal (encode (Response.with_status down) ++ [newline])
  = Ok (Response.with_status down).
Proof.
  apply (message_roundtrip connect (Response.with_status down)); valid_tac.
Defined.

(** A request with a name of the single byte 255, a lone surrogate, a key in
    other case and a second [name]; and a reply with a broken byte,
    which is read as U+FFFD. *)
Definition json_text (s : string) : bytes :=
  map (fun c => if decide (c = "'"%char) then dquote else c) (to_bytes s).
Definition raw_request : bytes :=
  json_text "{'CMD':'connect','config':'" ++ ["255"%char]
  ++ json_text "\ud800','name':'a','name':null}" ++ [newline].
Definition raw_reader : reader := mkReader [] [raw_request] (ErrText "EOF").
Definition raw_trace : list (event serveE) :=
  (run (traced (serve_world handle)) (ServeIO no_text raw_reader) ((start, []), [])).2.2.
Definition raw_reply : list (event connE) :=
  [Ev (Send (Write (encode bad ++ [newline]))) None;
   Ev ReadLine (Ok (json_text "{'ok':false,'error':'" ++ ["200"%char] ++ json_text "'}"))].
Definition replaced : Response.t :=
  Response.fail (of_bytes ["239"%char; "191"%char; "189"%char]).

Lemma messages_typed_witness :
  Forall served raw_trace /\ length raw_trace = 3%nat /\
  valid replaced.
Proof.
  assert (exec (ServeIO no_text raw_reader) raw_trace tt) as He by apply run_exec.
  assert (exec (Do bad) raw_reply (Ok replaced)) as Hd
    by (repeat eexists; vm_compute; reflexivity).
  destruct (messages_typed no_text _ _ _ _ _ He Hd) as (Hs & _ & Hv).
  split; [exact Hs|]. split; [vm_compute; reflexivity|]. exact (Hv _ eq_refl).
Defined.

Lemma dispatch_error_witness :
  exists e tr, exec (dispatch no_text bad : prog handlerE _) tr (Response.fail e) /\
    e = "parse config: empty".
Proof.
  destruct (dispatch_error no_text bad _ _ (exec_of (dispatch no_text bad)) eq_refl)
    as [Hr Htr].
  eexists _, _. split; [|reflexivity].
  exact (eq_rect _ (exec _ _) (exec_of (dispatch no_text bad)) _ Hr).
Defined.

Lemma dispatch_ok_witness :
  exists tr st, exec (dispatch no_text connect) (tr ++ [Ev HStatus st]) (Response.with_status st)
    /\ Status.Name st = "Home <1>".
Proof.
  pose proof (exec_of (dispatch no_text connect)) as He.
  destruct (dispatch_ok no_text connect _ _ He eq_refl) as [_ (first & st & Htr & Hst & _)].
  exists first, st. rewrite Htr in He. simpl in Hst. injection Hst as <-.
  split; [exact He|reflexivity].
Defined.

(** Three requests and half a fourth, in chunks of nine bytes. *)
Definition requests : list Request.t := [connect; bad; Request.of_cmd CmdStatus].
Fixpoint cut (fuel : nat) (s : bytes) : list bytes :=
  match fuel with
  | O => [s]
  | S fuel => take 9 s :: cut fuel (drop 9 s)
  end.
Definition input : bytes := lines_of requests ++ to_bytes "half".

Lemma serve_pipelined_witness :
  concat (cut 20 input) = input /\
  exists out, run (serve_world handle) (ServeIO no_text (mkReader [] (cut 20 input) (ErrText "EOF")))
                (start, []) = (tt, out) /\
    length (whole_lines out.2) = 3%nat.
Proof.
  assert (concat (cut 20 input) = input) as Hc by (vm_compute; reflexivity).
  split; [exact Hc|]. eexists. split.
  - apply (serve_pipelined no_text handle requests (cut 20 input) (to_bytes "half") start).
    + unfold requests, connect, bad, Request.of_cmd. valid_tac.
    + apply (bool_decide_eq_true_1 _). vm_compute. reflexivity.
    + exact Hc.
  - vm_compute. reflexivity.
Defined.

Lemma client_exchange_witness :
  run (link no_text handle) (Do bad) (start, [])
  = (Ok (Response.fail "parse config: empty"), (start, [])).
Proof.
  apply (client_exchange no_text handle bad start start); [valid_tac|valid_tac|].
  vm_compute. reflexivity.
Defined.

Lemma client_connect_logs_witness :
  exists s4, run (link no_text handle)
    (let! r := Connect "[Interface]" "Home <1>" in let! l := Logs 0 in Ret (r, l)) (start, [])
  = ((Ok (Response.with_status (Status.mk StateConnected "Home <1>" "veil0" [])),
      Ok [LogLine.mk 1 7 "" "[Interface]"]), (s4, [])).
Proof.
  eexists. eapply (client_connect_logs no_text handle "[Interface]" "Home <1>" 0).
  1-4: vm_compute; reflexivity.
  all: valid_tac.
Defined.

(** A connection that breaks after the request was sent. *)
Definition broken : list (event connE) :=
  [Ev (Send (Write (encode (Request.mk CmdLogs "" "" 3 None) ++ [newline]))) None;
   Ev ReadLine (Err ErrClosed)].

Lemma client_do_outcome_witness :
  exec (Do (Request.mk CmdLogs "" "" 3 None)) broken (Err ErrClosed) /\ length broken = 2%nat.
Proof.
  assert (exec (Do (Request.mk CmdLogs "" "" 3 None)) broken (Err ErrClosed)) as He
    by (repeat eexists).
  split; [exact He|].
  destruct (client_do_outcome _ _ _ He) as [Ho|[Ho|(line & Ho & _)]].
  - discriminate (f_equal length Ho).
  - exact (f_equal length Ho).
  - exact (f_equal length Ho).
Defined.

Lemma client_logs_outcome_witness :
  exec (Logs 3) broken (Err ErrClosed) /\
  exists r', exec (Do (Request.mk CmdLogs "" "" 3 None)) broken r'.
Proof.
  assert (exec (Logs 3) broken (Err ErrClosed)) as He by (repeat eexists).
  split; [exact He|].
  destruct (client_logs_outcome _ _ _ He) as (r' & Hr' & _). exists r'. exact Hr'.
Defined.
End Witnesses.
