(* ===== verification/SharedClient.v ===== *)
(** * A client shared by goroutines (control/client.go)

    One Client wraps one connection, and any goroutine may call its methods at
    any time.  A mutex is held from the request to its reply.  Here are any
    number of goroutines in [Do], the connection between them and a server that
    answers when it gets to it, and another goroutine that closes the client. *)

From S2P Require Import Prelude GoStrings Proto Transport Server Client JsonTypes ProtoJson.
From Stdlib Require Import ZArith Ascii String Lia.
From stdpp Require Import base list strings.
Open Scope Z_scope.
Open Scope string_scope.
Local Open Scope list_scope.

(** The calls of a method: of the mutex and of the connection. *)
Inductive callE : Type -> Type :=
| Lock : callE unit
| Unlock : callE unit
| Conn {R} (e : connE R) : callE R.

Section Shared.
Context (errno_text : Z -> string).
Context `{CodecLaws Request.t} `{CodecLaws Response.t}.

(** [Do] with its mutex; the unlock is deferred, so it comes last on every path. *)
Definition locked_Do (req : Request.t) : prog callE (result Response.t) :=
  do! call Lock in
  let! r := hoist (fun _ e => Conn e) (Do req) in
  do! call Unlock in
  Ret r.

(** The line of a message. *)
Definition line {A} `{CodecLaws A} (a : A) : bytes := encode a ++ [newline].

(** The goroutines, the mutex, the bytes under way to the server and from it,
    and whether the client is closed. *)
Record state : Type := mkState {
  routines : list (prog callE (result Response.t));
  locked : bool;
  requests : bytes;
  replies : bytes;
  closed : bool;
}.

Inductive occurrence : Type :=
| Locked (i : nat)
| Unlocked (i : nat)
| Called (i : nat) (ev : event connE)
| Served (l : bytes) (resp : Response.t)
| Closed.

(** A goroutine calls, the server answers a request - its handler may answer
    anything, since others use it too - or the client is closed.  A closed
    connection refuses writes, and reads too once what is buffered is read. *)
Inductive step : state -> occurrence -> state -> Prop :=
| step_lock gs rq rp cl i k :
    gs !! i = Some (Vis Lock k) ->
    step (mkState gs false rq rp cl) (Locked i) (mkState (<[i := k tt]> gs) true rq rp cl)
| step_unlock gs rq rp cl i k :
    gs !! i = Some (Vis Unlock k) ->
    step (mkState gs true rq rp cl) (Unlocked i) (mkState (<[i := k tt]> gs) false rq rp cl)
| step_send gs m rq rp i b k :
    gs !! i = Some (Vis (Conn (Send (Write b))) k) ->
    step (mkState gs m rq rp false) (Called i (Ev (Send (Write b)) None))
      (mkState (<[i := k None]> gs) m (rq ++ b) rp false)
| step_refuse gs m rq rp i b k :
    gs !! i = Some (Vis (Conn (Send (Write b))) k) ->
    step (mkState gs m rq rp true) (Called i (Ev (Send (Write b)) (Some ErrClosed)))
      (mkState (<[i := k (Some ErrClosed)]> gs) m rq rp true)
| step_receive gs m rq rp cl i l rest k :
    gs !! i = Some (Vis (Conn ReadLine) k) -> cut_line rp = Some (l, rest) ->
    step (mkState gs m rq rp cl) (Called i (Ev ReadLine (Ok l)))
      (mkState (<[i := k (Ok l)]> gs) m rq rest cl)
| step_cut gs m rq rp i k :
    gs !! i = Some (Vis (Conn ReadLine) k) ->
    step (mkState gs m rq rp true) (Called i (Ev ReadLine (Err ErrClosed)))
      (mkState (<[i := k (Err ErrClosed)]> gs) m rq rp true)
| step_serve gs m rq rp cl l rest req tr resp b :
    cut_line rq = Some (l, rest) -> unmarshal l = Ok req ->
    exec (dispatch (F := handlerE) errno_text req) tr resp -> marshal resp = Ok b ->
    step (mkState gs m rq rp cl) (Served l resp) (mkState gs m rest (rp ++ b ++ [newline]) cl)
| step_close gs m rq rp cl :
    step (mkState gs m rq rp cl) Closed (mkState gs m rq rp true).

Inductive steps (s : state) : list occurrence -> state -> Prop :=
| steps_none : steps s [] s
| steps_snoc h s' o s'' : steps s h s' -> step s' o s'' -> steps s (h ++ [o]) s''.

(** Goroutines about to send these requests, on a new connection. *)
Definition start (reqs : list Request.t) : state :=
  mkState (map locked_Do reqs) false [] [] false.

(** ** What a call returns *)

Definition served (h : list occurrence) : list (bytes * Response.t) :=
  omap (fun o => match o with Served l resp => Some (l, resp) | _ => None end) h.

(** In a part of a history only goroutine [i] uses the connection and the
    mutex stays as it is. *)
Definition alone (i : nat) (h : list occurrence) : Prop :=
  Forall (fun o => match o with
                   | Called j _ => j = i
                   | Locked _ | Unlocked _ => False
                   | _ => True
                   end) h.

(** The reply the server gave to [req], and nothing else, was served. *)
Definition answered (req : Request.t) (sv : list (bytes * Response.t)) (resp : Response.t) : Prop :=
  sv = [(line req, resp)] /\ exists tr, exec (dispatch (F := handlerE) errno_text req) tr resp.

(** [r] is what the exchange of [req] gives: the reply to it, or an error that
    is due to the client being closed. *)
Definition exchanged (req : Request.t) (gone : Prop) (sv : list (bytes * Response.t))
    (r : result Response.t) : Prop :=
  (exists resp, answered req sv resp /\ r = unmarshal (line resp)) \/
  (gone /\ r = Err ErrClosed).

(** ** The next call of a goroutine *)

Abbreviation routine := (prog callE (result Response.t)).

Definition lock_call {R} (e : callE R) : (R -> routine) -> option routine :=
  match e in callE R return (R -> routine) -> option routine with
  | Lock => fun k => Some (k tt)
  | _ => fun _ => None
  end.
Definition unlock_call {R} (e : callE R) : (R -> routine) -> option routine :=
  match e in callE R return (R -> routine) -> option routine with
  | Unlock => fun k => Some (k tt)
  | _ => fun _ => None
  end.
Definition write_call {R} (w : writeE R) : (R -> routine) -> option (bytes * (option error -> routine)) :=
  match w in writeE R return (R -> routine) -> option (bytes * (option error -> routine)) with
  | Write b => fun k => Some (b, k)
  end.
Definition conn_send {R} (e : connE R) : (R -> routine) -> option (bytes * (option error -> routine)) :=
  match e in connE R return (R -> routine) -> option (bytes * (option error -> routine)) with
  | Send w => write_call w
  | _ => fun _ => None
  end.
Definition conn_read {R} (e : connE R) : (R -> routine) -> option (result bytes -> routine) :=
  match e in connE R return (R -> routine) -> option (result bytes -> routine) with
  | ReadLine => fun k => Some k
  | _ => fun _ => None
  end.
Definition send_call {R} (e : callE R) : (R -> routine) -> option (bytes * (option error -> routine)) :=
  match e in callE R return (R -> routine) -> option (bytes * (option error -> routine)) with
  | Conn e => conn_send e
  | _ => fun _ => None
  end.
Definition read_call {R} (e : callE R) : (R -> routine) -> option (result bytes -> routine) :=
  match e in callE R return (R -> routine) -> option (result bytes -> routine) with
  | Conn e => conn_read e
  | _ => fun _ => None
  end.

(** What a program does after its first call, if it is of a kind. *)
Definition first_call {X} (f : forall R, callE R -> (R -> routine) -> option X) (p : routine) : option X :=
  match p with Ret _ => None | Vis e k => f _ e k end.
Definition on_lock : routine -> option routine := first_call (@lock_call).
Definition on_unlock : routine -> option routine := first_call (@unlock_call).
Definition on_send : routine -> option (bytes * (option error -> routine)) := first_call (@send_call).
Definition on_read : routine -> option (result bytes -> routine) := first_call (@read_call).

(** ** A goroutine that holds the mutex *)

Definition finish (r : result Response.t) : prog callE (result Response.t) :=
  Vis Unlock (fun _ => Ret r).
Definition written (err : option error) : prog callE (result Response.t) :=
  let! r := hoist (F := callE) (fun _ e => Conn e)
              match err with
              | Some e => Ret (Err e)
              | None => let! line := call ReadLine in Ret (decode_line line)
              end in
  do! call Unlock in
  Ret r.
Definition sending (req : Request.t) : prog callE (result Response.t) :=
  Vis (Conn (Send (Write (line req)))) written.

Inductive holding (req : Request.t) (sv : list (bytes * Response.t)) (rq rp : bytes) (cl : bool)
    : prog callE (result Response.t) -> Prop :=
| holding_start :
    cl = true \/ (sv = [] /\ rq = [] /\ rp = []) -> holding req sv rq rp cl (sending req)
| holding_sent : sv = [] -> rq = line req -> rp = [] -> holding req sv rq rp cl (written None)
| holding_served resp :
    answered req sv resp -> rq = [] -> rp = line resp -> holding req sv rq rp cl (written None)
| holding_done resp :
    answered req sv resp -> rq = [] -> rp = [] ->
    holding req sv rq rp cl (finish (unmarshal (line resp)))
| holding_failed : cl = true -> holding req sv rq rp cl (finish (Err ErrClosed)).

(** Between exchanges: waiting or returned. *)
Definition outside (h : list occurrence) (reqs : list Request.t) (i : nat)
    (p : prog callE (result Response.t)) : Prop :=
  (exists req, reqs !! i = Some req /\ p = locked_Do req) \/
  (exists req r h1 h2 h3, reqs !! i = Some req /\ p = Ret r /\
     h = h1 ++ Locked i :: h2 ++ Unlocked i :: h3 /\ alone i h2 /\
     exchanged req (Closed ∈ h) (served h2) r).

Definition invariant (reqs : list Request.t) (h : list occurrence) (s : state) : Prop :=
  (closed s = true -> Closed ∈ h) /\
  if locked s then
    exists i req p h1 h2,
      reqs !! i = Some req /\ routines s !! i = Some p /\ h = h1 ++ Locked i :: h2 /\ alone i h2 /\
      holding req (served h2) (requests s) (replies s) (closed s) p /\
      forall j q, j <> i -> routines s !! j = Some q -> outside h reqs j q
  else
    (closed s = true \/ (requests s = [] /\ replies s = [])) /\
    forall j q, routines s !! j = Some q -> outside h reqs j q.

Lemma locked_Do_sending req : locked_Do req = Vis Lock (fun _ => sending req).
Proof.
  unfold locked_Do, Do, writeMessage. destruct (marshal_encode req) as [Hm _]. by rewrite Hm.
Qed.

Lemma cut_line_message {A} `{CodecLaws A} (a : A) s : cut_line (line a ++ s) = Some (line a, s).
Proof. apply cut_line_line, marshal_encode. Qed.

Lemma cut_line_only {A} `{CodecLaws A} (a : A) : cut_line (line a) = Some (line a, []).
Proof. rewrite <- (app_nil_r (line a)) at 1. apply cut_line_message. Qed.

(** ** Histories *)

Lemma served_app h1 h2 : served (h1 ++ h2) = served h1 ++ served h2.
Proof. apply omap_app. Qed.

Lemma exchanged_weaken req (P Q : Prop) sv r :
  (P -> Q) -> exchanged req P sv r -> exchanged req Q sv r.
Proof. intros HPQ [Ha|[HP Hr]]; [by left|right; auto]. Qed.

Lemma outside_snoc h o reqs i p : outside h reqs i p -> outside (h ++ [o]) reqs i p.
Proof.
  intros [Hw|(req & r & h1 & h2 & h3 & Hi & -> & -> & Ha & He)]; [by left|right].
  exists req, r, h1, h2, (h3 ++ [o]). split; [done|]. split; [done|].
  split; [by rewrite <- app_assoc; cbn; rewrite <- app_assoc|]. split; [done|].
  eapply exchanged_weaken; [|done]. intros Hc. apply elem_of_app. by left.
Qed.

(** A goroutine outside an exchange has only the mutex to take. *)
Lemma outside_call h reqs i R (e : connE R) k : ~ outside h reqs i (Vis (Conn e) k).
Proof.
  intros [(req & _ & Hp)|(req & r & h1 & h2 & h3 & _ & Hp & _)]; [|done].
  by rewrite locked_Do_sending in Hp.
Qed.

Lemma outside_unlock h reqs i k : ~ outside h reqs i (Vis Unlock k).
Proof.
  intros [(req & _ & Hp)|(req & r & h1 & h2 & h3 & _ & Hp & _)]; [|done].
  by rewrite locked_Do_sending in Hp.
Qed.

Lemma outside_lock h reqs i k :
  outside h reqs i (Vis Lock k) -> exists req, reqs !! i = Some req /\ k tt = sending req.
Proof.
  intros [(req & Hi & Hp)|(req & r & h1 & h2 & h3 & _ & Hp & _)]; [|done].
  rewrite locked_Do_sending in Hp. exists req. split; [done|].
  apply (f_equal on_lock) in Hp. by injection Hp.
Qed.

(** ** The steps of the goroutine that holds the mutex *)

Lemma holding_unlock req sv rq rp cl k :
  holding req sv rq rp cl (Vis Unlock k) ->
  exists r, k tt = Ret r /\ exchanged req (cl = true) sv r /\ (cl = true \/ (rq = [] /\ rp = [])).
Proof.
  remember (Vis Unlock k) as p eqn:Hp. apply (f_equal on_unlock) in Hp. cbn in Hp.
  intros Hh. destruct Hh; try done; injection Hp as <-.
  - eexists. split; [done|]. split; [left; eauto|auto].
  - eexists. split; [done|]. split; [by right|auto].
Qed.

Lemma holding_send req sv rq rp cl b k :
  holding req sv rq rp cl (Vis (Conn (Send (Write b))) k) ->
  b = line req /\ k = written /\ (cl = true \/ (sv = [] /\ rq = [] /\ rp = [])).
Proof.
  remember (Vis (Conn (Send (Write b))) k) as p eqn:Hp. apply (f_equal on_send) in Hp. cbn in Hp.
  intros Hh. by destruct Hh; try done; injection Hp as <- <-.
Qed.

Lemma holding_read req sv rq rp cl k :
  holding req sv rq rp cl (Vis (Conn ReadLine) k) ->
  k = (fun l => finish (decode_line l)) /\
  ((sv = [] /\ rq = line req /\ rp = []) \/
   (exists resp, answered req sv resp /\ rq = [] /\ rp = line resp)).
Proof.
  remember (Vis (Conn ReadLine) k) as p eqn:Hp. apply (f_equal on_read) in Hp. cbn in Hp.
  intros Hh. destruct Hh; try done; injection Hp as <-; (split; [done|]); eauto.
Qed.

Lemma holding_not_lock req sv rq rp cl k : ~ holding req sv rq rp cl (Vis Lock k).
Proof.
  remember (Vis Lock k) as p eqn:Hp. apply (f_equal on_lock) in Hp. cbn in Hp.
  intros Hh. by destruct Hh.
Qed.

(** The server answers the request that is on its way. *)
Lemma holding_serve req sv rq rp cl p l rest req' tr resp b :
  codec_valid req -> holding req sv rq rp cl p ->
  cut_line rq = Some (l, rest) -> unmarshal l = Ok req' ->
  exec (dispatch (F := handlerE) errno_text req') tr resp -> marshal resp = Ok b ->
  holding req (sv ++ [(l, resp)]) rest (rp ++ b ++ [newline]) cl p.
Proof.
  intros Hv Hh Hcut Hu He Hm. destruct Hh as [Hs|Hs -> ->|resp' Hs -> ->|resp' Hs -> ->|Hc]; try done.
  - destruct Hs as [->|(-> & -> & ->)]; [|done]. apply holding_start. by left.
  - rewrite cut_line_only in Hcut. injection Hcut as <- <-. subst sv.
    destruct (marshal_encode req) as [Hq _]. unfold line in Hu.
    rewrite (unmarshal_marshal req _ Hv Hq) in Hu. injection Hu as <-.
    destruct (marshal_encode resp) as [Hr _]. rewrite Hr in Hm. injection Hm as <-.
    eapply holding_served; [|done..]. split; [done|by exists tr].
  - by apply holding_failed.
Qed.

(** ** The invariant *)

Section Invariant.
Context (reqs : list Request.t) (valid : Forall codec_valid reqs).

Lemma invariant_start : invariant reqs [] (start reqs).
Proof.
  split; [done|]. cbn. split; [auto|]. intros j q Hq.
  rewrite list_lookup_fmap in Hq. apply fmap_Some in Hq as (req & Hj & ->). left. by exists req.
Qed.

(** The goroutines other than [i] stay as they are. *)
Lemma others_insert h o (gs : list routine) i q :
  (forall j q', j <> i -> gs !! j = Some q' -> outside h reqs j q') ->
  forall j q', j <> i -> <[i := q]> gs !! j = Some q' -> outside (h ++ [o]) reqs j q'.
Proof.
  intros Ho j q' Hj. rewrite list_lookup_insert_ne by done. intros Hq. by apply outside_snoc, Ho.
Qed.

(** A step of the goroutine that holds the mutex, or of the server, or a close. *)
Lemma invariant_inside h o i req gs p h1 h2 rq rp cl :
  reqs !! i = Some req -> gs !! i = Some p -> h = h1 ++ Locked i :: h2 -> alone i (h2 ++ [o]) ->
  holding req (served (h2 ++ [o])) rq rp cl p ->
  (cl = true -> Closed ∈ h ++ [o]) ->
  (forall j q, j <> i -> gs !! j = Some q -> outside (h ++ [o]) reqs j q) ->
  invariant reqs (h ++ [o]) (mkState gs true rq rp cl).
Proof.
  intros Hi Hp -> Ha Hh Hc Ho. split; [done|]. cbn.
  exists i, req, p, h1, (h2 ++ [o]). do 2 (split; [done|]).
  split; [by rewrite <- app_assoc|]. done.
Qed.

Lemma alone_snoc i h o :
  alone i h -> match o with Called j _ => j = i | Locked _ | Unlocked _ => False | _ => True end ->
  alone i (h ++ [o]).
Proof. intros Ha Ho. apply Forall_app. split; [done|]. by constructor. Qed.

Lemma closed_snoc h o (P : Prop) : (P -> Closed ∈ h) -> P -> Closed ∈ h ++ [o].
Proof. intros HP Hx. apply elem_of_app. left. auto. Qed.

Lemma invariant_lock h gs rq rp cl i k :
  invariant reqs h (mkState gs false rq rp cl) -> gs !! i = Some (Vis Lock k) ->
  invariant reqs (h ++ [Locked i]) (mkState (<[i := k tt]> gs) true rq rp cl).
Proof.
  intros [Hcl [Hq Ho]] Hk. cbn in Hcl, Hq, Ho.
  destruct (outside_lock _ _ _ _ (Ho _ _ Hk)) as (req & Hi & Hkq).
  split; [by apply closed_snoc|]. cbn. exists i, req, (sending req), h, [].
  split; [done|]. split; [rewrite Hkq; by apply list_lookup_insert_eq, (lookup_lt_Some _ _ _ Hk)|].
  split; [done|]. split; [constructor|].
  split; [apply holding_start; destruct Hq as [->|[-> ->]]; auto|].
  apply others_insert. auto.
Qed.

Lemma invariant_unlock h gs rq rp cl i k :
  invariant reqs h (mkState gs true rq rp cl) -> gs !! i = Some (Vis Unlock k) ->
  invariant reqs (h ++ [Unlocked i]) (mkState (<[i := k tt]> gs) false rq rp cl).
Proof.
  intros [Hcl (i0 & req & p & h1 & h2 & Hi & Hp & -> & Ha & Hh & Ho)] Hk. cbn in *.
  destruct (decide (i = i0)) as [->|Hne]; [|by apply Ho, outside_unlock in Hk].
  rewrite Hk in Hp. injection Hp as <-. apply holding_unlock in Hh as (r & Hr & Hex & Hq).
  split; [by apply closed_snoc|]. cbn. split; [done|]. intros j q Hj.
  destruct (decide (j = i0)) as [->|Hne].
  - rewrite list_lookup_insert_eq in Hj by (by eapply lookup_lt_Some). injection Hj as <-. right.
    exists req, r, h1, h2, []. split; [done|]. split; [done|].
    split; [by rewrite <- app_assoc|]. split; [done|].
    eapply exchanged_weaken; [|done]. by apply closed_snoc.
  - by apply (others_insert (h1 ++ Locked i0 :: h2) _ gs i0 (k tt) Ho j q).
Qed.

(** Only the goroutine that holds the mutex uses the connection. *)
Lemma invariant_call h gs m rq rp rq' rp' cl i R (e : connE R) k r :
  invariant reqs h (mkState gs m rq rp cl) -> gs !! i = Some (Vis (Conn e) k) ->
  (forall req sv, holding req sv rq rp cl (Vis (Conn e) k) -> holding req sv rq' rp' cl (k r)) ->
  invariant reqs (h ++ [Called i (Ev e r)]) (mkState (<[i := k r]> gs) m rq' rp' cl).
Proof.
  intros [Hcl Hinv] Hk Hstep. cbn in Hcl, Hinv.
  destruct m; [|by destruct Hinv as [_ Ho]; apply Ho, outside_call in Hk].
  destruct Hinv as (i0 & req & p & h1 & h2 & Hi & Hp & Hh & Ha & Hold & Ho).
  destruct (decide (i = i0)) as [->|Hne]; [|by apply Ho, outside_call in Hk].
  rewrite Hk in Hp. injection Hp as <-.
  eapply invariant_inside; [done|by apply list_lookup_insert_eq, (lookup_lt_Some _ _ _ Hk)|done
    |by apply alone_snoc| |by apply closed_snoc|by apply others_insert].
  rewrite served_app, app_nil_r. by apply Hstep.
Qed.

(** A step that moves no goroutine. *)
Lemma invariant_other h o gs m rq rp rq' rp' cl cl' :
  invariant reqs h (mkState gs m rq rp cl) ->
  match o with Served _ _ | Closed => True | _ => False end ->
  (cl' = true -> Closed ∈ h ++ [o]) ->
  (cl = true \/ (rq = [] /\ rp = []) -> cl' = true \/ (rq' = [] /\ rp' = [])) ->
  (forall req sv p, codec_valid req -> holding req sv rq rp cl p ->
     holding req (sv ++ served [o]) rq' rp' cl' p) ->
  invariant reqs (h ++ [o]) (mkState gs m rq' rp' cl').
Proof.
  intros [Hcl Hinv] Ho Hc Hquiet Hstep. cbn in Hcl, Hinv. destruct m.
  - destruct Hinv as (i & req & p & h1 & h2 & Hi & Hp & Hh & Ha & Hold & Hout).
    eapply invariant_inside; [done..|apply alone_snoc; [done|by destruct o]| |done|].
    + rewrite served_app. apply Hstep; [by eapply Forall_lookup_1|done].
    + intros j q Hj Hq. by apply outside_snoc, Hout.
  - destruct Hinv as [Hq Hout]. split; [done|]. split; [by apply Hquiet|].
    intros j q Hj. by apply outside_snoc, Hout.
Qed.

Lemma invariant_step h s o s' : invariant reqs h s -> step s o s' -> invariant reqs (h ++ [o]) s'.
Proof.
  intros Hinv Hs.
  destruct Hs as [gs rq rp cl i k Hk|gs rq rp cl i k Hk|gs m rq rp i b k Hk|gs m rq rp i b k Hk
                 |gs m rq rp cl i l rest k Hk Hcut|gs m rq rp i k Hk
                 |gs m rq rp cl l rest req' tr resp b Hcut Hu He Hm|gs m rq rp cl].
  - by apply invariant_lock.
  - by apply invariant_unlock.
  - eapply invariant_call; [done..|]. intros req sv Hh.
    apply holding_send in Hh as (-> & -> & [?|(-> & -> & ->)]); [done|]. by apply holding_sent.
  - eapply invariant_call; [done..|]. intros req sv Hh.
    apply holding_send in Hh as (-> & -> & _). by apply holding_failed.
  - eapply invariant_call; [done..|]. intros req sv Hh.
    apply holding_read in Hh as (-> & [(_ & _ & ->)|(resp & Hans & -> & ->)]); [done|].
    rewrite cut_line_only in Hcut. injection Hcut as <- <-. by apply holding_done.
  - eapply invariant_call; [done..|]. intros req sv Hh.
    apply holding_read in Hh as (-> & _). by apply holding_failed.
  - eapply invariant_other; [done|done|apply closed_snoc, Hinv| |].
    + intros [Hc|[-> ->]]; [by left|done].
    + intros req sv p Hv Hh. by eapply holding_serve.
  - eapply invariant_other; [done|done| |by left|].
    + intros _. apply elem_of_app. right. by constructor.
    + intros req sv p _ Hh. rewrite app_nil_r.
      destruct Hh; eauto using holding_start, holding_sent, holding_served, holding_done, holding_failed.
Qed.

Lemma invariant_steps h s : steps (start reqs) h s -> invariant reqs h s.
Proof. induction 1; [apply invariant_start|by eapply invariant_step]. Qed.

(** C12: however goroutines share a Client and whenever it is closed, a call of
    [Do] that has returned held the mutex from before its request to after its
    reply, no other goroutine used the connection in between, and either the
    server was given exactly one request meanwhile, its own, and it returned the
    reply to it, or the client was closed and the error says so. *)
Theorem client_shared (h : list occurrence) (s : state) (i : nat) (req : Request.t)
    (r : result Response.t) :
  steps (start reqs) h s -> reqs !! i = Some req -> routines s !! i = Some (Ret r) ->
  exists h1 h2 h3, h = h1 ++ Locked i :: h2 ++ Unlocked i :: h3 /\ alone i h2 /\
    ((exists tr resp, exec (dispatch (F := handlerE) errno_text req) tr resp /\
        served h2 = [(line req, resp)] /\ (codec_valid resp -> r = Ok resp)) \/
     (Closed ∈ h /\ r = Err ErrClosed)).
Proof.
  intros Hs Hi Hr. apply invariant_steps in Hs as [_ Hinv].
  assert (outside h reqs i (Ret r)) as Hout.
  { destruct (locked s); [|by apply Hinv].
    destruct Hinv as (i0 & req0 & p & h1 & h2 & _ & Hp & _ & _ & Hh & Ho).
    destruct (decide (i = i0)) as [->|Hne]; [|by apply Ho].
    rewrite Hr in Hp. injection Hp as <-. inversion Hh. }
  destruct Hout as [(req' & _ & Hp)|(req' & r' & h1 & h2 & h3 & Hi' & [= <-] & Hh & Ha & He)].
  { by rewrite locked_Do_sending in Hp. }
  rewrite Hi in Hi'. injection Hi' as <-. exists h1, h2, h3. split; [done|]. split; [done|].
  destruct He as [(resp & [Hsv [tr Htr]] & ->)|[Hc ->]]; [left|by right].
  exists tr, resp. split; [done|]. split; [done|]. intros Hv.
  by apply (unmarshal_marshal resp), marshal_encode.
Qed.

(** ** Nobody waits for ever *)

(** A state that steps lead to. *)
Definition leads (s s' : state) : Prop := exists h, steps s h s'.

Lemma leads_step s o s' s'' : step s o s' -> leads s' s'' -> leads s s''.
Proof.
  intros Ho [h Hs]. exists (o :: h). induction Hs as [|h s1 o1 s2 _ IH Hs2].
  - apply (steps_snoc s [] s o); [constructor|done].
  - by apply (steps_snoc s (o :: h) s1 o1 s2).
Qed.

Lemma leads_trans s1 s2 s3 : leads s1 s2 -> leads s2 s3 -> leads s1 s3.
Proof.
  intros [h1 Hs1] [h2 Hs2]. exists (h1 ++ h2). induction Hs2 as [|h s' o s'' _ IH Ho].
  - by rewrite app_nil_r.
  - rewrite app_assoc. by apply steps_snoc with s'.
Qed.

(** Goroutine [i] is the next to return. *)
Definition returns (i : nat) (s : state) : Prop :=
  exists r rq rp, leads s (mkState (<[i := Ret r]> (routines s)) false rq rp (closed s)).

Lemma returns_step i s o gs q m rq rp cl :
  step s o (mkState (<[i := q]> gs) m rq rp cl) -> gs = routines s -> cl = closed s ->
  returns i (mkState (<[i := q]> gs) m rq rp cl) -> returns i s.
Proof.
  intros Ho -> -> (r & rq' & rp' & Hl). cbn in Hl. rewrite list_insert_insert_eq in Hl.
  exists r, rq', rp'. by eapply leads_step.
Qed.

Lemma finish_returns i gs rq rp cl r :
  gs !! i = Some (finish r) -> returns i (mkState gs true rq rp cl).
Proof.
  intros Hi. exists r, rq, rp. eapply leads_step; [apply step_unlock; exact Hi|]. exists []. constructor.
Qed.

Lemma read_returns i gs rp resp cl :
  gs !! i = Some (written None) -> rp = line resp -> returns i (mkState gs true [] rp cl).
Proof.
  intros Hi ->. eapply returns_step; [eapply step_receive; [exact Hi|apply cut_line_only]|done|done|].
  apply (finish_returns i _ _ _ _ (unmarshal (line resp))).
  by apply list_lookup_insert_eq, (lookup_lt_Some _ _ _ Hi).
Qed.

(** Some handler answers every request. *)
Lemma dispatch_replies req : exists tr resp, exec (dispatch (F := handlerE) errno_text req) tr resp.
Proof.
  pose (answers := (fun R c u =>
    (match c in handlerE R return R with
     | HConnect _ _ | HDisconnect => None
     | HStatus => Status.mk StateDisconnected "" "" []
     | HLogs _ => []
     | HParseConfig _ => Err ErrClosed
     | HSerializeConfig _ => Err ErrClosed
     end, u)) : handler handlerE unit).
  eexists _, _. apply (run_exec answers (dispatch errno_text req) tt).
Qed.

Lemma sent_returns i (req : Request.t) gs cl :
  codec_valid req -> gs !! i = Some (written None) ->
  returns i (mkState gs true (line req) [] cl).
Proof.
  intros Hv Hi. destruct (dispatch_replies req) as (tr & resp & He).
  destruct (marshal_encode req) as [Hq _]. destruct (marshal_encode resp) as [Hr _].
  assert (step (mkState gs true (line req) [] cl) (Served (line req) resp)
            (mkState gs true [] (line resp) cl)) as Hs.
  { eapply (step_serve gs true (line req) [] cl); [apply cut_line_only| |done|exact Hr].
    by apply (unmarshal_marshal req). }
  destruct (read_returns i gs _ resp cl Hi eq_refl) as (r & rq & rp & Hl).
  exists r, rq, rp. by eapply leads_step.
Qed.

Lemma holding_returns i (req : Request.t) sv gs rq rp cl p :
  codec_valid req -> gs !! i = Some p -> holding req sv rq rp cl p ->
  returns i (mkState gs true rq rp cl).
Proof.
  intros Hv Hi Hh. pose proof (lookup_lt_Some _ _ _ Hi) as Hlt.
  destruct Hh as [Hs|_ -> ->|resp _ -> ->|resp _ -> ->|_].
  - destruct cl.
    + eapply returns_step; [eapply step_refuse; exact Hi|done|done|].
      by eapply finish_returns, list_lookup_insert_eq.
    + destruct Hs as [?|(_ & -> & ->)]; [done|].
      eapply returns_step; [eapply step_send; exact Hi|done|done|].
      apply sent_returns; [done|by apply list_lookup_insert_eq].
  - by apply sent_returns.
  - by eapply read_returns.
  - by eapply finish_returns.
  - by eapply finish_returns.
Qed.

(** A goroutine that waits can have its turn, once the mutex is free. *)
Lemma waiting_returns i h s p :
  invariant reqs h s -> locked s = false -> routines s !! i = Some p ->
  (exists r, p = Ret r) \/ returns i s.
Proof.
  intros Hinv Hl Hi. destruct s as [gs m rq rp cl]. cbn in Hl, Hi. subst m.
  destruct (proj2 (proj2 Hinv) i p Hi) as [(req & Hreq & ->)|(req & r & _ & _ & _ & _ & -> & _)];
    [right|left; by exists r].
  rewrite locked_Do_sending in Hi. pose proof (step_lock gs rq rp cl i _ Hi) as Hs.
  eapply returns_step; [exact Hs|done|done|]. cbn.
  pose proof (lookup_lt_Some _ _ _ Hi) as Hlt.
  apply (holding_returns i req []) with (sending req); [by eapply Forall_lookup_1|by apply list_lookup_insert_eq|].
  apply holding_start. destruct Hinv as [_ [[Hc|[Hq Hp]] _]]; auto.
Qed.

(** The first [n] goroutines have returned. *)
Definition returned (n : nat) (s : state) : Prop :=
  forall i p, (i < n)%nat -> routines s !! i = Some p -> exists r, p = Ret r.

Lemma returned_next n s :
  returned n s -> (forall p, routines s !! n = Some p -> exists r, p = Ret r) -> returned (S n) s.
Proof.
  intros Hr Hn i p Hi. destruct (decide (i = n)) as [->|]; [apply Hn|]. apply Hr. lia.
Qed.

Lemma steps_leads s h s' s'' : steps s h s' -> leads s' s'' -> exists h', steps s h' s''.
Proof. intros Hs Hl. apply (leads_trans s s' s''); [by exists h|done]. Qed.

Lemma free_mutex h s :
  steps (start reqs) h s -> exists s', leads s s' /\ locked s' = false /\ closed s' = closed s.
Proof.
  intros Hs. destruct (invariant_steps h s Hs) as [_ Hinv]. destruct s as [gs [|] rq rp cl]; cbn in Hinv.
  - destruct Hinv as (i & req & p & h1 & h2 & Hi & Hp & _ & _ & Hh & _).
    assert (codec_valid req) as Hv by (by eapply Forall_lookup_1).
    destruct (holding_returns i req (served h2) gs rq rp cl p Hv Hp Hh) as (r & rq' & rp' & Hl).
    eexists. split; [exact Hl|by split].
  - eexists. split; [exists []; constructor|by split].
Qed.

Lemma all_return n h s :
  steps (start reqs) h s -> exists s', leads s s' /\ locked s' = false /\ closed s' = closed s /\ returned n s'.
Proof.
  intros Hs. induction n as [|n IH].
  - destruct (free_mutex h s Hs) as (s' & Hl & Hf & Hc). exists s'. split; [done|]. split; [done|].
    split; [done|]. intros i p Hi. lia.
  - destruct IH as (s' & Hl & Hf & Hc & Hret). destruct (steps_leads _ _ _ _ Hs Hl) as [h' Hs'].
    destruct (routines s' !! n) as [p|] eqn:Hn.
    + destruct (waiting_returns n h' s' p (invariant_steps h' s' Hs') Hf Hn) as [[r ->]|(r & rq & rp & Hl')].
      * exists s'. split; [done|]. split; [done|]. split; [done|]. apply returned_next; [done|].
        intros q Hq. rewrite Hn in Hq. injection Hq as <-. by exists r.
      * eexists. split; [by eapply leads_trans|]. split; [done|]. split; [exact Hc|].
        apply returned_next; cbn.
        -- intros i q Hi. cbn. rewrite list_lookup_insert_ne by lia. by apply Hret.
        -- intros q Hq. rewrite list_lookup_insert_eq in Hq by (by eapply lookup_lt_Some).
           injection Hq as <-. by exists r.
    + exists s'. split; [done|]. split; [done|]. split; [done|]. apply returned_next; [done|].
      intros q Hq. by rewrite Hn in Hq.
Qed.

Lemma length_steps s h s' : steps s h s' -> length (routines s') = length (routines s).
Proof.
  induction 1 as [|h s' o s'' _ IH Hs]; [done|]. rewrite <- IH.
  by destruct Hs; cbn; rewrite ?length_insert.
Qed.

(** C13: no call of [Do] waits for ever: from every state that goroutines sharing
    a Client can reach, closed or not, all of them can return, if the mutex and
    the server come to them, and without the client being closed for it. *)
Theorem client_returns (h : list occurrence) (s : state) :
  steps (start reqs) h s ->
  exists h' s', steps s h' s' /\ closed s' = closed s /\
    forall p, p ∈ routines s' -> exists r, p = Ret r.
Proof.
  intros Hs. destruct (all_return (length (routines s)) h s Hs) as (s' & [h' Hl] & _ & Hc & Hret).
  exists h', s'. split; [done|]. split; [done|]. intros p [i Hi]%list_elem_of_lookup. apply (Hret i p); [|done].
  rewrite <- (length_steps s h' s' Hl). by eapply lookup_lt_Some.
Qed.
End Invariant.

(** ** Running a schedule *)

Inductive choice : Type := Turn (i : nat) | Serve | Shut.

Context (answers : handler handlerE unit).

Definition turn_write (i : nat) (s : state) {R} (w : writeE R) :
    (R -> routine) -> option (occurrence * state) :=
  match w in writeE R return (R -> routine) -> option (occurrence * state) with
  | Write b => fun k =>
      let err := if closed s then Some ErrClosed else None in
      Some (Called i (Ev (Send (Write b)) err),
            mkState (<[i := k err]> (routines s)) (locked s)
              (if closed s then requests s else requests s ++ b) (replies s) (closed s))
  end.

Definition turn_conn (i : nat) (s : state) {R} (e : connE R) :
    (R -> routine) -> option (occurrence * state) :=
  match e in connE R return (R -> routine) -> option (occurrence * state) with
  | Send w => turn_write i s w
  | ReadLine => fun k =>
      match cut_line (replies s) with
      | Some (l, rest) =>
          Some (Called i (Ev ReadLine (Ok l)),
                mkState (<[i := k (Ok l)]> (routines s)) (locked s) (requests s) rest (closed s))
      | None => None
      end
  | Conn_Close => fun _ => None
  end.

Definition turn (i : nat) (s : state) {R} (e : callE R) :
    (R -> routine) -> option (occurrence * state) :=
  match e in callE R return (R -> routine) -> option (occurrence * state) with
  | Lock => fun k =>
      if locked s then None
      else Some (Locked i, mkState (<[i := k tt]> (routines s)) true (requests s) (replies s) (closed s))
  | Unlock => fun k =>
      if locked s
      then Some (Unlocked i, mkState (<[i := k tt]> (routines s)) false (requests s) (replies s) (closed s))
      else None
  | Conn e => turn_conn i s e
  end.

Definition play (c : choice) (s : state) : option (occurrence * state) :=
  match c with
  | Turn i => match routines s !! i with Some (Vis e k) => turn i s e k | _ => None end
  | Serve =>
      match cut_line (requests s) with
      | Some (l, rest) =>
          match unmarshal l with
          | Ok req =>
              let resp := (run (traced answers) (dispatch errno_text req) (tt, [])).1 in
              match marshal resp with
              | Ok b => Some (Served l resp,
                              mkState (routines s) (locked s) rest (replies s ++ b ++ [newline]) (closed s))
              | Err _ => None
              end
          | Err _ => None
          end
      | None => None
      end
  | Shut => Some (Closed, mkState (routines s) (locked s) (requests s) (replies s) true)
  end.

Fixpoint play_all (cs : list choice) (h : list occurrence) (s : state) : list occurrence * state :=
  match cs with
  | [] => (h, s)
  | c :: cs =>
      match play c s with
      | Some (o, s') => play_all cs (h ++ [o]) s'
      | None => (h, s)
      end
  end.

Lemma turn_step i s R (e : callE R) k o s' :
  routines s !! i = Some (Vis e k) -> turn i s e k = Some (o, s') -> step s o s'.
Proof.
  destruct s as [gs m rq rp cl]. cbn [routines]. intros Hi.
  destruct e as [| |R e]; cbn [turn locked].
  - destruct m; [done|]. intros [= <- <-]. by apply step_lock.
  - destruct m; [|done]. intros [= <- <-]. by apply step_unlock.
  - destruct e as [R [b]| |]; cbn; [| |done].
    + intros [= <- <-]. destruct cl; [by apply step_refuse|by apply step_send].
    + destruct (cut_line rp) as [[l rest]|] eqn:Hc; [|done]. intros [= <- <-].
      by apply step_receive.
Qed.

Lemma play_one_step c s o s' : play c s = Some (o, s') -> step s o s'.
Proof.
  destruct c as [i| |]; cbn [play].
  - destruct (routines s !! i) as [[r|R e k]|] eqn:Hi; [done| |done]. by apply turn_step.
  - destruct s as [gs m rq rp cl]. cbn.
    destruct (cut_line rq) as [[l rest]|] eqn:Hc; [|done].
    destruct (unmarshal l) as [req|] eqn:Hu; [|done].
    destruct (marshal _) as [b|] eqn:Hm; [|done]. intros [= <- <-].
    eapply step_serve; [done..| |done]. apply run_exec.
  - destruct s. intros [= <- <-]. apply step_close.
Qed.

Lemma play_all_steps cs h s0 s :
  steps s0 h s -> steps s0 (play_all cs h s).1 (play_all cs h s).2.
Proof.
  revert h s. induction cs as [|c cs IH]; intros h s Hs; [done|]. cbn [play_all].
  destruct (play c s) as [[o s']|] eqn:Hp; [|done]. apply IH. apply steps_snoc with s; [done|].
  by apply play_one_step with c.
Qed.
End Shared.

(** ** Two goroutines and a close

    The second goroutine comes while the first waits for its reply; the client
    is closed before it has the mutex. *)
Module SharedSample.
Definition answers : handler handlerE unit := fun R c u =>
  (match c in handlerE R return R with
   | HConnect _ _ | HDisconnect => None
   | HStatus => Status.mk StateConnected "Home" "veil0" []
   | HLogs _ => []
   | HParseConfig _ => Err ErrClosed
   | HSerializeConfig _ => Err ErrClosed
   end, u).

Definition text (_ : Z) : string := "".
Definition reqs : list Request.t := [Request.of_cmd CmdStatus; Request.mk CmdLogs "" "" 3 None].

Definition choices : list choice :=
  [Turn 0; Turn 0; Serve; Turn 0; Shut; Turn 0; Turn 1; Turn 1; Turn 1].
Definition played := play_all text answers choices [] (start reqs).

Lemma reqs_valid : Forall codec_valid reqs.
Proof. repeat (apply Forall_cons_2; [valid_tac|]). apply Forall_nil_2. Qed.

Lemma played_steps : steps text (start reqs) played.1 played.2.
Proof. apply play_all_steps. constructor. Qed.
End SharedSample.
Import SharedSample.

(** The first has its state; the second finds the client closed. *)
Lemma client_shared_witness :
  (exists tr resp h2, exec (dispatch text (Request.of_cmd CmdStatus) : prog handlerE _) tr resp /\
     served h2 = [(line (Request.of_cmd CmdStatus), resp)]) /\
  exists h1 h2 h3, played.1 = h1 ++ Locked 1 :: h2 ++ Unlocked 1 :: h3 /\ alone 1 h2.
Proof.
  assert (routines played.2 !! 0%nat
          = Some (Ret (Ok (Response.with_status (Status.mk StateConnected "Home" "veil0" [])))))
    as H0 by (vm_compute; reflexivity).
  assert (routines played.2 !! 1%nat = Some (Ret (Err ErrClosed))) as H1 by (vm_compute; reflexivity).
  split.
  - destruct (client_shared text reqs reqs_valid _ _ 0%nat _ _ played_steps eq_refl H0)
      as (h1 & h2 & h3 & _ & _ & [(tr & resp & He & Hsv & _)|[_ Hbad]]); [|discriminate Hbad].
    exists tr, resp, h2. split; [exact He|exact Hsv].
  - destruct (client_shared text reqs reqs_valid _ _ 1%nat _ _ played_steps eq_refl H1)
      as (h1 & h2 & h3 & Hh & Ha & _).
    exists h1, h2, h3. split; [exact Hh|exact Ha].
Defined.

(** In the middle of the first exchange, all can still return. *)
Lemma client_returns_witness :
  let s := (play_all text answers (take 2 choices) [] (start reqs)).2 in
  locked s = true /\
  exists h' s', steps text s h' s' /\ closed s' = closed s /\
    forall p, p ∈ routines s' -> exists r, p = Ret r.
Proof.
  split; [vm_compute; reflexivity|].
  eapply (client_returns text reqs reqs_valid). apply play_all_steps. constructor.
Defined.
