(* ===== verification/GoTests.v ===== *)
(** * The repository's tests, run on the model (control/logbuf_test.go, control_test.go)

    Each test of the package control as a computation: the inputs and the
    expected values are the test's. *)

From S2P Require Import Prelude GoStrings Proto LogBuf Transport JsonTypes ProtoJson Server Client.
From Stdlib Require Import ZArith Ascii String Lia.
From stdpp Require Import base list strings.
Open Scope Z_scope.
Open Scope string_scope.
Local Open Scope list_scope.

(** ** logbuf_test.go *)
Module LogBufTest.

(** Time stands still. *)
Definition clock (_ : nat) : Z := 0.

Definition msgs (ls : list LogLine.t) : list string := map LogLine.Msg ls.
Definition seqs (ls : list LogLine.t) : list Z := map LogLine.Seq ls.

(** A buffer after these appends. *)
Definition appended (capacity : Z) (ms : list string) : option LogBuffer :=
  append_all clock ms (NewLogBuffer capacity).

Definition newline_string : string := String newline EmptyString.

Example TestLogBufferAppendAndSince :
  (b ← appended 10 ["line 0"; "line 1"; "line 2"];
   Some (seqs (Since 0 b), msgs (Since 1 b), Since 3 b))
  = Some ([1; 2; 3], ["line 1"; "line 2"], []).
Proof. vm_compute. reflexivity. Qed.

Example TestLogBufferEvictsOldestAtCapacity :
  (b ← appended 3 (replicate 5 "line"); Some (seqs (Since 0 b))) = Some [3; 4; 5].
Proof. vm_compute. reflexivity. Qed.

Example TestLogBufferWriteSplitsLines :
  let p := to_bytes ("alpha" +:+ newline_string +:+ "beta" +:+ newline_string +:+ "gamma"
                     +:+ newline_string) in
  (wb ← LogBuf.Write clock p (NewLogBuffer 10); Some (wb.1, msgs (Since 0 wb.2)))
  = Some (Z.of_nat (length p), None, ["alpha"; "beta"; "gamma"]).
Proof. vm_compute. reflexivity. Qed.

Example TestLogBufferWriteIgnoresEmptyLines :
  let p := [newline; newline] ++ to_bytes "only-line" ++ [newline; newline] in
  (wb ← LogBuf.Write clock p (NewLogBuffer 10); Some (msgs (Since 0 wb.2)))
  = Some ["only-line"].
Proof. vm_compute. reflexivity. Qed.

Example TestNewLogBufferDefaultCapacity : cap (NewLogBuffer 0) = defaultLogCapacity.
Proof. reflexivity. Qed.
End LogBufTest.

(** ** control_test.go *)
Module ControlTest.
Import LogBufTest.

(** [fakeHandler] *)
Record fakeHandler : Type := mkFake {
  state : string;
  name : string;
  lastConfig : string;
  logs : option LogBuffer;
}.

Definition fresh (logs : option LogBuffer) : fakeHandler := mkFake "" "" "" logs.

Definition handle : handler handlerE fakeHandler := fun R c h =>
  match c in handlerE R return R * fakeHandler with
  | HConnect cfg name => (None, mkFake StateConnected name cfg (logs h))
  | HDisconnect => (None, mkFake StateDisconnected "" (lastConfig h) (logs h))
  | HStatus =>
      let st := if decide (state h = "") then StateDisconnected else state h in
      (Status.mk st (name h) "" [], mkFake st (name h) (lastConfig h) (logs h))
  | HLogs since => (match logs h with None => [] | Some b => Since since b end, h)
  | HParseConfig text =>
      (Ok (ParsedConfig.mk
             (ParsedInterface.mk text "" "" 0 "" "" false false "" "" 0) None), h)
  | HSerializeConfig cfg => (Ok (ParsedInterface.PrivateKey (ParsedConfig.Interface cfg)), h)
  end.

Definition text (_ : Z) : string := "".

(** A client's program on a connection to a server over the handler. *)
Definition test {A} (p : prog connE A) (h : fakeHandler) : A * fakeHandler :=
  let '(a, (h', _)) := run (link text handle) p (h, []) in (a, h').

Definition state_of (r : result Response.t) : option (bool * string * string) :=
  match r with
  | Ok resp => st ← Response.Status resp; Some (Response.OK resp, Status.State st, Status.Name st)
  | Err _ => None
  end.

(** A reply that is not OK and says why. *)
Definition refused (r : result Response.t) : bool :=
  match r with
  | Ok resp => negb (Response.OK resp) && negb (bool_decide (Response.Error resp = ""))
  | Err _ => false
  end.

Example TestControlRoundTrip :
  let '(rs, h) := test (let! r1 := Status_ in let! r2 := Connect "cfg-text" "Home" in
                        let! r3 := Status_ in let! r4 := Disconnect in
                        Ret (map state_of [r1; r2; r3; r4])) (fresh None) in
  rs = [Some (true, StateDisconnected, ""); Some (true, StateConnected, "Home");
        Some (true, StateConnected, "Home"); Some (true, StateDisconnected, "")] /\
  lastConfig h = "cfg-text".
Proof. vm_compute. split; reflexivity. Qed.

Definition result_msgs (r : result (list LogLine.t)) : option (list string) :=
  match r with Ok ls => Some (msgs ls) | Err _ => None end.

Example TestControlLogsRoundTrip :
  (b ← appended 10 ["first line"; "second line"];
   let '(r, h) := test (Logs 0) (fresh (Some b)) in
   b ← logs h; ab ← Append 0 "third line" b;
   Some (result_msgs r, result_msgs (test (Logs 2) (fresh (Some ab.2))).1))
  = Some (Some ["first line"; "second line"], Some ["third line"]).
Proof. vm_compute. reflexivity. Qed.

Definition parse_then_serialize : prog connE (result Response.t * result Response.t) :=
  let! r := Do (Request.mk CmdParseConfig "deadbeef" "" 0 None) in
  let pc := match r with Ok resp => Response.ParsedConfig resp | Err _ => None end in
  let! r' := Do (Request.mk CmdSerializeConfig "" "" 0 pc) in
  Ret (r, r').

Example TestParseAndSerializeConfigRoundTrip :
  match (test parse_then_serialize (fresh None)).1 with
  | (Ok r, Ok r') =>
      Response.OK r = true /\
      (ParsedInterface.PrivateKey ∘ ParsedConfig.Interface <$> Response.ParsedConfig r)
      = Some "deadbeef" /\
      Response.OK r' = true /\ Response.Config r' = "deadbeef"
  | _ => False
  end.
Proof. vm_compute. repeat split. Qed.

Example TestSerializeConfigRequiresParsedConfig :
  refused (test (Do (Request.of_cmd CmdSerializeConfig)) (fresh None)).1 = true.
Proof. vm_compute. reflexivity. Qed.

Example TestUnknownCommand : refused (test (Do (Request.of_cmd "bogus")) (fresh None)).1 = true.
Proof. vm_compute. reflexivity. Qed.

(** The requests come down one pipe, in chunks of five bytes, and the replies are
    read off the other. *)
Fixpoint chunked (fuel : nat) (s : bytes) : list bytes :=
  match fuel with
  | O => [s]
  | S fuel => take 5 s :: chunked fuel (drop 5 s)
  end.

Definition test_requests : bytes :=
  concat (map (fun r => encode r ++ [newline])
            [Request.of_cmd CmdStatus; Request.mk CmdConnect "cfg-text" "Home" 0 None;
             Request.of_cmd CmdDisconnect]).

Example TestServeIO :
  let '(_, (h, out)) :=
    run (serve_world handle)
      (ServeIO text (mkReader [] (chunked 40 test_requests) (ErrText "EOF"))) (fresh None, []) in
  map (fun l => state_of (unmarshal l)) (whole_lines out)
  = [Some (true, StateDisconnected, ""); Some (true, StateConnected, "Home");
     Some (true, StateDisconnected, "")] /\
  lastConfig h = "cfg-text".
Proof. vm_compute. split; reflexivity. Qed.
End ControlTest.
