(* ===== verification/Veil.v ===== *)
(** * The veil module, as the program sees it

    The packages [config] and [engine] of github.com/veil-proto/veil are not
    part of the repository.  A configuration is an arbitrary type with the
    fields the program reads ([ConfigView]); engine statistics carry the
    fields the program copies. *)

From S2P Require Import Prelude.
From Stdlib Require Import ZArith.
From stdpp Require Import base list strings.
Open Scope Z_scope.

(** The fields of [config.Config] the program reads. *)
Class ConfigView (Config : Type) : Type := {
  Interface_Address : Config -> string;
  Interface_ListenPort : Config -> Z;
  Interface_DNS : Config -> string;
  Peer : Type;
  Peers : Config -> list Peer;
  Peer_Endpoint : Peer -> string;
  Peer_AllowedIPs : Peer -> list string;
}.

(** [time.Time] (Go standard library): seconds since January 1, year 1 UTC and
    nanoseconds; the zero time is both zero. *)
Module Time.
Record t : Type := mk { sec : Z; nsec : Z }.

Definition zero : t := mk 0 0.
Definition IsZero (x : t) : bool := bool_decide (x.(sec) = 0 /\ x.(nsec) = 0).

(** Seconds from year 1 to 1970. *)
Definition unix_epoch : Z := 62135596800.
Definition Unix (x : t) : Z := x.(sec) - unix_epoch.
End Time.

(** The fields of [engine.PeerStats] the program reads. *)
Module PeerStats.
Record t : Type := mk {
  PublicKey : string;
  Endpoint : string;
  Connected : bool;
  LastHandshake : Time.t;
  LastReceived : Time.t;
  RxBytes : Z;
  TxBytes : Z;
  FrameBudget : Z;
}.
End PeerStats.

(** A concrete configuration, for the examples. *)
Module Sample.
Record config : Type := mk {
  address : string;
  port : Z;
  dns : string;
  peers : list (string * list string);   (* endpoint, allowed IPs *)
}.

#[global] Instance view : ConfigView config := {|
  Interface_Address := address;
  Interface_ListenPort := port;
  Interface_DNS := dns;
  Peer := string * list string;
  Peers := peers;
  Peer_Endpoint := fst;
  Peer_AllowedIPs := snd;
|}.
End Sample.
