(* ===== verification/Udp.v ===== *)
(** * The tunnel socket (wintunnel/udp_windows.go; the same two functions are
      in cmd/veil-client/main.go)

    [bindUDP] and [tuneUDPSocket] over the socket calls they make. *)

From S2P Require Import Prelude Veil.
From Stdlib Require Import ZArith.
From stdpp Require Import base list strings.
Open Scope Z_scope.
Open Scope string_scope.

(** Handles given out by the network stack. *)
Inductive UDPConn : Type := mkConn (id : Z).
Inductive RawConn : Type := mkRaw (id : Z).
Inductive UDPAddr : Type := mkAddr (text : string).

#[export] Instance UDPConn_eq_dec : EqDecision UDPConn.
Proof. solve_decision. Defined.

(** The calls into [net] and the socket layer.  [Control] answers with the
    descriptor it calls its argument on, or with an error without calling it;
    [WSAIoctl fd code flag] is the ioctl made inside that callback. *)
Inductive udpE : Type -> Type :=
| ResolveUDPAddr (endpoint : string) : udpE (result UDPAddr)
| DialUDP (lport : Z) (remote : UDPAddr) : udpE (result UDPConn)
| ListenUDP (lport : Z) : udpE (result UDPConn)
| SetReadBuffer (c : UDPConn) (n : Z) : udpE (option error)
| SetWriteBuffer (c : UDPConn) (n : Z) : udpE (option error)
| SyscallConn (c : UDPConn) : udpE (result RawConn)
| Control (raw : RawConn) : udpE (result Z)
| WSAIoctl (fd code flag : Z) : udpE (option error)
| Conn_Close (c : UDPConn) : udpE (option error).

Section Udp.
Context {Config : Type} `{ConfigView Config}.
Context {F : Type -> Type} `{Sub udpE F} `{Sub logE F}.

(** One peer with an endpoint gives a connected socket when resolving and
    dialling work; anything else the unconnected fallback. *)
Definition bindUDP (cfg : Config) : prog F (result UDPConn) :=
  let local := Interface_ListenPort cfg in
  let listen : prog F (result UDPConn) := invoke (ListenUDP local) in
  match Peers cfg with
  | [p] =>
      if decide (Peer_Endpoint p = "") then listen
      else
        let! remote := invoke (ResolveUDPAddr (Peer_Endpoint p)) in
        match remote with
        | Err _ => listen
        | Ok (mkAddr text as remote) =>
            let! conn := invoke (DialUDP local remote) in
            match conn with
            | Ok conn =>
                do! logf "UDP socket connected to %s" [AStr text] in Ret (Ok conn)
            | Err _ =>
                do! logf "Warning: connected UDP bind failed, falling back to unconnected socket" [] in
                listen
            end
        end
  | _ => listen
  end.

(** [IOC_IN | IOC_VENDOR | 12] *)
Definition IOC_IN : Z := 0x80000000.
Definition IOC_VENDOR : Z := 0x18000000.
Definition sioUDPConnReset : Z := Z.lor (Z.lor IOC_IN IOC_VENDOR) 12.

Definition warn_on (format : string) (err : option error) : prog F unit :=
  match err with
  | Some e => logf format [AErr e]
  | None => Ret tt
  end.

(** Large socket buffers and no connection-reset reports; every failure is a
    warning only. *)
Definition tuneUDPSocket (conn : UDPConn) : prog F unit :=
  let! err := invoke (SetReadBuffer conn (Z.shiftl 8 20)) in
  do! warn_on "Warning: failed to set UDP read buffer: %v" err in
  let! err := invoke (SetWriteBuffer conn (Z.shiftl 8 20)) in
  do! warn_on "Warning: failed to set UDP write buffer: %v" err in
  let! raw := invoke (SyscallConn conn) in
  match raw with
  | Err e => logf "Warning: raw socket access unavailable: %v" [AErr e]
  | Ok raw =>
      let! fd := invoke (Control raw) in
      match fd with
      | Ok fd =>
          let! err := invoke (WSAIoctl fd sioUDPConnReset 0) in
          warn_on "Warning: failed to disable UDP connreset: %v" err
      | Err e => logf "Warning: socket control failed: %v" [AErr e]
      end
  end.

(** Neither function closes a socket: whatever holds of every other socket call
    and of logging holds of all their calls. *)
Definition keeps_open {R} (e : udpE R) : Prop :=
  match e with Conn_Close _ => False | _ => True end.

Section Calls.
Context (P : event F -> Prop).
Context (P_udp : forall R (e : udpE R) r, keeps_open e -> P (Ev (embed e) r)).
Context (P_log : forall R (e : logE R) r, P (Ev (embed e) r)).

Lemma always_logf format args : always P (logf format args).
Proof. apply always_invoke. intros. apply P_log. Qed.

Lemma always_udp {R} (e : udpE R) : keeps_open e -> always P (invoke e : prog F R).
Proof. intros Ho. apply always_invoke. intros. by apply P_udp. Qed.

Lemma always_bindUDP cfg : always P (bindUDP cfg).
Proof.
  unfold bindUDP. cbv zeta.
  destruct (Peers cfg) as [|p [|q ps]]; [by apply always_udp..| |by apply always_udp].
  destruct (decide _); [by apply always_udp|].
  apply always_bind; [by apply always_udp|]. intros [[text]|e]; [|by apply always_udp].
  apply always_bind; [by apply always_udp|].
  intros [c|e]; (apply always_bind; [by apply always_logf|]); intros; [exact I|by apply always_udp].
Qed.

Lemma always_warn_on format err : always P (warn_on format err).
Proof. destruct err; [by apply always_logf|exact I]. Qed.

Lemma always_tuneUDPSocket c : always P (tuneUDPSocket c).
Proof.
  unfold tuneUDPSocket.
  apply always_bind; [by apply always_udp|]. intros e1.
  apply always_bind; [by apply always_warn_on|]. intros _.
  apply always_bind; [by apply always_udp|]. intros e2.
  apply always_bind; [by apply always_warn_on|]. intros _.
  apply always_bind; [by apply always_udp|]. intros [raw|e]; [|by apply always_logf].
  apply always_bind; [by apply always_udp|]. intros [fd|e]; [|by apply always_logf].
  apply always_bind; [by apply always_udp|]. intros e3. apply always_warn_on.
Qed.
End Calls.
End Udp.
