(* ===== verification/Tunnel.v ===== *)
(** * The tunnel controller (wintunnel/tunnel.go)

    [Tunnel] with its methods as programs over the calls they make: the
    configuration parser and the engine of the veil module, the TUN device and
    routing of package windev, the UDP socket, channels and the log.  Every
    method holds the tunnel's mutex for its whole body, so each is one atomic
    step of the concurrent system (TunnelSystem.v). *)

From S2P Require Import Prelude Veil Udp Proto LogBuf.
From Stdlib Require Import ZArith Lia.
From stdpp Require Import base list strings gmap relations infinite.
Open Scope Z_scope.
Open Scope string_scope.

(** Handles of the objects a session owns. *)
Inductive TunDevice : Type := mkTun (id : Z).
Inductive Engine : Type := mkEngine (id : Z).
Inductive chan : Type := mkChan (id : Z).

#[export] Instance TunDevice_eq_dec : EqDecision TunDevice.
Proof. solve_decision. Defined.
#[export] Instance Engine_eq_dec : EqDecision Engine.
Proof. solve_decision. Defined.
#[export] Instance chan_eq_dec : EqDecision chan.
Proof. solve_decision. Defined.
#[export] Program Instance chan_countable : Countable chan :=
  inj_countable' (fun '(mkChan i) => i) mkChan _.
Next Obligation. by intros []. Qed.
#[export] Program Instance chan_infinite : Infinite chan :=
  inj_infinite mkChan (fun '(mkChan i) => Some i) _.
Next Obligation. done. Qed.

(** The goroutine [Connect] starts: what its closure captures. *)
Record watcher : Type := mkWatcher {
  w_errChan : chan;
  w_done : chan;
  w_gen : Z;
  w_name : string;
}.

#[export] Instance watcher_eq_dec : EqDecision watcher.
Proof. solve_decision. Defined.

Section Tunnel.
(** The external configuration type, and the closure type of the routing
    cleanup, whose contents the tunnel never looks at. *)
Context {Config Cleanup : Type} `{ConfigView Config} `{EqDecision Cleanup}.

Inductive tunE : Type -> Type :=
| LoadConfigString (text : string) : tunE (result Config)
| NewTunDevice (name : string) : tunE (result TunDevice)
| Tun_LUID (d : TunDevice) : tunE Z
| Tun_Name (d : TunDevice) : tunE string
| Tun_Close (d : TunDevice) : tunE (option error)
| Udp {R} (u : udpE R) : tunE R
| ConfigureRouting (luid : Z) (cfg : Config) : tunE (result Cleanup)
| RunCleanup (c : Cleanup) : tunE unit
| Engine_New (cfg : Config) (d : TunDevice) (c : UDPConn) : tunE (result Engine)
| Engine_Run (e : Engine) (errChan : chan) : tunE unit
| Engine_Close (e : Engine) : tunE unit
| Engine_Wait (e : Engine) : tunE unit
| Engine_Stats (e : Engine) : tunE (list PeerStats.t)
| MakeChan : tunE chan
| CloseChan (ch : chan) : tunE unit
| Go (w : watcher) : tunE unit
| Log {R} (l : logE R) : tunE R.

#[export] Instance Sub_udp_tun : Sub udpE tunE := fun R u => Udp u.
#[export] Instance Sub_log_tun : Sub logE tunE := fun R l => Log l.

Abbreviation M := (prog tunE).

Record Tunnel : Type := mkTunnel {
  running : bool;
  gen : Z;                        (* uint64 *)
  name : string;
  iface : string;
  eng : option Engine;
  tun : option TunDevice;
  conn : option UDPConn;
  cleanup : option Cleanup;
  done_ch : option chan;
}.

(** The zero value, as the service builds it. *)
Definition zero_Tunnel : Tunnel := mkTunnel false 0 "" "" None None None None None.

(** [if x != nil { f(x) }] *)
Definition when_some {A} (x : option A) (f : A -> M unit) : M unit :=
  match x with Some a => f a | None => Ret tt end.

Definition stopLocked (t : Tunnel) : M Tunnel :=
  if negb (running t) then Ret t
  else
    let g := u64 (gen t + 1) in
    do! when_some (eng t) (fun e => call (Engine_Close e)) in
    do! when_some (cleanup t) (fun c => call (RunCleanup c)) in
    do! when_some (conn t) (fun c => do! invoke (Conn_Close c) in Ret tt) in
    do! when_some (tun t) (fun d => do! call (Tun_Close d) in Ret tt) in
    do! when_some (eng t) (fun e => call (Engine_Wait e)) in
    do! when_some (done_ch t) (fun ch => call (CloseChan ch)) in
    do! logf "tunnel %q down" [AStr (name t)] in
    Ret (mkTunnel false g "" "" None None None None None).

Definition Connect (configText dname : string) (t : Tunnel) : M (Tunnel * option error) :=
  let! t := (if running t then stopLocked t else Ret t) in
  let! cfg := call (LoadConfigString configText) in
  match cfg with
  | Err e => Ret (t, Some (Errorf "parse config" e))
  | Ok cfg =>
  let! tunDev := call (NewTunDevice "veil0") in
  match tunDev with
  | Err e => Ret (t, Some (Errorf "create adapter" e))
  | Ok tunDev =>
  let! luid := call (Tun_LUID tunDev) in
  let! n := call (Tun_Name tunDev) in
  do! logf "VEIL adapter %s up (LUID %d)" [AStr n; AInt luid] in
  let! c := bindUDP cfg in
  match c with
  | Err e =>
      do! call (Tun_Close tunDev) in
      Ret (t, Some (Errorf "bind udp" e))
  | Ok c =>
  do! tuneUDPSocket c in
  let! cl := call (ConfigureRouting luid cfg) in
  match cl with
  | Err e =>
      do! invoke (Conn_Close c) in
      do! call (Tun_Close tunDev) in
      Ret (t, Some (Errorf "configure routing" e))
  | Ok cl =>
  let! en := call (Engine_New cfg tunDev c) in
  match en with
  | Err e =>
      do! call (RunCleanup cl) in
      do! invoke (Conn_Close c) in
      do! call (Tun_Close tunDev) in
      Ret (t, Some (Errorf "build engine" e))
  | Ok en =>
  let! errChan := call MakeChan in
  let! done := call MakeChan in
  do! call (Engine_Run en errChan) in
  do! logf "VEIL client running." [] in
  let! n := call (Tun_Name tunDev) in
  let g := u64 (gen t + 1) in
  let t := mkTunnel true g dname n (Some en) (Some tunDev) (Some c) (Some cl) (Some done) in
  do! call (Go (mkWatcher errChan done g dname)) in
  do! logf "tunnel %q up on %s" [AStr dname; AStr (iface t)] in
  Ret (t, None)
  end end end end end.

Definition Disconnect (t : Tunnel) : M (Tunnel * option error) :=
  let! t := stopLocked t in
  Ret (t, None).

(** The watcher's critical section, after it received the error [err]. *)
Definition watcher_fire (w : watcher) (err : error) (t : Tunnel) : M Tunnel :=
  if running t && bool_decide (gen t = w_gen w) then
    do! logf "tunnel %q engine error: %v" [AStr (w_name w); AErr err] in
    stopLocked t
  else Ret t.

(** One peer's line in [Status]. *)
Definition peer_status (ps : PeerStats.t) : PeerStatus.t :=
  let unix (x : Time.t) := if Time.IsZero x then 0 else Time.Unix x in
  PeerStatus.mk ps.(PeerStats.PublicKey) ps.(PeerStats.Endpoint) ps.(PeerStats.Connected)
    (unix ps.(PeerStats.LastHandshake)) (unix ps.(PeerStats.LastReceived))
    ps.(PeerStats.RxBytes) ps.(PeerStats.TxBytes) ps.(PeerStats.FrameBudget).

(** The loop of [Status]: the peers appended so far and [anyConnected]. *)
Fixpoint status_loop (stats : list PeerStats.t) (peers : list PeerStatus.t) (any : bool)
    : list PeerStatus.t * bool :=
  match stats with
  | [] => (peers, any)
  | ps :: rest => status_loop rest (peers ++ [peer_status ps]) (any || ps.(PeerStats.Connected))
  end.

Definition Status_ (t : Tunnel) : M Status.t :=
  match running t, eng t with
  | true, Some e =>
      let! stats := call (Engine_Stats e) in
      let '(peers, any) := status_loop stats [] false in
      let state := if any then StateConnected else StateConnecting in
      Ret (Status.mk state (name t) (iface t) peers)
  | _, _ => Ret (Status.mk StateDisconnected "" "" [])
  end.

(** ** The tunnel's log

    [logsOnce] and [logs], which no other method looks at: the ring buffer is
    made on first use and then stays. *)
Record Logging : Type := mkLogging {
  logsOnce : bool;
  logs : option LogBuf.LogBuffer;
}.

Definition zero_Logging : Logging := mkLogging false None.

Definition LogBuffer (l : Logging) : option LogBuf.LogBuffer * Logging :=
  let l := if logsOnce l then l else mkLogging true (Some (NewLogBuffer 0)) in
  (logs l, l).

(** [None] is the nil dereference a buffer that was never made would give. *)
Definition Logs (since : Z) (l : Logging) : option (list LogLine.t) * Logging :=
  let '(b, l) := LogBuffer l in
  (Since since <$> b, l).

(** ** Ownership

    What the tunnel holds, and a protocol monitor over call traces.  The
    monitor keeps the list of live objects, newest first, and refuses ([None])
    a trace that opens a second adapter (both would have the same name), uses
    or releases an object that is not live, waits for an engine before it was
    told to close or while its socket or device is still open (the wait would
    not return), or closes a channel twice. *)
Inductive resource : Type :=
| RTun (d : TunDevice)
| RConn (c : UDPConn)
| RRoutes (c : Cleanup)
| REngine (e : Engine) (closing : bool)
| RChan (ch : chan).

#[export] Instance resource_eq_dec : EqDecision resource.
Proof. solve_decision. Defined.

Definition need (r : resource) (rs : list resource) : option (list resource) :=
  if decide (r ∈ rs) then Some rs else None.

Fixpoint release (r : resource) (rs : list resource) : option (list resource) :=
  match rs with
  | [] => None
  | r' :: rs' => if decide (r = r') then Some rs' else cons r' <$> release r rs'
  end.

Fixpoint replace (r r' : resource) (rs : list resource) : option (list resource) :=
  match rs with
  | [] => None
  | x :: rs' => if decide (x = r) then Some (r' :: rs') else cons x <$> replace r r' rs'
  end.

Definition is_io (r : resource) : bool :=
  match r with RTun _ | RConn _ => true | _ => false end.

Definition is_tun (r : resource) : bool :=
  match r with RTun _ => true | _ => false end.

Definition acquire (r : resource) (rs : list resource) : option (list resource) :=
  Some (r :: rs).

(** How one call moves the live objects.  A channel is live once a watcher
    may wait for its closing. *)
Definition own : monitor_step tunE (list resource) := fun _ e =>
  match e in tunE R return R -> list resource -> option (list resource) with
  | LoadConfigString _ => fun _ => Some
  | NewTunDevice _ => fun r rs =>
      if existsb is_tun rs then None
      else match r with Ok d => acquire (RTun d) rs | Err _ => Some rs end
  | Tun_LUID d | Tun_Name d => fun _ => need (RTun d)
  | Tun_Close d => fun _ => release (RTun d)
  | Udp u =>
      match u in udpE R return R -> list resource -> option (list resource) with
      | DialUDP _ _ | ListenUDP _ =>
          fun r => match r with Ok c => acquire (RConn c) | Err _ => Some end
      | SetReadBuffer c _ | SetWriteBuffer c _ => fun _ => need (RConn c)
      | SyscallConn c => fun _ => need (RConn c)
      | Conn_Close c => fun _ => release (RConn c)
      | _ => fun _ => Some
      end
  | ConfigureRouting _ _ =>
      fun r => match r with Ok c => acquire (RRoutes c) | Err _ => Some end
  | RunCleanup c => fun _ => release (RRoutes c)
  | Engine_New _ d c => fun _ rs => need (RTun d) rs ≫= need (RConn c)
  | Engine_Run e _ => fun _ => acquire (REngine e false)
  | Engine_Close e => fun _ => replace (REngine e false) (REngine e true)
  | Engine_Wait e => fun _ rs =>
      if existsb is_io rs then None else release (REngine e true) rs
  | Engine_Stats e => fun _ => need (REngine e false)
  | MakeChan => fun _ => Some
  | Go w => fun _ => acquire (RChan (w_done w))
  | CloseChan ch => fun _ => release (RChan ch)
  | Log _ => fun _ => Some
  end.

Definition held (t : Tunnel) : list resource :=
  from_option (fun ch => [RChan ch]) [] (done_ch t) ++
  from_option (fun e => [REngine e false]) [] (eng t) ++
  from_option (fun c => [RRoutes c]) [] (cleanup t) ++
  from_option (fun c => [RConn c]) [] (conn t) ++
  from_option (fun d => [RTun d]) [] (tun t).

(** A tunnel is either down with every field but [gen] zero, or up with
    every object present. *)
Definition wf (t : Tunnel) : Prop :=
  if running t then
    is_Some (eng t) /\ is_Some (tun t) /\ is_Some (conn t) /\
    is_Some (cleanup t) /\ is_Some (done_ch t)
  else t = mkTunnel false (gen t) "" "" None None None None None.

(** What the rest of the process keeps about the tunnel: the live objects,
    every channel made and every channel closed, and the watchers that have
    not finished, each either in its [select] or past it with an error. *)
Inductive phase : Type := Selecting | Firing (err : error).

Record env : Type := mkEnv {
  live : list resource;
  chans : gset chan;
  closed : gset chan;
  watchers : list (watcher * phase);
}.

Definition with_live (rs : list resource) (s : env) : env :=
  mkEnv rs (chans s) (closed s) (watchers s).

Definition set_watchers (ws : list (watcher * phase)) (s : env) : env :=
  mkEnv (live s) (chans s) (closed s) ws.

Definition note {R} (e : tunE R) : R -> list resource -> env -> env :=
  match e in tunE R return R -> list resource -> env -> env with
  | MakeChan => fun ch rs s => mkEnv rs ({[ch]} ∪ chans s) (closed s) (watchers s)
  | CloseChan ch => fun _ rs s => mkEnv rs (chans s) ({[ch]} ∪ closed s) (watchers s)
  | Go w => fun _ rs s => mkEnv rs (chans s) (closed s) (watchers s ++ [(w, Selecting)])
  | _ => fun _ rs s => mkEnv rs (chans s) (closed s) (watchers s)
  end.

Definition env_step : monitor_step tunE env := fun _ e r s =>
  match own _ e r (live s) with
  | Some rs => Some (note e r rs s)
  | None => None
  end.

(** [make] returns a channel that was not there before. *)
Definition fresh_chan : assumption tunE env := fun _ e =>
  match e in tunE R return R -> env -> Prop with
  | MakeChan => fun ch s => ch ∉ chans s
  | _ => fun _ _ => True
  end.

(** ** The monitor along each method *)

Lemma need_in r rs : r ∈ rs -> need r rs = Some rs.
Proof. intros Hin. unfold need. by rewrite decide_True. Qed.

Lemma release_head r rs : release r (r :: rs) = Some rs.
Proof. simpl. by rewrite decide_True. Qed.

Lemma replace_head r r' rs : replace r r' (r :: rs) = Some (r' :: rs).
Proof. simpl. by rewrite decide_True. Qed.

Lemma release_ne r r' rs : r <> r' -> release r (r' :: rs) = cons r' <$> release r rs.
Proof. intros Hne. simpl. by rewrite decide_False. Qed.

Lemma replace_ne r r' x rs : x <> r -> replace r r' (x :: rs) = cons x <$> replace r r' rs.
Proof. intros Hne. simpl. by rewrite decide_False. Qed.
End Tunnel.

#[export] Hint Rewrite @release_head @replace_head : own.
#[export] Hint Rewrite @release_ne @replace_ne using discriminate : own.

(** Shows that the monitor accepts a call: the object is found in the list. *)
Ltac own_tac :=
  unfold env_step, embed, Sub_udp_tun, Sub_log_tun;
  cbn [own acquire held from_option app existsb is_io orb
       live chans closed watchers with_live eng tun conn cleanup done_ch];
  rewrite ?need_in by (rewrite ?elem_of_cons; tauto);
  cbn [mbind option_bind];
  rewrite ?need_in by (rewrite ?elem_of_cons; tauto);
  autorewrite with own; cbn [fmap option_fmap option_map note live chans closed watchers].
