(* ===== verification/TunnelSystem.v ===== *)
(** * The tunnel as a concurrent system (wintunnel/tunnel.go)

    The ownership monitor along each method of [Tunnel], and the interleaved
    steps of the control channel's calls and of the watcher goroutines with
    their invariant. *)

From S2P Require Import Prelude Veil Udp Tunnel.
From Stdlib Require Import ZArith Lia.
From stdpp Require Import base list strings gmap relations.
Open Scope Z_scope.
Open Scope string_scope.

Section Methods.
Context {Config Cleanup : Type} `{ConfigView Config} `{EqDecision Cleanup}.

Abbreviation Tunnel := (@Tunnel Cleanup).
Abbreviation resource := (@resource Cleanup).
Abbreviation env := (@env Cleanup).
Abbreviation wpt := (wp (env_step (Config := Config) (Cleanup := Cleanup)) fresh_chan).
Abbreviation stop := (stopLocked (Config := Config)).

(** A stopped tunnel with generation counter [g]. *)
Definition down (g : Z) : Tunnel := mkTunnel false g "" "" None None None None None.

(** The effect of [stopLocked] on the environment. *)
Definition stopped (t : Tunnel) (s : env) : env :=
  mkEnv [] (chans s)
    (if running t then from_option (fun ch => {[ch]} ∪ closed s) (closed s) (done_ch t)
     else closed s) (watchers s).

Definition stopped_tunnel (t : Tunnel) : Tunnel :=
  if running t then down (u64 (gen t + 1)) else t.

Lemma wf_down g : wf (down g).
Proof. done. Qed.

Lemma wf_cases t :
  wf t -> (exists g, t = down g) \/
  exists g n i e d c cl ch,
    t = mkTunnel true g n i (Some e) (Some d) (Some c) (Some cl) (Some ch).
Proof.
  destruct t as [[] g n i e d c cl ch]; unfold wf; cbn; intros Hwf.
  - destruct Hwf as ([e' ->] & [d' ->] & [c' ->] & [cl' ->] & [ch' ->]).
    right. by eexists _, _, _, _, _, _, _, _.
  - left. exists g. by injection Hwf as -> -> -> -> -> -> ->.
Qed.

Lemma wp_stop t Q s :
  wf t -> live s = held t -> Q (stopped_tunnel t) (stopped t s) -> wpt (stop t) Q s.
Proof.
  intros Hwf Hl HQ. destruct s as [rs chs cls ws]. cbn in Hl. subst rs.
  destruct (wf_cases t Hwf) as [[g ->]|(g & n & i & e & d & c & cl & ch & ->)]; [exact HQ|].
  unfold stopLocked, when_some. cbn [running negb eng tun conn cleanup done_ch gen name].
  wp_go own_tac. exact HQ.
Qed.

(** Every execution of [stopLocked] ends in the stopped tunnel. *)
Lemma exec_stop t tr t' : wf t -> exec (stop t) tr t' -> t' = stopped_tunnel t.
Proof.
  intros Hwf He.
  destruct (wf_cases t Hwf) as [[g ->]|(g & n & i & e & d & c & cl & ch & ->)].
  - by destruct He as [_ ->].
  - unfold stopLocked, when_some in He.
    cbn [running negb eng tun conn cleanup done_ch gen name] in He.
    unfold logf in He. exec_inv. reflexivity.
Qed.

(** A failed [bindUDP] reports the failure of the plain listening socket. *)
Lemma exec_bindUDP_err cfg tr e :
  exec (bindUDP (F := @tunE Config Cleanup) cfg) tr (Err e) ->
  Ev (Udp (ListenUDP (Interface_ListenPort cfg))) (Err e) ∈ tr.
Proof.
  unfold bindUDP, logf. intros He.
  assert (forall tr', exec (invoke (F := @tunE Config Cleanup)
                         (ListenUDP (Interface_ListenPort cfg))) tr' (Err e) ->
            Ev (Udp (ListenUDP (Interface_ListenPort cfg))) (Err e) ∈ tr') as Hl.
  { intros tr' ->%exec_invoke. apply list_elem_of_here. }
  destruct (Peers cfg) as [|p []]; auto. case_decide; auto.
  apply exec_bind in He as (tr1 & tr2 & [[text]|] & -> & _ & He); [|set_solver].
  apply exec_bind in He as (tr3 & tr4 & [c|] & -> & _ & He).
  - exec_inv.
  - apply exec_bind in He as (tr5 & tr6 & [] & -> & _ & He). set_solver.
Qed.

(** Every call of the tunnel has an admissible answer. *)
Lemma answers_exist R (e : @tunE Config Cleanup R) (s : env) :
  exists r, fresh_chan R e r s.
Proof.
  assert (forall A : Type, result A) as Hres by exact (fun A => Err ErrClosed).
  destruct e as [text|nm|d|d|d|R u|luid cfg|cl|cfg d c|en ec|en|en|en| |ch|w|R l]; simpl.
  all: try (by exists (Hres _)). all: try (by exists tt). all: try (by exists None).
  - by exists 0.
  - by exists "".
  - destruct u; first [by exists (Hres _) | by exists None].
  - by exists [].
  - exists (fresh (chans s)). apply is_fresh.
  - destruct l. by exists tt.
Qed.

Lemma wp_bindUDP cfg (Q : result UDPConn -> env -> Prop) s :
  (forall c, Q (Ok c) (with_live (RConn c :: live s) s)) -> (forall e, Q (Err e) s) ->
  wpt (bindUDP cfg) Q s.
Proof.
  intros HOk HErr. destruct s as [rs chs cls ws]. unfold with_live in HOk. cbn in HOk.
  unfold bindUDP.
  assert (wpt (invoke (ListenUDP (Interface_ListenPort cfg))) Q (mkEnv rs chs cls ws)) as Hlisten
    by (wp_go own_tac; auto).
  destruct (Peers cfg) as [|p []]; try done. case_decide; [done|].
  wp_step own_tac. wp_step own_tac. wp_step own_tac; [|done].
  wp_go own_tac; done.
Qed.

Lemma wp_tuneUDPSocket c (Q : unit -> env -> Prop) s :
  RConn c ∈ live s -> Q tt s -> wpt (tuneUDPSocket c) Q s.
Proof.
  intros Hc HQ. destruct s as [rs chs cls ws]. cbn in Hc. unfold tuneUDPSocket, warn_on.
  wp_go ltac:(unfold env_step, embed, Sub_udp_tun, Sub_log_tun; cbn [own live];
              rewrite ?need_in by done; cbn [note]);
    repeat match goal with u : unit |- _ => destruct u end; done.
Qed.

(** What [Connect] gives, on success and on failure. *)
Definition connected (n : string) (t t' : Tunnel) (s s' : env) : Prop :=
  exists i e d c cl ech ch,
    let g := u64 (gen (stopped_tunnel t) + 1) in
    (ech ∉ chans s) /\ (ch ∉ ({[ech]} ∪ chans s)) /\
    t' = mkTunnel true g n i (Some e) (Some d) (Some c) (Some cl) (Some ch) /\
    s' = mkEnv (held t') ({[ch]} ∪ ({[ech]} ∪ chans s)) (closed (stopped t s))
           (watchers s ++ [(mkWatcher ech ch g n, Selecting)]).

Lemma wp_Connect text n t s :
  wf t -> live s = held t ->
  wpt (Connect (Config := Config) text n t)
    (fun '(t', err) s' =>
       match err with
       | None => connected n t t' s s'
       | Some _ => t' = stopped_tunnel t /\ s' = stopped t s
       end) s.
Proof.
  intros Hwf Hl. unfold Connect. apply wp_bind.
  assert (forall P : Tunnel -> env -> Prop, P (stopped_tunnel t) (stopped t s) ->
            wpt (if running t then stop t else Ret t) P s) as Hstop.
  { intros P HP. destruct (running t) eqn:Hr; [by apply wp_stop|].
    destruct (wf_cases t Hwf) as [[g ->]|(? & ? & ? & ? & ? & ? & ? & ? & ->)]; [|done].
    destruct s as [rs chs cls ws]. cbn in Hl. subst rs. exact HP. }
  apply Hstop. clear Hstop Hl. unfold connected.
  set (t0 := stopped_tunnel t).
  assert (live (stopped t s) = []) as Hl by done.
  change (chans s) with (chans (stopped t s)). change (watchers s) with (watchers (stopped t s)).
  destruct (stopped t s) as [rs chs cls ws]. cbn in Hl. subst rs.
  cbn [chans closed watchers]. wp_go own_tac.
  all: try (cbn; done).
  apply wp_bindUDP; [intros c|intros e];
    cbn beta iota delta [with_live live chans closed watchers]; [|wp_go own_tac; cbn; done].
  wp_go own_tac. apply wp_tuneUDPSocket; [by apply list_elem_of_here|]. cbn beta.
  wp_go own_tac; cbn in *; [|done..]. repeat eexists; done.
Qed.

Lemma wp_Disconnect t s :
  wf t -> live s = held t ->
  wpt (Disconnect (Config := Config) t)
    (fun '(t', err) s' => t' = stopped_tunnel t /\ s' = stopped t s /\ err = None) s.
Proof. intros Hwf Hl. apply wp_bind, wp_stop; auto. by repeat split. Qed.

(** The watcher acts only while the tunnel is up at the watcher's generation. *)
Definition fires (w : watcher) (t : Tunnel) : bool :=
  running t && bool_decide (gen t = w_gen w).

Lemma wp_watcher_fire w err t s :
  wf t -> live s = held t ->
  wpt (watcher_fire (Config := Config) w err t)
    (fun t' s' =>
       if fires w t then t' = stopped_tunnel t /\ s' = stopped t s
       else t' = t /\ s' = s) s.
Proof.
  intros Hwf Hl. unfold watcher_fire. fold (fires w t).
  destruct (fires w t); [|done]. apply wp_bind, wp_call.
  intros [] _. eexists. split; [reflexivity|]. destruct s. by apply wp_stop.
Qed.

Lemma wp_Status t s :
  wf t -> live s = held t -> wpt (Status_ (Config := Config) t) (fun _ s' => s' = s) s.
Proof.
  intros Hwf Hl. destruct s as [rs chs cls ws]. cbn in Hl. subst rs.
  destruct (wf_cases t Hwf) as [[g ->]|(g & n & i & e & d & c & cl & ch & ->)]; [done|].
  unfold Status_. cbn [running eng]. wp_go own_tac. done.
Qed.
End Methods.

(** ** The concurrent system

    The tunnel, its environment, and the interleaved steps of the control
    channel's calls and of the watcher goroutines.  A method is one step, since
    it holds the mutex throughout; a watcher first leaves its [select] (an
    engine may report an error on its channel at any time, even after its
    session ended) and later takes the mutex. *)
Module System.
Local Open Scope list_scope.
Section System.
Context {Config Cleanup : Type} `{ConfigView Config} `{EqDecision Cleanup}.

Abbreviation Tunnel := (@Tunnel Cleanup).
Abbreviation env := (@env Cleanup).
Abbreviation observe := (monitor (env_step (Config := Config) (Cleanup := Cleanup))).
Abbreviation legal := (admissible (env_step (Config := Config) (Cleanup := Cleanup)) fresh_chan).

Record state : Type := mkState { tunnel : Tunnel; env_of : env }.

Definition init : state := mkState zero_Tunnel (mkEnv [] ∅ ∅ []).

(** [Disconnect] runs to its end. *)
Inductive disconnects : state -> state -> Prop :=
| disconnects_run t s tr t' err s' :
  exec (Disconnect (Config := Config) t) tr (t', err) -> legal s tr ->
  observe s tr = Some s' ->
  disconnects (mkState t s) (mkState t' s').

(** The branch [case err := <-errChan] of a watcher's [select]: the engine has
  sent an error, or nil. *)
Inductive receives : state -> state -> Prop :=
| receives_error t s ws1 w ws2 err :
  watchers s = ws1 ++ (w, Selecting) :: ws2 ->
  receives (mkState t s) (mkState t (set_watchers (ws1 ++ (w, Firing err) :: ws2) s))
| receives_nil t s ws1 w ws2 :
  watchers s = ws1 ++ (w, Selecting) :: ws2 ->
  receives (mkState t s) (mkState t (set_watchers (ws1 ++ ws2) s)).

(** What a watcher does without the engine: the branch [case <-done], once the
  channel is closed, and its work under the mutex after an error. *)
Inductive proceeds : state -> state -> Prop :=
| proceeds_done t s ws1 w ws2 :
  watchers s = ws1 ++ (w, Selecting) :: ws2 -> w_done w ∈ closed s ->
  proceeds (mkState t s) (mkState t (set_watchers (ws1 ++ ws2) s))
| proceeds_fire t s ws1 w err ws2 tr t' s' :
  watchers s = ws1 ++ (w, Firing err) :: ws2 ->
  exec (watcher_fire (Config := Config) w err t) tr t' ->
  legal (set_watchers (ws1 ++ ws2) s) tr ->
  observe (set_watchers (ws1 ++ ws2) s) tr = Some s' ->
  proceeds (mkState t s) (mkState t' s').

Inductive step : state -> state -> Prop :=
| step_connect text n t s tr t' err s' :
  exec (Connect (Config := Config) text n t) tr (t', err) -> legal s tr ->
  observe s tr = Some s' ->
  step (mkState t s) (mkState t' s')
| step_disconnect x y : disconnects x y -> step x y
| step_status t s tr st s' :
  exec (Status_ (Config := Config) t) tr st -> legal s tr ->
  observe s tr = Some s' ->
  step (mkState t s) (mkState t s')
| step_receives x y : receives x y -> step x y
| step_proceeds x y : proceeds x y -> step x y.

(** A watcher belongs to the current session, or to an older one whose [done]
  channel has been closed. *)
Definition watcher_ok (t : Tunnel) (s : env) (w : watcher) : Prop :=
(running t = true /\ done_ch t = Some (w_done w) /\ w_gen w = gen t) \/
(w_done w ∈ closed s /\ w_gen w < gen t).

Record inv (n : nat) (x : state) : Prop := {
inv_wf : wf (tunnel x);
inv_live : live (env_of x) = held (tunnel x);
inv_gen : 0 <= gen (tunnel x) <= 2 * Z.of_nat n;
inv_chans : closed (env_of x) ⊆ chans (env_of x);
inv_done : forall ch, done_ch (tunnel x) = Some ch ->
             (ch ∈ chans (env_of x)) /\ (ch ∉ closed (env_of x));
inv_watchers : Forall (fun wp => watcher_ok (tunnel x) (env_of x) wp.1) (watchers (env_of x));
}.

Lemma inv_init : inv 0 init.
Proof. by split. Qed.

Lemma gen_stopped (n : nat) (t : Tunnel) :
2 * Z.of_nat (S n) < 2 ^ 64 -> 0 <= gen t <= 2 * Z.of_nat n ->
gen (stopped_tunnel t) = gen t + (if running t then 1 else 0).
Proof.
intros Hn Hg. unfold stopped_tunnel. destruct (running t); simpl; [|lia].
apply wrap_succ; lia.
Qed.

Lemma running_done (t : Tunnel) : wf t -> running t = false -> done_ch t = None.
Proof. intros [[g ->]|(?&?&?&?&?&?&?&?&->)]%wf_cases; done. Qed.

(** Stopping keeps the invariant: every watcher of the session that ends
  finds its channel closed and its generation in the past. *)
Lemma inv_stopped (n : nat) (t : Tunnel) (s : env) :
2 * Z.of_nat (S n) < 2 ^ 64 -> inv n (mkState t s) ->
inv (S n) (mkState (stopped_tunnel t) (stopped t s)).
Proof.
intros Hn [Hwf Hl Hg Hc Hd Hws]; simpl in *.
pose proof (gen_stopped n t Hn Hg) as Hgen.
destruct (wf_cases t Hwf) as [[g ->]|(g & nm & i & e & d & c & cl & ch & ->)]; simpl in *.
- split; simpl; try done. lia.
- destruct (Hd ch eq_refl) as [Hch _].
  split; simpl; try done; try lia; [set_solver|].
  eapply Forall_impl; [exact Hws|]. unfold watcher_ok. simpl. rewrite Hgen.
  intros [w ph] [(_ & [= ->] & ->)|[? ?]]; right; simpl in *; split; (set_solver || lia).
Qed.

Lemma inv_step_connected (n : nat) nm (t t' : Tunnel) (s s' : env) :
2 * Z.of_nat (S n) < 2 ^ 64 -> inv n (mkState t s) -> connected nm t t' s s' ->
inv (S n) (mkState t' s').
Proof.
intros Hn Hinv (i & e & d & c & cl & ech & ch & Hech & Hch & -> & ->).
pose proof (gen_stopped n t Hn (inv_gen _ _ Hinv)) as Hgs.
pose proof (inv_gen _ _ Hinv) as Hg0. simpl in Hg0.
pose proof (inv_stopped n t s Hn Hinv) as [_ _ _ Hc _ Hws]; simpl in *.
assert (u64 (gen (stopped_tunnel t) + 1) = gen (stopped_tunnel t) + 1) as Hg.
{ apply wrap_succ; rewrite Hgs; destruct (running t); lia. }
rewrite !Hg. split; simpl.
- repeat split; eauto.
- done.
- rewrite Hgs. destruct (running t); lia.
- set_solver.
- intros x [= <-]. split; [set_solver|]. intros Hx. set_solver.
- apply Forall_app. split.
  + eapply Forall_impl; [exact Hws|]. intros [w ph] [(Hr & _)|[? ?]].
    * unfold stopped_tunnel in Hr. destruct (running t) eqn:?; simpl in Hr; congruence.
    * right. simpl in *. split; [done|lia].
  + repeat constructor.
Qed.

Lemma watchers_exec {A} (p : prog (@tunE Config Cleanup) A) Q (s s' : env) tr a :
wp (env_step (Config := Config) (Cleanup := Cleanup)) fresh_chan p Q s ->
exec p tr a -> legal s tr -> observe s tr = Some s' -> Q a s'.
Proof.
intros Hw He Hl Ho. destruct (wp_exec _ _ p Q s tr a Hw He Hl) as (s'' & Hs & HQ).
congruence.
Qed.

(** What each step does, with the programs and traces abstracted away. *)
Inductive astep : state -> state -> Prop :=
| astep_connected nm t t' s s' :
  connected nm t t' s s' -> astep (mkState t s) (mkState t' s')
| astep_stopped t s : astep (mkState t s) (mkState (stopped_tunnel t) (stopped t s))
| astep_same x : astep x x
| astep_phase t s ws1 w ph ph' ws2 :
  watchers s = ws1 ++ (w, ph) :: ws2 ->
  astep (mkState t s) (mkState t (set_watchers (ws1 ++ (w, ph') :: ws2) s))
| astep_exit t s ws1 w ph ws2 :
  watchers s = ws1 ++ (w, ph) :: ws2 ->
  (ph = Selecting \/ fires w t = false) ->
  astep (mkState t s) (mkState t (set_watchers (ws1 ++ ws2) s))
| astep_fire t s ws1 w err ws2 :
  watchers s = ws1 ++ (w, Firing err) :: ws2 -> fires w t = true ->
  astep (mkState t s)
    (mkState (stopped_tunnel t) (stopped t (set_watchers (ws1 ++ ws2) s))).

Lemma step_astep x y :
wf (tunnel x) -> live (env_of x) = held (tunnel x) -> step x y -> astep x y.
Proof.
intros Hwf Hl Hstep. destruct Hstep as
  [text n t s tr t' err s' He Ha Ho|x y Hd|t s tr st s' He Ha Ho|x y Hr|x y Hp].
- pose proof (watchers_exec _ _ _ _ _ _ (wp_Connect text n t s Hwf Hl) He Ha Ho) as HQ.
  destruct err; [destruct HQ as [-> ->]; apply astep_stopped|].
  by eapply astep_connected.
- destruct Hd as [t s tr t' err s' He Ha Ho].
  pose proof (watchers_exec _ _ _ _ _ _ (wp_Disconnect t s Hwf Hl) He Ha Ho)
    as (-> & -> & _). apply astep_stopped.
- pose proof (watchers_exec _ _ _ _ _ _ (wp_Status t s Hwf Hl) He Ha Ho) as ->.
  apply astep_same.
- destruct Hr; [by eapply astep_phase|]. eapply astep_exit; eauto.
- destruct Hp as [t s ws1 w ws2 Hw Hd|t s ws1 w err ws2 tr t' s' Hw He Ha Ho];
    [eapply astep_exit; eauto|]. simpl in Hwf, Hl.
  assert (live (set_watchers (ws1 ++ ws2) s) = held t) as Hl' by done.
  pose proof (watchers_exec _ _ _ _ _ _ (wp_watcher_fire w err t _ Hwf Hl') He Ha Ho)
    as HQ.
  destruct (fires w t) eqn:Hf; destruct HQ as [-> ->].
  + by eapply astep_fire.
  + eapply astep_exit; eauto.
Qed.

(** Ownership is exact in every reachable state. *)
Lemma owns_astep x y :
wf (tunnel x) /\ live (env_of x) = held (tunnel x) -> astep x y ->
wf (tunnel y) /\ live (env_of y) = held (tunnel y).
Proof.
intros [Hwf Hl] Hs. destruct Hs as [nm t t' s s' Hc|t s|z|t s|t s|t s]; simpl in *; try done.
- destruct Hc as (i & e & d & c & cl & ech & ch & _ & _ & -> & ->).
  split; [repeat split; eauto|done].
- destruct (wf_cases t Hwf) as [[g ->]|(?&?&?&?&?&?&?&?&->)]; done.
- destruct (wf_cases t Hwf) as [[g ->]|(?&?&?&?&?&?&?&?&->)]; done.
Qed.

Lemma owns_reachable x :
rtc step init x -> wf (tunnel x) /\ live (env_of x) = held (tunnel x).
Proof.
intros Hr.
apply (rtc_invariant step (fun x => wf (tunnel x) /\ live (env_of x) = held (tunnel x)))
  with (2 := Hr); [|done].
intros a b [Hwf Hl] Hs. apply (owns_astep a); [done|]. by apply step_astep.
Qed.

Lemma inv_weaken (n : nat) x : inv n x -> inv (S n) x.
Proof. intros []. split; auto. lia. Qed.

Lemma inv_set_watchers (n : nat) (t : Tunnel) (s : env) ws :
Forall (fun wp => watcher_ok t s wp.1) ws -> inv n (mkState t s) ->
inv n (mkState t (set_watchers ws s)).
Proof. intros Hws []. split; auto. Qed.

Lemma inv_astep (n : nat) x y :
2 * Z.of_nat (S n) < 2 ^ 64 -> inv n x -> astep x y -> inv (S n) y.
Proof.
intros Hn Hinv Hs. destruct Hs as [nm t t' s s' Hc|t s|z|t s ws1 w ph ph' ws2 Hw
  |t s ws1 w ph ws2 Hw _|t s ws1 w err ws2 Hw _].
- by eapply inv_step_connected.
- by apply inv_stopped.
- by apply inv_weaken.
- apply inv_weaken, inv_set_watchers; [|done].
  pose proof (inv_watchers _ _ Hinv) as Hok. simpl in Hok. rewrite Hw in Hok.
  rewrite Forall_app, Forall_cons in *. done.
- apply inv_weaken, inv_set_watchers; [|done].
  pose proof (inv_watchers _ _ Hinv) as Hok. simpl in Hok. rewrite Hw in Hok.
  rewrite Forall_app, Forall_cons in *. tauto.
- apply inv_stopped; [done|]. apply inv_set_watchers; [|done].
  pose proof (inv_watchers _ _ Hinv) as Hok. simpl in Hok. rewrite Hw in Hok.
  rewrite Forall_app, Forall_cons in *. tauto.
Qed.

Lemma inv_reachable n x :
nsteps step n init x -> 2 * Z.of_nat n < 2 ^ 64 -> inv n x.
Proof.
intros Hn.
apply (nsteps_invariant step (fun n x => 2 * Z.of_nat n < 2 ^ 64 -> inv n x)) with (3 := Hn).
- intros k a b Hk Hs Hb.
  assert (inv k a) as Ha by (apply Hk; lia). apply (inv_astep _ a); [done..|].
  by apply step_astep; [apply Ha..|].
- intros _. apply inv_init.
Qed.
End System.
End System.
