(* ===== verification/TunnelProps.v ===== *)
(** * What the tunnel controller guarantees (wintunnel/tunnel.go)

    Ownership of every object in every reachable state, the harmlessness of
    watchers of finished sessions and the fact that they all can finish, and
    the behaviour of each method. *)

From S2P Require Import Prelude Veil Udp Proto Tunnel TunnelSystem.
From Stdlib Require Import ZArith Lia.
From stdpp Require Import base list strings gmap relations.
Import System.
Open Scope Z_scope.
Open Scope string_scope.
Local Open Scope list_scope.

Section Props.
Context {Config Cleanup : Type} `{ConfigView Config} `{EqDecision Cleanup}.

Abbreviation Tunnel := (@Tunnel Cleanup).
Abbreviation env := (@env Cleanup).
Abbreviation state := (@state Cleanup).
Abbreviation tunE := (@tunE Config Cleanup).
Abbreviation sys_step := (step (Config := Config) (Cleanup := Cleanup)).
Abbreviation observe := (monitor (env_step (Config := Config) (Cleanup := Cleanup))).
Abbreviation legal := (admissible (env_step (Config := Config) (Cleanup := Cleanup)) fresh_chan).

(** C1: in every reachable state of the tunnel with its watchers the objects
    alive (device, socket, routes, engine, done channel) are exactly the ones
    the tunnel's fields hold; in particular a tunnel that is down has released
    everything and has every field but the generation zero. *)
Theorem tunnel_no_leak (x : state) :
  rtc sys_step init x ->
  live (env_of x) = held (tunnel x) /\ wf (tunnel x) /\
  (running (tunnel x) = false -> live (env_of x) = []).
Proof.
  intros Hr. destruct (owns_reachable (Config := Config) x Hr) as [Hwf Hl].
  split; [done|]. split; [done|]. intros Hdown. rewrite Hl.
  destruct (wf_cases _ Hwf) as [[g ->]|(?&?&?&?&?&?&?&?&Ht)]; [done|].
  by rewrite Ht in Hdown.
Qed.

(** C7: from every reachable state, whatever the outside answers, no method
    uses or releases an object that is not alive, opens an adapter while another
    is open, closes a channel twice, or waits for the engine before closing it,
    its socket and its device. *)
Theorem tunnel_no_misuse (x : state) :
  rtc sys_step init x ->
  (forall text n tr r, exec (Connect (Config := Config) text n (tunnel x)) tr r ->
     legal (env_of x) tr -> is_Some (observe (env_of x) tr)) /\
  (forall tr r, exec (Disconnect (Config := Config) (tunnel x)) tr r ->
     legal (env_of x) tr -> is_Some (observe (env_of x) tr)) /\
  (forall tr st, exec (Status_ (Config := Config) (tunnel x)) tr st ->
     legal (env_of x) tr -> is_Some (observe (env_of x) tr)) /\
  (forall w err tr r, exec (watcher_fire (Config := Config) w err (tunnel x)) tr r ->
     legal (env_of x) tr -> is_Some (observe (env_of x) tr)).
Proof.
  intros Hr. destruct (owns_reachable (Config := Config) x Hr) as [Hwf Hl].
  assert (forall A (p : prog tunE A) Q tr r,
            wp (env_step (Config := Config) (Cleanup := Cleanup)) fresh_chan p Q (env_of x) ->
            exec p tr r -> legal (env_of x) tr -> is_Some (observe (env_of x) tr)) as Hwp.
  { intros A p Q tr r Hw He Ha. destruct (wp_exec _ _ p Q _ tr r Hw He Ha) as (? & -> & _).
    eauto. }
  repeat split; intros *; eapply Hwp;
    eauto using wp_Connect, wp_Disconnect, wp_Status, wp_watcher_fire.
Qed.

(** C4: within fewer than 2^63 steps, a watcher that received an error acts
    only if its session is still the current one: otherwise it makes no call
    and leaves the tunnel as it is, so a quick switch of configurations is
    never undone by the old session's watcher. *)
Theorem stale_watcher_harmless (n : nat) (x : state) (w : watcher) (ph : phase)
    (err : error) (tr : list (event tunE)) (t' : Tunnel) :
  nsteps sys_step n init x -> Z.of_nat n < 2 ^ 63 ->
  (w, ph) ∈ watchers (env_of x) ->
  exec (watcher_fire (Config := Config) w err (tunnel x)) tr t' ->
  (done_ch (tunnel x) = Some (w_done w) /\ gen (tunnel x) = w_gen w /\
   running (tunnel x) = true /\ running t' = false) \/
  (done_ch (tunnel x) <> Some (w_done w) /\ tr = [] /\ t' = tunnel x).
Proof.
  intros Hn Hlt Hw He. assert (inv n x) as Hinv by (eapply inv_reachable; [done|lia]).
  pose proof (inv_watchers _ _ Hinv) as Hall. rewrite Forall_forall in Hall.
  unfold watcher_fire in He.
  destruct (Hall _ Hw) as [(Hr & Hd & Hg)|[Hcl Hg]]; simpl in *; [left|right].
  - rewrite Hr, bool_decide_true in He by done. simpl in He.
    destruct He as ([] & tr' & -> & He).
    apply (exec_stop _ _ _ (inv_wf _ _ Hinv)) in He. unfold stopped_tunnel in He.
    rewrite Hr in He. by subst.
  - rewrite bool_decide_false, andb_false_r in He by lia. destruct He as [-> ->].
    split; [|done]. intros Hd. by apply (inv_done _ _ Hinv) in Hd as [_ ?].
Qed.

(** At most the current session's watcher is still waiting for its
    [done] channel: every other one can leave its [select] at once. *)
Theorem watcher_not_leaked (n : nat) (x : state) (w : watcher) (ph : phase) :
  nsteps sys_step n init x -> Z.of_nat n < 2 ^ 63 ->
  (w, ph) ∈ watchers (env_of x) ->
  w_done w ∈ closed (env_of x) \/
  (running (tunnel x) = true /\ done_ch (tunnel x) = Some (w_done w)).
Proof.
  intros Hn Hlt Hw. assert (inv n x) as Hinv by (eapply inv_reachable; [done|lia]).
  pose proof (inv_watchers _ _ Hinv) as Hall. rewrite Forall_forall in Hall.
  destruct (Hall _ Hw) as [(? & ? & _)|[? _]]; auto.
Qed.

(** Stopping a running tunnel makes exactly these calls in this order:
    close the engine, undo the routing, close the socket, close the device,
    wait for the engine, close the done channel; and leaves the zero state
    with the generation advanced.  Stopping again does nothing. *)
Theorem stop_order (t : Tunnel) (tr : list (event tunE)) (t' : Tunnel) :
  wf t -> exec (stopLocked (Config := Config) t) tr t' ->
  match eng t, tun t, conn t, cleanup t, done_ch t with
  | Some e, Some d, Some c, Some cl, Some ch =>
      exists r1 r2,
        tr = [Ev (Engine_Close e) tt; Ev (RunCleanup cl) tt; Ev (Udp (Conn_Close c)) r1;
              Ev (Tun_Close d) r2; Ev (Engine_Wait e) tt; Ev (CloseChan ch) tt;
              Ev (Log (Printf "tunnel %q down" [AStr (name t)])) tt] /\
        t' = mkTunnel false (u64 (gen t + 1)) "" "" None None None None None
  | _, _, _, _, _ => tr = [] /\ t' = t
  end /\
  (forall tr2 t2, exec (stopLocked (Config := Config) t') tr2 t2 -> tr2 = [] /\ t2 = t').
Proof.
  intros Hwf He.
  destruct (wf_cases t Hwf) as [[g ->]|(g & nm & i & e & d & c & cl & ch & ->)].
  - destruct He as [-> ->]. split; [done|]. intros tr2 t2 [-> ->]. done.
  - unfold stopLocked, when_some in He.
    cbn [running negb eng tun conn cleanup done_ch gen name] in He |- *.
    unfold logf in He. exec_inv.
    repeat match goal with u : unit |- _ => destruct u end. simpl.
    split; [by eexists _, _|]. intros tr2 t2 [-> ->]. done.
Qed.

(** The prefixes [Connect] puts before an error, one per stage. *)
Definition stages : list string :=
  ["parse config"; "create adapter"; "bind udp"; "configure routing"; "build engine"].

(** The call that made [Connect] fail, by the prefix of its error. *)
Definition failed_call (text prefix : string) (e : error) (tr : list (event tunE)) : Prop :=
  match prefix with
  | "parse config" => Ev (LoadConfigString text) (Err e) ∈ tr
  | "create adapter" => Ev (NewTunDevice "veil0") (Err e) ∈ tr
  | "bind udp" => exists port, Ev (Udp (ListenUDP port)) (Err e) ∈ tr
  | "configure routing" => exists luid cfg, Ev (ConfigureRouting luid cfg) (Err e) ∈ tr
  | "build engine" => exists cfg d c, Ev (Engine_New cfg d c) (Err e) ∈ tr
  | _ => False
  end.

(** [Connect] on every branch; the interface name is the device's. *)
Lemma exec_Connect (text n : string) (t : Tunnel) (tr : list (event tunE))
    (t' : Tunnel) (err : option error) :
  wf t -> exec (Connect (Config := Config) text n t) tr (t', err) ->
  match err with
  | None =>
      running t' = true /\ wf t' /\ name t' = n /\
      gen t' = u64 (gen (stopped_tunnel t) + 1) /\
      (exists d, Ev (Tun_Name d) (iface t') ∈ tr) /\
      exists ech ch, done_ch t' = Some ch /\ Ev (Go (mkWatcher ech ch (gen t') n)) tt ∈ tr
  | Some e =>
      t' = stopped_tunnel t /\ running t' = false /\
      exists prefix e', e = Errorf prefix e' /\ prefix ∈ stages /\ failed_call text prefix e' tr
  end.
Proof.
  intros Hwf He. unfold Connect in He.
  apply exec_bind in He as (tr0 & trr & t0 & -> & Hst & He).
  assert (t0 = stopped_tunnel t /\ running (stopped_tunnel t) = false) as [-> Hdown].
  { unfold stopped_tunnel. destruct (running t) eqn:Hr.
    - apply exec_stop in Hst; [|done]. unfold stopped_tunnel in Hst. by rewrite Hr in Hst.
    - by destruct Hst as [_ ->]. }
  clear Hst. unfold logf in He.
  repeat (exec_step; cbn beta iota in *);
    try match goal with Hb : exec (bindUDP _) _ (Err _) |- _ => apply exec_bindUDP_err in Hb end;
    repeat match goal with u : unit |- _ => destruct u end.
  all: try (split; [done|]; split; [done|]; eexists _, _; split; [reflexivity|];
            split; [by eapply bool_decide_unpack|]; simpl; repeat eexists; in_trace).
  split; [done|]. split; [by repeat split; eauto|]. repeat (split; [done|]).
  split; [eexists; simpl; in_trace|].
  eexists _, _. split; [done|]. simpl. in_trace.
Qed.

(** C11: [Connect] first stops a running session.  On success the tunnel is up
    with every object in place, under the given name and a new generation, and
    its watcher was started with that generation; on failure it is down and
    the error wraps, under the prefix of its stage, the error of the call that
    failed. *)
Theorem connect_outcome (text n : string) (t : Tunnel) (tr : list (event tunE))
    (t' : Tunnel) (err : option error) :
  wf t -> exec (Connect (Config := Config) text n t) tr (t', err) ->
  match err with
  | None =>
      running t' = true /\ wf t' /\ name t' = n /\
      gen t' = u64 (gen (stopped_tunnel t) + 1) /\
      exists ech ch, done_ch t' = Some ch /\ Ev (Go (mkWatcher ech ch (gen t') n)) tt ∈ tr
  | Some e =>
      t' = stopped_tunnel t /\ running t' = false /\
      exists prefix e', e = Errorf prefix e' /\ failed_call text prefix e' tr
  end.
Proof.
  intros Hwf He. apply exec_Connect in He; [|done]. destruct err.
  - destruct He as (Ht & Hd & p & e' & Hp & _ & Hf).
    split; [exact Ht|]. split; [exact Hd|]. by exists p, e'.
  - destruct He as (? & ? & ? & ? & _ & ?). auto.
Qed.

Lemma exec_Status (t : Tunnel) (tr : list (event tunE)) (st : Status.t) :
  wf t -> exec (Status_ (Config := Config) t) tr st ->
  match eng t with
  | None => tr = [] /\ st = Status.mk "disconnected" "" "" []
  | Some e =>
      exists stats, tr = [Ev (Engine_Stats e) stats] /\
        st = Status.mk (if existsb PeerStats.Connected stats then "connected" else "connecting")
               (name t) (iface t) (map peer_status stats)
  end.
Proof.
  intros Hwf He.
  assert (forall stats ps any,
            status_loop stats ps any
            = (ps ++ map peer_status stats, any || existsb PeerStats.Connected stats)) as Hloop.
  { induction stats as [|p stats IH]; intros ps any; simpl.
    - by rewrite app_nil_r, orb_false_r.
    - rewrite IH, <- app_assoc, orb_assoc. done. }
  destruct (wf_cases t Hwf) as [[g ->]|(g & nm & i & e & d & c & cl & ch & ->)]; simpl in *.
  - by destruct He as [-> ->].
  - destruct He as (stats & tr' & -> & He). rewrite Hloop in He. simpl in He.
    destruct He as [-> ->]. by exists stats.
Qed.

(** [Status] of a tunnel that is down is "disconnected" without any call;
    of a running one it reports every peer of the engine in order, and
    "connected" exactly when some peer is, "connecting" otherwise.  Times not
    set are reported as 0. *)
Theorem status_outcome (t : Tunnel) (tr : list (event tunE)) (st : Status.t) :
  wf t -> exec (Status_ (Config := Config) t) tr st ->
  match eng t with
  | None => tr = [] /\ st = Status.mk "disconnected" "" "" []
  | Some e =>
      exists stats, tr = [Ev (Engine_Stats e) stats] /\
        st = Status.mk (if existsb PeerStats.Connected stats then "connected" else "connecting")
               (name t) (iface t) (map peer_status stats)
  end.
Proof. apply exec_Status. Qed.

(** Steps left to the watchers at most. *)
Definition phase_steps (ph : phase) : nat :=
  match ph with Selecting => 2 | Firing _ => 1 end.
Definition steps_left (x : state) : nat :=
  sum_list (map (fun wp => phase_steps wp.2) (watchers (env_of x))).

Lemma steps_left_app t s ws1 ws2 :
  steps_left (mkState t (set_watchers (ws1 ++ ws2) s))
  = (sum_list (map (fun wp => phase_steps wp.2) ws1)
     + sum_list (map (fun wp => phase_steps wp.2) ws2))%nat.
Proof. unfold steps_left. simpl. by rewrite map_app, sum_list_with_app. Qed.

Section Drain.
Context (t : Tunnel) (s : env) (down : running t = false).

(** The tunnel is down, only the watchers of [s] change, and [done] is closed for
    each of them. *)
Definition draining (x : state) : Prop :=
  exists ws, x = mkState t (set_watchers ws s) /\ Forall (fun wp => w_done wp.1 ∈ closed s) ws.

Lemma draining_step x y :
  draining x -> receives x y \/ proceeds (Config := Config) x y ->
  draining y /\ (steps_left y < steps_left x)%nat.
Proof.
  intros (ws & -> & Hall) Hs.
  assert (forall ws1 ws2 w ph, ws = ws1 ++ (w, ph) :: ws2 ->
    draining (mkState t (set_watchers (ws1 ++ ws2) (set_watchers ws s))) /\
    (steps_left (mkState t (set_watchers (ws1 ++ ws2) (set_watchers ws s)))
     < steps_left (mkState t (set_watchers ws s)))%nat) as Hleave.
  { intros ws1 ws2 w ph ->. split.
    - exists (ws1 ++ ws2). split; [done|]. rewrite Forall_app, Forall_cons in *. tauto.
    - rewrite !steps_left_app. simpl. destruct ph; simpl; lia. }
  destruct Hs as [Hs|Hs]; inversion Hs; subst; simpl in *; try by eapply Hleave.
  - subst. split.
    + eexists. split; [done|]. rewrite Forall_app, Forall_cons in *. done.
    + rewrite !steps_left_app. simpl. lia.
  - match goal with He : exec (watcher_fire _ _ _) _ _ |- _ =>
      unfold watcher_fire in He; rewrite down in He; destruct He as [-> ->] end.
    match goal with Ho : monitor _ _ [] = Some _ |- _ => injection Ho as <- end.
    by eapply Hleave.
Qed.

Lemma draining_goes_on x :
  draining x ->
  x = mkState t (set_watchers [] s) \/ exists y, proceeds (Config := Config) x y.
Proof.
  intros (ws & -> & Hall). destruct ws as [|[w ph] ws]; [by left|right].
  apply Forall_cons in Hall as [Hw _]. destruct ph as [|err].
  - eexists. by eapply (proceeds_done _ _ [] w ws).
  - eexists. eapply (proceeds_fire t _ [] w err ws []); [done| |done|done].
    unfold watcher_fire. by rewrite down.
Qed.
End Drain.

(** C15: no goroutine is leaked: from every state reachable in fewer than 2^62
    steps [Disconnect] can run to its end, and however it does the tunnel is down
    and holds nothing, and all watcher goroutines end: whatever the engines still
    send, until none is left some watcher can go on without an engine sending
    anything - a waiting one over its closed [done] channel - and no step of a
    watcher changes the tunnel or makes another wait. *)
Theorem watchers_drain (n : nat) (x : state) :
  nsteps sys_step n init x -> Z.of_nat n < 2 ^ 62 ->
  (exists y, disconnects (Config := Config) x y) /\
  forall y, disconnects (Config := Config) x y ->
    running (tunnel y) = false /\ live (env_of y) = [] /\
    inevitable (proceeds (Config := Config))
      (fun a b => receives a b \/ proceeds (Config := Config) a b)
      (fun z => z = mkState (tunnel y) (set_watchers [] (env_of y))) y.
Proof.
  intros Hn Hlt. assert (inv n x) as Hinv by (eapply inv_reachable; [done|lia]).
  destruct x as [t s]. pose proof (inv_wf _ _ Hinv) as Hwf.
  pose proof (inv_live _ _ Hinv) as Hl. simpl in Hwf, Hl. split.
  - destruct (wp_progress _ _ _ _ s (answers_exist (Config := Config)) (wp_Disconnect t s Hwf Hl))
      as (tr & [t' err] & s' & He & Ha & Ho & _). eexists. by eapply disconnects_run.
  - intros y Hy. inversion Hy as [? ? tr t' err s' He Ha Ho]; subst.
    pose proof (watchers_exec _ _ _ _ _ _ (wp_Disconnect t s Hwf Hl) He Ha Ho) as (-> & -> & _).
    assert (inv (S n) (mkState (stopped_tunnel t) (stopped t s))) as Hinv'
      by (apply inv_stopped; [lia|done]).
    assert (running (stopped_tunnel t) = false) as Hdown.
    { unfold stopped_tunnel. by destruct (running t) eqn:Hr. }
    split; [exact Hdown|]. split; [done|].
    apply (inevitable_descent _ _ (fun a b => steps_left a < steps_left b)%nat
             (draining (stopped_tunnel t) (stopped t s))).
    + intros a b. by apply draining_step.
    + intros a. by apply draining_goes_on.
    + apply well_founded_ltof.
    + exists (watchers (stopped t s)). split; [done|].
      eapply Forall_impl; [exact (inv_watchers _ _ Hinv')|].
      intros [w ph] [(Hr & _)|[? _]]; simpl in *; congruence.
Qed.
End Props.

(** ** Examples

    A session on a sample configuration: the outside grants every request,
    numbering the handles it gives out. *)
Module TunnelExample.
Abbreviation E := (@tunE Sample.config Z).

Definition cfg : Sample.config := Sample.mk "10.0.0.2/24" 0 "" [].

Definition stat (connected : bool) : PeerStats.t :=
  PeerStats.mk "key" "host:1" connected Time.zero Time.zero 0 0 1.

(** The world is the next handle number; [give] makes cleanup functions. *)
Definition grant_with {C} (give : Z -> C) : handler (@tunE Sample.config C) Z := fun R e n =>
  match e in tunE R return R * Z with
  | LoadConfigString _ => (Ok cfg, n)
  | NewTunDevice _ => (Ok (mkTun n), n + 1)
  | Tun_LUID _ => (77, n)
  | Tun_Name _ => ("veil0", n)
  | Tun_Close _ => (None, n)
  | Udp u =>
      match u in udpE R return R * Z with
      | ResolveUDPAddr a => (Ok (mkAddr a), n)
      | DialUDP _ _ | ListenUDP _ => (Ok (mkConn n), n + 1)
      | SetReadBuffer _ _ | SetWriteBuffer _ _ => (None, n)
      | SyscallConn _ => (Ok (mkRaw n), n + 1)
      | Control _ => (Ok n, n + 1)
      | WSAIoctl _ _ _ => (None, n)
      | Conn_Close _ => (None, n)
      end
  | ConfigureRouting _ _ => (Ok (give n), n + 1)
  | RunCleanup _ => (tt, n)
  | Engine_New _ _ _ => (Ok (mkEngine n), n + 1)
  | Engine_Run _ _ | Engine_Close _ | Engine_Wait _ => (tt, n)
  | Engine_Stats _ => ([stat false; stat true], n)
  | MakeChan => (mkChan n, n + 1)
  | CloseChan _ => (tt, n)
  | Go _ => (tt, n)
  | Log l => match l in logE R return R * Z with Printf _ _ => (tt, n) end
  end.

Definition grant : handler E Z := grant_with (fun n => n).

Abbreviation observe := (monitor (env_step (Config := Sample.config) (Cleanup := Z))).

Definition connect1 := run (traced grant) (Connect "cfg" "Home" zero_Tunnel) (10, []).
Definition t1 : Tunnel := connect1.1.1.
Definition tr1 : list (event E) := connect1.2.2.
Definition s1 : env := default (env_of init) (observe (env_of init) tr1).
Definition x1 : state := mkState t1 s1.

(** A switch to another configuration. *)
Definition connect2 := run (traced grant) (Connect "cfg2" "Work" t1) (50, []).
Definition t2 : Tunnel := connect2.1.1.
Definition tr2 : list (event E) := connect2.2.2.
Definition s2 : env := default s1 (observe s1 tr2).
Definition x2 : state := mkState t2 s2.

Lemma exec1 : exec (Connect "cfg" "Home" zero_Tunnel) tr1 (t1, None).
Proof. exact (run_exec grant (Connect "cfg" "Home" zero_Tunnel) 10). Qed.

Lemma exec2 : exec (Connect "cfg2" "Work" t1) tr2 (t2, None).
Proof. exact (run_exec grant (Connect "cfg2" "Work" t1) 50). Qed.

Lemma legal1 : admissible env_step fresh_chan (env_of init) tr1.
Proof. vm_compute. repeat split; discriminate. Qed.

Lemma steps2 : nsteps (step (Config := Sample.config)) 2 init x2.
Proof.
  apply nsteps_l with x1; [|apply nsteps_once].
  - apply (step_connect "cfg" "Home" _ _ tr1 _ None _ exec1); [|vm_compute; reflexivity].
    apply legal1.
  - apply (step_connect "cfg2" "Work" _ _ tr2 _ None _ exec2); [|vm_compute; reflexivity].
    vm_compute. repeat split; discriminate.
Qed.
End TunnelExample.

(** ** The theorems at the example *)
Section Witnesses.
Import TunnelExample.

Abbreviation sys := (step (Config := Sample.config) (Cleanup := Z)).

Lemma reach2 : rtc sys init x2.
Proof. apply rtc_nsteps_2 with 2%nat. exact steps2. Qed.

(** The old session's watcher, with the error it saw. *)
Definition stale : watcher := mkWatcher (mkChan 16) (mkChan 17) 1 "Home".

Lemma tunnel_no_leak_witness :
  live (env_of x2) = held t2 /\ length (live (env_of x2)) = 5%nat.
Proof.
  destruct (tunnel_no_leak (Config := Sample.config) x2 reach2) as (Hl & _ & _).
  split; [exact Hl|]. vm_compute. reflexivity.
Defined.

Lemma tunnel_no_misuse_witness :
  exists tr r, exec (Disconnect (Config := Sample.config) t2) tr r /\
    is_Some (observe (env_of x2) tr).
Proof.
  destruct (tunnel_no_misuse (Config := Sample.config) x2 reach2) as (_ & Hd & _ & _).
  eexists _, _. split; [exact (run_exec grant (Disconnect t2) 90)|].
  apply (Hd _ _ (run_exec grant (Disconnect t2) 90)).
  vm_compute. repeat split.
Defined.

Lemma stale_watcher_harmless_witness :
  (stale, Selecting) ∈ watchers (env_of x2) /\
  exec (watcher_fire (Config := Sample.config) stale ErrClosed t2) [] t2 /\
  done_ch t2 <> Some (w_done stale).
Proof.
  assert ((stale, Selecting) ∈ watchers (env_of x2)) as Hin
    by (apply list_elem_of_In; vm_compute; auto).
  assert (exec (watcher_fire (Config := Sample.config) stale ErrClosed t2) [] t2) as He
    by (vm_compute; repeat split).
  split; [exact Hin|]. split; [exact He|].
  destruct (stale_watcher_harmless 2 x2 stale Selecting ErrClosed [] t2 steps2
              ltac:(reflexivity) Hin He) as [(_ & Hg & _)|[Hd _]].
  - vm_compute in Hg. discriminate Hg.
  - exact Hd.
Defined.

Lemma watcher_not_leaked_witness :
  (stale, Selecting) ∈ watchers (env_of x2) /\ w_done stale ∈ closed (env_of x2).
Proof.
  assert ((stale, Selecting) ∈ watchers (env_of x2)) as Hin
    by (apply list_elem_of_In; vm_compute; auto).
  split; [exact Hin|].
  destruct (watcher_not_leaked (Config := Sample.config) 2 x2 stale Selecting steps2
              ltac:(reflexivity) Hin) as [Hc|[_ Hd]]; [exact Hc|].
  vm_compute in Hd. discriminate Hd.
Defined.

Lemma wf_t2 : wf t2.
Proof. vm_compute. repeat split; eexists; reflexivity. Qed.

Definition stop2 := run (traced grant) (stopLocked t2) (90, []).

Lemma stop_order_witness :
  exists tr t', exec (stopLocked (Config := Sample.config) t2) tr t' /\
    length tr = 7%nat /\ exec (stopLocked (Config := Sample.config) t') [] t'.
Proof.
  exists stop2.2.2, stop2.1. split; [exact (run_exec grant (stopLocked t2) 90)|].
  destruct (stop_order (Config := Sample.config) t2 _ _ wf_t2
              (run_exec grant (stopLocked t2) 90)) as [(r1 & r2 & Htr & Ht') Hagain].
  split; [exact (f_equal length Htr)|]. vm_compute. split; reflexivity.
Defined.

Lemma connect_outcome_witness :
  running t2 = true /\ name t2 = "Work" /\ gen t2 = 3.
Proof.
  assert (wf t1) as Hwf by (vm_compute; repeat split; eexists; reflexivity).
  destruct (connect_outcome (Config := Sample.config) "cfg2" "Work" t1 tr2 t2 None Hwf exec2)
    as (Hr & _ & Hn & Hg & _).
  split; [exact Hr|]. split; [exact Hn|]. exact Hg.
Defined.

Lemma status_outcome_witness :
  exists tr st e stats, exec (Status_ (Config := Sample.config) t2) tr st /\
    tr = [Ev (Engine_Stats e) stats] /\ Status.Peers st = map peer_status stats.
Proof.
  pose proof (run_exec grant (Status_ t2) 90) as He.
  destruct (status_outcome (Config := Sample.config) t2 _ _ wf_t2 He) as (stats & Htr & Hst).
  eexists _, _, _, stats. split; [exact He|]. split; [exact Htr|].
  exact (f_equal Status.Peers Hst).
Defined.

(** Two sessions one after the other: both watchers end. *)
Lemma watchers_drain_witness :
  length (watchers (env_of x2)) = 2%nat /\
  exists y z, disconnects (Config := Sample.config) x2 y /\
    rtc (fun a b => receives a b \/ proceeds (Config := Sample.config) a b) y z /\
    running (tunnel z) = false /\ watchers (env_of z) = [].
Proof.
  split; [vm_compute; reflexivity|].
  destruct (watchers_drain (Config := Sample.config) 2 x2 steps2 ltac:(reflexivity))
    as [[y Hy] Hall].
  destruct (Hall y Hy) as (Hr & _ & Hi). exists y.
  destruct (inevitable_run _ _ _ y (fun a b H => or_intror H) Hi) as (z & Hz & ->).
  exists (mkState (tunnel y) (set_watchers [] (env_of y))).
  split; [exact Hy|]. split; [exact Hz|]. split; [exact Hr|reflexivity].
Defined.
End Witnesses.
