(* ===== verification/Main.v ===== *)
(** * The command line client (cmd/veil-client/main.go)

    [main] as a program over the calls of the tunnel controller and its own:
    start-up, the wait for a signal or an engine error, shutdown and the deferred
    calls.  [log.Fatalf] ends the process where it stands, so the calls deferred
    so far are not made.  main.go has its own bindUDP and tuneUDPSocket, which are
    shown to be those of the tunnel. *)

From S2P Require Import Prelude Veil Udp Tunnel TunnelProps.
From Stdlib Require Import ZArith String Lia.
From stdpp Require Import base list strings.
Open Scope Z_scope.
Open Scope string_scope.
Local Open Scope list_scope.

Section Main.
Context {Config Cleanup : Type} `{ConfigView Config}.

Abbreviation tunE := (tunE (Config := Config) (Cleanup := Cleanup)).

(** The calls of [main]: those of package windev and the engine, loading the
    configuration file, and the select over signals and engine errors. *)
Inductive mainE : Type -> Type :=
| OnTunnel {R} (e : tunE R) : mainE R
| LoadConfig (path : string) : mainE (result Config)
| Select (errChan : chan) : mainE (string + error).

#[export] Instance Sub_tunnel_main : Sub tunE mainE := fun R e => OnTunnel e.
#[export] Instance Sub_udp_main : Sub udpE mainE := fun R e => OnTunnel (Udp e).
#[export] Instance Sub_log_main : Sub logE mainE := fun R e => OnTunnel (Log e).

(** How the process ends: by [log.Fatalf], with exit code 1, by returning, or by
    the panic of [os.Args[0]] when there are no arguments at all. *)
Inductive exit : Type :=
| Fatal
| Returned
| Panicked.

Definition Fatalf (format : string) (args : list logarg) : prog mainE exit :=
  do! logf format args in Ret Fatal.

Definition bindUDP (cfg : Config) : prog mainE (result UDPConn) :=
  let local := Interface_ListenPort cfg in
  let listen := invoke (ListenUDP local) in
  match Peers cfg with
  | [p] =>
      if decide (Peer_Endpoint p = "") then listen
      else
        let! remote := invoke (ResolveUDPAddr (Peer_Endpoint p)) in
        match remote with
        | Ok (mkAddr text as remote) =>
            let! conn := invoke (DialUDP local remote) in
            match conn with
            | Ok conn => do! logf "UDP socket connected to %s" [AStr text] in Ret (Ok conn)
            | Err _ =>
                do! logf "Warning: connected UDP bind failed, falling back to unconnected socket" [] in
                listen
            end
        | Err _ => listen
        end
  | _ => listen
  end.

Definition tuneUDPSocket (conn : UDPConn) : prog mainE unit :=
  let! err := invoke (SetReadBuffer conn (Z.shiftl 8 20)) in
  do! warn_on "Warning: failed to set UDP read buffer: %v" err in
  let! err := invoke (SetWriteBuffer conn (Z.shiftl 8 20)) in
  do! warn_on "Warning: failed to set UDP write buffer: %v" err in
  let! raw := invoke (SyscallConn conn) in
  match raw with
  | Err e => logf "Warning: raw socket access unavailable: %v" [AErr e]
  | Ok raw =>
      let! fd := invoke (Control raw) in
      match fd with
      | Ok fd =>
          let! err := invoke (WSAIoctl fd (Z.lor (Z.lor IOC_IN IOC_VENDOR) 12) 0) in
          warn_on "Warning: failed to disable UDP connreset: %v" err
      | Err e => logf "Warning: socket control failed: %v" [AErr e]
      end
  end.

(** They are the functions of the tunnel. *)
Lemma bindUDP_same cfg : bindUDP cfg = Udp.bindUDP cfg.
Proof. reflexivity. Qed.

Lemma tuneUDPSocket_same c : tuneUDPSocket c = Udp.tuneUDPSocket c.
Proof. reflexivity. Qed.

(** The select and what follows it in [main]. *)
Definition wait_and_stop (en : Engine) (errChan : chan) (c : UDPConn) (d : TunDevice)
    : prog mainE unit :=
  let! ev := call (Select errChan) in
  do! (match ev with
       | inl sig => logf "Received signal %v, shutting down..." [AStr sig]
       | inr err => logf "Fatal error: %v" [AErr err]
       end) in
  do! invoke (Engine_Close en) in
  do! invoke (Conn_Close c) in
  do! invoke (Tun_Close d) in
  invoke (Engine_Wait en).

(** The deferred calls, the last deferred first. *)
Definition deferred (cl : Cleanup) (c : UDPConn) (d : TunDevice) : prog mainE unit :=
  do! invoke (RunCleanup cl) in
  do! invoke (Conn_Close c) in
  do! invoke (Tun_Close d) in
  Ret tt.

Definition main (args : list string) : prog mainE exit :=
  match args with
  | _ :: path :: _ =>
  let! cfg := call (LoadConfig path) in
  match cfg with
  | Err e => Fatalf "Failed to load config: %v" [AErr e]
  | Ok cfg =>
  let! tunDev := invoke (NewTunDevice "veil0") in
  match tunDev with
  | Err e => Fatalf "Failed to create VEIL adapter: %v" [AErr e]
  | Ok tunDev =>
  let! luid := invoke (Tun_LUID tunDev) in
  let! n := invoke (Tun_Name tunDev) in
  do! logf "VEIL adapter %s up (LUID %d)" [AStr n; AInt luid] in
  let! c := bindUDP cfg in
  match c with
  | Err e => Fatalf "Failed to bind UDP: %v" [AErr e]
  | Ok c =>
  do! tuneUDPSocket c in
  let! cl := invoke (ConfigureRouting luid cfg) in
  match cl with
  | Err e => Fatalf "Failed to configure routing: %v" [AErr e]
  | Ok cl =>
  let! en := invoke (Engine_New cfg tunDev c) in
  match en with
  | Err e => Fatalf "Failed to build engine: %v" [AErr e]
  | Ok en =>
  let! errChan := invoke MakeChan in
  do! invoke (Engine_Run en errChan) in
  do! logf "VEIL client running." [] in
  do! wait_and_stop en errChan c tunDev in
  do! deferred cl c tunDev in
  Ret Returned
  end end end end end
  | [name] => Fatalf "Usage: %s <config.ini>" [AStr name]
  | [] => Ret Panicked
  end.

(** ** What the process leaves behind *)

Abbreviation on e a := (Ev (E := mainE) (OnTunnel e) a).

(** Calls that give something back. *)
Definition releases_udp {R} (e : udpE R) : bool :=
  match e with Conn_Close _ => true | _ => false end.

Definition releases_tun {R} (e : tunE R) : bool :=
  match e with
  | Tun_Close _ | RunCleanup _ | Engine_Close _ | Engine_Wait _ => true
  | Udp e => releases_udp e
  | _ => false
  end.

Definition releases_main {R} (e : mainE R) : bool :=
  match e with OnTunnel e => releases_tun e | _ => false end.

Abbreviation keeping := (fun ev : event mainE => releases_main (ev_call _ ev) = false).

Lemma keeping_bindUDP cfg : always keeping (bindUDP cfg).
Proof. rewrite bindUDP_same. by apply always_bindUDP; [intros R []|]. Qed.

Lemma keeping_tune c : always keeping (tuneUDPSocket c).
Proof. rewrite tuneUDPSocket_same. by apply always_tuneUDPSocket; [intros R []|]. Qed.

Lemma exec_Fatalf format l tr r :
  exec (Fatalf format l) tr r -> Forall keeping tr /\ r = Fatal.
Proof.
  intros He. unfold Fatalf in He. apply exec_bind in He as (tr1 & tr2 & [] & -> & Hl & [-> ->]).
  apply exec_invoke in Hl as ->. split; [by repeat constructor|done].
Qed.

(** Opens the first call of a program. *)
Tactic Notation "exec_call_step" hyp(H) "as" simple_intropattern(v) ident(t) :=
  apply exec_bind in H as (? & t & v & -> & ?Hcall & H); apply exec_invoke in Hcall as ->.

(** The calls of a regular end: the engine is told to stop, the socket and the
    device are closed, the engine is waited for, and the deferred calls run. *)
Definition shutdown (en : Engine) (c : UDPConn) (d : TunDevice) (cl : Cleanup)
    (r1 r2 r3 r4 : option error) : list (event mainE) :=
  [on (Engine_Close en) tt; on (Udp (Conn_Close c)) r1; on (Tun_Close d) r2;
   on (Engine_Wait en) tt; on (RunCleanup cl) tt; on (Udp (Conn_Close c)) r3; on (Tun_Close d) r4].

Lemma exec_wait_and_stop en ch c d cl tr r :
  exec (do! wait_and_stop en ch c d in do! deferred cl c d in Ret Returned) tr r ->
  exists pre r1 r2 r3 r4, tr = pre ++ shutdown en c d cl r1 r2 r3 r4 /\
    Forall keeping pre /\ r = Returned.
Proof.
  intros He. apply exec_bind in He as (tr1 & tr2 & [] & -> & Hw & He).
  unfold wait_and_stop in Hw.
  apply exec_bind in Hw as (t1 & t2 & ev & -> & Hs & Hw). apply exec_call in Hs as ->.
  apply exec_bind in Hw as (t3 & t4 & [] & -> & Hl & Hw).
  assert (Forall keeping t3) as Hk
    by (destruct ev; apply exec_invoke in Hl as ->; by repeat constructor).
  exec_call_step Hw as [] t5. exec_call_step Hw as r1 t6. exec_call_step Hw as r2 t7.
  apply exec_invoke in Hw as ->.
  apply exec_bind in He as (t8 & t9 & [] & -> & Hd & [-> ->]). unfold deferred in Hd.
  exec_call_step Hd as [] t10. exec_call_step Hd as r3 t11. exec_call_step Hd as r4 t12.
  destruct Hd as [-> _].
  exists ([Ev (Select ch) ev] ++ t3), r1, r2, r3, r4.
  split; [by rewrite <- !app_assoc|]. split; [|done].
  apply Forall_app. by split; [repeat constructor|].
Qed.

(** C30: main returns only after the engine was told to stop, the socket and the
    device were closed, the engine was waited for and the routing was cleaned up,
    and then closed socket and device once more; before that it releases
    nothing.  A fatal error at any earlier point ends the process without any of
    the deferred calls: the adapter, the socket and the routes made so far are
    left to the system. *)
Theorem main_outcome (args : list string) (tr : list (event mainE)) (r : exit) :
  exec (main args) tr r ->
  match r with
  | Returned =>
      exists pre en c d cl r1 r2 r3 r4, tr = pre ++ shutdown en c d cl r1 r2 r3 r4 /\
        Forall keeping pre
  | Fatal => Forall keeping tr
  | Panicked => args = [] /\ tr = []
  end.
Proof.
  intros He. unfold main in He.
  destruct args as [|a0 [|path rest]];
    [destruct He as [-> ->]; done|apply exec_Fatalf in He as [? ->]; done|].
  apply exec_bind in He as (t1 & t2 & cfg & -> & Hc & He). apply exec_call in Hc as ->.
  destruct cfg as [cfg|e]; [|apply exec_Fatalf in He as [? ->]; by constructor].
  exec_call_step He as d t3.
  destruct d as [d|e]; [|apply exec_Fatalf in He as [? ->]; by repeat constructor].
  exec_call_step He as luid t4. exec_call_step He as n t5. exec_call_step He as [] t6.
  apply exec_bind in He as (t7 & t8 & c & -> & Hb & He).
  apply (always_exec _ _ _ _ (keeping_bindUDP cfg)) in Hb.
  destruct c as [c|e]; [|apply exec_Fatalf in He as [? ->]; rewrite !Forall_app; by repeat constructor].
  apply exec_bind in He as (t9 & t10 & [] & -> & Ht & He).
  apply (always_exec _ _ _ _ (keeping_tune c)) in Ht.
  exec_call_step He as cl t11.
  destruct cl as [cl|e]; [|apply exec_Fatalf in He as [? ->]; rewrite !Forall_app; by repeat constructor].
  exec_call_step He as en t12.
  destruct en as [en|e]; [|apply exec_Fatalf in He as [? ->]; rewrite !Forall_app; by repeat constructor].
  exec_call_step He as ch t13. exec_call_step He as [] t14. exec_call_step He as [] t15.
  apply exec_wait_and_stop in He as (pre & r1 & r2 & r3 & r4 & -> & Hp & ->).
  eexists (Ev (LoadConfig path) (Ok cfg) :: [_] ++ [_] ++ [_] ++ [_] ++ t7 ++ t9 ++
           [_] ++ [_] ++ [_] ++ [_] ++ [_] ++ pre), en, c, d, cl, r1, r2, r3, r4.
  split; [cbn [app]; rewrite <- ?app_assoc; cbn [app]; rewrite <- ?app_assoc; reflexivity|].
  rewrite ?Forall_cons, !Forall_app. by repeat constructor.
Qed.
End Main.

(** ** A run that ends with a signal *)
Module MainSample.
Definition answer : handler (@mainE Sample.config Z) Z := fun R e n =>
  match e in mainE R return R * Z with
  | OnTunnel e => TunnelExample.grant _ e n
  | LoadConfig _ => (Ok TunnelExample.cfg, n)
  | Select _ => (inl "interrupt", n)
  end.

Definition full_run := run (traced answer) (main ["veil-client"; "home.ini"]) (10, []).
End MainSample.
Import MainSample.

Lemma main_outcome_witness :
  full_run.1 = Returned /\
  exists pre en c d cl r1 r2 r3 r4,
    full_run.2.2 = pre ++ shutdown en c d cl r1 r2 r3 r4 /\
    Forall (fun ev => releases_main (ev_call _ ev) = false) pre.
Proof.
  split; [reflexivity|].
  exact (main_outcome _ _ _ (run_exec answer (main ["veil-client"; "home.ini"]) 10)).
Defined.
