(* ===== verification/Service.v ===== *)
(** * The tunnel behind the control channel

    A client (Client.v), the encoding and framing of messages (ProtoJson.v,
    Transport.v), the server (Server.v) and the tunnel controller (Tunnel.v) put
    together, with the watcher goroutines of the tunnel acting between requests.
    The whole refines an abstract machine whose state is the name of the session
    that is up, if any.

    The two configuration commands are not the tunnel's: they are parameters. *)

From S2P Require Import Prelude GoStrings Utf8 Proto LogBuf Transport JsonTypes ProtoJson Server.
From S2P Require Import Client Veil Udp Tunnel TunnelSystem TunnelProps.
From Stdlib Require Import ZArith Ascii String Lia.
From stdpp Require Import base list strings sets.
Open Scope Z_scope.
Open Scope string_scope.
Local Open Scope list_scope.

Section Service.
Context (errno_text : Z -> string).
Context {Config Cleanup : Type} `{ConfigView Config} `{EqDecision Cleanup}.

Abbreviation Tunnel := (@Tunnel Cleanup).
Abbreviation tunE := (@tunE Config Cleanup).

(** Everything outside the program, and the two configuration functions. *)
Context {W : Type} (outside : handler tunE W).
Context (parse : string -> W -> result ParsedConfig.t * W).
Context (serialize : ParsedConfig.t -> W -> result string * W).

Record Service : Type := mkService {
  tunnel : Tunnel;
  logging : Logging;
  world : W;
}.

(** The tunnel as a [Handler]. *)
Definition service : handler handlerE Service := fun R e s =>
  match e in handlerE R return R * Service with
  | HConnect text name =>
      let '((t, err), w) := run outside (Connect text name (tunnel s)) (world s) in
      (err, mkService t (logging s) w)
  | HDisconnect =>
      let '((t, err), w) := run outside (Disconnect (tunnel s)) (world s) in
      (err, mkService t (logging s) w)
  | HStatus =>
      let '(st, w) := run outside (Status_ (tunnel s)) (world s) in
      (st, mkService (tunnel s) (logging s) w)
  | HLogs since =>
      let '(ls, l) := Logs since (logging s) in
      (default [] ls, mkService (tunnel s) l (world s))
  | HParseConfig text =>
      let '(r, w) := parse text (world s) in (r, mkService (tunnel s) (logging s) w)
  | HSerializeConfig cfg =>
      let '(r, w) := serialize cfg (world s) in (r, mkService (tunnel s) (logging s) w)
  end.

(** What happens to the service: a client's request on an idle connection, or an
    engine error that reaches a watcher. *)
Inductive activity : Type :=
| Ask (req : Request.t)
| EngineError (w : watcher) (err : error).

(** The replies the client gets, and the service afterwards with what is left on
    the connection. *)
Fixpoint happen (script : list activity) (x : Service * bytes)
    : list (result Response.t) * (Service * bytes) :=
  match script with
  | [] => ([], x)
  | Ask req :: script =>
      let '(r, x) := run (link errno_text service) (Do req) x in
      let '(rs, x) := happen script x in (r :: rs, x)
  | EngineError w err :: script =>
      let '(s, inbox) := x in
      let '(t, o) := run outside (watcher_fire w err (tunnel s)) (world s) in
      happen script (mkService t (logging s) o, inbox)
  end.

(** ** The abstract machine *)

(** The state: the name of the session that is up. *)
Definition session_of (s : Service) : option string :=
  if running (tunnel s) then Some (name (tunnel s)) else None.

Definition tells (a : option string) (st : Status.t) : Prop :=
  match a with
  | None => st = Status.mk StateDisconnected "" "" []
  | Some n =>
      Status.Name st = n /\
      Status.State st =
        if existsb PeerStatus.Connected (Status.Peers st) then StateConnected else StateConnecting
  end.

Definition shows (a : option string) (resp : Response.t) : Prop :=
  exists st, Response.Status resp = Some st /\ tells a st.

(** A request in state [a] may get the reply [resp] and lead to [a']. *)
Definition replies (a : option string) (req : Request.t) (resp : Response.t)
    (a' : option string) : Prop :=
  let cmd := Request.Cmd req in
  if Response.OK resp then
    Response.Error resp = "" /\
    if decide (cmd = CmdConnect) then a' = Some (Request.Name req) /\ shows a' resp
    else if decide (cmd = CmdDisconnect) then a' = None /\ shows a' resp
    else if decide (cmd = CmdStatus \/ cmd = CmdLogs) then a' = a /\ shows a' resp
    else (cmd = CmdParseConfig \/ cmd = CmdSerializeConfig) /\ a' = a /\
         Response.Status resp = None
  else
    Response.Status resp = None /\
    if decide (cmd = CmdConnect) then
      a' = None /\ exists stage reason, stage ∈ stages /\
        Response.Error resp = stage +:+ ": " +:+ reason
    else cmd <> CmdDisconnect /\ cmd <> CmdStatus /\ cmd <> CmdLogs /\ a' = a.

(** An engine error ends the session or is ignored. *)
Inductive observed : option string -> list activity -> list (result Response.t) ->
    option string -> Prop :=
| observed_nothing a : observed a [] [] a
| observed_reply a req script resp a1 rs a2 :
    replies a req resp a1 -> observed a1 script rs a2 ->
    observed a (Ask req :: script) (Ok resp :: rs) a2
| observed_error a w err script a1 rs a2 :
    a1 = a \/ a1 = None -> observed a1 script rs a2 ->
    observed a (EngineError w err :: script) rs a2.

(** ** What is assumed of the outside

    Texts are valid UTF-8 and numbers fit their types: otherwise their JSON would
    not be read back as it was. *)
Definition text_valid (e : error) : Prop := utf8 (to_bytes (Error_text errno_text e)).

Definition result_valid {A} (r : result A) : Prop :=
  match r with Ok _ => True | Err e => text_valid e end.

Definition answer_valid {R} (e : tunE R) : R -> Prop :=
  match e in Tunnel.tunE R return R -> Prop with
  | LoadConfigString _ => result_valid
  | NewTunDevice _ => result_valid
  | Tun_Name _ => fun n => utf8 (to_bytes n)
  | Udp u =>
      match u in udpE R return R -> Prop with
      | ListenUDP _ => result_valid
      | _ => fun _ => True
      end
  | ConfigureRouting _ _ => result_valid
  | Engine_New _ _ _ => result_valid
  | Engine_Stats _ => Forall (fun ps => valid (peer_status ps))
  | _ => fun _ => True
  end.

Class OutsideValid : Prop := {
  outside_valid : forall R (e : tunE R) w, answer_valid e (outside R e w).1;
  parse_valid : forall text w,
    match (parse text w).1 with Ok pc => valid pc | Err e => text_valid e end;
  serialize_valid : forall cfg w,
    match (serialize cfg w).1 with Ok t => utf8 (to_bytes t) | Err e => text_valid e end;
}.

Definition logging_valid (l : Logging) : Prop :=
  match logs l with
  | Some b => Forall valid (lines b)
  | None => logsOnce l = false
  end.

Definition service_valid (s : Service) : Prop :=
  wf (tunnel s) /\ utf8 (to_bytes (name (tunnel s))) /\ utf8 (to_bytes (iface (tunnel s))) /\
  logging_valid (logging s).

Definition activity_valid (a : activity) : Prop :=
  match a with Ask req => valid req | EngineError _ _ => True end.

(** ** The service, call by call *)

Context `{!OutsideValid}.

Lemma run_outside {A} (p : prog tunE A) w :
  exists tr, exec p tr (run outside p w).1 /\
    Forall (fun ev => answer_valid (ev_call _ ev) (ev_answer _ ev)) tr.
Proof. apply run_answers. intros. apply outside_valid. Qed.

Lemma to_bytes_app a b : to_bytes (a +:+ b) = to_bytes a ++ to_bytes b.
Proof. induction a as [|c a IH]; [done|]. simpl. by rewrite IH. Qed.

Lemma text_valid_wrap prefix e :
  prefix ∈ stages -> text_valid e -> text_valid (Errorf prefix e).
Proof.
  intros Hp He. unfold text_valid. cbn [Error_text]. rewrite !to_bytes_app.
  apply utf8_app; [|apply utf8_app; [by apply Valid_utf8|exact He]].
  unfold stages in Hp. set_unfold in Hp.
  destruct Hp as [->|[->|[->|[->|[->|[]]]]]]; by apply Valid_utf8.
Qed.

(** The error of a failed [Connect] names its stage and is one of the answers. *)
Lemma failed_call_valid text prefix e (tr : list (event tunE)) :
  prefix ∈ stages -> failed_call text prefix e tr ->
  Forall (fun ev => answer_valid (ev_call _ ev) (ev_answer _ ev)) tr -> text_valid e.
Proof.
  intros Hp Hf Htr. rewrite Forall_forall in Htr. unfold stages in Hp. set_unfold in Hp.
  destruct Hp as [->|[->|[->|[->|[->|[]]]]]]; cbn in Hf;
    repeat match type of Hf with exists _, _ => destruct Hf as [? Hf] end;
    exact (Htr _ Hf).
Qed.

Lemma stopped_valid (t : Tunnel) :
  wf t -> wf (stopped_tunnel t) /\ running (stopped_tunnel t) = false /\
  utf8 (to_bytes (name (stopped_tunnel t))) /\ utf8 (to_bytes (iface (stopped_tunnel t))).
Proof.
  intros Hwf. unfold stopped_tunnel.
  destruct (wf_cases t Hwf) as [[g ->]|(g & n & i & e & d & c & cl & ch & ->)]; simpl;
    (split; [done|]); (split; [done|]); split; by apply Valid_utf8.
Qed.
Lemma service_connect s text n :
  service_valid s -> utf8 (to_bytes n) ->
  let '(err, s') := service _ (HConnect text n) s in
  service_valid s' /\
  match err with
  | None => session_of s' = Some n
  | Some e => session_of s' = None /\ text_valid e /\
              exists stage e', stage ∈ stages /\ e = Errorf stage e'
  end.
Proof.
  intros (Hwf & Hn & Hi & Hl) Hname. simpl.
  destruct (run_outside (Connect text n (tunnel s)) (world s)) as (tr & He & Htr).
  destruct (run outside (Connect text n (tunnel s)) (world s)) as [[t err] w]. simpl in *.
  apply exec_Connect in He; [|done]. destruct err as [e|].
  - destruct He as (-> & Hdown & stage & e' & -> & Hs & Hf).
    destruct (stopped_valid _ Hwf) as (? & _ & ? & ?). split; [done|].
    unfold session_of. cbn. rewrite Hdown. split; [done|].
    split; [|by exists stage, e']. apply text_valid_wrap; [done|]. by eapply failed_call_valid.
  - destruct He as (Hr & Hwf' & Hn' & _ & (d & Hd) & _). split.
    + rewrite Forall_forall in Htr. apply Htr in Hd. cbn in Hd.
      split; [done|]. cbn. by rewrite Hn'.
    + unfold session_of. cbn. by rewrite Hr, Hn'.
Qed.

Lemma service_disconnect s :
  service_valid s ->
  let '(err, s') := service _ HDisconnect s in
  service_valid s' /\ err = None /\ session_of s' = None.
Proof.
  intros (Hwf & Hn & Hi & Hl). simpl.
  destruct (run_outside (Disconnect (tunnel s)) (world s)) as (tr & He & _).
  destruct (run outside (Disconnect (tunnel s)) (world s)) as [[t err] w]. simpl in *.
  unfold Disconnect in He. apply exec_bind in He as (tr1 & tr2 & t' & -> & Hs & [_ [= -> ->]]).
  apply exec_stop in Hs as ->; [|done].
  destruct (stopped_valid _ Hwf) as (? & Hdown & ? & ?). split; [done|]. split; [done|].
  unfold session_of. cbn. by rewrite Hdown.
Qed.

Lemma existsb_connected stats :
  existsb PeerStatus.Connected (map peer_status stats) = existsb PeerStats.Connected stats.
Proof. induction stats as [|p stats IH]; [done|]. simpl. by rewrite IH. Qed.

Lemma service_status s :
  service_valid s ->
  let '(st, s') := service _ HStatus s in
  service_valid s' /\ session_of s' = session_of s /\ valid st /\
  forall resp, Response.Status resp = Some st -> shows (session_of s) resp.
Proof.
  intros Hs. pose proof Hs as (Hwf & Hn & Hi & Hl). simpl.
  destruct (run_outside (Status_ (tunnel s)) (world s)) as (tr & He & Htr).
  destruct (run outside (Status_ (tunnel s)) (world s)) as [st w]. simpl in *.
  split; [exact Hs|]. split; [done|].
  apply exec_Status in He; [|done]. unfold session_of, shows. unfold wf in Hwf.
  destruct (running (tunnel s)).
  - destruct Hwf as [[e Heng] _]. rewrite Heng in He. destruct He as (stats & -> & ->).
    apply Forall_cons in Htr as [Hstats _]. cbn in Hstats. split.
    + split; [|split; [done|split; [done|split; [|done]]]].
      * destruct (existsb _ _); by apply Valid_utf8.
      * cbn. by apply Forall_map.
    + intros resp ->. eexists. split; [done|]. cbn. by rewrite existsb_connected.
  - rewrite Hwf in He. destruct He as [_ ->]. split; [valid_tac|]. intros resp ->. by eexists.
Qed.

Lemma service_logs s since :
  service_valid s ->
  let '(ls, s') := service _ (HLogs since) s in
  service_valid s' /\ session_of s' = session_of s /\ valid ls.
Proof.
  intros (Hwf & Hn & Hi & Hl). simpl. unfold Logs, LogBuffer, logging_valid in *.
  assert (forall b, Forall valid (lines b) -> Forall valid (Since since b)) as Hsince
    by (intros b Hb; rewrite Since_drop; by apply Forall_drop).
  destruct (logging s) as [once [b|]]; cbn in *; [|subst once].
  - destruct once; cbn; (split; [split_and!; try done; constructor|]); (split; [done|]);
      [by apply Hsince|constructor].
  - split; [split_and!; try done; constructor|]. split; [done|constructor].
Qed.

Lemma service_fire s w err :
  service_valid s ->
  let '(t, o) := run outside (watcher_fire w err (tunnel s)) (world s) in
  let s' := mkService t (logging s) o in
  service_valid s' /\ (session_of s' = session_of s \/ session_of s' = None).
Proof.
  intros (Hwf & Hn & Hi & Hl).
  destruct (run_outside (watcher_fire w err (tunnel s)) (world s)) as (tr & He & _).
  destruct (run outside (watcher_fire w err (tunnel s)) (world s)) as [t o]. simpl in *.
  unfold watcher_fire in He. destruct (running (tunnel s) && _).
  - apply exec_bind in He as (tr1 & tr2 & [] & -> & _ & Hs). apply exec_stop in Hs as ->; [|done].
    destruct (stopped_valid _ Hwf) as (? & Hdown & ? & ?). split; [done|]. right.
    unfold session_of. cbn. by rewrite Hdown.
  - destruct He as [_ ->]. split; [done|]. by left.
Qed.
(** ** A request *)

Lemma run_service {R A} (e : handlerE R) (k : R -> prog handlerE A) s :
  run service (bind (invoke e) k) s = let '(r, s') := service _ e s in run service (k r) s'.
Proof. done. Qed.

(** The reply with the state. *)
Lemma service_ok_reply s :
  service_valid s ->
  let '(resp, s') := run service (let! st := invoke HStatus in Ret (Response.with_status st)) s in
  valid resp /\ service_valid s' /\ session_of s' = session_of s /\
  Response.OK resp = true /\ Response.Error resp = "" /\ shows (session_of s) resp.
Proof.
  intros Hs. rewrite run_service. pose proof (service_status s Hs) as Hst.
  destruct (service _ HStatus s) as [st s']. destruct Hst as (Hs' & Ha & Hv & Hsh). simpl.
  split; [valid_tac|]. split; [done|]. split; [done|]. split; [done|]. split; [done|].
  by apply Hsh.
Qed.

Lemma fail_valid m : utf8 (to_bytes m) -> valid (Response.fail m).
Proof. intros Hm. valid_tac. Qed.

Lemma serve_one_replies (req : Request.t) s :
  service_valid s -> valid req ->
  let '(resp, s') := serve_one errno_text service req s in
  valid resp /\ service_valid s' /\ replies (session_of s) req resp (session_of s').
Proof.
  intros Hs Hreq. destruct req as [cmd text n since pc].
  assert (utf8 (to_bytes cmd) /\ utf8 (to_bytes n)) as [Hcmd Hn] by (cbn in Hreq; tauto).
  unfold serve_one, dispatch, replies.
  cbn [Request.Cmd Request.Config Request.Name Request.Since Request.ParsedConfig].
  destruct (decide (cmd = CmdStatus)) as [->|Hstatus].
  { pose proof (service_ok_reply s Hs) as Hok. destruct (run service _ s) as [resp s'].
    destruct Hok as (Hv & Hs' & Ha & -> & -> & Hsh). split; [done|]. split; [done|]. split; [done|].
    rewrite Ha. done. }
  destruct (decide (cmd = CmdConnect)) as [->|Hconnect].
  { rewrite run_service. pose proof (service_connect s text n Hs Hn) as Hc.
    destruct (service _ (HConnect text n) s) as [[e|] s1].
    - destruct Hc as (Hs1 & Ha & Ht & stage & e' & Hst & ->).
      split; [by apply fail_valid|]. split; [done|]. cbn. split; [done|]. split; [done|]. by eexists _, _.
    - destruct Hc as (Hs1 & Ha). pose proof (service_ok_reply s1 Hs1) as Hok.
      destruct (run service _ s1) as [resp s']. destruct Hok as (Hv & Hs' & Ha' & -> & -> & Hsh).
      split; [done|]. split; [done|]. split; [done|]. cbn. rewrite Ha', Ha in *. done. }
  destruct (decide (cmd = CmdDisconnect)) as [->|Hdisconnect].
  { rewrite run_service. pose proof (service_disconnect s Hs) as Hd.
    destruct (service _ HDisconnect s) as [err s1]. destruct Hd as (Hs1 & -> & Ha).
    pose proof (service_ok_reply s1 Hs1) as Hok.
    destruct (run service _ s1) as [resp s']. destruct Hok as (Hv & Hs' & Ha' & -> & -> & Hsh).
    split; [done|]. split; [done|]. split; [done|]. rewrite Ha', Ha in *. done. }
  destruct (decide (cmd = CmdLogs)) as [->|Hlogs].
  { rewrite run_service. pose proof (service_logs s since Hs) as Hl.
    destruct (service _ (HLogs since) s) as [ls s1]. destruct Hl as (Hs1 & Ha & Hls).
    rewrite run_service. pose proof (service_status s1 Hs1) as Hst.
    destruct (service _ HStatus s1) as [st s']. destruct Hst as (Hs' & Ha' & Hv & Hsh). simpl.
    split; [valid_tac|]. split; [done|]. split; [done|]. rewrite Ha' in *. rewrite Ha in *.
    split; [done|]. by apply Hsh. }
  destruct (decide (cmd = CmdParseConfig)) as [->|Hparse].
  { rewrite run_service. pose proof (parse_valid text (world s)) as Hp. unfold service.
    destruct (parse text (world s)) as [[pc'|e] w]; simpl in *.
    - split; [valid_tac|]. split; [done|]. split; [done|]. by split; [left|].
    - split; [by apply fail_valid|]. done. }
  destruct (decide (cmd = CmdSerializeConfig)) as [->|Hserialize].
  { destruct pc as [pc|]; [|split; [apply fail_valid; by apply Valid_utf8|done]].
    rewrite run_service. pose proof (serialize_valid pc (world s)) as Hp. unfold service.
    destruct (serialize pc (world s)) as [[t|e] w]; simpl in *.
    - split; [valid_tac|]. split; [done|]. split; [done|]. by split; [right|].
    - split; [by apply fail_valid|]. done. }
  cbn [run]. split; [|split; [done|split; [done|]]].
  - apply fail_valid. rewrite to_bytes_app. apply utf8_app; [by apply Valid_utf8|done].
  - cbn [Response.fail Response.OK Response.Status]. done.
Qed.

(** C2: from the client to the tunnel, the program implements the abstract
    machine: every request is answered, in order, as the machine allows; the
    session it says is up is the one the tunnel holds; a failed Connect leaves no
    session and names the stage that failed; an engine error that reaches a
    watcher at most ends the session; and nothing is left on the connection. *)
Theorem service_refines (script : list activity) (s : Service) :
  service_valid s -> Forall activity_valid script ->
  let '(replies, (s', inbox)) := happen script (s, []) in
  observed (session_of s) script replies (session_of s') /\ service_valid s' /\ inbox = [].
Proof.
  intros Hs Hv. revert s Hs. induction Hv as [|a script Ha _ IH]; intros s Hs.
  - split; [constructor|done].
  - destruct a as [req|w err]; cbn [happen].
    + pose proof (serve_one_replies req s Hs Ha) as Hone.
      rewrite (run_Do errno_text service req s); [|exact Ha|
        destruct (serve_one errno_text service req s); apply Hone].
      destruct (serve_one errno_text service req s) as [resp s1].
      destruct Hone as (_ & Hs1 & Hr). cbn [fst snd]. specialize (IH s1 Hs1).
      destruct (happen script (s1, [])) as [rs [s' inbox]]. destruct IH as (Ho & Hs' & ->).
      split; [|done]. by eapply observed_reply.
    + pose proof (service_fire s w err Hs) as Hf.
      destruct (run outside (watcher_fire w err (tunnel s)) (world s)) as [t o].
      destruct Hf as (Hs1 & Ha1). specialize (IH _ Hs1).
      destruct (happen script _) as [rs [s' inbox]]. destruct IH as (Ho & Hs' & ->).
      split; [|done]. by eapply observed_error.
Qed.
End Service.

(** ** A conversation

    A client connects, reads the logs, the engine fails, and the client asks for
    the state; the outside is that of the tunnel's examples. *)
Module ServiceSample.
Definition text (_ : Z) : string := "errno".
Definition parse (_ : string) (w : Z) : result ParsedConfig.t * Z := (Err (ErrText "parse"), w).
Definition serialize (_ : ParsedConfig.t) (w : Z) : result string * Z := (Ok "[Interface]", w).

#[export] Instance sample_valid : OutsideValid text TunnelExample.grant parse serialize.
Proof.
  split.
  - intros R e n; destruct e; cbn; try done; try (by apply Valid_utf8).
    + by destruct u.
    + repeat constructor; cbn; first [by apply Valid_utf8|done|unfold fits; lia|unfold Strconv.fits_int64; lia].
  - intros. by apply Valid_utf8.
  - intros. by apply Valid_utf8.
Qed.

Definition idle : @Service Z Z := mkService zero_Tunnel zero_Logging 10.
Definition script : list activity :=
  [Ask (Request.mk CmdConnect "cfg" "Home" 0 None); Ask (Request.mk CmdLogs "" "" 0 None);
   EngineError (mkWatcher (mkChan 15) (mkChan 16) 1 "Home") (ErrText "engine");
   Ask (Request.of_cmd CmdStatus)].
Definition conversation := happen text TunnelExample.grant parse serialize script (idle, []).
End ServiceSample.
Import ServiceSample.

Lemma service_refines_witness :
  observed None script conversation.1 None /\ length conversation.1 = 3%nat.
Proof.
  assert (service_valid idle) as Hidle by (split_and!; try done; by apply Valid_utf8).
  assert (Forall activity_valid script) as Hscript
    by (repeat (apply Forall_cons; split); try apply Forall_nil_2; valid_tac).
  pose proof (service_refines text TunnelExample.grant parse serialize script idle Hidle Hscript)
    as Hr.
  change (happen text TunnelExample.grant parse serialize script (idle, [])) with conversation in Hr.
  assert (session_of conversation.2.1 = None) as Hnone by (vm_compute; reflexivity).
  assert (length conversation.1 = 3%nat) as Hlen by (vm_compute; reflexivity).
  destruct conversation as [rs [s' inbox]]. destruct Hr as [Ho _]. cbn [fst snd] in *.
  rewrite Hnone in Ho. split; [exact Ho|exact Hlen].
Defined.
