(* ===== verification/Concurrent.v ===== *)
(** * The service with many clients (control/server.go over wintunnel/tunnel.go)

    Serve gives every connection a goroutine that runs serveConn on the one
    handler.  Here are any number of them, started at any time, whose calls
    interleave; the tunnel's methods are atomic, since they hold its mutex.  A
    request is not: connect and logs ask for the state in a second call, between
    which other clients' calls and engine errors come. *)

From S2P Require Import Prelude GoStrings Proto LogBuf Transport JsonTypes ProtoJson Server.
From S2P Require Import Veil Udp Tunnel TunnelSystem TunnelProps Service ControlProps.
From Stdlib Require Import ZArith Ascii String Lia.
From stdpp Require Import base list strings.
Open Scope Z_scope.
Open Scope string_scope.
Local Open Scope list_scope.

(** ** Programs on their way

    [partial p tr q]: [p] can make the calls of [tr] and then goes on as [q]. *)
Inductive partial {E A} : prog E A -> list (event E) -> prog E A -> Prop :=
| partial_here p : partial p [] p
| partial_call {R} (e : E R) k r tr q :
    partial (k r) tr q -> partial (Vis e k) (Ev e r :: tr) q.

Lemma partial_snoc {E A R} (p : prog E A) tr (e : E R) k r :
  partial p tr (Vis e k) -> partial p (tr ++ [Ev e r]) (k r).
Proof.
  remember (Vis e k) as q eqn:Hq. intros Hp. revert Hq.
  induction Hp as [p|R' e' k' r' tr q Hp IH]; intros ->; cbn [app].
  - constructor. constructor.
  - constructor. by apply IH.
Qed.

Lemma partial_exec {E A} (p : prog E A) tr a : partial p tr (Ret a) -> exec p tr a.
Proof.
  remember (Ret a) as q eqn:Hq. intros Hp. revert Hq.
  induction Hp as [p|R e k r tr q Hp IH]; intros ->; [done|]. exists r, tr. split; [done|by apply IH].
Qed.

Section Concurrent.
Context (errno_text : Z -> string).
Context {Config Cleanup : Type} `{ConfigView Config} `{EqDecision Cleanup}.
Context {W : Type} (outside : handler (@tunE Config Cleanup) W).
Context (parse : string -> W -> result ParsedConfig.t * W).
Context (serialize : ParsedConfig.t -> W -> result string * W).

Abbreviation Service := (@Service Cleanup W).
Abbreviation handle := (service outside parse serialize).

(** The goroutines of the connections, in the order of their acceptance, and the
    service. *)
Record pool : Type := mkPool {
  conns : list (prog serveE unit);
  svc : Service;
}.

(** One step: a connection's call with its answer, a new connection with all
    its peer will send, or an engine error that reaches a watcher. *)
Inductive occurrence : Type :=
| Called (i : nat) (ev : event serveE)
| Accepted (r : reader)
| Fired (w : watcher) (err : error).

Inductive pool_step : pool -> occurrence -> pool -> Prop :=
| step_handle cs s i R (c : handlerE R) k :
    cs !! i = Some (Vis (Handle c) k) ->
    pool_step (mkPool cs s) (Called i (Ev (Handle c) (handle R c s).1))
      (mkPool (<[i := k (handle R c s).1]> cs) (handle R c s).2)
| step_out cs s i R (w : writeE R) k r :
    cs !! i = Some (Vis (Out w) k) ->
    pool_step (mkPool cs s) (Called i (Ev (Out w) r)) (mkPool (<[i := k r]> cs) s)
| step_close cs s i k r :
    cs !! i = Some (Vis Close k) ->
    pool_step (mkPool cs s) (Called i (Ev Close r)) (mkPool (<[i := k r]> cs) s)
| step_accept cs s r :
    pool_step (mkPool cs s) (Accepted r) (mkPool (cs ++ [serveConn errno_text r]) s)
| step_fire cs s w err :
    pool_step (mkPool cs s) (Fired w err)
      (let '(t, o) := run outside (watcher_fire w err (tunnel s)) (world s) in
       mkPool cs (mkService t (logging s) o)).

Inductive pool_run (p : pool) : list occurrence -> pool -> Prop :=
| run_none : pool_run p [] p
| run_snoc h q o q' : pool_run p h q -> pool_step q o q' -> pool_run p (h ++ [o]) q'.

(** What a history holds of a connection: its calls, and what its peer sends. *)
Definition calls_of (i : nat) (h : list occurrence) : list (event serveE) :=
  omap (fun o => match o with
                 | Called j ev => if decide (i = j) then Some ev else None
                 | _ => None
                 end) h.

Definition accepted (h : list occurrence) : list reader :=
  omap (fun o => match o with Accepted r => Some r | _ => None end) h.

(** ** The abstract machine, call by call

    Its state is the name of the session that is up. *)
Definition allowed {R} (a : option string) (c : handlerE R) : R -> option string -> Prop :=
  match c in handlerE R return R -> option string -> Prop with
  | HConnect _ n => fun err a' => a' = match err with None => Some n | Some _ => None end
  | HDisconnect => fun err a' => err = None /\ a' = None
  | HStatus => fun st a' => tells a st /\ a' = a
  | _ => fun _ a' => a' = a
  end.

Definition moves (a : option string) (o : occurrence) (a' : option string) : Prop :=
  match o with
  | Called _ ev =>
      match ev_call _ ev in serveE R return R -> Prop with
      | Handle c => fun r => allowed a c r a'
      | _ => fun _ => a' = a
      end (ev_answer _ ev)
  | Accepted _ => a' = a
  | Fired _ _ => a' = a \/ a' = None
  end.

Inductive linear (a : option string) : list occurrence -> option string -> Prop :=
| linear_none : linear a [] a
| linear_snoc h b o b' : linear a h b -> moves b o b' -> linear a (h ++ [o]) b'.

Lemma outside_exec {A} (p : prog (@tunE Config Cleanup) A) w :
  exists tr, exec p tr (run outside p w).1.
Proof. destruct (run_answers (fun _ => True) outside p w) as (tr & He & _); [done|eauto]. Qed.

Lemma session_stopped (t : @Tunnel Cleanup) l (o : W) :
  wf t -> wf (stopped_tunnel t) /\ session_of (mkService (stopped_tunnel t) l o) = None.
Proof.
  intros [[g ->]|(g & n & i & e & d & c & cl & ch & ->)]%wf_cases; done.
Qed.

Lemma handle_allowed R (c : handlerE R) (s : Service) :
  wf (tunnel s) ->
  wf (tunnel (handle R c s).2) /\
  allowed (session_of s) c (handle R c s).1 (session_of (handle R c s).2).
Proof.
  intros Hwf. destruct s as [t l w]. cbn [tunnel] in Hwf. destruct c as [text n| | |since|text|cfg]; cbn.
  - destruct (outside_exec (Connect text n t) w) as [tr He].
    destruct (run outside (Connect text n t) w) as [[t' [e|]] o]; cbn in *;
      apply exec_Connect in He; try done.
    + destruct He as (-> & Hdown & _). unfold session_of. cbn. rewrite Hdown.
      split; [by apply (session_stopped t l o)|done].
    + destruct He as (Hup & Hwf' & <- & _). unfold session_of. cbn. by rewrite Hup.
  - destruct (outside_exec (Disconnect t) w) as [tr He].
    destruct (run outside (Disconnect t) w) as [[t' err] o]; cbn in *.
    apply exec_bind in He as (tr1 & tr2 & t1 & -> & Hs & [_ [= -> ->]]). apply exec_stop in Hs as ->; [|done].
    destruct (session_stopped t l o Hwf) as [Hwf' Hn]. by rewrite Hn.
  - destruct (outside_exec (Status_ t) w) as [tr He].
    destruct (run outside (Status_ t) w) as [st o]; cbn in *. split; [done|]. split; [|done].
    apply exec_Status in He; [|done]. unfold session_of. cbn.
    destruct (wf_cases t Hwf) as [[g ->]|(g & n & i & e & d & c & cl & ch & ->)]; cbn in *.
    + by destruct He as [_ ->].
    + destruct He as (stats & _ & ->). cbn. by rewrite existsb_connected.
  - unfold Logs. by destruct (LogBuffer l) as [b l'].
  - by destruct (parse text w) as [r o].
  - by destruct (serialize cfg w) as [r o].
Qed.

Lemma fire_allowed w err (s : Service) :
  wf (tunnel s) ->
  let '(t, o) := run outside (watcher_fire w err (tunnel s)) (world s) in
  wf t /\ (session_of (mkService t (logging s) o) = session_of s \/
           session_of (mkService t (logging s) o) = None).
Proof.
  intros Hwf. destruct (outside_exec (watcher_fire w err (tunnel s)) (world s)) as [tr He].
  destruct (run outside (watcher_fire w err (tunnel s)) (world s)) as [t o]; cbn in He.
  unfold watcher_fire in He. destruct (running (tunnel s) && _).
  - apply exec_bind in He as (tr1 & tr2 & [] & -> & _ & Hs). apply exec_stop in Hs as ->; [|done].
    destruct (session_stopped (tunnel s) (logging s) o Hwf) as [Hwf' Hn]. auto.
  - destruct He as [_ ->]. auto.
Qed.

(** ** Histories *)

Lemma calls_of_snoc i h o :
  calls_of i (h ++ [o])
  = calls_of i h ++ match o with Called j ev => if decide (i = j) then [ev] else [] | _ => [] end.
Proof. unfold calls_of. rewrite omap_app. f_equal. destruct o as [j ev| |]; cbn; try done. by case_decide. Qed.

Lemma accepted_snoc h o :
  accepted (h ++ [o]) = accepted h ++ match o with Accepted r => [r] | _ => [] end.
Proof. unfold accepted. rewrite omap_app. by destruct o. Qed.

(** Where every connection stands. *)
Definition on_the_way (h : list occurrence) (cs : list (prog serveE unit)) : Prop :=
  length cs = length (accepted h) /\
  (forall i r q, accepted h !! i = Some r -> cs !! i = Some q ->
    partial (serveConn errno_text r) (calls_of i h) q) /\
  (forall i, (length cs <= i)%nat -> calls_of i h = []).

Lemma on_the_way_called h cs i R (e : serveE R) k r :
  on_the_way h cs -> cs !! i = Some (Vis e k) ->
  on_the_way (h ++ [Called i (Ev e r)]) (<[i := k r]> cs).
Proof.
  intros (Hlen & Hp & Hnew) Hi. pose proof (lookup_lt_Some _ _ _ Hi) as Hlt. split; [|split].
  - by rewrite length_insert, accepted_snoc, app_nil_r.
  - intros j r' q. rewrite accepted_snoc, app_nil_r, calls_of_snoc. intros Hr Hq.
    destruct (decide (j = i)) as [->|Hne].
    + rewrite list_lookup_insert_eq in Hq by (by eapply lookup_lt_Some). injection Hq as <-.
      apply partial_snoc. by apply (Hp i r').
    + rewrite list_lookup_insert_ne in Hq by done. rewrite app_nil_r. by apply Hp.
  - intros j. rewrite length_insert, calls_of_snoc. intros Hj.
    rewrite decide_False by lia. rewrite app_nil_r. by apply Hnew.
Qed.

Lemma on_the_way_step h cs s o cs' s' :
  on_the_way h cs -> pool_step (mkPool cs s) o (mkPool cs' s') -> on_the_way (h ++ [o]) cs'.
Proof.
  intros Hw Hs. inversion Hs; subst; try (by apply on_the_way_called).
  - destruct Hw as (Hlen & Hp & Hnew). split; [|split].
    + rewrite accepted_snoc, !length_app. cbn. lia.
    + intros j r' q. rewrite accepted_snoc, calls_of_snoc, app_nil_r.
      intros [Hr|[Hge Hr]]%lookup_app_Some [Hq|[Hge' Hq]]%lookup_app_Some;
        try (apply lookup_lt_Some in Hr; lia); try (apply lookup_lt_Some in Hq; lia); [by apply Hp|].
      apply list_lookup_singleton_Some in Hr as [Hj <-].
      apply list_lookup_singleton_Some in Hq as [_ <-]. rewrite Hnew by done. constructor.
    + intros j. rewrite length_app, calls_of_snoc, app_nil_r. intros Hj. apply Hnew. lia.
  - destruct Hw as (Hlen & Hp & Hnew). destruct (run outside _ _) as [t o]. simplify_eq.
    split; [|split].
    + by rewrite accepted_snoc, app_nil_r.
    + intros j r q. rewrite accepted_snoc, calls_of_snoc, !app_nil_r. apply Hp.
    + intros j. rewrite calls_of_snoc, app_nil_r. apply Hnew.
Qed.

Lemma pool_step_moves p o p' :
  pool_step p o p' -> wf (tunnel (svc p)) ->
  wf (tunnel (svc p')) /\ moves (session_of (svc p)) o (session_of (svc p')).
Proof.
  intros Hs Hwf. destruct Hs as [cs s i R c k Hi| | | |cs s w err]; cbn [svc] in *; try done.
  - by apply handle_allowed.
  - pose proof (fire_allowed w err s Hwf) as Hf. destruct (run outside _ _) as [t o]. exact Hf.
Qed.

(** The calls of a connection that is done: its session, then the close. *)
Lemma exec_serveConn r tr :
  exec (serveConn errno_text r) tr tt ->
  exists tr' err, tr = tr' ++ [Ev Close err] /\ session errno_text (whole_lines (contents r)) tr'.
Proof.
  intros He. unfold serveConn in He. apply exec_bind in He as (tr1 & tr2 & [] & -> & Hs & He).
  apply exec_bind in He as (tr3 & tr4 & err & -> & Hc & [-> _]). apply exec_call in Hc as ->.
  exists tr1, err. split; [done|]. unfold ServeIO in Hs. apply serve_loop_session in Hs; [done|lia].
Qed.

(** C3: however the calls of any number of clients interleave, with connections
    accepted and engine errors at any time: the handler's calls of all of them,
    in the order they happened, are a history of the abstract machine, so every
    state reported is the one that was current; and the calls of each connection
    are those of a server alone with its client, in order, up to where it is - a
    whole session and a close when it has ended. *)
Theorem service_linearizable s h p :
  wf (tunnel s) -> pool_run (mkPool [] s) h p ->
  linear (session_of s) h (session_of (svc p)) /\ wf (tunnel (svc p)) /\
  forall i r q, accepted h !! i = Some r -> conns p !! i = Some q ->
    partial (serveConn errno_text r) (calls_of i h) q /\
    (q = Ret tt -> exists tr err, calls_of i h = tr ++ [Ev Close err] /\
       session errno_text (whole_lines (contents r)) tr).
Proof.
  intros Hwf Hr.
  assert (linear (session_of s) h (session_of (svc p)) /\ wf (tunnel (svc p)) /\
          on_the_way h (conns p)) as (Hl & Hwf' & Hw).
  { induction Hr as [|h q o q' _ (Hl & Hwf' & Hw) Hs].
    - split; [constructor|]. split; [done|]. split; [done|]. split; [by intros []|done].
    - destruct (pool_step_moves q o q' Hs Hwf') as [Hwf'' Hm]. destruct q, q'.
      split; [by eapply linear_snoc|]. split; [done|]. by eapply on_the_way_step. }
  split; [done|]. split; [done|]. intros i r q Hi Hq.
  assert (partial (serveConn errno_text r) (calls_of i h) q) as Hp by by apply Hw.
  split; [done|]. intros ->. by apply exec_serveConn, partial_exec.
Qed.

(** ** A scheduler, for concrete runs; every write succeeds *)
Inductive choice : Type :=
| Turn (i : nat)
| Join (r : reader)
| Break (w : watcher) (err : error).

Definition take_turn (cs : list (prog serveE unit)) (s : Service) (i : nat) {R} (e : serveE R)
    : (R -> prog serveE unit) -> occurrence * pool :=
  match e in serveE R return (R -> prog serveE unit) -> occurrence * pool with
  | Handle c => fun k =>
      (Called i (Ev (Handle c) (handle _ c s).1),
       mkPool (<[i := k (handle _ c s).1]> cs) (handle _ c s).2)
  | Out w =>
      match w in writeE R return (R -> prog serveE unit) -> occurrence * pool with
      | Write b => fun k => (Called i (Ev (Out (Write b)) None), mkPool (<[i := k None]> cs) s)
      end
  | Close => fun k => (Called i (Ev Close None), mkPool (<[i := k None]> cs) s)
  end.

Definition play (c : choice) (p : pool) : option (occurrence * pool) :=
  match c with
  | Turn i =>
      match conns p !! i with
      | Some (Vis e k) => Some (take_turn (conns p) (svc p) i e k)
      | _ => None
      end
  | Join r => Some (Accepted r, mkPool (conns p ++ [serveConn errno_text r]) (svc p))
  | Break w err =>
      Some (Fired w err,
        let '(t, o) := run outside (watcher_fire w err (tunnel (svc p))) (world (svc p)) in
        mkPool (conns p) (mkService t (logging (svc p)) o))
  end.

Fixpoint play_all (cs : list choice) (h : list occurrence) (p : pool) : list occurrence * pool :=
  match cs with
  | [] => (h, p)
  | c :: cs =>
      match play c p with
      | Some (o, p') => play_all cs (h ++ [o]) p'
      | None => (h, p)
      end
  end.

Lemma play_step c p o p' : play c p = Some (o, p') -> pool_step p o p'.
Proof.
  destruct p as [cs s]. destruct c as [i|r|w err]; cbn [play conns svc].
  - destruct (cs !! i) as [[a|R e k]|] eqn:Hi; [done| |done]. intros [= Ht].
    destruct e as [R c|R [b]|]; cbn in Ht; injection Ht as <- <-.
    + by apply step_handle.
    + by apply step_out.
    + by apply step_close.
  - intros [= <- <-]. apply step_accept.
  - intros [= <- <-]. apply step_fire.
Qed.

Lemma play_all_run cs h p0 p :
  pool_run p0 h p -> pool_run p0 (play_all cs h p).1 (play_all cs h p).2.
Proof.
  revert h p. induction cs as [|c cs IH]; intros h p Hr; [done|]. cbn [play_all].
  destruct (play c p) as [[o p']|] eqn:Hp; [|done]. apply IH. apply run_snoc with p; [done|].
  by apply play_step with c.
Qed.
End Concurrent.

(** ** Two clients: one connects, the other disconnects before the first has its
    reply *)
Module ConcurrentSample.
Definition line (req : Request.t) : bytes :=
  match marshal req with Ok b => b ++ [newline] | Err _ => [] end.

Definition first : reader :=
  mkReader [] [line (Request.mk CmdConnect "cfg" "Home" 0 None)] (ErrText "EOF").
Definition second : reader := mkReader [] [line (Request.of_cmd CmdDisconnect)] (ErrText "EOF").

Definition choices : list choice :=
  [Join first; Turn 0; Join second; Turn 1; Turn 0; Turn 0; Turn 1; Turn 1; Turn 0; Turn 1].

Definition played :=
  play_all ServiceSample.text TunnelExample.grant ServiceSample.parse ServiceSample.serialize
    choices [] (mkPool [] ServiceSample.idle).

(** Whether a connection has ended. *)
Definition ended (q : prog serveE unit) : bool := match q with Ret _ => true | _ => false end.

(** The states the service reported. *)
Definition reported_handle {R} (c : handlerE R) : R -> option string :=
  match c in handlerE R return R -> option string with
  | HStatus => fun st => Some (Status.State st)
  | _ => fun _ => None
  end.

Definition reported {R} (e : serveE R) : R -> option string :=
  match e in serveE R return R -> option string with
  | Handle c => reported_handle c
  | _ => fun _ => None
  end.

Definition states (h : list occurrence) : list string :=
  omap (fun o => match o with Called _ ev => reported (ev_call _ ev) (ev_answer _ ev) | _ => None end) h.
End ConcurrentSample.
Import ConcurrentSample.

(** The first client's connect succeeded, and the state in its reply is that no
    session is up. *)
Lemma service_linearizable_witness :
  linear None played.1 None /\ states played.1 = [StateDisconnected; StateDisconnected] /\
  exists tr err, calls_of 0 played.1 = tr ++ [Ev Close err] /\
    session ServiceSample.text (whole_lines (contents first)) tr.
Proof.
  assert (pool_run ServiceSample.text TunnelExample.grant ServiceSample.parse
            ServiceSample.serialize (mkPool [] ServiceSample.idle) played.1 played.2) as Hr
    by exact (play_all_run _ _ _ _ choices [] _ _ (run_none _ _ _ _ _)).
  destruct (service_linearizable _ _ _ _ ServiceSample.idle played.1 played.2 eq_refl Hr)
    as (Hl & _ & Hc).
  assert (session_of (svc played.2) = None) as Hs by (vm_compute; reflexivity).
  assert (states played.1 = [StateDisconnected; StateDisconnected]) as Hst by (vm_compute; reflexivity).
  assert (accepted played.1 !! 0%nat = Some first) as Ha by (vm_compute; reflexivity).
  assert (conns played.2 !! 0%nat = Some (Ret tt)) as He by (vm_compute; reflexivity).
  rewrite Hs in Hl. split; [exact Hl|]. split; [exact Hst|].
  exact (proj2 (Hc 0%nat first (Ret tt) Ha He) eq_refl).
Defined.
