(* ===== verification/Device.v ===== *)
(** * The TUN device (veiltun/, windev/device.go)

    The driver's entry points, adapters, sessions and the batched device.  Calls
    into the driver go through the addresses [load] resolved.  The fields
    concurrent methods share - the wait group, the closed flag, the once, the
    handles of session and adapter - are read and written by calls of their own
    ([cellE]), so that the methods of several goroutines can interleave. *)

From S2P Require Import Prelude IpTypes IpHelper.
From Stdlib Require Import ZArith String Lia.
From stdpp Require Import base list strings.
Open Scope Z_scope.
Open Scope string_scope.
Local Open Scope list_scope.

Abbreviation packet_bytes := (list Z).

(** Memory from an address on. *)
Abbreviation memory := (nat -> Z).

(** [unsafe.Slice(p, n)] *)
Definition Slice (m : memory) (n : nat) : packet_bytes := map m (seq 0 n).

Lemma length_Slice m n : length (Slice m n) = n.
Proof. unfold Slice. by rewrite length_map, length_seq. Qed.

(** Calls of the system and, with the address of the procedure first, of the
    driver.  A driver call that can fail answers 0 and the last error. *)
Inductive drvE : Type -> Type :=
| LoadLibraryEx (name : string) (flags : Z) : drvE (result Z)
| GetProcAddress (module : Z) (name : string) : drvE (result Z)
| Utf16PtrFromString (s : string) : drvE (result utf16)
| CreateAdapter_ (proc : Z) (name type_ : utf16) (guid : option GUID) : drvE (Z * Z)
| CloseAdapter_ (proc adapter : Z) : drvE unit
| GetAdapterLUID_ (proc adapter : Z) : drvE Z
| GetRunningDriverVersion_ (proc : Z) : drvE (Z * Z)
| StartSession_ (proc adapter capacity : Z) : drvE (Z * Z)
| EndSession_ (proc session : Z) : drvE unit
| GetReadWaitEvent_ (proc session : Z) : drvE Z
| ReceivePacket_ (proc session : Z) : drvE (Z * nat * memory * Z)
| ReleaseReceivePacket_ (proc session ptr : Z) : drvE unit
| AllocateSendPacket_ (proc session : Z) (size : nat) : drvE (Z * memory * Z)
| SendPacket_ (proc session ptr : Z) (contents : packet_bytes) : drvE unit
| SetEvent (event : Z) : drvE unit
| WaitForSingleObject (event : Z) : drvE unit
| Now : drvE Z
| Gosched : drvE unit.

(** The shared fields of a [NativeTun]. *)
Inductive cellE : Type -> Type :=
| RunningAdd : cellE unit
| RunningDone : cellE unit
| RunningWait : cellE unit
| ClosedLoad : cellE bool
| ClosedStore : cellE unit
| OnceBegin : cellE bool     (* whether this caller runs the function *)
| OnceEnd : cellE unit
| SessionHandle : cellE Z
| SetSessionHandle (h : Z) : cellE unit
| AdapterHandle : cellE Z
| SetAdapterHandle (h : Z) : cellE unit.

(** ** Loading the driver (veiltun/veiltun.go) *)

Definition driverDLL : string := "veiltun.dll".
Definition TunnelType : string := "VEIL".

Record procTable : Type := mkProcs {
  createAdapter : Z;
  openAdapter : Z;
  closeAdapter : Z;
  deleteDriver : Z;
  getAdapterLUID : Z;
  runningVersion : Z;
  startSession : Z;
  endSession : Z;
  getReadWait : Z;
  receivePacket : Z;
  releasePacket : Z;
  allocatePacket : Z;
  sendPacket : Z;
}.

Definition zero_procs : procTable := mkProcs 0 0 0 0 0 0 0 0 0 0 0 0 0.

(** The names, in the order they are resolved, and of the table's fields. *)
Definition entry_points : list string :=
  ["WintunCreateAdapter"; "WintunOpenAdapter"; "WintunCloseAdapter"; "WintunDeleteDriver";
   "WintunGetAdapterLUID"; "WintunGetRunningDriverVersion"; "WintunStartSession";
   "WintunEndSession"; "WintunGetReadWaitEvent"; "WintunReceivePacket";
   "WintunReleaseReceivePacket"; "WintunAllocateSendPacket"; "WintunSendPacket"].

(** The table with the addresses resolved so far; the others stay 0. *)
Definition table_of (a : list Z) : procTable :=
  let at_ i := nth i a 0 in
  mkProcs (at_ 0%nat) (at_ 1%nat) (at_ 2%nat) (at_ 3%nat) (at_ 4%nat) (at_ 5%nat) (at_ 6%nat)
    (at_ 7%nat) (at_ 8%nat) (at_ 9%nat) (at_ 10%nat) (at_ 11%nat) (at_ 12%nat).

(** The package variables [loadOnce], [loadErr] and [procs]. *)
Record loader : Type := mkLoader {
  loadOnce : bool;
  loadErr : option error;
  procs : procTable;
}.

Definition initial_loader : loader := mkLoader false None zero_procs.

(** [LOAD_LIBRARY_SEARCH_APPLICATION_DIR | LOAD_LIBRARY_SEARCH_SYSTEM32] *)
Definition safeSearchFlags : Z := Z.lor 0x00000200 0x00000800.

Section Veiltun.
Context {F : Type -> Type} `{Sub drvE F}.
(** [fmt]'s [%q] *)
Context (quote : string -> string).

Abbreviation M := (prog F).

(** The calls of [resolve]; after a failure the rest do nothing. *)
Fixpoint resolve_all (module : Z) (names : list string) (found : list Z)
    : M (option error * list Z) :=
  match names with
  | [] => Ret (None, found)
  | name :: names =>
      let! addr := invoke (GetProcAddress module name) in
      match addr with
      | Err e => Ret (Some (Errorf ("veiltun: resolve " +:+ name) e), found)
      | Ok addr => resolve_all module names (found ++ [addr])
      end
  end.

Definition load (l : loader) : M (loader * option error) :=
  if loadOnce l then Ret (l, loadErr l)
  else
    let! module := invoke (LoadLibraryEx driverDLL safeSearchFlags) in
    match module with
    | Err e =>
        let err := Some (Errorf ("veiltun: load " +:+ driverDLL) e) in
        Ret (mkLoader true err (procs l), err)
    | Ok module =>
        let! (err, found) := resolve_all module entry_points [] in
        Ret (mkLoader true err (table_of found), err)
    end.

(** ** Adapters *)

Definition CreateAdapter (name : string) (requestedGUID : option GUID) (l : loader)
    : M (loader * result Z) :=
  let! (l, err) := load l in
  match err with
  | Some e => Ret (l, Err e)
  | None =>
      let! name16 := invoke (Utf16PtrFromString name) in
      match name16 with
      | Err e => Ret (l, Err e)
      | Ok name16 =>
          let! type16 := invoke (Utf16PtrFromString TunnelType) in
          match type16 with
          | Err e => Ret (l, Err e)
          | Ok type16 =>
              let! (r0, e1) :=
                invoke (CreateAdapter_ (createAdapter (procs l)) name16 type16 requestedGUID) in
              if decide (r0 = 0)
              then Ret (l, Err (Errorf ("veiltun: create adapter " +:+ quote name) (Errno e1)))
              else Ret (l, Ok r0)
          end
      end
  end.

(** [Adapter.Close] on a handle, and the handle it leaves. *)
Definition Adapter_Close (p : procTable) (handle : Z) : M Z :=
  if decide (handle = 0) then Ret handle
  else do! invoke (CloseAdapter_ (closeAdapter p) handle) in Ret 0.

Definition Adapter_LUID (p : procTable) (handle : Z) : M Z :=
  invoke (GetAdapterLUID_ (getAdapterLUID p) handle).

Definition RunningVersion (l : loader) : M (loader * result Z) :=
  let! (l, err) := load l in
  match err with
  | Some e => Ret (l, Err e)
  | None =>
      let! (r0, e1) := invoke (GetRunningDriverVersion_ (runningVersion (procs l))) in
      if decide (r0 = 0) then Ret (l, Err (Errno e1)) else Ret (l, Ok (u32 r0))
  end.

(** ** Sessions (veiltun/session.go) *)

Definition RingCapacityMin : Z := 0x20000.
Definition RingCapacityMax : Z := 0x4000000.
Definition MaxPacketSize : Z := 0xFFFF.

Definition StartSession (p : procTable) (adapter capacity : Z) : M (result Z) :=
  let! (r0, e1) := invoke (StartSession_ (startSession p) adapter capacity) in
  if decide (r0 = 0) then Ret (Err (Errno e1)) else Ret (Ok r0).

Definition Session_End (p : procTable) (handle : Z) : M Z :=
  if decide (handle = 0) then Ret handle
  else do! invoke (EndSession_ (endSession p) handle) in Ret 0.

Definition ReadWaitEvent (p : procTable) (handle : Z) : M Z :=
  invoke (GetReadWaitEvent_ (getReadWait p) handle).

(** A packet in a ring: its address and bytes. *)
Record packet : Type := mkPacket {
  ptr : Z;
  contents : packet_bytes;
}.

Definition ReceivePacket (p : procTable) (handle : Z) : M (result packet) :=
  let! (r0, size, m, e1) := invoke (ReceivePacket_ (receivePacket p) handle) in
  if decide (r0 = 0) then Ret (Err (Errno e1)) else Ret (Ok (mkPacket r0 (Slice m size))).

(** [&packet[0]] panics on an empty packet: [None]. *)
Definition ReleaseReceivePacket (p : procTable) (handle : Z) (pk : packet) : M (option unit) :=
  match contents pk with
  | [] => Ret None
  | _ =>
      do! invoke (ReleaseReceivePacket_ (releasePacket p) handle (ptr pk)) in Ret (Some tt)
  end.

Definition AllocateSendPacket (p : procTable) (handle : Z) (size : nat) : M (result packet) :=
  let! (r0, m, e1) := invoke (AllocateSendPacket_ (allocatePacket p) handle size) in
  if decide (r0 = 0) then Ret (Err (Errno e1)) else Ret (Ok (mkPacket r0 (Slice m size))).

Definition SendPacket (p : procTable) (handle : Z) (pk : packet) : M (option unit) :=
  match contents pk with
  | [] => Ret None
  | _ => do! invoke (SendPacket_ (sendPacket p) handle (ptr pk) (contents pk)) in Ret (Some tt)
  end.

(** ** The batched device (veiltun/device.go) *)

Definition batchSize : Z := 128.
Definition ringCapacity : Z := 0x800000.
(** Nanoseconds. *)
Definition spinBudget : Z := 500000.

Record NativeTun : Type := mkTun {
  adapter : Z;
  session : Z;
  name : string;
  mtu : Z;
  readWait : Z;
}.

Definition CreateTUN (nm : string) (mtu : Z) (l : loader) : M (loader * result NativeTun) :=
  let! (l, adapter) := CreateAdapter nm None l in
  match adapter with
  | Err e => Ret (l, Err e)
  | Ok adapter =>
      let! session := StartSession (procs l) adapter ringCapacity in
      match session with
      | Err e =>
          do! Adapter_Close (procs l) adapter in
          Ret (l, Err (Errorf "veiltun: start session" e))
      | Ok session =>
          let! w := ReadWaitEvent (procs l) session in
          Ret (l, Ok (mkTun adapter session nm (if decide (mtu <= 0) then 1420 else mtu) w))
      end
  end.
End Veiltun.

Definition Name (t : NativeTun) : string := name t.
Definition MTU (t : NativeTun) : Z := mtu t.
Definition BatchSize (t : NativeTun) : Z := batchSize.

Definition ERROR_NO_MORE_ITEMS : error := Errno 259.
Definition ERROR_HANDLE_EOF : error := Errno 38.

(** [b[offset:]]: [None] is the panic. *)
Definition slice_at {A} (offset : Z) (b : list A) : option (list A) :=
  if decide (0 <= offset <= Z.of_nat (length b)) then Some (drop (Z.to_nat offset) b) else None.

(** [copy(b[offset:], src)] seen from [b]. *)
Definition copy_at {A} (offset : Z) (b src : list A) : option (list A) :=
  tail ← slice_at offset b;
  Some (take (Z.to_nat offset) b ++ go_copy tail src).

(** How a call ends: with a count and an error, or in a panic. *)
Inductive outcome : Type :=
| Done (n : nat) (err : option error)
| Panic.

(** The variables of [Read] inside its loop: the slot [i], the count [n], the
    deadline if spinning, and the caller's slices. *)
Record reading : Type := mkReading {
  rd_i : nat;
  rd_n : nat;
  spin : option Z;
  rd_bufs : list packet_bytes;
  rd_sizes : list Z;
}.

(** Where [Read] is: at [retry], or at the loop's test. *)
Inductive phase : Type :=
| AtRetry (bufs : list packet_bytes) (sizes : list Z)
| InLoop (s : reading).

(** What [Read] leaves: the slices and how it ends. *)
Definition finished : Type := list packet_bytes * list Z * outcome.

Section Tun.
Context {F : Type -> Type} `{Sub drvE F} `{Sub cellE F}.
Context (procs : procTable) (canSpin : bool) (t : NativeTun).

Abbreviation M := (prog F).

Definition finish (s : reading) (err : option error) : phase + finished :=
  inr (rd_bufs s, rd_sizes s, Done (rd_n s) err).

(** With packets read, they are delivered; else the error. *)
Definition deliver_or (s : reading) (err : error) : phase + finished :=
  finish s (if decide (0 < rd_n s)%nat then None else Some err).

(** A received packet: copied, released, counted. *)
Definition take_packet (offset : Z) (s : reading) (h : Z) (pk : packet) : M (phase + finished) :=
  let panic := inr (rd_bufs s, rd_sizes s, Panic) in
  match rd_bufs s !! rd_i s ≫= fun b => copy_at offset b (contents pk) with
  | None => Ret panic
  | Some b =>
      let bufs := <[rd_i s := b]> (rd_bufs s) in
      let copied := Z.min (Z.of_nat (length b) - offset) (Z.of_nat (length (contents pk))) in
      if decide (rd_i s < length (rd_sizes s))%nat then
        let sizes := <[rd_i s := copied]> (rd_sizes s) in
        let! released := ReleaseReceivePacket procs h pk in
        match released with
        | None => Ret (inr (bufs, sizes, Panic))
        | Some _ =>
            Ret (inl (InLoop (mkReading (S (rd_i s)) (S (rd_n s)) (spin s) bufs sizes)))
        end
      else Ret (inr (bufs, rd_sizes s, Panic))
  end.

(** Nothing to read. *)
Definition poll_again (s : reading) : M (phase + finished) :=
  let retry : phase + finished := inl (AtRetry (rd_bufs s) (rd_sizes s)) in
  let again spin : M (phase + finished) :=
    do! invoke Gosched in
    Ret (inl (InLoop (mkReading (rd_i s) (rd_n s) spin (rd_bufs s) (rd_sizes s)))) in
  if decide (0 < rd_n s)%nat then Ret (finish s None)
  else if canSpin then
    match spin s with
    | None => let! now := invoke Now in again (Some (now + spinBudget))
    | Some deadline =>
        let! now := invoke Now in
        if decide (deadline < now) then
          do! invoke (WaitForSingleObject (readWait t)) in Ret retry
        else again (Some deadline)
    end
  else do! invoke (WaitForSingleObject (readWait t)) in Ret retry.

(** From [retry] to the loop, or one turn of the loop. *)
Definition read_step (offset : Z) (ph : phase) : M (phase + finished) :=
  match ph with
  | AtRetry bufs sizes =>
      let! closed := invoke ClosedLoad in
      if closed : bool then Ret (inr (bufs, sizes, Done 0 (Some ErrClosed)))
      else Ret (inl (InLoop (mkReading 0 0 None bufs sizes)))
  | InLoop s =>
      if decide (rd_i s < length (rd_bufs s))%nat then
        let! closed := invoke ClosedLoad in
        if closed : bool then Ret (deliver_or s ErrClosed)
        else
          let! h := invoke SessionHandle in
          let! pk := ReceivePacket procs h in
          match pk with
          | Ok pk => let! h := invoke SessionHandle in take_packet offset s h pk
          | Err err =>
              if decide (err = ERROR_NO_MORE_ITEMS) then poll_again s
              else if decide (err = ERROR_HANDLE_EOF) then Ret (deliver_or s ErrClosed)
              else Ret (deliver_or s (Errorf "veiltun: read" err))
          end
      else Ret (finish s None)
  end.

(** At most [fuel] steps; [inl] is running out of them. *)
Fixpoint read_loop (fuel : nat) (offset : Z) (ph : phase) : M (phase + finished) :=
  match fuel with
  | O => Ret (inl ph)
  | S fuel =>
      let! r := read_step offset ph in
      match r with
      | inl ph => read_loop fuel offset ph
      | inr done => Ret (inr done)
      end
  end.

Definition Read (fuel : nat) (bufs : list packet_bytes) (sizes : list Z) (offset : Z)
    : M (phase + finished) :=
  do! invoke RunningAdd in
  let! r := read_loop fuel offset (AtRetry bufs sizes) in
  do! invoke RunningDone in
  Ret r.

(** The loop of [Write] from index [i] of [total] on. *)
Fixpoint write_loop (total i : nat) (bufs : list packet_bytes) (offset : Z) : M outcome :=
  match bufs with
  | [] => Ret (Done total None)
  | buf :: bufs =>
      let size := Z.of_nat (length buf) - offset in
      if decide (size <= 0 \/ MaxPacketSize < size) then write_loop total (S i) bufs offset
      else
        let! h := invoke SessionHandle in
        let! pk := AllocateSendPacket procs h (Z.to_nat size) in
        match pk with
        | Ok pk =>
            match slice_at offset buf with
            | None => Ret Panic
            | Some src =>
                let! h := invoke SessionHandle in
                let! sent := SendPacket procs h (mkPacket (ptr pk) (go_copy (contents pk) src)) in
                match sent with
                | None => Ret Panic
                | Some _ => write_loop total (S i) bufs offset
                end
            end
        | Err err =>
            if decide (err = ERROR_BUFFER_OVERFLOW) then write_loop total (S i) bufs offset
            else if decide (err = ERROR_HANDLE_EOF) then Ret (Done i (Some ErrClosed))
            else Ret (Done i (Some (Errorf "veiltun: write" err)))
        end
  end.

Definition Write (bufs : list packet_bytes) (offset : Z) : M outcome :=
  do! invoke RunningAdd in
  let! r :=
    (let! closed := invoke ClosedLoad in
     if closed : bool then Ret (Done 0 (Some ErrClosed))
     else write_loop (length bufs) 0 bufs offset) in
  do! invoke RunningDone in
  Ret r.

(** The function run once. *)
Definition close_body : M unit :=
  do! invoke ClosedStore in
  do! invoke (SetEvent (readWait t)) in
  do! invoke RunningWait in
  let! h := invoke SessionHandle in
  let! h' := Session_End procs h in
  do! (if decide (h = 0) then Ret tt else invoke (SetSessionHandle h')) in
  let! h := invoke AdapterHandle in
  let! h' := Adapter_Close procs h in
  if decide (h = 0) then Ret tt else invoke (SetAdapterHandle h').

Definition Close : M (option error) :=
  let! first := invoke OnceBegin in
  if first : bool then
    do! close_body in
    do! invoke OnceEnd in
    Ret None
  else Ret None.

Definition Tun_LUID : M Z :=
  let! closed := invoke ClosedLoad in
  if closed : bool then Ret 0
  else let! h := invoke AdapterHandle in Adapter_LUID procs h.
End Tun.

(** ** windev/device.go *)
Module TunDevice.

Record t : Type := mk {
  dev : NativeTun;
  name : string;
}.

Section TunDevice.
Context {F : Type -> Type} `{Sub drvE F} `{Sub cellE F}.
(** [engine.DefaultTunMTU] and [%q]. *)
Context (DefaultTunMTU : Z) (quote : string -> string).

Definition NewTunDevice (nm : string) (l : loader) : prog F (loader * result t) :=
  let nm := if decide (nm = "") then "veil0" else nm in
  let! (l, dev) := CreateTUN quote nm DefaultTunMTU l in
  match dev with
  | Err e => Ret (l, Err (Errorf "failed to create VEIL tun adapter" e))
  | Ok dev => Ret (l, Ok (mk dev nm))
  end.

Definition BatchSize (d : t) : Z := Device.BatchSize (dev d).

Definition ReadBatch (p : procTable) (canSpin : bool) (d : t) (fuel : nat)
    (bufs : list packet_bytes) (sizes : list Z) (offset : Z) : prog F (phase + finished) :=
  Read p canSpin (dev d) fuel bufs sizes offset.

Definition WriteBatch (p : procTable) (d : t) (bufs : list packet_bytes) (offset : Z)
    : prog F outcome :=
  Write p bufs offset.

Definition Close (p : procTable) (d : t) : prog F (option error) := Device.Close p (dev d).

Definition Name (d : t) : string := name d.

Definition LUID (p : procTable) (d : t) : prog F Z := Tun_LUID p.
End TunDevice.
End TunDevice.
