(* ===== verification/DeviceProps.v ===== *)
(** * What the device guarantees (veiltun/)

    The exact effect of Read and Write on packets, slices and the rings, when
    Read ends, and what CreateTUN holds on each outcome. *)

From S2P Require Import Prelude IpTypes IpHelper Device.
From Stdlib Require Import ZArith String Lia.
From stdpp Require Import base list strings.
Open Scope Z_scope.
Open Scope string_scope.
Local Open Scope list_scope.

(** All the calls of the device. *)
Inductive devE : Type -> Type :=
| Drv {R} (e : drvE R) : devE R
| Cell {R} (e : cellE R) : devE R.

#[export] Instance Sub_drv_dev : Sub drvE devE := fun R e => Drv e.
#[export] Instance Sub_cell_dev : Sub cellE devE := fun R e => Cell e.

(** What Read and Write did to the rings, call by call. *)
Inductive item : Type :=
| Received (pk : packet)
| Released (ptr : Z)
| Allocated (size : nat) (r : result Z)
| Sent (ptr : Z) (contents : packet_bytes).

Definition item_drv {R} (e : drvE R) : R -> option item :=
  match e with
  | ReceivePacket_ _ _ => fun a =>
      let '(r0, size, m, _) := a in
      if decide (r0 = 0) then None else Some (Received (mkPacket r0 (Slice m size)))
  | ReleaseReceivePacket_ _ _ p => fun _ => Some (Released p)
  | AllocateSendPacket_ _ _ size => fun a =>
      let '(r0, _, e1) := a in
      Some (Allocated size (if decide (r0 = 0) then Err (Errno e1) else Ok r0))
  | SendPacket_ _ _ p c => fun _ => Some (Sent p c)
  | _ => fun _ => None
  end.

Definition item_of {R} (e : devE R) : R -> option item :=
  match e with Drv e => item_drv e | Cell _ => fun _ => None end.

Definition items (tr : list (event devE)) : list item :=
  omap (fun ev => item_of (ev_call _ ev) (ev_answer _ ev)) tr.

Lemma items_app tr1 tr2 : items (tr1 ++ tr2) = items tr1 ++ items tr2.
Proof. apply omap_app. Qed.

Abbreviation drv e a := (Ev (E := devE) (Drv e) a).
Abbreviation cell e a := (Ev (E := devE) (Cell e) a).

(** ** Write *)

Section WriteProps.
Context (procs : procTable).

(** A packet that is tried at all. *)
Definition in_range (offset : Z) (buf : packet_bytes) : Prop :=
  0 < Z.of_nat (length buf) - offset <= MaxPacketSize.

Definition write_error (err : error) : error :=
  if decide (err = ERROR_HANDLE_EOF) then ErrClosed else Errorf "veiltun: write" err.

(** The calls for the packets of a batch: how many were dealt with and the error
    that stopped the batch. *)
Inductive writes (offset : Z) : list packet_bytes -> list item -> nat -> option error -> Prop :=
| writes_nil : writes offset [] [] 0 None
| writes_skip b bufs its n e :
    ~ in_range offset b -> writes offset bufs its n e -> writes offset (b :: bufs) its (S n) e
| writes_full b bufs its n e :
    in_range offset b -> writes offset bufs its n e ->
    writes offset (b :: bufs)
      (Allocated (Z.to_nat (Z.of_nat (length b) - offset)) (Err ERROR_BUFFER_OVERFLOW) :: its) (S n) e
| writes_sent b bufs p its n e :
    in_range offset b -> writes offset bufs its n e ->
    writes offset (b :: bufs)
      (Allocated (Z.to_nat (Z.of_nat (length b) - offset)) (Ok p) ::
       Sent p (drop (Z.to_nat offset) b) :: its) (S n) e
| writes_stop b bufs err :
    in_range offset b -> err <> ERROR_BUFFER_OVERFLOW ->
    writes offset (b :: bufs)
      [Allocated (Z.to_nat (Z.of_nat (length b) - offset)) (Err err)] 0 (Some (write_error err)).

Lemma exec_AllocateSendPacket h size tr (r : result packet) :
  exec (AllocateSendPacket procs h size : prog devE _) tr r ->
  match r with
  | Ok pk => items tr = [Allocated size (Ok (ptr pk))] /\ length (contents pk) = size
  | Err err => items tr = [Allocated size (Err err)]
  end.
Proof.
  intros He. unfold AllocateSendPacket in He.
  apply exec_bind in He as (tr1 & tr2 & [[r0 m] e1] & -> & Hc & He). apply exec_invoke in Hc as ->.
  destruct (decide (r0 = 0)) as [->|Hr]; destruct He as [-> ->]; simpl.
  - done.
  - rewrite decide_False by done. split; [done|apply length_Slice].
Qed.

Lemma exec_write_loop offset bufs : 0 <= offset -> forall total i tr r,
  exec (write_loop procs total i bufs offset : prog devE _) tr r ->
  exists n e, writes offset bufs (items tr) n e /\
    r = Done (match e with None => total | Some _ => (i + n)%nat end) e.
Proof.
  intros Ho. induction bufs as [|b bufs IH]; intros total i tr r; cbn [write_loop].
  - intros [-> ->]. exists 0%nat, None. split; [constructor|done].
  - destruct (decide _) as [Hs|Hs]; cbv zeta.
    + intros He. apply IH in He as (n & e & Hw & ->). exists (S n), e.
      split; [apply writes_skip; [unfold in_range; lia|done]|]. destruct e; f_equal; lia.
    + intros He. assert (in_range offset b) as Hin by (unfold in_range; lia).
      apply exec_bind in He as (tr1 & tr2 & h & -> & Hh & He). apply exec_invoke in Hh as ->.
      apply exec_bind in He as (tr3 & tr4 & pk & -> & Ha & He).
      apply exec_AllocateSendPacket in Ha. destruct pk as [pk|err].
      * destruct Ha as [Ha Hl]. unfold slice_at in He. rewrite decide_True in He by (unfold in_range in Hin; lia).
        assert (go_copy (contents pk) (drop (Z.to_nat offset) b) = drop (Z.to_nat offset) b) as Hcopy.
        { apply go_copy_fill. rewrite length_drop, Hl. lia. }
        rewrite Hcopy in He. clear Hcopy.
        apply exec_bind in He as (tr5 & tr6 & h' & -> & Hh & He). apply exec_invoke in Hh as ->.
        apply exec_bind in He as (tr7 & tr8 & sent & -> & Hs' & He).
        unfold SendPacket in Hs'. cbn [contents ptr] in Hs'.
        destruct (drop (Z.to_nat offset) b) as [|x l] eqn:Hd.
        { exfalso. apply (f_equal length) in Hd. rewrite length_drop in Hd.
          unfold in_range in Hin. simpl in Hd. lia. }
        apply exec_bind in Hs' as (tr9 & tr10 & [] & -> & Hc & [-> ->]). apply exec_invoke in Hc as ->.
        apply IH in He as (n & e & Hw & ->). exists (S n), e.
        rewrite !items_app, Ha, <- Hd. cbn [items app]. split.
        -- rewrite Hd. rewrite <- Hd. by apply writes_sent.
        -- destruct e; f_equal; lia.
      * destruct (decide (err = ERROR_BUFFER_OVERFLOW)) as [->|Hne].
        -- apply IH in He as (n & e & Hw & ->). exists (S n), e. rewrite !items_app, Ha.
           split; [by apply writes_full|]. destruct e; f_equal; lia.
        -- exists 0%nat, (Some (write_error err)). rewrite !items_app, Ha. unfold write_error.
           destruct (decide (err = ERROR_HANDLE_EOF)); destruct He as [-> ->];
             rewrite Nat.add_0_r; (split; [|done]).
           ++ replace ErrClosed with (write_error err) by (unfold write_error; by rewrite decide_True).
              by apply writes_stop.
           ++ replace (Errorf _ err) with (write_error err) by (unfold write_error; by rewrite decide_False).
              by apply writes_stop.
Qed.

(** C25: Write hands every packet that has a valid size to the driver in order,
    exactly the bytes after the offset, and drops it when the ring is full; it
    reports the whole batch, or the index and the reason it stopped at, and never
    panics; a closed device sends nothing. *)
Theorem write_batch (bufs : list packet_bytes) (offset : Z) (tr : list (event devE)) (r : outcome) :
  0 <= offset -> exec (Write procs bufs offset) tr r ->
  (cell ClosedLoad true ∈ tr /\ items tr = [] /\ r = Done 0 (Some ErrClosed)) \/
  exists n e, writes offset bufs (items tr) n e /\
    r = Done (match e with None => length bufs | Some _ => n end) e.
Proof.
  intros Ho He. unfold Write in He.
  apply exec_bind in He as (tr1 & tr2 & [] & -> & Ha & He). apply exec_invoke in Ha as ->.
  apply exec_bind in He as (tr3 & tr4 & r' & -> & He & Hd).
  apply exec_bind in Hd as (tr5 & tr6 & [] & -> & Hd & [-> <-]). apply exec_invoke in Hd as ->.
  apply exec_bind in He as (tr7 & tr8 & c & -> & Hc & He). apply exec_invoke in Hc as ->.
  destruct c.
  - left. destruct He as [-> ->]. split; [in_trace|done].
  - right. apply exec_write_loop in He as (n & e & Hw & ->); [|done].
    exists n, e. rewrite !items_app. cbn. rewrite app_nil_r. by split.
Qed.
End WriteProps.

(** ** Read *)

Section ReadProps.
Context (procs : procTable) (canSpin : bool) (t : NativeTun).

Fixpoint received (its : list item) : list packet_bytes :=
  match its with
  | Received pk :: its => contents pk :: received its
  | _ :: its => received its
  | [] => []
  end.

(** Every packet received is released at once. *)
Inductive released_at_once : list item -> Prop :=
| released_nil : released_at_once []
| released_next pk its :
    released_at_once its -> released_at_once (Received pk :: Released (ptr pk) :: its).

Lemma received_app its1 its2 : received (its1 ++ its2) = received its1 ++ received its2.
Proof. induction its1 as [|[] its1 IH]; simpl; by rewrite ?IH. Qed.

Lemma released_at_once_app its1 its2 :
  released_at_once its1 -> released_at_once its2 -> released_at_once (its1 ++ its2).
Proof. intros H1 H2. induction H1; simpl; [done|by constructor]. Qed.

(** The caller's slices after the packets [ps]: packet [i] at the offset of slice
    [i], cut to its room, its copied length in [sizes]; the rest untouched. *)
Definition filled (offset : Z) (bufs : list packet_bytes) (sizes : list Z)
    (ps : list packet_bytes) (bufs' : list packet_bytes) (sizes' : list Z) : Prop :=
  length bufs' = length bufs /\ length sizes' = length sizes /\
  forall i, match ps !! i with
    | Some p => exists b, bufs !! i = Some b /\ bufs' !! i = copy_at offset b p /\
        sizes' !! i = Some (Z.min (Z.of_nat (length b) - offset) (Z.of_nat (length p)))
    | None => bufs' !! i = bufs !! i /\ sizes' !! i = sizes !! i
    end.

Context (offset : Z) (bufs0 : list packet_bytes) (sizes0 : list Z).

(** What holds between two steps after the packets [ps]. *)
Definition reading_ok (ps : list packet_bytes) (ph : phase) : Prop :=
  match ph with
  | AtRetry bufs sizes => ps = [] /\ bufs = bufs0 /\ sizes = sizes0
  | InLoop s =>
      rd_i s = length ps /\ rd_n s = length ps /\ (length ps <= length bufs0)%nat /\
      filled offset bufs0 sizes0 ps (rd_bufs s) (rd_sizes s)
  end.

(** What holds at the end: the packets are in place, and there is an error only
    without packets. *)
Definition read_ok (ps : list packet_bytes) (bufs' : list packet_bytes) (sizes' : list Z)
    (n : nat) (err : option error) : Prop :=
  n = length ps /\ (n <= length bufs0)%nat /\ filled offset bufs0 sizes0 ps bufs' sizes' /\
  (err <> None -> n = 0%nat) /\ (n = 0%nat -> err = None -> bufs0 = []).

(** The arguments of a proper call: the offset within every slice, a size for
    each. *)
Definition proper : Prop :=
  (length bufs0 <= length sizes0)%nat /\
  Forall (fun b => 0 <= offset <= Z.of_nat (length b)) bufs0.

Lemma exec_ReceivePacket h tr (r : result packet) :
  exec (ReceivePacket procs h : prog devE _) tr r ->
  items tr = match r with Ok pk => [Received pk] | Err _ => [] end.
Proof.
  intros He. unfold ReceivePacket in He.
  apply exec_bind in He as (tr1 & tr2 & [[[r0 size] m] e1] & -> & Hc & He).
  apply exec_invoke in Hc as ->.
  destruct (decide (r0 = 0)) as [->|Hr]; destruct He as [-> ->]; simpl; [done|].
  by rewrite decide_False.
Qed.

Lemma filled_nil : filled offset bufs0 sizes0 [] bufs0 sizes0.
Proof. split; [done|]. split; [done|]. intros i. by rewrite lookup_nil. Qed.

Lemma length_copy_at (b src b' : packet_bytes) :
  copy_at offset b src = Some b' -> length b' = length b.
Proof.
  unfold copy_at, slice_at. case_decide as Hd; [|done]. intros [= <-].
  rewrite length_app, length_go_copy, length_take, length_drop. lia.
Qed.

(** One more packet in the next slice. *)
Lemma filled_snoc ps bufs sizes b p b' :
  filled offset bufs0 sizes0 ps bufs sizes ->
  bufs !! length ps = Some b -> copy_at offset b p = Some b' ->
  (length ps < length sizes)%nat ->
  filled offset bufs0 sizes0 (ps ++ [p]) (<[length ps := b']> bufs)
    (<[length ps := Z.min (Z.of_nat (length b) - offset) (Z.of_nat (length p))]> sizes).
Proof.
  intros (Hlb & Hls & Hf) Hb Hc Hs. split; [by rewrite length_insert|].
  split; [by rewrite length_insert|]. intros i.
  destruct (decide (i = length ps)) as [->|Hi].
  - rewrite lookup_app_r, Nat.sub_diag by lia. simpl.
    specialize (Hf (length ps)). rewrite lookup_ge_None_2 in Hf by lia. destruct Hf as [Hf _].
    exists b. rewrite <- Hf, Hb, Hc. split; [done|].
    rewrite !list_lookup_insert_eq; [done|done|]. by apply lookup_lt_Some in Hb.
  - rewrite !list_lookup_insert_ne by done. specialize (Hf i).
    destruct (ps !! i) as [q|] eqn:Hq.
    + by rewrite (lookup_app_l_Some _ _ _ _ Hq).
    + apply lookup_ge_None in Hq. by rewrite lookup_ge_None_2 by (rewrite length_app; simpl; lia).
Qed.

Lemma exec_take_packet s h pk ps tr (r : phase + finished) :
  reading_ok ps (InLoop s) -> (rd_i s < length (rd_bufs s))%nat ->
  exec (take_packet procs offset s h pk : prog devE _) tr r ->
  match r with
  | inl ph => items tr = [Released (ptr pk)] /\ reading_ok (ps ++ [contents pk]) ph
  | inr (_, _, Panic) => proper -> contents pk = []
  | inr (_, _, Done _ _) => False
  end.
Proof.
  intros (Hi & Hn & Hle & Hf) Hlt He. unfold take_packet in He. pose proof Hf as (Hlb & Hls & Hg).
  destruct (rd_bufs s !! rd_i s) as [b|] eqn:Hb; cbn [mbind option_bind] in He.
  2: { apply lookup_ge_None in Hb. lia. }
  destruct (copy_at offset b (contents pk)) as [b'|] eqn:Hc.
  2: { destruct He as [-> ->]. intros [_ Hp]. exfalso.
       specialize (Hg (rd_i s)). rewrite Hi, lookup_ge_None_2 in Hg by lia. destruct Hg as [Hg _].
       rewrite Hi in Hb. rewrite Hg in Hb. rewrite Forall_lookup in Hp. apply Hp in Hb.
       unfold copy_at, slice_at in Hc. by rewrite decide_True in Hc. }
  destruct (decide _) as [Hs|Hs].
  2: { destruct He as [-> ->]. intros [Hp _]. lia. }
  apply exec_bind in He as (tr1 & tr2 & rel & -> & Hr & He). unfold ReleaseReceivePacket in Hr.
  destruct (contents pk) as [|x l] eqn:Hpk.
  { destruct Hr as [-> ->]. by destruct He as [-> ->]. }
  apply exec_bind in Hr as (tr3 & tr4 & [] & -> & Hcall & [-> ->]). apply exec_invoke in Hcall as ->.
  destruct He as [-> ->]. split; [done|].
  unfold reading_ok. cbn [rd_i rd_n rd_bufs rd_sizes]. rewrite length_app, Hi, Hn. cbn [length].
  split; [lia|]. split; [lia|]. split; [lia|]. rewrite Hi in *.
  rewrite (length_copy_at _ _ _ Hc). by eapply filled_snoc.
Qed.

(** One step keeps what holds, or ends as promised. *)
Lemma exec_read_step ph ps tr (r : phase + finished) :
  reading_ok ps ph -> exec (read_step procs canSpin t offset ph : prog devE _) tr r ->
  match r with
  | inl ph' => released_at_once (items tr) /\ reading_ok (ps ++ received (items tr)) ph'
  | inr (bufs', sizes', Done n err) => items tr = [] /\ read_ok ps bufs' sizes' n err
  | inr (_, _, Panic) => proper -> [] ∈ received (items tr)
  end.
Proof.
  intros Hok He. destruct ph as [bufs sizes|s]; cbn [read_step] in He.
  - destruct Hok as (-> & -> & ->).
    apply exec_bind in He as (tr1 & tr2 & c & -> & Hc & He). apply exec_invoke in Hc as ->.
    destruct c; destruct He as [-> ->]; cbn.
    + split; [done|]. split; [done|]. split; [lia|]. split; [apply filled_nil|]. by split.
    + split; [constructor|]. split; [done|]. split; [done|]. split; [lia|apply filled_nil].
  - pose proof Hok as (Hi & Hn & Hle & Hf). pose proof Hf as (Hlb & _).
    assert (forall err, err <> None \/ (length bufs0 <= rd_n s)%nat \/ (0 < rd_n s)%nat ->
              (err = None \/ rd_n s = 0%nat) ->
              read_ok ps (rd_bufs s) (rd_sizes s) (rd_n s) err) as Hend.
    { intros err Ha Hb. split; [done|]. split; [lia|]. split; [done|]. split; [tauto|].
      intros Hz ->. destruct bufs0; [done|]. simpl in *. destruct Ha as [?|[?|?]]; [done|lia..]. }
    assert (forall e, match deliver_or s e with
      | inr (b, z, Done n err) => read_ok ps b z n err | _ => False end) as Hdeliver.
    { intros e. unfold deliver_or, finish. destruct (decide (0 < rd_n s)%nat); apply Hend;
        first [tauto | left; congruence | right; lia]. }
    destruct (decide _) as [Hlt|Hge].
    2: { destruct He as [-> ->]. split; [done|]. apply Hend; [right; left; lia|by left]. }
    apply exec_bind in He as (tr1 & tr2 & c & -> & Hc & He). apply exec_invoke in Hc as ->.
    destruct c.
    { destruct He as [-> ->]. specialize (Hdeliver ErrClosed). unfold deliver_or, finish in *. done. }
    apply exec_bind in He as (tr3 & tr4 & h & -> & Hh & He). apply exec_invoke in Hh as ->.
    apply exec_bind in He as (tr5 & tr6 & pk & -> & Hr & He). apply exec_ReceivePacket in Hr.
    rewrite !items_app, Hr. cbn [items item_of omap list_omap app ev_call ev_answer].
    destruct pk as [pk|err].
    + apply exec_bind in He as (tr7 & tr8 & h' & -> & Hh & He). apply exec_invoke in Hh as ->.
      apply (exec_take_packet _ _ _ ps) in He; [|done|done].
      destruct r as [ph'|[[b z] [n e|]]].
      * destruct He as [He Hok']. rewrite items_app, He. cbn. split; [by repeat constructor|done].
      * done.
      * intros Hp. cbn. rewrite (He Hp). apply list_elem_of_here.
    + destruct (decide (err = ERROR_NO_MORE_ITEMS)).
      * unfold poll_again in He. destruct (decide (0 < rd_n s)%nat).
        { destruct He as [-> ->]. split; [done|]. apply Hend; tauto. }
        assert (ps = []) as -> by (apply length_zero_iff_nil; lia).
        assert (rd_bufs s = bufs0 /\ rd_sizes s = sizes0) as [Hb0 Hs0].
        { destruct Hf as (_ & _ & Hf).
          split; apply list_eq; intros i; specialize (Hf i); rewrite lookup_nil in Hf; apply Hf. }
        assert (released_at_once [] /\
                reading_ok ([] ++ received []) (AtRetry (rd_bufs s) (rd_sizes s))) as Hretry
          by (split; [constructor|by split]).
        assert (forall sp, released_at_once [] /\ reading_ok ([] ++ received [])
                  (InLoop (mkReading (rd_i s) (rd_n s) sp (rd_bufs s) (rd_sizes s)))) as Hagain
          by (intros sp; split; [constructor|exact Hok]).
        destruct canSpin; [destruct (spin s) as [d|]|]; exec_inv; done || apply Hagain.
      * destruct (decide (err = ERROR_HANDLE_EOF)); destruct He as [-> ->];
          match goal with |- context [deliver_or s ?e] => specialize (Hdeliver e) end;
          unfold deliver_or, finish in *; done.
Qed.
End ReadProps.

Section ReadTheorems.
Context (procs : procTable) (canSpin : bool) (t : NativeTun).

Lemma exec_read_loop offset bufs0 sizes0 fuel : forall ph ps tr (r : phase + finished),
  reading_ok offset bufs0 sizes0 ps ph ->
  exec (read_loop procs canSpin t fuel offset ph : prog devE _) tr r ->
  match r with
  | inl ph' => reading_ok offset bufs0 sizes0 (ps ++ received (items tr)) ph'
  | inr (bufs', sizes', Done n err) =>
      released_at_once (items tr) /\
      read_ok offset bufs0 sizes0 (ps ++ received (items tr)) bufs' sizes' n err
  | inr (_, _, Panic) => proper offset bufs0 sizes0 -> [] ∈ received (items tr)
  end.
Proof.
  induction fuel as [|fuel IH]; intros ph ps tr r Hok He; cbn [read_loop] in He.
  - destruct He as [-> ->]. by rewrite app_nil_r.
  - apply exec_bind in He as (tr1 & tr2 & r1 & -> & Hs & He).
    apply (exec_read_step _ _ _ _ _ _ _ _ _ _ Hok) in Hs. rewrite items_app, received_app.
    destruct r1 as [ph'|[[b z] o]].
    + destruct Hs as [Hrel Hok']. apply (IH _ _ _ _ Hok') in He. rewrite <- app_assoc in He.
      destruct r as [ph''|[[b z] [n e|]]]; [done| |].
      * destruct He as [He Hd]. split; [by apply released_at_once_app|done].
      * intros Hp. apply elem_of_app. right. by apply He.
    + destruct He as [-> ->]. cbn [items omap list_omap received]. rewrite !app_nil_r.
      destruct o as [n e|]; [|exact Hs].
      destruct Hs as [Hi Hd]. rewrite Hi. cbn [received]. rewrite app_nil_r.
      split; [constructor|done].
Qed.

(** C24: Read fills the caller's slices with the packets received, in order: the
    packet cut to the room behind the offset, its copied length in sizes, every
    other slot untouched; each packet is given back to the ring at once, an error
    comes only without packets, and no packets without an error only for an empty
    batch.  With proper arguments only an empty packet makes it panic. *)
Theorem read_batch (fuel : nat) (bufs : list packet_bytes) (sizes : list Z) (offset : Z)
    (tr : list (event devE)) (bufs' : list packet_bytes) (sizes' : list Z) (o : outcome) :
  exec (Read procs canSpin t fuel bufs sizes offset) tr (inr (bufs', sizes', o)) ->
  match o with
  | Done n err =>
      released_at_once (items tr) /\
      read_ok offset bufs sizes (received (items tr)) bufs' sizes' n err
  | Panic => proper offset bufs sizes -> [] ∈ received (items tr)
  end.
Proof.
  intros He. unfold Read in He.
  apply exec_bind in He as (tr1 & tr2 & [] & -> & Ha & He). apply exec_invoke in Ha as ->.
  apply exec_bind in He as (tr3 & tr4 & r & -> & He & Hd).
  apply exec_bind in Hd as (tr5 & tr6 & [] & -> & Hd & [-> <-]). apply exec_invoke in Hd as ->.
  apply (exec_read_loop offset bufs sizes _ _ []) in He; [|done].
  rewrite !items_app. cbn. rewrite app_nil_r. exact He.
Qed.

(** The answers about the closed flag. *)
Definition closed_call {R} (e : devE R) : R -> option bool :=
  match e with
  | Cell e =>
      match e in cellE R return R -> option bool with
      | ClosedLoad => fun b => Some b
      | _ => fun _ => None
      end
  | Drv _ => fun _ => None
  end.

Definition closed_loads (tr : list (event devE)) : list bool :=
  omap (fun ev => closed_call (ev_call _ ev) (ev_answer _ ev)) tr.

Lemma exec_read_step_load offset ph tr ph' :
  exec (read_step procs canSpin t offset ph : prog devE _) tr (inl ph') ->
  closed_loads tr = [false].
Proof.
  intros He. destruct ph as [bufs sizes|s]; cbn [read_step] in He.
  - apply exec_bind in He as (tr1 & tr2 & c & -> & Hc & He). apply exec_invoke in Hc as ->.
    destruct c; by destruct He as [-> [=]].
  - destruct (decide _); [|by destruct He as [_ [=]]].
    apply exec_bind in He as (tr1 & tr2 & c & -> & Hc & He). apply exec_invoke in Hc as ->.
    destruct c; [by destruct He as [_ [=]]|].
    unfold ReceivePacket, take_packet, ReleaseReceivePacket, poll_again, finish, deliver_or in He.
    exec_inv; simplify_eq; done.
Qed.

(** Read ends: as long as it runs, every step asks whether the device is
    closed and is told that it is not. *)
Theorem read_ends (fuel : nat) (bufs : list packet_bytes) (sizes : list Z) (offset : Z)
    (tr : list (event devE)) (ph : phase) :
  exec (Read procs canSpin t fuel bufs sizes offset) tr (inl ph) ->
  closed_loads tr = replicate fuel false.
Proof.
  intros He. unfold Read in He.
  apply exec_bind in He as (tr1 & tr2 & [] & -> & Ha & He). apply exec_invoke in Ha as ->.
  apply exec_bind in He as (tr3 & tr4 & r & -> & He & Hd).
  apply exec_bind in Hd as (tr5 & tr6 & [] & -> & Hd & [-> <-]). apply exec_invoke in Hd as ->.
  unfold closed_loads. rewrite !omap_app. cbn. rewrite app_nil_r.
  revert He. generalize (AtRetry bufs sizes) as ph0. revert tr3.
  induction fuel as [|fuel IH]; intros tr3 ph0; cbn [read_loop]; [by intros [-> _]|].
  intros He. apply exec_bind in He as (tr1 & tr2 & r1 & -> & Hs & He).
  destruct r1 as [ph'|[[b z] o]]; [|by destruct He as [_ [=]]].
  apply exec_read_step_load in Hs. apply IH in He. rewrite omap_app, He.
  unfold closed_loads in Hs. by rewrite Hs.
Qed.
End ReadTheorems.

(** ** Creating the device *)

(** Adapters and sessions held, the last taken first. *)
Inductive driver_object : Type :=
| OAdapter (h : Z)
| OSession (h : Z).

#[export] Instance driver_object_eq_dec : EqDecision driver_object.
Proof. solve_decision. Defined.

Definition give_back (x : driver_object) (held : list driver_object) : option (list driver_object) :=
  match held with
  | y :: held => if decide (x = y) then Some held else None
  | [] => None
  end.

Definition holding_drv {R} (e : drvE R) : R -> list driver_object -> option (list driver_object) :=
  match e with
  | CreateAdapter_ _ _ _ _ => fun a held =>
      Some (if decide (a.1 = 0) then held else OAdapter a.1 :: held)
  | StartSession_ _ ad _ => fun a held =>
      if decide (OAdapter ad ∈ held)
      then Some (if decide (a.1 = 0) then held else OSession a.1 :: held) else None
  | CloseAdapter_ _ h => fun _ => give_back (OAdapter h)
  | EndSession_ _ h => fun _ => give_back (OSession h)
  | GetAdapterLUID_ _ h => fun _ held => if decide (OAdapter h ∈ held) then Some held else None
  | GetReadWaitEvent_ _ h => fun _ held => if decide (OSession h ∈ held) then Some held else None
  | LoadLibraryEx _ flags => fun _ held =>
      if decide (flags = 0xA00) then Some held else None
  | _ => fun _ held => Some held
  end.

(** Adapters and sessions are used while they are held and given back in reverse,
    sessions start on adapters that are held, and libraries are looked up in the safe directories only. *)
Definition holding : monitor_step devE (list driver_object) :=
  fun R e r held => match e in devE R return R -> _ with
    | Drv e => fun r => holding_drv e r held
    | Cell _ => fun _ => Some held
    end r.

Section CreateProps.
Context (quote : string -> string).

Abbreviation wph p Q held := (wp holding any_answer p Q held).

Lemma wp_resolve_all module names found held :
  wph (resolve_all module names found : prog devE _) (fun _ held' => held' = held) held.
Proof.
  revert found. induction names as [|n names IH]; intros found; cbn [resolve_all]; [done|].
  intros [a|e] _; eexists; (split; [reflexivity|]); [apply IH|done].
Qed.

Lemma wp_load l held :
  wph (load l : prog devE _)
    (fun '(l', err) held' => held' = held /\ loadOnce l' = true /\ err = loadErr l' /\
                             (loadOnce l = true -> l' = l)) held.
Proof.
  unfold load. destruct (loadOnce l) eqn:Hl; [by cbn|].
  apply wp_bind. intros [m|e] _; eexists; (split; [reflexivity|]); [|by cbn].
  apply wp_bind. eapply wp_mono; [|apply wp_resolve_all]. by intros [err found] held' ->.
Qed.

Lemma wp_CreateAdapter nm guid l :
  wph (CreateAdapter quote nm guid l : prog devE _)
    (fun '(l', res) held' =>
       loadOnce l' = true /\ (loadOnce l = true -> l' = l) /\
       (forall e, loadErr l' = Some e -> res = Err e) /\
       match res with
       | Ok h => h <> 0 /\ held' = [OAdapter h]
       | Err _ => held' = []
       end) [].
Proof.
  unfold CreateAdapter. apply wp_bind. eapply wp_mono; [|apply wp_load].
  intros [l' err] held' (-> & Ho & -> & Hk). cbn beta iota.
  destruct (loadErr l') as [e|] eqn:Hle.
  { cbn. split; [done|]. split; [done|]. split; [|done]. intros; congruence. }
  apply wp_bind. intros [n16|e] _; eexists; (split; [reflexivity|]); [|cbn; repeat split; try done; intros; congruence].
  apply wp_bind. intros [t16|e] _; eexists; (split; [reflexivity|]); [|cbn; repeat split; try done; intros; congruence].
  apply wp_bind. intros [r0 e1] _; eexists; (split; [reflexivity|]). cbn [fst].
  cbn [wp]. destruct (decide (r0 = 0)); cbn [wp]; split_and!; try done; intros; congruence.
Qed.

Lemma holding_start p h c s e1 :
  holding _ (embed (StartSession_ p h c)) (s, e1) [OAdapter h]
  = Some (if decide (s = 0) then [OAdapter h] else [OSession s; OAdapter h]).
Proof. unfold holding. cbn. rewrite decide_True by apply list_elem_of_here. by case_decide. Qed.

Lemma holding_wait p h s w :
  holding _ (embed (GetReadWaitEvent_ p s)) w [OSession s; OAdapter h]
  = Some [OSession s; OAdapter h].
Proof. unfold holding. cbn. by rewrite decide_True by apply list_elem_of_here. Qed.

Lemma holding_close p h : holding _ (embed (CloseAdapter_ p h)) tt [OAdapter h] = Some [].
Proof. unfold holding. cbn. by rewrite decide_True. Qed.

(** What CreateTUN gives and holds, starting with nothing. *)
Definition created_tun (nm : string) (l : loader) (a : loader * result NativeTun)
  (held : list driver_object) : Prop :=
  loadOnce a.1 = true /\ (loadOnce l = true -> a.1 = l) /\
  (forall e, loadErr a.1 = Some e -> a.2 = Err e) /\
  match a.2 with
  | Ok t => held = [OSession (session t); OAdapter (adapter t)] /\
    adapter t <> 0 /\ session t <> 0 /\ Name t = nm /\ 0 < MTU t
  | Err _ => held = []
  end.

Lemma wp_CreateTUN nm m l :
  wph (CreateTUN quote nm m l : prog devE _) (created_tun nm l) [].
Proof.
  unfold CreateTUN. apply wp_bind. eapply wp_mono; [|apply wp_CreateAdapter].
  intros [l1 [h|e]] held (Ho & Hk & Herr & Hh).
  2: { cbn. split; [done|]. split; [done|]. split; [|done].
       intros e' Hle. apply Herr in Hle. by injection Hle as ->. }
  destruct Hh as [Hh ->].
  assert (forall e, loadErr l1 = Some e -> False) as Hno by (intros e Hle; by apply Herr in Hle).
  unfold StartSession. apply wp_bind, wp_bind. intros [s e1] _. rewrite holding_start.
  eexists. split; [reflexivity|]. cbn [wp fst].
  destruct (decide (s = 0)) as [->|Hs]; cbn [wp].
  - apply wp_bind. unfold Adapter_Close. rewrite decide_False by exact Hh. intros [] _.
    rewrite holding_close.
    eexists. split; [reflexivity|]. unfold created_tun. cbn.
    split; [done|]. split; [done|]. split; [by intros e Hle; apply Hno in Hle|done].
  - intros w _. rewrite holding_wait. eexists. split; [reflexivity|]. unfold created_tun. cbn.
    split; [done|]. split; [done|]. split; [by intros e Hle; apply Hno in Hle|]. split; [done|].
    split; [done|]. split; [done|]. split; [done|]. unfold MTU. cbn. case_decide; lia.
Qed.

(** CreateTUN holds exactly the adapter and the session of the device it
    returns, and nothing when it fails; the session starts on that adapter, the
    device reports the name it was given and a positive MTU, the driver is looked
    up once and in the safe directories only, and a driver that did not load
    fails every attempt with the same error. *)
Theorem create_tun_outcome (nm : string) (m : Z) (l l' : loader) (tr : list (event devE))
    (res : result NativeTun) :
  exec (CreateTUN quote nm m l) tr (l', res) ->
  loadOnce l' = true /\ (loadOnce l = true -> l' = l) /\
  (forall e, loadErr l' = Some e -> res = Err e) /\
  match res with
  | Ok t =>
      monitor holding [] tr = Some [OSession (session t); OAdapter (adapter t)] /\
      adapter t <> 0 /\ session t <> 0 /\ Name t = nm /\ 0 < MTU t
  | Err _ => monitor holding [] tr = Some []
  end.
Proof.
  intros He.
  destruct (wp_exec _ _ _ _ _ _ _ (wp_CreateTUN nm m l) He (admissible_any _ _ _))
    as (held & Hm & Ha & Hb & Hc & Hd).
  split; [done|]. split; [done|]. split; [done|]. cbn in Hd.
  destruct res as [t|e]; [|by subst]. by destruct Hd as [-> Hd].
Qed.
End CreateProps.

(** ** At concrete inputs *)
Module DeviceSample.
Definition tun : NativeTun := mkTun 10 11 "veil0" 1420 12.
Definition loaded : loader := mkLoader true None zero_procs.
(** A ring with the bytes 7, 8, 9, ... *)
Definition ring : memory := fun n => 7 + Z.of_nat n.

Definition write_trace : list (event devE) :=
  [cell RunningAdd tt; cell ClosedLoad false;
   cell SessionHandle 11; drv (AllocateSendPacket_ 0 11 2) (0, ring, 111);
   cell SessionHandle 11; drv (AllocateSendPacket_ 0 11 1) (500, ring, 0);
   cell SessionHandle 11; drv (SendPacket_ 0 11 500 [3]) tt; cell RunningDone tt].

Definition read_trace : list (event devE) :=
  [cell RunningAdd tt; cell ClosedLoad false; cell ClosedLoad false;
   cell SessionHandle 11; drv (ReceivePacket_ 0 11) (600, 3%nat, ring, 0);
   cell SessionHandle 11; drv (ReleaseReceivePacket_ 0 11 600) tt; cell RunningDone tt].

Definition create_trace : list (event devE) :=
  [drv (Utf16PtrFromString "veil0") (Ok (mkUtf16 1));
   drv (Utf16PtrFromString "VEIL") (Ok (mkUtf16 2));
   drv (CreateAdapter_ 0 (mkUtf16 1) (mkUtf16 2) None) (10, 0);
   drv (StartSession_ 0 10 0x800000) (0, 8);
   drv (CloseAdapter_ 0 10) tt].
End DeviceSample.
Import DeviceSample.

(** Three packets: one of no bytes, one that does not fit the ring, one sent. *)
Lemma write_batch_witness :
  exists n e, writes 1 [[1]; [1; 2; 2]; [2; 3]] (items write_trace) n e /\
    Done 3 None = Done (match e with None => 3 | Some _ => n end) e.
Proof.
  assert (exec (Write zero_procs [[1]; [1; 2; 2]; [2; 3]] 1) write_trace (Done 3 None)) as He.
  { do 9 (eexists _, _; split; [reflexivity|]). by split. }
  destruct (write_batch zero_procs [[1]; [1; 2; 2]; [2; 3]] 1 write_trace (Done 3 None)
              ltac:(lia) He) as [(_ & Hi & _)|Hw].
  - vm_compute in Hi. discriminate Hi.
  - exact Hw.
Defined.

(** A packet of three bytes into a slice with room for two. *)
Lemma read_batch_witness :
  read_ok 1 [[0; 0; 0]] [5] [[7; 8; 9]] [[0; 7; 8]] [2] 1 None.
Proof.
  assert (exec (Read zero_procs true tun 3 [[0; 0; 0]] [5] 1) read_trace
            (inr ([[0; 7; 8]], [2], Done 1 None))) as He.
  { do 8 (eexists _, _; split; [reflexivity|]). by split. }
  exact (proj2 (read_batch zero_procs true tun 3 [[0; 0; 0]] [5] 1 read_trace _ _ _ He)).
Defined.

Lemma read_ends_witness :
  closed_loads [cell RunningAdd tt; cell ClosedLoad false; cell RunningDone tt] = [false].
Proof.
  apply (read_ends zero_procs true tun 1 [[0]] [0] 0 _ (InLoop (mkReading 0 0 None [[0]] [0]))).
  do 3 (eexists _, _; split; [reflexivity|]). by split.
Defined.

(** No session: the adapter is closed again. *)
Lemma create_tun_outcome_witness : monitor holding [] create_trace = Some [].
Proof.
  assert (exec (CreateTUN (fun s => s) "veil0" 0 loaded) create_trace
            (loaded, Err (Errorf "veiltun: start session" (Errno 8)))) as He.
  { do 5 (eexists _, _; split; [reflexivity|]). by split. }
  exact (proj2 (proj2 (proj2 (create_tun_outcome (fun s => s) "veil0" 0 loaded loaded
                                create_trace _ He)))).
Defined.
