(* ===== verification/DeviceSystem.v ===== *)
(** * Concurrent use of the device (veiltun/device.go)

    Any number of goroutines call Read, Write and Close on one [NativeTun].
    Their calls interleave one by one over the shared fields ([shared]); each
    method follows a protocol of its own ([local_step], checked with [wp]), and
    the protocols together keep the session and the adapter alive while they are
    used. *)

From S2P Require Import Prelude IpTypes IpHelper Device DeviceProps.
From Stdlib Require Import ZArith String Lia.
From stdpp Require Import base list relations strings.
Open Scope Z_scope.
Local Open Scope list_scope.

(** ** The shared state and what the calls do to it *)

Inductive once_state : Type := ONot | ORunning | ODone.

Record shared : Type := mkShared {
  running : nat;
  closed : bool;
  once : once_state;
  sess : Z;           (* the fields of Session and Adapter *)
  adap : Z;
  sess_live : bool;   (* the driver's session and adapter *)
  adap_live : bool;
}.

Definition serve_cell {R} (e : cellE R) (w : shared) : R -> option shared :=
  let '(mkShared n c o s a sl al) := w in
  match e in cellE R return R -> option shared with
  | RunningAdd => fun _ => Some (mkShared (S n) c o s a sl al)
  | RunningDone => fun _ => Some (mkShared (pred n) c o s a sl al)
  | RunningWait => fun _ => if decide (n = 0%nat) then Some w else None
  | ClosedLoad => fun b => if decide (b = c) then Some w else None
  | ClosedStore => fun _ => Some (mkShared n true o s a sl al)
  | OnceBegin => fun b =>
      match o, b with
      | ONot, true => Some (mkShared n c ORunning s a sl al)
      | ODone, false => Some w
      | _, _ => None
      end
  | OnceEnd => fun _ => Some (mkShared n c ODone s a sl al)
  | SessionHandle => fun h => if decide (h = s) then Some w else None
  | SetSessionHandle h => fun _ => Some (mkShared n c o h a sl al)
  | AdapterHandle => fun h => if decide (h = a) then Some w else None
  | SetAdapterHandle h => fun _ => Some (mkShared n c o s h sl al)
  end.

Definition serve_drv {R} (e : drvE R) (w : shared) : shared :=
  let '(mkShared n c o s a sl al) := w in
  match e with
  | EndSession_ _ _ => mkShared n c o s a false al
  | CloseAdapter_ _ _ => mkShared n c o s a sl false
  | _ => w
  end.

(** [serve e r w]: the call [e] can be answered [r] now, and what it changes;
    a call that cannot be answered blocks its goroutine.  The driver answers at any
    time here, which is all that safety needs; DeviceClose.v adds when the wait for
    the event is answered. *)
Definition serve {R} (e : devE R) (r : R) (w : shared) : option shared :=
  match e in devE R return R -> option shared with
  | Cell e => serve_cell e w
  | Drv e => fun _ => Some (serve_drv e w)
  end r.

(** ** Goroutines *)

Abbreviation thread := (prog devE unit).

Record system : Type := mkSystem {
  threads : list thread;
  world : shared;
}.

Section System.
Context (procs : procTable) (canSpin : bool) (t : NativeTun).
(** As CreateTUN returns it. *)
Context (session_nonzero : session t <> 0) (adapter_nonzero : adapter t <> 0).

Definition discard {A} (p : prog devE A) : thread := let! _ := p in Ret tt.

(** A call of one of the methods. *)
Inductive method : thread -> Prop :=
| method_Read fuel bufs sizes offset :
    method (discard (Read procs canSpin t fuel bufs sizes offset))
| method_Write bufs offset : method (discard (Write procs bufs offset))
| method_Close : method (discard (Close procs t)).

(** A goroutine starts a method, or one makes its next call. *)
Inductive sys_step : system -> system -> Prop :=
| step_call p ts w : method p -> sys_step (mkSystem ts w) (mkSystem (ts ++ [p]) w)
| step_run i R (e : devE R) k r ts w w' :
    ts !! i = Some (Vis e k) -> serve e r w = Some w' ->
    sys_step (mkSystem ts w) (mkSystem (<[i := k r]> ts) w').

(** The device [CreateTUN] returned, not in use yet. *)
Definition initial : system :=
  mkSystem [] (mkShared 0 false ONot (session t) (adapter t) true true).

(** ** The protocol of a method *)

Inductive stage : Type :=
| Begun | Stored | Waited | Ending | Ended | Adapting | Closing | Shut.

#[export] Instance stage_eq_dec : EqDecision stage.
Proof. solve_decision. Defined.

Record local : Type := mkLocal {
  l_in : bool;             (* between RunningAdd and RunningDone *)
  l_open : bool;           (* and has seen the device open *)
  l_handle : option Z;     (* the handle read last *)
  l_stage : option stage;  (* how far the body of Close is *)
}.

Definition idle : local := mkLocal false false None None.

(** A call on the session [h]. *)
Definition on_session (h : Z) (g : local) : option local :=
  if decide (l_open g = true /\ l_handle g = Some h) then Some g else None.

Definition local_cell {R} (e : cellE R) (g : local) : R -> option local :=
  let '(mkLocal i o h s) := g in
  match e in cellE R return R -> option local with
  | RunningAdd => fun _ =>
      if decide (i = false /\ s = None) then Some (mkLocal true false None None) else None
  | RunningDone => fun _ => if i then Some (mkLocal false false None s) else None
  | ClosedLoad => fun b =>
      match s with
      | None => Some (mkLocal i (o || (i && negb b)) (if o then h else None) None)
      | Some _ => None
      end
  | SessionHandle => fun x =>
      if o then Some (mkLocal i o (Some x) s)
      else match s with Some Waited => Some (mkLocal i o (Some x) s) | _ => None end
  | OnceBegin => fun b =>
      if decide (i = false /\ o = false /\ s = None)
      then Some (mkLocal i o None (if b then Some Begun else None)) else None
  | ClosedStore => fun _ =>
      match s with Some Begun => Some (mkLocal i o None (Some Stored)) | _ => None end
  | RunningWait => fun _ =>
      match s with Some Stored => Some (mkLocal i o None (Some Waited)) | _ => None end
  | SetSessionHandle x => fun _ =>
      match s with
      | Some Ending => if decide (x = 0) then Some (mkLocal i o None (Some Ended)) else None
      | _ => None
      end
  | AdapterHandle => fun x =>
      match s with
      | Some Ended => Some (mkLocal i o (Some x) (Some Adapting))
      | Some Waited =>
          if decide (h = Some 0) then Some (mkLocal i o (Some x) (Some Adapting)) else None
      | _ => None
      end
  | SetAdapterHandle x => fun _ =>
      match s with Some Closing => Some (mkLocal i o None (Some Shut)) | _ => None end
  | OnceEnd => fun _ =>
      match s with
      | Some Shut => Some (mkLocal i o None None)
      | Some Adapting => if decide (h = Some 0) then Some (mkLocal i o None None) else None
      | _ => None
      end
  end.

Definition local_drv {R} (e : drvE R) (g : local) : option local :=
  match e with
  | ReceivePacket_ _ h | ReleaseReceivePacket_ _ h _ | AllocateSendPacket_ _ h _
  | SendPacket_ _ h _ _ => on_session h g
  | WaitForSingleObject _ => if l_open g then Some g else None
  | SetEvent _ => if decide (l_stage g = Some Stored) then Some g else None
  | Now | Gosched => Some g
  | EndSession_ _ h =>
      if decide (l_stage g = Some Waited /\ l_handle g = Some h)
      then Some (mkLocal (l_in g) (l_open g) None (Some Ending)) else None
  | CloseAdapter_ _ h =>
      if decide (l_stage g = Some Adapting /\ l_handle g = Some h)
      then Some (mkLocal (l_in g) (l_open g) None (Some Closing)) else None
  | _ => None
  end.

Definition local_step : monitor_step devE local :=
  fun R e r g =>
    match e in devE R return R -> option local with
    | Cell e => local_cell e g
    | Drv e => fun _ => local_drv e g
    end r.

Abbreviation wpl p Q g := (wp local_step any_answer p Q g).

(** In none of the methods any more. *)
Definition out (g : local) : Prop := l_in g = false /\ l_stage g = None.

Abbreviation follows p g := (wpl p (fun _ g' => out g') g).

(** ** Every method follows the protocol *)

(** Inside Read or Write. *)
Definition in_use (opened : bool) (g : local) : Prop :=
  l_in g = true /\ l_stage g = None /\ (opened = true -> l_open g = true).

Definition phase_open (ph : phase) : bool :=
  match ph with AtRetry _ _ => false | InLoop _ => true end.

Lemma in_use_open g b : in_use true g -> in_use b g.
Proof. intros (Hi & Hs & Ho). split; [done|]. split; [done|]. intros _. by apply Ho. Qed.

Lemma wpl_call {R} (e : devE R) (Q : R -> local -> Prop) g :
  (forall r, exists g', local_step _ e r g = Some g' /\ Q r g') -> wpl (call e) Q g.
Proof. intros Hr r _. apply Hr. Qed.

Lemma wpl_session (Q : Z -> local -> Prop) g :
  in_use true g ->
  (forall h, Q h (mkLocal true true (Some h) None)) -> wpl (invoke SessionHandle) Q g.
Proof.
  destruct g as [i o h s]. intros (Hi & Hs & Ho) HQ. simpl in *. subst. rewrite (Ho eq_refl).
  intros r _. eexists. split; [reflexivity|]. apply HQ.
Qed.

Abbreviation holding_session h := (mkLocal true true (Some h) None).

Lemma on_session_ok h : on_session h (holding_session h) = Some (holding_session h).
Proof. unfold on_session. by rewrite decide_True. Qed.

Lemma in_use_session h b : in_use b (holding_session h).
Proof. done. Qed.

Lemma wpl_ReceivePacket h (Q : result packet -> local -> Prop) :
  (forall r, Q r (holding_session h)) -> wpl (ReceivePacket procs h) Q (holding_session h).
Proof.
  intros HQ. apply wp_bind. intros [[[r0 size] m] e1] _. exists (holding_session h).
  split; [apply on_session_ok|]. cbn [wp]. destruct (decide (r0 = 0)); apply HQ.
Qed.

Lemma wpl_ReleaseReceivePacket h pk (Q : option unit -> local -> Prop) :
  (forall r, Q r (holding_session h)) ->
  wpl (ReleaseReceivePacket procs h pk) Q (holding_session h).
Proof.
  intros HQ. unfold ReleaseReceivePacket. destruct (contents pk); [apply HQ|].
  apply wp_bind. intros [] _. exists (holding_session h). split; [apply on_session_ok|apply HQ].
Qed.

Lemma wpl_take_packet offset s h pk :
  wpl (take_packet procs offset s h pk)
    (fun r g => match r with inl ph => in_use (phase_open ph) g | inr _ => in_use false g end)
    (holding_session h).
Proof.
  unfold take_packet. destruct (_ ≫= _); [|done]. cbv zeta. destruct (decide _); [|done].
  apply wp_bind, wpl_ReleaseReceivePacket. by intros [[]|].
Qed.

(** Waiting and polling change nothing. *)
Lemma wpl_poll_again s h :
  wpl (poll_again canSpin t s)
    (fun r g => match r with inl ph => in_use (phase_open ph) g | inr _ => in_use false g end)
    (holding_session h).
Proof.
  unfold poll_again. destruct (decide _); [done|].
  destruct canSpin; [destruct (spin s) as [d|]|]; apply wp_bind; intros ? _;
    eexists; (split; [reflexivity|]).
  - cbn [wp]. destruct (decide _); apply wp_bind; intros ? _; eexists;
      (split; [reflexivity|]); done.
  - cbn [wp]. apply wp_bind. intros ? _. eexists. split; [reflexivity|]. done.
  - done.
Qed.

Lemma wpl_read_step offset ph g :
  in_use (phase_open ph) g ->
  wpl (read_step procs canSpin t offset ph)
    (fun r g => match r with inl ph => in_use (phase_open ph) g | inr _ => in_use false g end) g.
Proof.
  intros Hg. destruct ph as [bufs sizes|s]; cbn [read_step phase_open] in *.
  - apply wp_bind. destruct g as [i o h st]. destruct Hg as (Hi & Hs & _). simpl in *. subst.
    intros [] _; eexists; (split; [reflexivity|]); cbn; unfold in_use; cbn; (split; [done|]);
      (split; [done|]); [done|]. intros _. apply orb_true_r.
  - destruct (decide _); [|by apply in_use_open].
    apply wp_bind. intros c _. exists g. split.
    { destruct g as [i o h st]. destruct Hg as (Hi & Hs & Ho). simpl in *. subst. by rewrite Ho. }
    cbn [wp]. destruct c; [by apply in_use_open|].
    apply wp_bind, wpl_session; [done|]. intros h. apply wp_bind, wpl_ReceivePacket. intros r.
    destruct r as [pk|err].
    + apply wp_bind, wpl_session; [done|]. intros h'. apply wpl_take_packet.
    + destruct (decide _); [apply wpl_poll_again|]. by destruct (decide _).
Qed.

Lemma wpl_read_loop fuel offset ph g :
  in_use (phase_open ph) g ->
  wpl (read_loop procs canSpin t fuel offset ph) (fun _ g => in_use false g) g.
Proof.
  revert ph g. induction fuel as [|fuel IH]; intros ph g Hg; cbn [read_loop].
  - destruct ph; [done|by apply in_use_open].
  - apply wp_bind. eapply wp_mono; [|by apply wpl_read_step].
    intros [ph'|r] g' Hg'; [by apply IH|done].
Qed.

Lemma wpl_running {A} (p : prog devE A) :
  (forall g, in_use false g -> wpl p (fun _ g => in_use false g) g) ->
  follows (discard (let! _ := invoke RunningAdd in let! r := p in
                    do! invoke RunningDone in Ret r)) idle.
Proof.
  intros Hp. apply wp_bind, wp_bind. intros [] _. eexists. split; [reflexivity|].
  cbn [wp]. apply wp_bind. eapply wp_mono; [|by apply Hp].
  intros a [i o h s] (Hi & Hs & _). simpl in *. subst. intros [] _.
  by eexists.
Qed.

Lemma follows_Read fuel bufs sizes offset :
  follows (discard (Read procs canSpin t fuel bufs sizes offset)) idle.
Proof. apply wpl_running. intros g Hg. by apply wpl_read_loop. Qed.

Lemma wpl_write_loop total bufs offset : forall i g,
  in_use true g -> wpl (write_loop procs total i bufs offset) (fun _ g => in_use false g) g.
Proof.
  induction bufs as [|b bufs IH]; intros i g Hg; cbn [write_loop]; [by apply in_use_open|].
  cbv zeta. destruct (decide _); [by apply IH|].
  apply wp_bind, wpl_session; [done|]. intros h. apply wp_bind, wp_bind.
  intros [[r0 m] e1] _. exists (holding_session h). split; [apply on_session_ok|]. cbn [wp].
  destruct (decide (r0 = 0)); cbn [wp].
  - destruct (decide _); [by apply IH|]. by destruct (decide _).
  - destruct (slice_at offset b); [|done]. apply wp_bind, wpl_session; [done|]. intros h'.
    apply wp_bind. unfold SendPacket. destruct (contents _); [done|].
    apply wp_bind. intros [] _. exists (holding_session h'). split; [apply on_session_ok|].
    by apply IH.
Qed.

Lemma follows_Write bufs offset : follows (discard (Write procs bufs offset)) idle.
Proof.
  apply wpl_running. intros g Hg. apply wp_bind. destruct g as [i o h s].
  destruct Hg as (Hi & Hs & _). simpl in *. subst.
  intros [] _; eexists; (split; [reflexivity|]); [done|].
  apply wpl_write_loop. split; [done|]. split; [done|]. intros _. cbn. apply orb_true_r.
Qed.

Lemma follows_Close : follows (discard (Close procs t)) idle.
Proof.
  apply wp_bind, wp_bind. intros [] _; eexists; (split; [reflexivity|]); [|done].
  cbn [wp]. apply wp_bind. unfold close_body.
  apply wp_bind. intros [] _. eexists. split; [reflexivity|]. cbn [wp].
  apply wp_bind. intros [] _. eexists. split; [reflexivity|]. cbn [wp].
  apply wp_bind. intros [] _. eexists. split; [reflexivity|]. cbn [wp].
  apply wp_bind. intros h _. eexists. split; [reflexivity|]. cbn [wp]. apply wp_bind.
  assert (forall g : local, l_in g = false -> l_open g = false ->
    (l_stage g = Some Ended \/ l_stage g = Some Waited /\ l_handle g = Some 0) ->
    wpl (let! a := invoke AdapterHandle in
         let! h' := Adapter_Close procs a in
         if decide (a = 0) then Ret tt else invoke (SetAdapterHandle h'))
      (fun _ g => follows (do! invoke OnceEnd in Ret tt) g) g) as Hadapter.
  { intros [i o hd s] Hi Ho Hs. cbn [l_in l_open l_stage l_handle] in *. subst. apply wp_bind. intros a _.
    exists (mkLocal false false (Some a) (Some Adapting)). split.
    { destruct Hs as [->|[-> ->]]; cbn; [done|by rewrite decide_True]. }
    cbn [wp]. apply wp_bind. unfold Adapter_Close. destruct (decide (a = 0)) as [->|Ha].
    - intros [] _. eexists. split; [reflexivity|]. done.
    - intros [] _. exists (mkLocal false false None (Some Closing)).
      split; [cbn; by rewrite decide_True|]. intros [] _. eexists. split; [reflexivity|].
      intros [] _. by eexists. }
  unfold Session_End. destruct (decide (h = 0)) as [->|Hh].
  - cbn [wp bind]. apply wp_bind. eapply wp_mono; [|by apply Hadapter; auto]. done.
  - intros [] _. exists (mkLocal false false None (Some Ending)).
    split; [cbn; by rewrite decide_True|]. cbn [wp]. intros [] _.
    exists (mkLocal false false None (Some Ended)). split; [done|]. cbn [wp].
    eapply wp_mono; [|by apply Hadapter; auto]. done.
Qed.

Lemma follows_method p : method p -> follows p idle.
Proof.
  destruct 1; [apply follows_Read|apply follows_Write|apply follows_Close].
Qed.

(** ** The invariant *)

Definition entered (gs : list local) : nat := length (filter (fun g => l_in g = true) gs).

Definition alive (w : shared) : Prop :=
  sess_live w = true /\ adap_live w = true /\ sess w = session t /\ adap w = adapter t.

(** The session has ended, the adapter is there. *)
Definition ended (w : shared) : Prop :=
  closed w = true /\ sess_live w = false /\ adap_live w = true /\ adap w = adapter t.

Definition gone (w : shared) : Prop :=
  closed w = true /\ sess_live w = false /\ adap_live w = false.

Definition stage_ok (st : stage) (h : option Z) (w : shared) : Prop :=
  match st with
  | Begun => alive w
  | Stored => alive w /\ closed w = true
  | Waited => alive w /\ closed w = true /\ (forall x, h = Some x -> x = session t)
  | Ending | Ended => ended w
  | Adapting => ended w /\ h = Some (adapter t)
  | Closing | Shut => gone w
  end.

Definition before_wait (st : stage) : bool :=
  match st with Begun | Stored => true | _ => false end.

Definition nobody_open (gs : list local) : Prop := Forall (fun g => l_open g = false) gs.
Definition no_stage (gs : list local) : Prop := Forall (fun g => l_stage g = None) gs.

(** What a goroutine's own state satisfies. *)
Definition local_ok (g : local) : Prop :=
  (l_open g = true -> l_in g = true /\ forall h, l_handle g = Some h -> h = session t) /\
  (l_stage g <> None -> l_in g = false /\ l_open g = false).

Record inv (gs : list local) (w : shared) : Prop := {
  inv_running : running w = entered gs;
  inv_local : Forall local_ok gs;
  inv_once :
    match once w with
    | ONot => alive w /\ no_stage gs
    | ORunning =>
        exists i g st, gs !! i = Some g /\ l_stage g = Some st /\ stage_ok st (l_handle g) w /\
          (forall j g', j <> i -> gs !! j = Some g' -> l_stage g' = None) /\
          (before_wait st = false -> nobody_open gs)
    | ODone => gone w /\ no_stage gs /\ nobody_open gs
    end;
}.

Lemma stage_ok_closed st h w : before_wait st = false -> stage_ok st h w -> closed w = true.
Proof. destruct st; simpl; try done; unfold ended, gone; tauto. Qed.

(** After the wait nobody has the session open, and the flag is set. *)
Lemma inv_session gs w i g :
  inv gs w -> gs !! i = Some g -> l_open g = true -> alive w.
Proof.
  intros [_ _ Ho] Hg Hop. destruct (once w); [apply Ho|..].
  - destruct Ho as (j & gj & st & Hj & Hst & Hok & _ & Hn).
    destruct (before_wait st) eqn:Hb; [destruct st; simpl in *; tauto || done|].
    specialize (Hn eq_refl). unfold nobody_open in Hn. rewrite Forall_lookup in Hn. apply Hn in Hg. congruence.
  - destruct Ho as (_ & _ & Hn). unfold nobody_open in Hn. rewrite Forall_lookup in Hn. apply Hn in Hg. congruence.
Qed.

Lemma entered_insert gs i g g' :
  gs !! i = Some g ->
  (entered (<[i := g']> gs) + (if l_in g then 1 else 0)
   = entered gs + (if l_in g' then 1 else 0))%nat.
Proof.
  unfold entered. revert i. induction gs as [|x gs IH]; intros i; [done|].
  destruct i as [|i]; simpl.
  - intros [= ->]. rewrite !filter_cons. repeat case_decide; simpl;
      repeat match goal with |- context [if ?b then _ else _] => destruct b end; simpl; done || lia.
  - intros Hg. specialize (IH i Hg). rewrite !filter_cons. case_decide; simpl; lia.
Qed.

Lemma entered_app gs g : entered (gs ++ [g]) = (entered gs + if l_in g then 1 else 0)%nat.
Proof.
  unfold entered. rewrite filter_app, length_app, filter_cons, filter_nil.
  repeat case_decide; simpl; destruct (l_in g); done || lia.
Qed.

(** The same world up to the count. *)
Definition same_but_running (w w' : shared) : Prop :=
  closed w' = closed w /\ once w' = once w /\ sess w' = sess w /\ adap w' = adap w /\
  sess_live w' = sess_live w /\ adap_live w' = adap_live w.

Lemma stage_ok_running st h w w' : same_but_running w w' -> stage_ok st h w -> stage_ok st h w'.
Proof.
  intros (Hc & _ & Hs & Ha & Hsl & Hal). unfold stage_ok, alive, ended, gone.
  by rewrite Hc, Hs, Ha, Hsl, Hal.
Qed.

(** A call of a goroutine inside Read or Write, or in none. *)
Lemma inv_user gs w w' i g g' :
  inv gs w -> gs !! i = Some g -> l_stage g = None -> l_stage g' = None -> local_ok g' ->
  (l_open g' = true -> l_open g = true \/ closed w = false) ->
  same_but_running w w' -> running w' = entered (<[i := g']> gs) ->
  inv (<[i := g']> gs) w'.
Proof.
  intros [Hr Hl Ho] Hg Hs Hs' Hlok Hop Hsame Hr'. split; [done|by apply Forall_insert|].
  assert (nobody_open gs -> closed w = true -> nobody_open (<[i := g']> gs)) as Hnobody.
  { intros Hn Hc. apply Forall_insert; [done|]. destruct (l_open g') eqn:Hog; [|done].
    destruct (Hop eq_refl) as [Ho'|]; [|congruence].
    unfold nobody_open in Hn. rewrite Forall_lookup in Hn. apply Hn in Hg. congruence. }
  pose proof Hsame as (Hc & Honce & _). rewrite Honce. destruct (once w) eqn:Hw.
  - destruct Ho as [Ha Hn]. split; [|by apply Forall_insert].
    apply (stage_ok_running Begun None) in Hsame; [exact Hsame|exact Ha].
  - destruct Ho as (j & gj & st & Hj & Hst & Hok & Hu & Hb).
    assert (j <> i) as Hji by (intros ->; congruence). exists j, gj, st.
    split; [by rewrite list_lookup_insert_ne|]. split; [done|].
    split; [by eapply stage_ok_running|]. split.
    + intros k gk Hk. destruct (decide (k = i)) as [->|Hki].
      * rewrite list_lookup_insert_eq by by eapply lookup_lt_Some. by intros [= <-].
      * rewrite list_lookup_insert_ne by done. by apply Hu.
    + intros Hbw. apply Hnobody; [by apply Hb|]. by eapply stage_ok_closed.
  - destruct Ho as (Hgone & Hn & Hnb). split; [|split; [by apply Forall_insert|]].
    + by apply (stage_ok_running Shut None w w').
    + apply Hnobody; [done|apply Hgone].
Qed.

(** A call of the goroutine that runs the body of Close. *)
Lemma inv_owner gs w w' i g g' st st' :
  inv gs w -> gs !! i = Some g -> l_stage g = Some st -> l_stage g' = Some st' ->
  l_in g' = l_in g -> l_open g' = l_open g -> running w' = running w ->
  once w = ORunning -> once w' = ORunning ->
  (stage_ok st (l_handle g) w -> stage_ok st' (l_handle g') w') ->
  (before_wait st' = false -> before_wait st = false \/ running w = 0%nat) ->
  inv (<[i := g']> gs) w'.
Proof.
  intros [Hr Hl Ho] Hg Hs Hs' Hin Hop Hr' Hw Hw' Hok Hbw. rewrite Hw in Ho.
  destruct Ho as (j & gj & stj & Hj & Hst & Hokj & Hu & Hb).
  assert (j = i) as ->.
  { destruct (decide (j = i)) as [|Hne]; [done|]. specialize (Hu i g). rewrite Hu in Hs by done. done. }
  assert (gj = g) as -> by congruence. assert (stj = st) as -> by congruence.
  pose proof Hl as Hl'. rewrite Forall_lookup in Hl'. destruct (Hl' i g Hg) as [_ Hg'].
  destruct (Hg' ltac:(congruence)) as [Hgin Hgop].
  assert (nobody_open gs -> nobody_open (<[i := g']> gs)) as Hnobody.
  { intros Hn. apply Forall_insert; [done|]. congruence. }
  split.
  - rewrite Hr'. pose proof (entered_insert gs i g g' Hg) as He. rewrite Hin, Hgin in He. lia.
  - apply Forall_insert; [done|]. split; [congruence|]. intros _. by rewrite Hin, Hop.
  - rewrite Hw'. exists i, g', st'.
    split; [by apply list_lookup_insert_eq; eapply lookup_lt_Some|]. split; [done|].
    split; [by apply Hok|]. split.
    + intros k gk Hk. rewrite list_lookup_insert_ne by done. by apply Hu.
    + intros Hbw'. apply Hnobody. destruct (Hbw Hbw') as [Hbs|Hz]; [by apply Hb|].
      rewrite Hr in Hz. apply Forall_lookup. intros k gk Hk.
      destruct (l_open gk) eqn:Hok'; [|done]. destruct (Hl' k gk Hk) as [Hk' _].
      destruct (Hk' Hok') as [Hkin _]. unfold entered in Hz. apply length_zero_iff_nil in Hz.
      assert (gk ∈ filter (fun g => l_in g = true) gs) as Hf.
      { apply list_elem_of_filter. split; [done|]. by eapply list_elem_of_lookup_2. }
      rewrite Hz in Hf. by apply elem_of_nil in Hf.
Qed.

(** Only while Close runs is somebody at a stage of it. *)
Lemma inv_stage_once gs w i g st :
  inv gs w -> gs !! i = Some g -> l_stage g = Some st -> once w = ORunning.
Proof.
  intros [_ _ Hi] Hg Hs. destruct (once w) eqn:Ho; [|done|]; exfalso.
  - destruct Hi as [_ Hi]. unfold no_stage in Hi. rewrite Forall_lookup in Hi.
    apply Hi in Hg. congruence.
  - destruct Hi as (_ & Hi & _). unfold no_stage in Hi. rewrite Forall_lookup in Hi.
    apply Hi in Hg. congruence.
Qed.

Lemma inv_stage_ok gs w i g st :
  inv gs w -> gs !! i = Some g -> l_stage g = Some st -> stage_ok st (l_handle g) w.
Proof.
  intros Hinv Hg Hs. pose proof (inv_stage_once _ _ _ _ _ Hinv Hg Hs) as Ho.
  destruct Hinv as [_ _ Hi]. rewrite Ho in Hi. destruct Hi as (j & gj & stj & Hj & Hst & Hok & Hu & _).
  destruct (decide (j = i)) as [->|Hne]; [congruence|].
  specialize (Hu i g). rewrite Hu in Hs; done.
Qed.

Lemma inv_drv gs w i g g' {R} (e : drvE R) :
  inv gs w -> gs !! i = Some g -> local_drv e g = Some g' -> inv (<[i := g']> gs) (serve_drv e w).
Proof.
  intros Hinv Hg Hl.
  assert (forall w', g' = g -> w' = w -> inv (<[i := g']> gs) w') as Hsame
    by (intros w' -> ->; by rewrite list_insert_id).
  destruct w as [n c o s a sl al].
  destruct e; cbn [local_drv serve_drv] in *; unfold on_session in Hl; try case_decide; try done;
    try (apply Hsame; congruence).
  3: { destruct (l_open g); [|done]. apply Hsame; congruence. }
  all: destruct H as [Hst Hh]; apply (inj Some) in Hl; subst g';
    pose proof (inv_stage_once _ _ _ _ _ Hinv Hg Hst) as Ho; simpl in Ho; subst o;
    eapply inv_owner; try done; [|by left].
  - intros ((Hc & Hsl & Hal & Ha) & _). cbn in *. by split_and!.
  - intros ((Hsl & Hal & Hs & Ha) & Hc & _). cbn in *. by split_and!.
Qed.

Lemma inv_cell gs w w' i g g' {R} (e : cellE R) r :
  inv gs w -> gs !! i = Some g -> local_cell e g r = Some g' -> serve_cell e w r = Some w' ->
  inv (<[i := g']> gs) w'.
Proof.
  intros Hinv Hg Hl Hw. pose proof (inv_local _ _ Hinv) as Hlok. rewrite Forall_lookup in Hlok.
  pose proof (Hlok i g Hg) as [Hopen Hstage]. clear Hlok.
  pose proof (inv_session gs w i g Hinv Hg) as Hlive.
  pose proof (inv_running _ _ Hinv) as Hr.
  assert (forall g', (entered (<[i := g']> gs) + (if l_in g then 1 else 0)
                      = entered gs + (if l_in g' then 1 else 0))%nat) as He
    by (intros ?; by apply entered_insert).
  destruct w as [n c o s a sl al]. destruct g as [gi go gh gs'].
  destruct e; cbn [local_cell serve_cell l_in l_open l_handle l_stage running] in *.
  - (* RunningAdd *)
    case_decide as Hd; [|done]. destruct Hd as [-> ->]. injection Hl as <-. injection Hw as <-.
    eapply inv_user; try done. specialize (He (mkLocal true false None None)). simpl in *. lia.
  - (* RunningDone *)
    destruct gi; [|done]. injection Hl as <-. injection Hw as <-.
    assert (gs' = None) as -> by (destruct gs'; [by destruct Hstage|done]).
    eapply inv_user; try done. specialize (He (mkLocal false false None None)). simpl in *. lia.
  - (* RunningWait *)
    destruct gs' as [[]|]; try done. injection Hl as <-. case_decide as Hn; [|done].
    injection Hw as <-. pose proof (inv_stage_once _ _ _ _ _ Hinv Hg eq_refl) as Ho.
    simpl in Ho. subst. eapply inv_owner; try done; [|by right].
    intros [Ha Hc]. by split_and!.
  - (* ClosedLoad *)
    destruct gs'; [done|]. injection Hl as <-. case_decide as Hb; [|done]. injection Hw as <-.
    subst r. eapply inv_user; try done.
    + split; [|done]. cbn. intros Ho. destruct go; cbn in *; [by apply Hopen|].
      apply andb_prop in Ho as [-> _]. by split.
    + cbn. intros Ho. destruct go; [by left|right]. cbn in Ho. apply andb_prop in Ho as [_ Ho].
      by destruct c.
    + specialize (He (mkLocal gi (go || (gi && negb c)) (if go then gh else None) None)).
      cbn in *. lia.
  - (* ClosedStore *)
    destruct gs' as [[]|]; try done. injection Hl as <-. injection Hw as <-.
    pose proof (inv_stage_once _ _ _ _ _ Hinv Hg eq_refl) as Ho. simpl in Ho. subst.
    eapply inv_owner; try done.
  - (* OnceBegin *)
    case_decide as Hd; [|done]. destruct Hd as (-> & -> & ->). injection Hl as <-.
    destruct o, r; try done; injection Hw as <-.
    + destruct Hinv as [_ Hlo [Ha Hn]]. simpl in Ha. split; cbn.
      * specialize (He (mkLocal false false None (Some Begun))). simpl in He, Hr. lia.
      * by apply Forall_insert.
      * exists i, (mkLocal false false None (Some Begun)), Begun.
        split; [by apply list_lookup_insert_eq; eapply lookup_lt_Some|].
        split; [done|]. split; [done|]. split; [|done].
        intros j g' Hj. rewrite list_lookup_insert_ne by done. unfold no_stage in Hn.
        rewrite Forall_lookup in Hn. apply Hn.
    + eapply inv_user; try done. specialize (He (mkLocal false false None None)). simpl in *. lia.
  - (* OnceEnd *)
    assert (exists st, gs' = Some st /\ g' = mkLocal gi go None None /\
              (st = Shut \/ st = Adapting /\ gh = Some 0)) as (st & -> & -> & Hst).
    { destruct gs' as [[]|]; try done.
      - case_decide; [|done]. injection Hl as <-. eauto 10.
      - injection Hl as <-. eauto 10. }
    clear Hl. injection Hw as <-. pose proof (inv_stage_once _ _ _ _ _ Hinv Hg eq_refl) as Ho.
    pose proof (inv_stage_ok _ _ _ _ _ Hinv Hg eq_refl) as Hok. simpl in Ho, Hok. subst o.
    destruct (Hstage ltac:(done)) as [-> ->]. destruct Hinv as [_ Hlo Hi].
    destruct Hi as (j & gj & stj & Hj & Hsj & _ & Hu & Hb).
    assert (j = i) as ->.
    { destruct (decide (j = i)) as [|Hne]; [done|]. by specialize (Hu i _ ltac:(done) Hg). }
    assert (gj = mkLocal false false gh (Some st)) as -> by congruence.
    assert (stj = st) as -> by (simpl in Hsj; congruence).
    split; cbn.
    + specialize (He (mkLocal false false None None)). simpl in He, Hr. lia.
    + by apply Forall_insert.
    + split; [|split].
      * destruct Hst as [->|[-> ->]]; [exact Hok|]. destruct Hok as [_ Hok]. exfalso.
        injection Hok as Hok. by apply adapter_nonzero.
      * apply Forall_lookup. intros k gk Hk. destruct (decide (k = i)) as [->|Hki].
        -- rewrite list_lookup_insert_eq in Hk by (by eapply lookup_lt_Some). by injection Hk as <-.
        -- rewrite list_lookup_insert_ne in Hk by done. by apply (Hu k).
      * apply Forall_insert; [|done]. apply Hb. by destruct Hst as [->|[-> _]].
  - (* SessionHandle *)
    case_decide as Hh; [|done]. injection Hw as <-. subst r. destruct go.
    + injection Hl as <-. destruct (Hlive eq_refl) as (_ & _ & Hs & _). cbn in Hs. subst s.
      destruct (Hopen eq_refl) as [-> _].
      assert (gs' = None) as -> by (destruct gs'; [by destruct Hstage|done]).
      eapply inv_user; try done.
      * split; [|done]. cbn. intros _. split; [done|]. by intros ? [= <-].
      * by left.
      * specialize (He (mkLocal true true (Some (session t)) None)). simpl in *. lia.
    + destruct gs' as [[]|]; try done. injection Hl as <-.
      pose proof (inv_stage_once _ _ _ _ _ Hinv Hg eq_refl) as Ho. simpl in Ho. subst.
      eapply inv_owner; try done; [|by left]. intros (Ha & Hc & _). split; [done|].
      split; [done|]. intros x [= <-]. apply Ha.
  - (* SetSessionHandle *)
    destruct gs' as [[]|]; try done. case_decide; [|done]. injection Hl as <-. injection Hw as <-.
    pose proof (inv_stage_once _ _ _ _ _ Hinv Hg eq_refl) as Ho. simpl in Ho. subst.
    eapply inv_owner; try done. by left.
  - (* AdapterHandle *)
    case_decide as Hh; [|done]. injection Hw as <-. subst r.
    destruct gs' as [[]|]; try done;
      pose proof (inv_stage_ok _ _ _ _ _ Hinv Hg eq_refl) as Hok;
      pose proof (inv_stage_once _ _ _ _ _ Hinv Hg eq_refl) as Ho; simpl in Ho; subst o.
    + case_decide as Hz; [|done]. exfalso. destruct Hok as (_ & _ & Hok).
      by apply session_nonzero; symmetry; apply Hok.
    + injection Hl as <-. eapply inv_owner; try done; [|by left].
      intros Hend. split; [done|]. destruct Hend as (_ & _ & _ & Ha). cbn in *. by rewrite Ha.
  - (* SetAdapterHandle *)
    destruct gs' as [[]|]; try done. injection Hl as <-. injection Hw as <-.
    pose proof (inv_stage_once _ _ _ _ _ Hinv Hg eq_refl) as Ho. simpl in Ho. subst.
    eapply inv_owner; try done. by left.
Qed.

Lemma inv_step gs w w' i g g' {R} (e : devE R) r :
  inv gs w -> gs !! i = Some g -> local_step _ e r g = Some g' -> serve e r w = Some w' ->
  inv (<[i := g']> gs) w'.
Proof.
  destruct e as [R e|R e]; intros Hinv Hg Hl Hw; cbn in *.
  - injection Hw as <-. by eapply inv_drv.
  - by eapply inv_cell.
Qed.

(** ** Every interleaving *)

(** Some state of every goroutine explains the system. *)
Definition explained (x : system) : Prop :=
  exists gs, Forall2 (fun p g => follows p g) (threads x) gs /\ inv gs (world x).

Lemma explained_initial : explained initial.
Proof. exists []. split; [constructor|]. by split; [| |split; [|constructor]]. Qed.

Lemma explained_step x y : explained x -> sys_step x y -> explained y.
Proof.
  intros (gs & Hf & Hinv) Hs. destruct Hs as [p ts w Hp|i R e k r ts w w' Hi Hw]; cbn in *.
  - exists (gs ++ [idle]). split; [apply Forall2_app; [done|]; constructor; [|constructor]|].
    + by apply follows_method.
    + destruct Hinv as [Hr Hl Ho]. split; cbn.
      * rewrite entered_app. simpl. lia.
      * apply Forall_app. split; [done|]. by repeat constructor.
      * destruct (once w).
        -- destruct Ho as [Ha Hn]. split; [done|]. apply Forall_app. by split; [|repeat constructor].
        -- destruct Ho as (j & gj & st & Hj & Hst & Hok & Hu & Hb). exists j, gj, st.
           split; [by apply lookup_app_l_Some|]. split; [done|]. split; [done|]. split.
           ++ intros k gk Hk Hgk. apply lookup_app_Some in Hgk as [Hgk|[_ Hgk]]; [by apply (Hu k)|].
              apply list_lookup_singleton_Some in Hgk as [_ <-]. done.
           ++ intros Hbw. apply Forall_app. split; [by apply Hb|by repeat constructor].
        -- destruct Ho as (Hg & Hn & Hb).
           split; [done|split; apply Forall_app; by split; [|repeat constructor]].
  - destruct (Forall2_lookup_l _ _ _ _ _ Hf Hi) as (g & Hg & Hp).
    destruct (Hp r I) as (g' & Hl & Hk). exists (<[i := g']> gs). split.
    + by apply Forall2_insert.
    + by eapply inv_step.
Qed.

(** The call [e] may be made in [w]: calls on the session find it alive, it is
    ended alive, and the adapter is closed alive after it. *)
Definition allowed {R} (e : devE R) (w : shared) : Prop :=
  match e with
  | Drv e =>
      match e with
      | ReceivePacket_ _ h | ReleaseReceivePacket_ _ h _ | AllocateSendPacket_ _ h _
      | SendPacket_ _ h _ _ => sess_live w = true /\ h = session t
      | WaitForSingleObject _ | SetEvent _ => sess_live w = true
      | EndSession_ _ h => sess_live w = true /\ h = session t
      | CloseAdapter_ _ h => sess_live w = false /\ adap_live w = true /\ h = adapter t
      | _ => True
      end
  | Cell _ => True
  end.

Lemma inv_allowed gs w i g g' {R} (e : devE R) r :
  inv gs w -> gs !! i = Some g -> local_step _ e r g = Some g' -> allowed e w.
Proof.
  intros Hinv Hg Hl. pose proof (inv_local _ _ Hinv) as Hlok. rewrite Forall_lookup in Hlok.
  destruct (Hlok i g Hg) as [Hopen _].
  assert (forall h, on_session h g = Some g' -> sess_live w = true /\ h = session t) as Hsession.
  { intros h Hh. unfold on_session in Hh. case_decide as Hd; [|done]. destruct Hd as [Ho Hx].
    destruct (inv_session gs w i g Hinv Hg Ho) as [Hs _]. split; [done|]. by apply Hopen. }
  destruct e as [R e|R e]; [|done]. destruct e; cbn in *; try done; try by apply Hsession.
  - (* CloseAdapter *)
    case_decide as Hd; [|done]. destruct Hd as [Hst Hh].
    pose proof (inv_stage_ok _ _ _ _ _ Hinv Hg Hst) as Hok.
    destruct Hok as ((_ & Hs & Ha & _) & He). split; [done|]. split; [done|]. congruence.
  - (* EndSession *)
    case_decide as Hd; [|done]. destruct Hd as [Hst Hh].
    destruct (inv_stage_ok _ _ _ _ _ Hinv Hg Hst) as ((Hs & _) & _ & Hx). split; [done|].
    by apply Hx.
  - (* SetEvent *)
    case_decide as Hd; [|done]. by destruct (inv_stage_ok _ _ _ _ _ Hinv Hg Hd) as ((Hs & _) & _).
  - (* WaitForSingleObject *)
    destruct (l_open g) eqn:Ho; [|done]. by destruct (inv_session gs w i g Hinv Hg Ho).
Qed.

(** C20: however calls of Read, Write and Close interleave, no goroutine ever
    uses the session or waits for its event once it has ended, and Close ends the
    live session and then closes the live adapter: neither is used or released
    after its release. *)
Theorem device_no_use_after_close (x : system) :
  rtc sys_step initial x ->
  forall i R (e : devE R) k r w', threads x !! i = Some (Vis e k) ->
    serve e r (world x) = Some w' -> allowed e (world x).
Proof.
  intros Hr. assert (explained x) as (gs & Hf & Hinv).
  { eapply (rtc_invariant sys_step explained); [apply explained_step|done|apply explained_initial]. }
  intros i R e k r w' Hi _. destruct (Forall2_lookup_l _ _ _ _ _ Hf Hi) as (g & Hg & Hp).
  destruct (Hp r I) as (g' & Hl & _). by eapply inv_allowed.
Qed.
End System.

(** ** At a concrete state *)
Definition sample_read : thread :=
  discard (Read zero_procs true DeviceSample.tun 3 [[0]] [0] 0).

Lemma step_at0 {R} (e : devE R) r x p k w' :
  threads x = [p] -> p = Vis e k -> serve e r (world x) = Some w' ->
  sys_step zero_procs true DeviceSample.tun x (mkSystem [k r] w').
Proof.
  destruct x as [ts w]. cbn. intros -> -> Hw.
  exact (step_run _ _ _ 0%nat R e k r [Vis e k] w w' eq_refl Hw).
Qed.

(** A Read about to receive. *)
Lemma reach_receive : exists k,
  rtc (sys_step zero_procs true DeviceSample.tun) (initial DeviceSample.tun)
    (mkSystem [Vis (Drv (ReceivePacket_ 0 11)) k]
       (mkShared 1 false ONot 11 10 true true)).
Proof.
  eexists.
  eapply rtc_l; [apply (step_call _ _ _ sample_read); constructor|].
  eapply rtc_l; [eapply (step_at0 (Cell RunningAdd) tt); reflexivity|].
  eapply rtc_l; [eapply (step_at0 (Cell ClosedLoad) false); reflexivity|].
  eapply rtc_l; [eapply (step_at0 (Cell ClosedLoad) false); reflexivity|].
  eapply rtc_l; [eapply (step_at0 (Cell SessionHandle) 11); reflexivity|].
  apply rtc_refl.
Qed.

Lemma device_no_use_after_close_witness :
  sess_live (mkShared 1 false ONot 11 10 true true) = true /\ 11 = session DeviceSample.tun.
Proof.
  destruct reach_receive as [k Hr].
  exact (device_no_use_after_close zero_procs true DeviceSample.tun ltac:(done) ltac:(done) _ Hr
           0%nat _ _ k (0, 0%nat, DeviceSample.ring, 259) _ eq_refl eq_refl).
Defined.
