(* ===== verification/DeviceClose.v ===== *)
(** * Close returns (veiltun/device.go)

    Close waits for the goroutines in Read and Write, every other Close waits for
    the first, and a Read without packets waits for the event of the session.
    Here is why nobody waits for ever: Close sets the event after the flag, the
    one Read that may wait for it then sees the flag, and in every state the
    goroutines can reach one of them can go on. *)

From S2P Require Import Prelude IpTypes IpHelper Device DeviceProps DeviceSystem.
From Stdlib Require Import ZArith String Lia Wellfounded.
From stdpp Require Import base list relations strings.
Open Scope Z_scope.
Local Open Scope list_scope.

(** ** Goroutines are finite *)

(** [q] is what is left of [p] after a call. *)
Definition rest_of {E A} (q p : prog E A) : Prop :=
  match p with Ret _ => False | Vis e k => exists r, q = k r end.

(** One of several programs makes a call. *)
Definition one_on {E A} (qs ps : list (prog E A)) : Prop :=
  exists i p q, ps !! i = Some p /\ rest_of q p /\ qs = <[i := q]> ps.

Lemma rest_of_wf {E A} : well_founded (@rest_of E A).
Proof.
  intros p. induction p as [a|R e k IH]; constructor; intros q Hq; [done|]. destruct Hq as [r ->]. apply IH.
Qed.

Lemma one_on_cons {E A} (p : prog E A) ps : Acc rest_of p -> Acc one_on ps -> Acc one_on (p :: ps).
Proof.
  intros Hp. revert ps. induction Hp as [p _ IHp]. intros ps Hps. induction Hps as [ps Hps IHps].
  constructor. intros qs (i & p' & q & Hi & Hq & ->). destruct i as [|i]; cbn in *.
  - injection Hi as <-. apply IHp; [done|]. by constructor.
  - apply IHps. by exists i, p', q.
Qed.

Lemma one_on_wf {E A} : well_founded (@one_on E A).
Proof.
  intros ps. induction ps as [|p ps IH].
  - constructor. intros qs (i & p & q & Hi & _). done.
  - apply one_on_cons; [apply rest_of_wf|done].
Qed.

(** ** The event of the session

    [WaitForSingleObject] with [INFINITE] blocks until the event is set; an event
    that resets itself is taken by the wait.  Which kind the driver made is not in
    the repository: [resets] stands for it. *)
Section Close.
Context (procs : procTable) (canSpin : bool) (t : NativeTun) (resets : bool).
Context (session_nonzero : session t <> 0) (adapter_nonzero : adapter t <> 0).

(** The event [readWait] before and after a call; [None] is a wait that blocks. *)
Definition event_drv {R} (e : drvE R) (set : bool) : option bool :=
  match e with
  | SetEvent h => Some (set || bool_decide (h = readWait t))
  | WaitForSingleObject h =>
      if decide (h = readWait t /\ set = true) then Some (negb resets) else None
  | _ => Some set
  end.

Definition event_call {R} (e : devE R) (set : bool) : option bool :=
  match e with Drv e => event_drv e set | Cell _ => Some set end.

(** The goroutines, the event, and the goroutine that called Read last. *)
Record device : Type := mkDevice {
  sys : system;
  event : bool;
  reader : option nat;
}.

(** A goroutine makes its next call; none starts. *)
Inductive own_step : device -> device -> Prop :=
| own_run i R (e : devE R) k r ts w w' ev ev' rd :
    ts !! i = Some (Vis e k) -> serve e r w = Some w' -> event_call e ev = Some ev' ->
    own_step (mkDevice (mkSystem ts w) ev rd) (mkDevice (mkSystem (<[i := k r]> ts) w') ev' rd).

(** Methods are called, Read by one goroutine at a time ("Read and Write each
    assume a single caller goroutine"), and the driver sets the event when it
    likes. *)
Inductive dev_step : device -> device -> Prop :=
| dev_own x y : own_step x y -> dev_step x y
| dev_read fuel bufs sizes offset ts w ev rd :
    (forall i, rd = Some i -> ts !! i = Some (Ret tt)) ->
    dev_step (mkDevice (mkSystem ts w) ev rd)
      (mkDevice (mkSystem (ts ++ [discard (Read procs canSpin t fuel bufs sizes offset)]) w) ev
         (Some (length ts)))
| dev_write bufs offset ts w ev rd :
    dev_step (mkDevice (mkSystem ts w) ev rd)
      (mkDevice (mkSystem (ts ++ [discard (Write procs bufs offset)]) w) ev rd)
| dev_close ts w ev rd :
    dev_step (mkDevice (mkSystem ts w) ev rd)
      (mkDevice (mkSystem (ts ++ [discard (Close procs t)]) w) ev rd)
| dev_signal x ev rd : dev_step (mkDevice x ev rd) (mkDevice x true rd).

Definition start : device := mkDevice (initial t) false None.

Lemma dev_sys x y :
  dev_step x y -> sys y = sys x \/ sys_step procs canSpin t (sys x) (sys y).
Proof.
  destruct 1 as [x y Hs|fuel bufs sizes offset ts w ev rd _|bufs offset ts w ev rd|ts w ev rd|x ev rd];
    cbn [sys]; [|by right; apply step_call; constructor..|by left].
  destruct Hs. right. by eapply step_run.
Qed.

(** ** Who waits for the event *)

(** What a goroutine is to the event: [Unchecked] and [Checked] in Read, [Checked]
    when it has seen the device open since it last waited; [Woken] in Close once
    the event is set; else [Never]. *)
Inductive role : Type := Never | Woken | Unchecked | Checked.

#[export] Instance role_eq_dec : EqDecision role.
Proof. solve_decision. Defined.

Definition alert_drv {R} (e : drvE R) (g : role) : option role :=
  match e with
  | SetEvent h => if decide (g = Never /\ h = readWait t) then Some Woken else None
  | WaitForSingleObject h =>
      if decide (g = Checked /\ h = readWait t) then Some Unchecked else None
  | _ => Some g
  end.

Definition alert_cell {R} (e : cellE R) (g : role) : R -> option role :=
  match e in cellE R return R -> option role with
  | ClosedLoad => fun b =>
      match g, b with Unchecked, false => Some Checked | _, _ => Some g end
  | RunningWait => fun _ => if decide (g = Woken) then Some Woken else None
  | _ => fun _ => Some g
  end.

Definition alert_step : monitor_step devE role :=
  fun R e r g =>
    match e in devE R return R -> option role with
    | Cell e => alert_cell e g
    | Drv e => fun _ => alert_drv e g
    end r.

Abbreviation wpa p Q g := (wp alert_step any_answer p Q g).
Abbreviation alerts p g := (wpa p (fun _ _ => True) g).

Definition reads (g : role) : Prop := g = Unchecked \/ g = Checked.

(** A call that does not concern the event. *)
Ltac other_call := apply wp_bind; intros ? _; eexists; (split; [reflexivity|]); cbn [wp].

Lemma alert_take_packet offset s h pk g :
  reads g -> wpa (take_packet procs offset s h pk) (fun _ g => reads g) g.
Proof.
  intros Hg. unfold take_packet. destruct (_ ≫= _); [|done]. cbv zeta.
  destruct (decide _); [|done]. apply wp_bind. unfold ReleaseReceivePacket.
  destruct (contents pk); [done|]. other_call. done.
Qed.

Lemma alert_poll_again s : wpa (poll_again canSpin t s) (fun _ g => reads g) Checked.
Proof.
  assert (wpa (do! invoke (WaitForSingleObject (readWait t)) in
               Ret (inl (AtRetry (rd_bufs s) (rd_sizes s)) : phase + finished))
            (fun _ g => reads g) Checked) as Hwait.
  { apply wp_bind. intros ? _. exists Unchecked. split; [cbn; by rewrite decide_True|by left]. }
  unfold poll_again. destruct (decide _); [by right|].
  destruct canSpin; [destruct (spin s) as [d|]|done]; other_call.
  - destruct (decide _); [done|]. other_call. by right.
  - other_call. by right.
Qed.

Lemma alert_read_step offset ph g :
  reads g -> wpa (read_step procs canSpin t offset ph) (fun _ g => reads g) g.
Proof.
  intros Hg. destruct ph as [bufs sizes|s]; cbn [read_step].
  - apply wp_bind. intros b _. exists (if b then g else Checked).
    split; [by destruct Hg as [-> | ->], b|]. destruct b; [done|by right].
  - destruct (decide _); [|done]. apply wp_bind. intros b _.
    exists (if b then g else Checked). split; [by destruct Hg as [-> | ->], b|].
    cbn [wp]. destruct b; [done|]. other_call. apply wp_bind, wp_bind.
    intros [[[r0 size] m] e1] _. eexists. split; [reflexivity|]. cbn [wp].
    destruct (decide (r0 = 0)); cbn [wp].
    + destruct (decide _); [apply alert_poll_again|]. destruct (decide _); by right.
    + other_call. apply alert_take_packet. by right.
Qed.

Lemma alerts_Read fuel bufs sizes offset :
  alerts (discard (Read procs canSpin t fuel bufs sizes offset)) Unchecked.
Proof.
  assert (forall fuel ph g, reads g ->
    wpa (read_loop procs canSpin t fuel offset ph) (fun _ g => reads g) g) as Hloop.
  { intros n. induction n as [|n IH]; intros ph g Hg; cbn [read_loop]; [done|].
    apply wp_bind. eapply wp_mono; [|by apply alert_read_step]. intros [ph'|r] g' Hg'; [by apply IH|done]. }
  apply wp_bind. unfold Read. other_call. apply wp_bind.
  eapply wp_mono; [|apply Hloop; by left]. intros a g Hg. other_call. done.
Qed.

Lemma alerts_Write bufs offset : alerts (discard (Write procs bufs offset)) Never.
Proof.
  assert (forall total bufs i,
    wpa (write_loop procs total i bufs offset) (fun _ g => g = Never) Never) as Hloop.
  { intros total bs. induction bs as [|b bs IH]; intros i; cbn [write_loop]; [done|].
    cbv zeta. destruct (decide _); [apply IH|]. other_call. apply wp_bind, wp_bind.
    intros [[r0 m] e1] _. eexists. split; [reflexivity|]. cbn [wp].
    destruct (decide (r0 = 0)); cbn [wp].
    - destruct (decide _); [apply IH|]. by destruct (decide _).
    - destruct (slice_at offset b); [|done]. other_call. apply wp_bind. unfold SendPacket.
      destruct (contents _); [done|]. other_call. apply IH. }
  apply wp_bind. unfold Write. other_call. apply wp_bind. other_call.
  match goal with |- context [if ?b then _ else _] => destruct b end; cbn [wp].
  - by other_call.
  - eapply wp_mono; [|apply Hloop]. intros a g ->. by other_call.
Qed.

Ltac woken_tac := try (cbn; rewrite decide_True by done).

Lemma alerts_Close : alerts (discard (Close procs t)) Never.
Proof.
  unfold discard, Close, close_body, Session_End, Adapter_Close.
  wp_go woken_tac; done.
Qed.

(** ** The event is there when it is needed *)

(** Once Close has set the event, it is set or nobody will wait for it again. *)
Record alert (gs : list role) (x : device) : Prop := {
  alert_threads : Forall2 (fun p g => alerts p g) (threads (sys x)) gs;
  alert_reader : forall i g, gs !! i = Some g -> reads g -> reader x = Some i;
  alert_woken : forall i, gs !! i = Some Woken ->
    closed (world (sys x)) = true /\
    (event x = true \/ forall j, gs !! j <> Some Checked);
}.

Lemma alert_step_reads {R} (e : devE R) r g g' : alert_step _ e r g = Some g' -> reads g' -> reads g.
Proof.
  intros Hs Hr. destruct e as [R e|R e]; destruct e; cbn in Hs; try case_decide; try done;
    try (by injection Hs as <-).
  - injection Hs as <-. by destruct Hr.
  - destruct H as [-> _]. by right.
  - injection Hs as <-. by destruct Hr.
  - destruct g, r; injection Hs as <-; done || (by left) || by right.
Qed.

(** What a call does to the event and to the role of its goroutine. *)
Lemma alert_change {R} (e : devE R) r g g' ev ev' w w' :
  alert_step _ e r g = Some g' -> event_call e ev = Some ev' -> serve e r w = Some w' ->
  (closed w = true -> closed w' = true) /\
  ((g' = g /\ ev' = ev) \/
   (g' = Woken /\ ev' = true /\ w' = w /\
    forall l l', local_step _ e r l = Some l' -> l_stage l = Some Stored) \/
   (g = Checked /\ g' = Unchecked) \/
   (g' = Checked /\ closed w = false)).
Proof.
  intros Hg He Hw. destruct w as [n c o s a sl al].
  destruct e as [R e|R e]; destruct e; cbn in Hg, He, Hw; repeat case_decide; destruct_and?;
    simplify_eq; try (by split; [|left]).
  - split; [done|right; left]. split_and!; try done; [by rewrite bool_decide_true, orb_true_r|].
    intros l l' Hl. cbn in Hl. by case_decide.
  - split; [done|]. right; right; by left.
  - split; [done|]. destruct g, c; simplify_eq; try (by left); right; right; by right.
  - destruct o, r; simplify_eq; by split; [|left].
Qed.

Lemma alert_own x y gs :
  explained t (sys x) -> alert gs x -> own_step x y -> exists gs', alert gs' y.
Proof.
  intros (ls & Hls & Hinv) [Ht Hr Hw] Hs.
  destruct Hs as [i R e k r ts w w' ev ev' rd Hi Hsv Hev]; cbn [sys event reader threads world] in *.
  destruct (Forall2_lookup_l _ _ _ _ _ Ht Hi) as (g & Hg & Hp).
  destruct (Hp r I) as (g' & Hstep & Hk).
  destruct (alert_change _ _ _ _ _ _ _ _ Hstep Hev Hsv) as [Hcl Hcase].
  assert (i < length gs)%nat as Hlt by (by eapply lookup_lt_Some).
  assert (forall j h, <[i := g']> gs !! j = Some h -> (j = i /\ h = g') \/ (j <> i /\ gs !! j = Some h))
    as Hat.
  { intros j h Hj. destruct (decide (j = i)) as [->|Hne].
    - rewrite list_lookup_insert_eq in Hj by done. injection Hj as <-. by left.
    - rewrite list_lookup_insert_ne in Hj by done. by right. }
  exists (<[i := g']> gs). split; cbn [sys event reader threads world].
  - by apply Forall2_insert.
  - intros j h Hj Hh. destruct (Hat j h Hj) as [[-> ->]|[_ Hj']]; [|by eapply Hr].
    apply (Hr i g Hg). by eapply alert_step_reads.
  - intros j Hj. destruct Hcase as [[-> ->]|[(-> & -> & -> & Hst)|[[-> ->]|[-> Hopen]]]].
    + rewrite list_insert_id in Hj |- * by done. destruct (Hw j Hj) as [Hc He]. auto.
    + split; [|by left]. destruct (Forall2_lookup_l _ _ _ _ _ Hls Hi) as (l & Hl & Hpl).
      destruct (Hpl r I) as (l' & Hl' & _).
      by destruct (inv_stage_ok _ _ _ _ _ _ Hinv Hl (Hst l l' Hl')) as [_ Hc].
    + destruct (Hat j _ Hj) as [[_ ?]|[_ Hj']]; [done|]. destruct (Hw j Hj') as [Hc _].
      split; [auto|]. right. intros m Hm. destruct (Hat m _ Hm) as [[_ ?]|[Hne Hm']]; [done|].
      pose proof (Hr i _ Hg (or_intror eq_refl)). pose proof (Hr m _ Hm' (or_intror eq_refl)).
      congruence.
    + exfalso. destruct (Hat j _ Hj) as [[_ ?]|[_ Hj']]; [done|]. destruct (Hw j Hj') as [Hc _].
      congruence.
Qed.

(** A goroutine that starts. *)
Lemma alert_call p g gs ts w ev rd rd' :
  alerts p g -> g <> Checked -> g <> Woken ->
  (forall i h, gs !! i = Some h -> reads h -> rd' = Some i) ->
  (reads g -> rd' = Some (length gs)) ->
  alert gs (mkDevice (mkSystem ts w) ev rd) ->
  alert (gs ++ [g]) (mkDevice (mkSystem (ts ++ [p]) w) ev rd').
Proof.
  intros Hp Hnc Hnw Hold Hnew [Ht _ Hw]. cbn [sys event reader threads world] in *.
  assert (forall j h, (gs ++ [g]) !! j = Some h -> gs !! j = Some h \/ (j = length gs /\ h = g)) as Hat.
  { intros j h [Hj|[Hj Hh]]%lookup_app_Some; [by left|right].
    apply list_lookup_singleton_Some in Hh as [? <-]. split; [lia|done]. }
  split; cbn [sys event reader threads world].
  - apply Forall2_app; [done|]. by constructor.
  - intros j h Hj Hh. destruct (Hat j h Hj) as [Hj'|[-> ->]]; [by eapply Hold|by apply Hnew].
  - intros j Hj. destruct (Hat j _ Hj) as [Hj'|[_ ?]]; [|congruence].
    destruct (Hw j Hj') as [Hc He]. split; [done|]. destruct He as [He|He]; [by left|right].
    intros m Hm. destruct (Hat m _ Hm) as [Hm'|[_ ?]]; [by apply (He m)|congruence].
Qed.

(** A Read that returned reads no more. *)
Definition retire (g : role) : role := match g with Unchecked | Checked => Never | g => g end.

Lemma alert_retired gs x :
  alert gs x -> (forall i, reader x = Some i -> threads (sys x) !! i = Some (Ret tt)) ->
  alert (map retire gs) x /\ (forall i h, map retire gs !! i = Some h -> ~ reads h).
Proof.
  intros [Ht Hr Hw] Hdone.
  assert (forall i h, map retire gs !! i = Some h -> exists g, gs !! i = Some g /\ h = retire g) as Hat.
  { intros i h Hi. apply list_lookup_fmap_Some in Hi as (g & -> & Hg). eauto. }
  assert (forall i h, map retire gs !! i = Some h -> ~ reads h) as Hno.
  { intros i h Hi Hh. apply Hat in Hi as (g & _ & ->). by destruct g, Hh. }
  split; [split|exact Hno].
  - apply Forall2_lookup. intros i. rewrite list_lookup_fmap. rewrite Forall2_lookup in Ht.
    specialize (Ht i). destruct (threads (sys x) !! i) as [p|] eqn:Hp,
      (gs !! i) as [g|] eqn:Hg; inversion Ht as [? ? Hpg|]; subst; constructor.
    assert (reads g -> p = Ret tt) as Hread.
    { intros Hgr. specialize (Hdone i (Hr i g Hg Hgr)). congruence. }
    destruct g; try exact Hpg; rewrite Hread by (first [by left|by right]); done.
  - intros i h Hi Hh. by destruct (Hno i h Hi).
  - intros i Hi. apply Hat in Hi as (g & Hg & Hgr).
    assert (g = Woken) as -> by (by destruct g). destruct (Hw i Hg) as [Hc He].
    split; [done|]. right. intros j Hj. by apply (Hno j _ Hj); right.
Qed.

Definition watched (x : device) : Prop := explained t (sys x) /\ exists gs, alert gs x.

Lemma watched_start : watched start.
Proof. split; [apply explained_initial|]. exists []. by split. Qed.

Lemma watched_step x y : watched x -> dev_step x y -> watched y.
Proof.
  intros [Hx [gs Ha]] Hs. split.
  { destruct (dev_sys x y Hs) as [->|Hsys]; [done|]. by eapply explained_step. }
  destruct Hs as [x y Hs|fuel bufs sizes offset ts w ev rd Hdone|bufs offset ts w ev rd|ts w ev rd
    |x ev rd].
  - by eapply alert_own.
  - destruct (alert_retired gs _ Ha Hdone) as [Ha' Hno]. eexists.
    eapply (alert_call _ Unchecked); [apply alerts_Read|done|done| | |exact Ha'].
    + intros i h Hi Hh. by destruct (Hno i h Hi).
    + intros _. rewrite length_map. pose proof (Forall2_length _ _ _ (alert_threads _ _ Ha)) as Hl.
      cbn in Hl. by rewrite Hl.
  - eexists. eapply (alert_call _ Never); [apply alerts_Write|done|done| | |exact Ha].
    + apply (alert_reader _ _ Ha).
    + by intros [].
  - eexists. eapply (alert_call _ Never); [apply alerts_Close|done|done| | |exact Ha].
    + apply (alert_reader _ _ Ha).
    + by intros [].
  - exists gs. destruct Ha as [Ht Hr Hw]. split; [done|done|]. intros i Hi.
    destruct (Hw i Hi) as [Hc _]. split; [done|by left].
Qed.

(** ** Which calls wait *)

Definition waits_cell {R} (e : cellE R) : bool :=
  match e with RunningWait | OnceBegin => true | _ => false end.

Definition waits_drv {R} (e : drvE R) : bool :=
  match e with WaitForSingleObject _ => true | _ => false end.

Definition waits {R} (e : devE R) : bool :=
  match e with Drv e => waits_drv e | Cell e => waits_cell e end.

(** A goroutine that has no call, or one that waits. *)
Definition stuck (p : thread) : bool := match p with Ret _ => true | Vis e _ => waits e end.

(** Every other call is answered at once. *)
Lemma not_waiting {R} (e : devE R) w ev :
  waits e = false -> exists r w' ev', serve e r w = Some w' /\ event_call e ev = Some ev'.
Proof.
  intros He. destruct w as [n c o s a sl al]. destruct e as [R e|R e].
  - assert (exists r : R, True) as [r _].
    { destruct e; first [by exists (Err ErrClosed)|by exists tt|by exists 0|by exists (0, 0)|idtac].
      - by exists (0, 0%nat, (fun _ => 0), 0).
      - by exists (0, (fun _ => 0), 0). }
    exists r. destruct e; try done; by do 2 eexists.
  - destruct e; try done; cbn;
      first [by exists tt; do 2 eexists
            |by exists c; rewrite decide_True by done; do 2 eexists
            |by exists s; rewrite decide_True by done; do 2 eexists
            |by exists a; rewrite decide_True by done; do 2 eexists].
Qed.

Definition at_event (p : thread) : bool :=
  match p with Vis (Drv e) _ => waits_drv e | _ => false end.

Lemma at_event_inv p : at_event p = true -> exists h k, p = Vis (Drv (WaitForSingleObject h)) k.
Proof.
  destruct p as [|R e k]; [done|]. destruct e as [R e|R e]; [|done]. destruct e; try done. eauto.
Qed.

Abbreviation explains gs x :=
  (Forall2 (fun p g => wp local_step any_answer p (fun _ g' => out g') g) (threads x) gs /\
   inv t gs (world x)).

(** A goroutine at [OnceBegin] or [RunningWait] is in neither Read nor Write, and
    at the latter it is the one that runs the body of Close; one that waits for
    the event is in Read. *)
Lemma stuck_local gs x i p g :
  explains gs x -> threads x !! i = Some p -> gs !! i = Some g -> stuck p = true ->
  if at_event p then l_open g = true
  else l_in g = false /\ (l_stage g <> None -> exists k, p = Vis (Cell RunningWait) k).
Proof.
  intros [Hf Hinv] Hp Hg Hs. pose proof (Forall2_lookup_lr _ _ _ _ _ _ Hf Hp Hg) as Hw. cbn in Hw.
  destruct p as [[]|R e k]; [destruct Hw as [Hi Hst]; split; [done|congruence]|].
  pose proof (inv_local _ _ _ Hinv) as Hl. rewrite Forall_lookup in Hl. destruct (Hl i g Hg) as [_ Hlg].
  destruct e as [R e|R e]; destruct e; try done; cbn [wp local_step] in Hw.
  - destruct (Hw tt I) as (g' & Hs' & _). cbn in *. by destruct (l_open g).
  - destruct (Hw tt I) as (g' & Hs' & _). destruct g as [gi go gh gs']. cbn in *.
    destruct gs' as [[]|]; try done. split; [by apply Hlg|]. by eexists.
  - destruct (Hw true I) as (g' & Hs' & _). destruct g as [gi go gh gs']. cbn in *.
    case_decide as Hd; [|done]. destruct Hd as (-> & _ & ->). by split.
Qed.

(** When all wait, and none of them for the event, nobody is inside Read or
    Write. *)
Lemma stuck_nobody_in gs x :
  explains gs x -> forallb stuck (threads x) = true -> existsb at_event (threads x) = false ->
  running (world x) = 0%nat.
Proof.
  intros Hx Hs He. pose proof Hx as [Hf Hinv]. rewrite (inv_running _ _ _ Hinv). unfold entered.
  apply length_zero_iff_nil. apply filter_none, Forall_lookup. intros i g Hg Hin.
  destruct (Forall2_lookup_r _ _ _ _ _ Hf Hg) as (p & Hp & _).
  assert (p ∈ threads x) as Hpin by (by eapply list_elem_of_lookup_2).
  pose proof (stuck_local gs x i p g Hx Hp Hg ltac:(by eapply forallb_elem)) as Hl.
  destruct (at_event p) eqn:Hat; [|destruct Hl; congruence].
  assert (existsb at_event (threads x) = true) by (apply existsb_exists; exists p;
    split; [by apply list_elem_of_In|done]). congruence.
Qed.

(** The goroutine that runs the body of Close, when all wait. *)
Lemma stuck_closer gs x :
  explains gs x -> forallb stuck (threads x) = true -> once (world x) = ORunning ->
  exists j k, threads x !! j = Some (Vis (Cell RunningWait) k).
Proof.
  intros Hx Hs Ho. pose proof Hx as [Hf Hinv]. pose proof (inv_once _ _ _ Hinv) as Hio.
  rewrite Ho in Hio. destruct Hio as (j & g & st & Hg & Hst & _).
  destruct (Forall2_lookup_r _ _ _ _ _ Hf Hg) as (q & Hq & _).
  assert (stuck q = true) as Hsq by (eapply forallb_elem; [done|by eapply list_elem_of_lookup_2]).
  pose proof (stuck_local gs x j q g Hx Hq Hg Hsq) as Hl.
  pose proof (inv_local _ _ _ Hinv) as Hlo. rewrite Forall_lookup in Hlo.
  destruct (Hlo j g Hg) as [_ Hlg]. destruct Hlg as [_ Hop]; [congruence|].
  destruct (at_event q); [congruence|]. destruct Hl as [_ Hl].
  destruct Hl as [k ->]; [congruence|]. by exists j, k.
Qed.

(** Once a Close has begun, a Read that waits for the event finds it set when
    nobody else can go on. *)
Lemma event_set x j h k :
  watched x -> once (world (sys x)) <> ONot -> forallb stuck (threads (sys x)) = true ->
  threads (sys x) !! j = Some (Vis (Drv (WaitForSingleObject h)) k) ->
  h = readWait t /\ event x = true.
Proof.
  intros [[gs Hx] [rs Ha]] Ho Hs Hj. pose proof Hx as [Hf Hinv].
  destruct (Forall2_lookup_l _ _ _ _ _ Hf Hj) as (g & Hg & _).
  pose proof (stuck_local gs _ j _ g Hx Hj Hg eq_refl) as Hop. cbn in Hop.
  destruct (Forall2_lookup_l _ _ _ _ _ (alert_threads _ _ Ha) Hj) as (r & Hr & Hp).
  assert (r = Checked /\ h = readWait t) as [-> ->].
  { destruct (Hp tt I) as (r' & Hs' & _). cbn in Hs'. by case_decide. }
  split; [done|].
  assert (once (world (sys x)) = ORunning) as Hrun.
  { destruct (once (world (sys x))) eqn:Heq; [done..|]. exfalso.
    pose proof (inv_once _ _ _ Hinv) as Hio. rewrite Heq in Hio. destruct Hio as (_ & _ & Hn).
    unfold nobody_open in Hn. rewrite Forall_lookup in Hn. specialize (Hn _ _ Hg). congruence. }
  destruct (stuck_closer gs _ Hx Hs Hrun) as (i & k' & Hi).
  destruct (Forall2_lookup_l _ _ _ _ _ (alert_threads _ _ Ha) Hi) as (r & Hri & Hpi).
  assert (r = Woken) as ->.
  { destruct (Hpi tt I) as (r' & Hs' & _). cbn in Hs'. by case_decide. }
  destruct (alert_woken _ _ Ha i Hri) as [_ [He|Hno]]; [done|]. by apply Hno in Hr.
Qed.

Lemma goes_on x i p :
  watched x -> once (world (sys x)) <> ONot -> threads (sys x) !! i = Some p -> p <> Ret tt ->
  exists y, own_step x y.
Proof.
  intros Hx Ho Hp Hne. destruct (forallb stuck (threads (sys x))) eqn:Hs.
  2:{ apply forallb_false_elem in Hs as (q & Hq & Hqs). apply list_elem_of_lookup in Hq as [j Hj].
      destruct x as [[ts w] ev rd]. cbn in *.
      destruct q as [a|R e k]; [done|]. destruct (not_waiting e w ev Hqs) as (r & w' & ev' & Hw & He).
      eexists. by eapply own_run. }
  destruct (existsb at_event (threads (sys x))) eqn:He.
  - apply existsb_exists in He as (q & Hq & Hat). apply at_event_inv in Hat as (h & k & ->).
    apply list_elem_of_In, list_elem_of_lookup in Hq as [j Hj].
    destruct (event_set x j h k Hx Ho Hs Hj) as [-> Hev]. destruct x as [[ts w] ev rd]. cbn in *.
    eexists. eapply (own_run j _ _ k tt ts w w); [done|by destruct w|]. cbn. by rewrite decide_True.
  - destruct Hx as [[gs Hx] _]. pose proof (stuck_nobody_in gs _ Hx Hs He) as Hn.
    assert (forall j k, threads (sys x) !! j = Some (Vis (Cell RunningWait) k) ->
              exists y, own_step x y) as Hwait.
    { intros j k Hj. destruct x as [[ts w] ev rd]. cbn in *. eexists.
      eapply (own_run j _ _ k tt ts w w); [done| |done]. destruct w. cbn in *. by rewrite decide_True. }
    destruct (once (world (sys x))) eqn:Honce; [done|..].
    + destruct (stuck_closer gs _ Hx Hs Honce) as (j & k & Hj). by eapply Hwait.
    + assert (stuck p = true) as Hsp.
      { eapply forallb_elem; [exact Hs|]. by eapply list_elem_of_lookup_2. }
      assert (at_event p = false) as Hat.
      { destruct (at_event p) eqn:Hat; [|done]. assert (existsb at_event (threads (sys x)) = true);
          [|congruence]. apply existsb_exists. exists p. split; [|done].
        apply list_elem_of_In. by eapply list_elem_of_lookup_2. }
      destruct p as [[]|R e k]; [done|]. destruct e as [R e|R e]; [cbn in *; congruence|].
      destruct e; try done; [by eapply Hwait|].
      destruct x as [[ts w] ev rd]. cbn in *. eexists.
      eapply (own_run i _ _ k false ts w w); [done| |done]. destruct w. cbn in *. by rewrite Honce.
Qed.

(** The body of Close runs once and is not undone. *)
Lemma own_step_begun x y :
  once (world (sys x)) <> ONot -> own_step x y -> once (world (sys y)) <> ONot.
Proof.
  intros Ho Hs. destruct Hs as [i R e k r ts w w' ev ev' rd _ Hw _]. cbn [sys world] in *.
  destruct w as [n c o s a sl al].
  destruct e as [R e|R e]; [destruct e; cbn in Hw; by injection Hw as <-|].
  destruct e; cbn in Hw; try case_decide; try done; try (by injection Hw as <-).
  destruct o, r; try done; by injection Hw as <-.
Qed.

(** Every goroutine has returned, the session has ended and the adapter is
    closed. *)
Definition all_returned (x : device) : Prop :=
  Forall (fun p => p = Ret tt) (threads (sys x)) /\
  running (world (sys x)) = 0%nat /\ once (world (sys x)) = ODone /\
  closed (world (sys x)) = true /\ sess_live (world (sys x)) = false /\
  adap_live (world (sys x)) = false.

Lemma returned x :
  watched x -> once (world (sys x)) <> ONot -> Forall (fun p => p = Ret tt) (threads (sys x)) ->
  all_returned x.
Proof.
  intros [[gs Hx] _] Ho Hall. pose proof Hx as [Hf Hinv].
  assert (forall p, p ∈ threads (sys x) -> stuck p = true /\ at_event p = false) as Hret.
  { intros p Hp. rewrite Forall_forall in Hall. by rewrite (Hall p Hp). }
  assert (forallb stuck (threads (sys x)) = true) as Hs.
  { apply forallb_forall. intros p Hp%list_elem_of_In. by apply Hret. }
  assert (existsb at_event (threads (sys x)) = false) as He.
  { destruct (existsb _ _) eqn:He; [|done]. apply existsb_exists in He as (p & Hp%list_elem_of_In & Hat).
    destruct (Hret p Hp). congruence. }
  split; [done|]. split; [by eapply stuck_nobody_in|].
  pose proof (inv_once _ _ _ Hinv) as Hio. destruct (once (world (sys x))) eqn:Honce; [done| |].
  - destruct (stuck_closer gs _ Hx Hs Honce) as (j & k & Hj).
    rewrite Forall_lookup in Hall. by apply Hall in Hj.
  - destruct Hio as [(Hc & Hsl & Hal) _]. done.
Qed.

(** C21: once a Close has begun, in whatever state the goroutines are - a Read may
    be waiting for the event of the session, whether or not the event resets
    itself - all of them return, in whatever order they go on and whatever the
    driver answers, without any other being started: the ones in Read and Write,
    the Close that waits for them and those that wait for it.  Then the session
    has ended and the adapter is closed.  (A Read that is given packets counts as
    returned when its steps are used up.) *)
Theorem close_returns (x : device) :
  rtc dev_step start x -> once (world (sys x)) <> ONot ->
  inevitable own_step own_step all_returned x.
Proof.
  intros Hr Ho.
  assert (watched x) as Hx.
  { eapply (rtc_invariant dev_step watched); [apply watched_step|done|apply watched_start]. }
  apply (inevitable_descent _ _ (fun a b => one_on (threads (sys a)) (threads (sys b)))
           (fun x => watched x /\ once (world (sys x)) <> ONot)); [| | |done].
  - intros y z [Hy Hoy] Hs. split; [split|].
    + eapply watched_step; [done|by apply dev_own].
    + by eapply own_step_begun.
    + destruct Hs as [i R e k r ts w w' ev ev' rd Hi _ _]. exists i, (Vis e k), (k r).
      split; [done|]. split; [by exists r|done].
  - intros y [Hy Hoy].
    assert (forall p : thread, Decision (p = Ret tt)) as Hdec.
    { intros [[]|R e k]; [by left|by right]. }
    destruct (decide (Forall (fun p : thread => p = Ret tt) (threads (sys y)))) as [Hall|Hne].
    + left. by apply returned.
    + right. apply not_Forall_Exists in Hne; [|apply _]. apply Exists_exists in Hne as (p & Hp & Hne).
      apply list_elem_of_lookup in Hp as [i Hp]. by eapply goes_on.
  - apply wf_inverse_image, one_on_wf.
Qed.
End Close.

(** ** A Close while a Read waits for the event *)
Module CloseSample.

(** Without spinning, on an event that resets itself. *)
Abbreviation tun := DeviceSample.tun.
Abbreviation dev_step := (dev_step zero_procs false tun true).
Abbreviation own_step := (own_step tun true).

Definition sample_read : thread :=
  discard (Read zero_procs false tun 3 [[0]] [0] 0).

Lemma run_at i {R} (e : devE R) r ts w w' k ev ev' rd :
  ts !! i = Some (Vis e k) -> serve e r w = Some w' -> event_call tun true e ev = Some ev' ->
  dev_step (mkDevice (mkSystem ts w) ev rd) (mkDevice (mkSystem (<[i := k r]> ts) w') ev' rd).
Proof. intros. by apply dev_own, (own_run _ _ i R e k r). Qed.

(** Nothing to read. *)
Definition no_items : Z * nat * (nat -> Z) * Z := (0, 0%nat, (fun _ => 0), 259).

(** The Read waits, the event is not set, Close has begun. *)
Lemma reach_waiting : exists k q,
  rtc dev_step (start tun)
    (mkDevice (mkSystem [Vis (Drv (WaitForSingleObject (readWait tun))) k; q]
                (mkShared 1 false ORunning 11 10 true true)) false (Some 0%nat)).
Proof.
  eexists _, _.
  eapply rtc_l; [apply (dev_read zero_procs false tun true 3 [[0]] [0] 0); by intros|].
  eapply rtc_l; [eapply (run_at 0 (Cell RunningAdd) tt); reflexivity|].
  eapply rtc_l; [eapply (run_at 0 (Cell ClosedLoad) false); reflexivity|].
  eapply rtc_l; [eapply (run_at 0 (Cell ClosedLoad) false); reflexivity|].
  eapply rtc_l; [eapply (run_at 0 (Cell SessionHandle) 11); reflexivity|].
  eapply rtc_l; [eapply (run_at 0 (Drv (ReceivePacket_ 0 11)) no_items); reflexivity|].
  eapply rtc_l; [apply dev_close|].
  eapply rtc_l; [eapply (run_at 1 (Cell OnceBegin) true); reflexivity|].
  apply rtc_refl.
Qed.
End CloseSample.
Import CloseSample.

Lemma close_returns_witness : exists k q y,
  rtc own_step
    (mkDevice (mkSystem [Vis (Drv (WaitForSingleObject (readWait tun))) k; q]
                (mkShared 1 false ORunning 11 10 true true)) false (Some 0%nat)) y /\
  Forall (fun p => p = Ret tt) (threads (sys y)) /\ adap_live (world (sys y)) = false.
Proof.
  destruct reach_waiting as (k & q & Hr).
  pose proof (close_returns zero_procs false tun true ltac:(done) ltac:(done) _ Hr ltac:(done)) as Hi.
  destruct (inevitable_run _ _ _ _ (fun _ _ H => H) Hi) as (y & Hy & Hall & _ & _ & _ & _ & Hal).
  exists k, q, y. exact (conj Hy (conj Hall Hal)).
Defined.
