(* ===== verification/Routing.v ===== *)
(** * Addresses, routes and DNS of the tunnel (windev/routing.go)

    [ConfigureRouting] and its parts over the calls of LUID, the resolver and
    the log. *)

From S2P Require Import Prelude GoStrings Netip NetText Sockaddr IpTypes IpHelper Luid Veil.
From Stdlib Require Import ZArith Ascii String.
From stdpp Require Import base list strings.
Open Scope Z_scope.
Open Scope string_scope.
Local Open Scope list_scope.

(** [net.LookupIP]: each address is four or sixteen bytes. *)
Inductive netE : Type -> Type :=
| LookupIP (host : string) : netE (result (list (list Z))).

(** What the returned cleanup function closes over. *)
Record cleanup : Type := mkCleanup {
  tunLUID : LUID;
  exceptionLUID : LUID;
  exceptionHop : Addr;
  exceptionPrefix : Prefix;
}.

(** A row is a candidate for the physical default route. *)
Definition default_candidate (exclude : LUID) (r : MibIPforwardRow2.t) : bool :=
  let p := IPPrefix_Prefix (MibIPforwardRow2.DestinationPrefix r) in
  Is4 (Prefix_Addr p) && bool_decide (Bits p = 0)
  && bool_decide (MibIPforwardRow2.InterfaceLUID r <> exclude).

(** The loop of [defaultRoute]. *)
Fixpoint best_route (exclude : LUID) (rows : list MibIPforwardRow2.t)
    (best : option MibIPforwardRow2.t) : option MibIPforwardRow2.t :=
  match rows with
  | [] => best
  | r :: rows =>
      if default_candidate exclude r then
        match best with
        | Some b =>
            if decide (MibIPforwardRow2.Metric r < MibIPforwardRow2.Metric b)
            then best_route exclude rows (Some r) else best_route exclude rows best
        | None => best_route exclude rows (Some r)
        end
      else best_route exclude rows best
  end.

(** The first IPv4 address of a lookup. *)
Fixpoint first_v4 (ips : list (list Z)) : option Addr :=
  match ips with
  | [] => None
  | ip :: ips => match To4 ip with Some v4 => Some (AddrFrom4 v4) | None => first_v4 ips end
  end.

(** The routes [addTunnelRoutes] adds for one entry of AllowedIPs. *)
Definition tunnel_prefixes (a : string) : list Prefix :=
  match ParsePrefix (TrimSpace a) with
  | None => []
  | Some pfx =>
      if bool_decide (Bits pfx = 0) && Is4 (Prefix_Addr pfx) then
        [PrefixFrom IPv4Unspecified 1; PrefixFrom (AddrFrom4 [128; 0; 0; 0]) 1]
      else [pfx]
  end.

(** The servers of a DNS setting. *)
Fixpoint parse_servers (l : list string) : list Addr :=
  match l with
  | [] => []
  | s :: l =>
      match ParseAddr (TrimSpace s) with
      | Some a => a :: parse_servers l
      | None => parse_servers l
      end
  end.

Section Routing.
Context {Config : Type} `{ConfigView Config}.
Context {F : Type -> Type} `{Sub ipE F} `{Sub winE F} `{Sub netE F} `{Sub logE F}.
(** [engine.DefaultTunMTU], the architecture and the text of a GUID. *)
Context (DefaultTunMTU : Z) (arch : string) (guid_text : GUID -> string).

Abbreviation M := (prog F).

Fixpoint resolve_peers (peers : list Peer) : M Addr :=
  match peers with
  | [] => Ret AddrInvalid
  | p :: peers =>
      if decide (Peer_Endpoint p = "") then resolve_peers peers
      else
        let host :=
          match SplitHostPort (to_bytes (Peer_Endpoint p)) with
          | Some (host, _) => of_bytes host
          | None => Peer_Endpoint p
          end in
        let! ips := invoke (LookupIP host) in
        match ips with
        | Ok ips => match first_v4 ips with Some a => Ret a | None => resolve_peers peers end
        | Err _ => resolve_peers peers
        end
  end.

Definition resolveEndpoint (cfg : Config) : M Addr := resolve_peers (Peers cfg).

Definition defaultRoute (exclude : LUID) : M (option (LUID * Addr)) :=
  let! rows := GetIPForwardTable2 AF_INET in
  match rows with
  | Err e => do! logf "GetIPForwardTable2: %v" [AErr e] in Ret None
  | Ok rows =>
      match best_route exclude rows None with
      | None => Ret None
      | Some best =>
          Ret (Some (MibIPforwardRow2.InterfaceLUID best,
                     Sockaddr_Addr (MibIPforwardRow2.NextHop best)))
      end
  end.

(** The closure [add] of [addTunnelRoutes]. *)
Definition add_tunnel_route (luid : LUID) (pfx : Prefix) : M unit :=
  let! err := AddRoute luid pfx IPv4Unspecified 0 in
  match err with
  | Some e => logf "Warning: add route %s: %v" [AStr (Prefix_String pfx); AErr e]
  | None => Ret tt
  end.

Fixpoint each {X} (f : X -> M unit) (xs : list X) : M unit :=
  match xs with
  | [] => Ret tt
  | x :: xs => do! f x in each f xs
  end.

Definition addTunnelRoutes (luid : LUID) (cfg : Config) : M unit :=
  each (fun peer =>
    each (fun a => each (add_tunnel_route luid) (tunnel_prefixes a)) (Peer_AllowedIPs peer))
    (Peers cfg).

(** The second statement of [ConfigureRouting]: failures are warnings, a missing
    interface row is ignored. *)
Definition set_mtu (luid : LUID) : M unit :=
  let! ipif := IPInterface luid AF_INET in
  match ipif with
  | Err _ => Ret tt
  | Ok ipif =>
      let! err := MibIPInterfaceRow_Set (MibIPInterfaceRow.set_NLMTU (u32 DefaultTunMTU) ipif) in
      match err with
      | Some e => logf "Warning: Set IPInterface MTU: %v" [AErr e]
      | None => logf "Set IP interface MTU to %d" [AInt DefaultTunMTU]
      end
  end.

(** The endpoint exception.  [exceptionPrefix] stays set when the route is
    refused. *)
Definition add_exception (luid : LUID) (cfg : Config) : M cleanup :=
  let none := mkCleanup luid 0 AddrInvalid zero_Prefix in
  let! serverIP := resolveEndpoint cfg in
  if IsValid serverIP then
    let! route := defaultRoute luid in
    match route with
    | Some (pluid, hop) =>
        let prefix := PrefixFrom serverIP (BitLen serverIP) in
        let! err := AddRoute pluid prefix hop 0 in
        match err with
        | Some e =>
            do! logf "Warning: endpoint exception route: %v" [AErr e] in
            Ret (mkCleanup luid 0 AddrInvalid prefix)
        | None =>
            do! logf "Endpoint exception: %s via %s (physical)"
                  [AStr (Prefix_String prefix); AStr (Addr_String hop)] in
            Ret (mkCleanup luid pluid hop prefix)
        end
    | None =>
        do! logf "Warning: no physical default route found; routing loop possible" [] in
        Ret none
    end
  else Ret none.

(** The DNS part; [None] is the panic of an unknown architecture. *)
Definition set_servers (luid : LUID) (cfg : Config) : M (option unit) :=
  if decide (Interface_DNS cfg = "") then Ret (Some tt)
  else
    match parse_servers (split_commas (Interface_DNS cfg)) with
    | [] => Ret (Some tt)
    | servers =>
        let! err := SetDNS arch guid_text luid AF_INET servers [] in
        match err with
        | None => Ret None
        | Some (Some e) => do! logf "Warning: SetDNS: %v" [AErr e] in Ret (Some tt)
        | Some None => Ret (Some tt)
        end
    end.

Definition ConfigureRouting (luid : LUID) (cfg : Config) : M (option (result cleanup)) :=
  let! err :=
    match ParsePrefix (Interface_Address cfg) with
    | Some addr => SetIPAddresses luid [addr]
    | None => Ret None
    end in
  match err with
  | Some e => Ret (Some (Err e))
  | None =>
      do! set_mtu luid in
      let! c := add_exception luid cfg in
      do! addTunnelRoutes luid cfg in
      let! dns := set_servers luid cfg in
      match dns with
      | None => Ret None
      | Some _ => Ret (Some (Ok c))
      end
  end.

(** The returned function: the errors of its calls are ignored. *)
Definition run_cleanup (c : cleanup) : M (option unit) :=
  do! FlushRoutes (tunLUID c) AF_INET in
  let! dns := FlushDNS arch guid_text (tunLUID c) AF_INET in
  match dns with
  | None => Ret None
  | Some _ =>
      if bool_decide (exceptionLUID c <> 0) && Prefix_IsValid (exceptionPrefix c) then
        do! DeleteRoute (exceptionLUID c) (exceptionPrefix c) (exceptionHop c) in
        Ret (Some tt)
      else Ret (Some tt)
  end.
End Routing.

(** All the calls together. *)
Inductive routeE : Type -> Type :=
| OnSys {R} (e : sysE R) : routeE R
| OnNet {R} (e : netE R) : routeE R
| OnLog {R} (e : logE R) : routeE R.

#[export] Instance Sub_ip_route : Sub ipE routeE := fun R e => OnSys (Ip e).
#[export] Instance Sub_win_route : Sub winE routeE := fun R e => OnSys (Win e).
#[export] Instance Sub_net_route : Sub netE routeE := fun R e => OnNet e.
#[export] Instance Sub_log_route : Sub logE routeE := fun R e => OnLog e.
