(* ===== verification/RoutingProps.v ===== *)
(** * Routing of the tunnel (windev/routing.go)

    The default route chosen, the routes the tunnel gets, and what a failed or
    finished configuration leaves behind. *)

From S2P Require Import Prelude GoStrings Netip NetText Sockaddr IpTypes IpHelper Luid LuidProps Veil Routing.
From Stdlib Require Import ZArith Ascii String Lia.
From stdpp Require Import base list strings.
Open Scope Z_scope.
Open Scope string_scope.
Local Open Scope list_scope.

(** ** The physical default route *)

(** [r] is the first of the candidates with the lowest metric. *)
Definition first_best (exclude : LUID) (rows : list MibIPforwardRow2.t) (r : MibIPforwardRow2.t)
    : Prop :=
  exists before after,
    rows = before ++ r :: after /\ default_candidate exclude r = true /\
    (forall x, x ∈ before -> default_candidate exclude x = true ->
               MibIPforwardRow2.Metric r < MibIPforwardRow2.Metric x) /\
    (forall x, x ∈ after -> default_candidate exclude x = true ->
               MibIPforwardRow2.Metric r <= MibIPforwardRow2.Metric x).

Lemma best_route_some exclude rows : forall pre best,
  match best with
  | Some b => first_best exclude pre b
  | None => forall x, x ∈ pre -> default_candidate exclude x = false
  end ->
  match best_route exclude rows best with
  | Some b => first_best exclude (pre ++ rows) b
  | None => forall x, x ∈ pre ++ rows -> default_candidate exclude x = false
  end.
Proof.
  induction rows as [|r rows IH]; intros pre best Hb; cbn [best_route].
  - rewrite app_nil_r. by destruct best.
  - replace (pre ++ r :: rows) with ((pre ++ [r]) ++ rows) by (by rewrite <- app_assoc).
    assert (forall b, first_best exclude pre b ->
      (default_candidate exclude r = true -> MibIPforwardRow2.Metric b <= MibIPforwardRow2.Metric r) ->
      first_best exclude (pre ++ [r]) b) as Hkeep.
    { intros b (l1 & l2 & -> & Hc & H1 & H2) Hr. exists l1, (l2 ++ [r]).
      rewrite <- app_assoc. split; [done|]. split; [done|]. split; [done|]. intros x Hx Hcx.
      apply elem_of_app in Hx as [Hx|Hx]; [by apply H2|].
      apply list_elem_of_singleton in Hx as ->. by apply Hr. }
    assert (default_candidate exclude r = true ->
      (forall x, x ∈ pre -> default_candidate exclude x = true ->
                 MibIPforwardRow2.Metric r < MibIPforwardRow2.Metric x) ->
      first_best exclude (pre ++ [r]) r) as Hnew.
    { intros Hc Hlt. exists pre, []. split_and!; [done..|]. by intros x Hx%elem_of_nil. }
    destruct (default_candidate exclude r) eqn:Hc.
    + destruct best as [b|].
      * destruct (decide _) as [Hlt|Hge]; apply IH; [|by apply Hkeep; [|lia]].
        apply Hnew; [done|]. destruct Hb as (l1 & l2 & -> & Hcb & H1 & H2).
        intros x Hx Hcx. apply elem_of_app in Hx as [Hx|Hx]; [specialize (H1 x Hx Hcx); lia|].
        apply elem_of_cons in Hx as [->|Hx]; [lia|]. specialize (H2 x Hx Hcx). lia.
      * apply IH, Hnew; [done|]. intros x Hx Hcx. by rewrite Hb in Hcx.
    + apply IH. destruct best as [b|]; [by apply Hkeep|].
      intros x Hx. apply elem_of_app in Hx as [Hx|Hx]; [by apply Hb|].
      by apply list_elem_of_singleton in Hx as ->.
Qed.

Section DefaultRoute.
Context {F : Type -> Type} `{Sub ipE F} `{Sub logE F}.

Abbreviation ev e a := (Ev (E := F) (embed e) a).

Lemma exec_read_table {R} (e : ipE (Z * table R)) tr res :
  exec (read_table (let! (r0, tab) := invoke e in Ret (table_result r0 tab)) : prog F _) tr res <->
  exists r0 tab,
    if decide (r0 = 0) then
      tr = [ev e (0, tab); ev (FreeMibTable (tab_handle tab)) tt] /\ res = Ok (tab_rows tab)
    else tr = [ev e (r0, tab)] /\ res = Err (Errno r0).
Proof.
  unfold read_table, table_result, ret. setoid_rewrite exec_bind. setoid_rewrite exec_bind.
  setoid_rewrite exec_invoke. split.
  - intros (tr1 & tr2 & t & -> & (tr3 & tr4 & [r0 tab] & -> & -> & [-> ->]) & He).
    exists r0, tab. destruct (decide (r0 = 0)) as [->|Hr0].
    + apply exec_bind in He as (tr5 & tr6 & [] & -> & Hf & [-> ->]).
      by apply exec_invoke in Hf as ->.
    + by destruct He as [-> ->].
  - intros (r0 & tab & He). destruct (decide (r0 = 0)) as [->|Hr0]; destruct He as [-> ->].
    + exists [ev e (0, tab)], [ev (FreeMibTable (tab_handle tab)) tt], (Ok tab).
      split; [done|]. split; [by exists [ev e (0, tab)], [], (0, tab)|].
      apply exec_bind. exists [ev (FreeMibTable (tab_handle tab)) tt], [], tt. split; [done|].
      split; [by apply exec_invoke|done].
    + exists [ev e (r0, tab)], [], (Err (Errno r0)). split; [done|]. split; [|done].
      exists [ev e (r0, tab)], [], (r0, tab). split; [done|]. split; [done|].
      by rewrite decide_False.
Qed.

Lemma exec_defaultRoute exclude tr res :
  exec (defaultRoute exclude : prog F _) tr res ->
  exists r0 tab,
    if decide (r0 = 0) then
      tr = [ev (GetIpForwardTable2 AF_INET) (0, tab); ev (FreeMibTable (tab_handle tab)) tt] /\
      match res with
      | Some (luid, hop) =>
          exists r, first_best exclude (tab_rows tab) r /\
            luid = MibIPforwardRow2.InterfaceLUID r /\ hop = Sockaddr_Addr (MibIPforwardRow2.NextHop r)
      | None => forall x, x ∈ tab_rows tab -> default_candidate exclude x = false
      end
    else res = None.
Proof.
  intros He. unfold defaultRoute in He.
  apply exec_bind in He as (tr1 & tr2 & rows & -> & Ht & He).
  apply exec_read_table in Ht as (r0 & tab & Ht). exists r0, tab.
  destruct (decide (r0 = 0)) as [->|]; destruct Ht as [-> ->].
  - pose proof (best_route_some exclude (tab_rows tab) [] None) as Hb.
    specialize (Hb (fun x Hx => ltac:(by apply elem_of_nil in Hx))). simpl in Hb.
    destruct (best_route _ _ _) as [r|]; destruct He as [-> ->]; rewrite app_nil_r;
      (split; [done|]); [by exists r|done].
  - by apply exec_bind in He as (tr3 & tr4 & [] & -> & _ & [-> ->]).
Qed.
End DefaultRoute.

Abbreviation ipev e a := (Ev (E := routeE) (OnSys (Ip e)) a).

(** C27: the route chosen for the server is the first of the IPv4 default routes
    with the lowest metric that do not use the tunnel; there is none exactly when
    the table cannot be read or holds no such route; the table is freed. *)
Theorem default_route_best (exclude : LUID) (tr : list (event routeE)) (res : option (LUID * Addr)) :
  exec (defaultRoute exclude) tr res ->
  exists r0 tab,
    if decide (r0 = 0) then
      tr = [ipev (GetIpForwardTable2 AF_INET) (0, tab); ipev (FreeMibTable (tab_handle tab)) tt] /\
      match res with
      | Some (luid, hop) =>
          luid <> exclude /\
          exists r, first_best exclude (tab_rows tab) r /\
            luid = MibIPforwardRow2.InterfaceLUID r /\ hop = Sockaddr_Addr (MibIPforwardRow2.NextHop r)
      | None => forall x, x ∈ tab_rows tab -> default_candidate exclude x = false
      end
    else res = None.
Proof.
  intros He. apply exec_defaultRoute in He as (r0 & tab & Hr). exists r0, tab.
  destruct (decide (r0 = 0)); [|done]. destruct Hr as [-> Hr]. split; [done|].
  destruct res as [[luid hop]|]; [|done]. split; [|done].
  destruct Hr as (r & (l1 & l2 & _ & Hc & _) & -> & _). unfold default_candidate in Hc.
  apply andb_prop in Hc as [_ Hc]. by apply bool_decide_eq_true in Hc.
Qed.

(** ** The routes of the tunnel *)

Lemma concat_singletons {A} (l : list A) : concat (map (fun x => [x]) l) = l.
Proof. induction l as [|x l IH]; simpl; by rewrite ?IH. Qed.

Lemma tunnel_prefixes_valid a : Forall (fun p => IsValid (ip p) = true) (tunnel_prefixes a).
Proof.
  unfold tunnel_prefixes. destruct (ParsePrefix _) as [p|] eqn:Hp; [|constructor].
  destruct (_ && _); [by repeat constructor|]. apply ParsePrefix_valid in Hp as [Hv _].
  by repeat constructor.
Qed.

Section TunnelRoutes.
Context {Config : Type} `{ConfigView Config}.

(** Every route of the tunnel, in the order it is added. *)
Definition all_tunnel_prefixes (cfg : Config) : list Prefix :=
  concat (map (fun peer => concat (map tunnel_prefixes (Peer_AllowedIPs peer))) (Peers cfg)).

Lemma elem_of_all_tunnel_prefixes cfg p :
  p ∈ all_tunnel_prefixes cfg <->
  exists peer a, peer ∈ Peers cfg /\ a ∈ Peer_AllowedIPs peer /\ p ∈ tunnel_prefixes a.
Proof.
  unfold all_tunnel_prefixes. rewrite list_elem_of_In, in_concat. split.
  - intros (l & Hl & Hp). apply in_map_iff in Hl as (peer & <- & Hpeer).
    apply in_concat in Hp as (l & Hl & Hp). apply in_map_iff in Hl as (a & <- & Ha).
    exists peer, a. by rewrite !list_elem_of_In.
  - intros (peer & a & Hpeer & Ha & Hp). eexists. split.
    + apply in_map_iff. exists peer. split; [done|by apply list_elem_of_In].
    + apply in_concat. exists (tunnel_prefixes a). split; [|by apply list_elem_of_In].
      apply in_map_iff. exists a. split; [done|by apply list_elem_of_In].
Qed.

Section Exec.
Context {F : Type -> Type} `{Sub ipE F} `{Sub logE F}.

Abbreviation ev e a := (Ev (E := F) (embed e) a).

(** Adding prefixes on-link: every one is tried, a refusal is only logged. *)
Inductive installs (luid : LUID) : list Prefix -> list (event F) -> Prop :=
| installs_nil : installs luid [] []
| installs_ok p ps row tr :
    installs luid ps tr ->
    installs luid (p :: ps)
      (ev (InitializeIpForwardEntry MibIPforwardRow2.zero) row ::
       ev (CreateIpForwardEntry2 (route_row luid (mkRouteData p IPv4Unspecified 0) row)) 0 :: tr)
| installs_refused p ps row c tr :
    c <> 0 -> installs luid ps tr ->
    installs luid (p :: ps)
      (ev (InitializeIpForwardEntry MibIPforwardRow2.zero) row ::
       ev (CreateIpForwardEntry2 (route_row luid (mkRouteData p IPv4Unspecified 0) row)) c ::
       ev (Printf "Warning: add route %s: %v" [AStr (Prefix_String p); AErr (Errno c)]) tt :: tr).

Lemma installs_app luid ps qs tr1 tr2 :
  installs luid ps tr1 -> installs luid qs tr2 -> installs luid (ps ++ qs) (tr1 ++ tr2).
Proof. intros Hps Hqs. induction Hps; simpl; [done|by constructor..]. Qed.

Lemma exec_each {X} (f : X -> prog F unit) (Q : X -> list Prefix) luid xs tr r :
  (forall x tr r, x ∈ xs -> exec (f x) tr r -> installs luid (Q x) tr) ->
  exec (each f xs) tr r -> installs luid (concat (map Q xs)) tr.
Proof.
  intros Hf. revert tr. induction xs as [|x xs IH]; intros tr; simpl.
  - intros [-> _]. constructor.
  - intros He. apply exec_bind in He as (tr1 & tr2 & [] & -> & Hx & He).
    apply installs_app; [eapply Hf; [apply list_elem_of_here|done]|].
    apply IH; [|done]. intros y tr r' Hy. by apply Hf, list_elem_of_further.
Qed.

Lemma exec_add_tunnel_route luid p tr r :
  IsValid (ip p) = true -> exec (add_tunnel_route luid p : prog F unit) tr r ->
  installs luid [p] tr.
Proof.
  intros Hv He. unfold add_tunnel_route in He.
  apply exec_bind in He as (tr1 & tr2 & err & -> & Ha & He).
  apply (exec_AddRoute luid (mkRouteData p IPv4Unspecified 0)) in Ha as (row & c & -> & ->); [|done].
  unfold ret in He. destruct (decide (c = 0)) as [->|Hc].
  - destruct He as [-> _]. apply installs_ok, installs_nil.
  - apply exec_invoke in He as ->. destruct r.
    apply (installs_refused luid p [] row c []); [done|constructor].
Qed.

Lemma exec_addTunnelRoutes luid cfg tr r :
  exec (addTunnelRoutes luid cfg : prog F unit) tr r -> installs luid (all_tunnel_prefixes cfg) tr.
Proof.
  apply exec_each. intros peer tr' r' _. apply exec_each. intros a tr'' r'' _ He.
  rewrite <- (concat_singletons (tunnel_prefixes a)). revert He. apply exec_each. intros p tr3 r3 Hp. apply exec_add_tunnel_route.
  pose proof (tunnel_prefixes_valid a) as Hv. rewrite Forall_forall in Hv. by apply Hv.
Qed.
End Exec.
End TunnelRoutes.

(** ** What a configuration leaves behind *)

(** The forwarding row a call created. *)
Definition created_ip {R} (e : ipE R) : R -> option MibIPforwardRow2.t :=
  match e with
  | CreateIpForwardEntry2 row => fun c => if decide (c = 0) then Some row else None
  | _ => fun _ => None
  end.

(** The one a call deleted. *)
Definition deleted_ip {R} (e : ipE R) : R -> option MibIPforwardRow2.t :=
  match e with
  | DeleteIpForwardEntry2 row => fun c => if decide (c = 0) then Some row else None
  | _ => fun _ => None
  end.

Definition of_sys {R} (f : forall R, ipE R -> R -> option MibIPforwardRow2.t) (e : sysE R)
    : R -> option MibIPforwardRow2.t :=
  match e with Ip e => f _ e | Win _ => fun _ => None end.

Definition of_call {R} (f : forall R, ipE R -> R -> option MibIPforwardRow2.t) (e : routeE R)
    : R -> option MibIPforwardRow2.t :=
  match e with OnSys e => of_sys f e | _ => fun _ => None end.

Definition created (ev : event routeE) : option MibIPforwardRow2.t :=
  of_call (@created_ip) (ev_call _ ev) (ev_answer _ ev).
Definition deleted (ev : event routeE) : option MibIPforwardRow2.t :=
  of_call (@deleted_ip) (ev_call _ ev) (ev_answer _ ev).

(** The rows created on interfaces other than the tunnel, in order. *)
Definition foreign (luid : LUID) (tr : list (event routeE)) : list MibIPforwardRow2.t :=
  filter (fun row => MibIPforwardRow2.InterfaceLUID row <> luid) (omap created tr).

Lemma foreign_app luid tr1 tr2 : foreign luid (tr1 ++ tr2) = foreign luid tr1 ++ foreign luid tr2.
Proof. unfold foreign. by rewrite omap_app, filter_app. Qed.

Abbreviation quiet := (fun ev => created ev = None).
(** A call that changes no route. *)
Abbreviation plain := (fun ev => created ev = None /\ deleted ev = None).

Lemma foreign_quiet luid tr : Forall quiet tr -> foreign luid tr = [].
Proof.
  unfold foreign. induction 1 as [|ev tr Hev _ IH]; [done|]. simpl. by rewrite Hev.
Qed.

Lemma quiet_foreign {A} (p : prog routeE A) luid tr a :
  always quiet p -> exec p tr a -> foreign luid tr = [].
Proof. intros Hp He. eapply foreign_quiet, always_exec; eassumption. Qed.

Lemma plain_trace tr : Forall plain tr -> omap created tr = [] /\ omap deleted tr = [].
Proof.
  induction 1 as [|ev tr [Hc Hd] _ [IHc IHd]]; [done|]. simpl. by rewrite Hc, Hd.
Qed.

Lemma plain_rows {A} (p : prog routeE A) tr a :
  always plain p -> exec p tr a -> omap created tr = [] /\ omap deleted tr = [].
Proof. intros Hp He. eapply plain_trace, always_exec; eassumption. Qed.

Lemma plain_foreign {A} (p : prog routeE A) luid tr a :
  always plain p -> exec p tr a -> foreign luid tr = [].
Proof. intros Hp He. unfold foreign. by rewrite (proj1 (plain_rows _ _ _ Hp He)). Qed.

Create HintDb quiet.

(** Walks a program none of whose calls creates, or creates or deletes, a row. *)
Ltac unchanged := intros; first [reflexivity | split; reflexivity].
Ltac always_step :=
  match goal with
  | |- always _ (bind _ _) => apply always_bind; [|intros]
  | |- always _ (Ret _) => exact I
  | |- always _ (invoke _) => apply always_invoke; unchanged
  | |- always _ (logf _ _) => apply always_invoke; unchanged
  | |- always _ (match ?x with _ => _ end) => destruct x
  | |- always _ (Vis _ _) => intros ?; split; [unchanged|]
  | |- always _ _ => assumption || solve [auto 2 with quiet nocore]
  | |- always ?P ?p => let p' := eval hnf in p in progress change (always P p')
  end.
Ltac always_go := repeat (always_step; cbn beta iota zeta).

Lemma plain_delete_addresses luid t : always plain (delete_addresses luid t).
Proof. induction t as [|row t IH]; cbn [delete_addresses]; [exact I|]. always_go. Qed.

Lemma quiet_delete_routes luid t err : always quiet (delete_routes luid t err).
Proof.
  revert err. induction t as [|row t IH]; intros err; cbn [delete_routes]; [exact I|].
  destruct (decide _); [|apply IH]. apply always_bind; [always_go|done].
Qed.
#[export] Hint Resolve plain_delete_addresses quiet_delete_routes : quiet.

Lemma plain_SetIPAddresses luid addr : always plain (SetIPAddresses luid [addr]).
Proof.
  unfold SetIPAddresses, FlushIPAddresses, AddIPAddresses, AddIPAddress, until_error, setting,
    getUnicastIPAddressTable, table_free, freeMibTable, MibUnicastIPAddressRow_Init,
    initializeUnicastIPAddressEntry, MibUnicastIPAddressRow_Create, createUnicastIPAddressEntry.
  always_go.
Qed.

Lemma plain_SetDNS arch text luid family servers domains :
  always plain (SetDNS arch text luid family servers domains).
Proof.
  unfold SetDNS, SetInterfaceDnsSettings, setInterfaceDnsSettingsByPtr,
    setInterfaceDnsSettingsByQwords, setInterfaceDnsSettingsByDwords, setInterfaceDnsSettings,
    set_dns_registry, notify_dnscache, Luid_GUID, convertInterfaceLUIDToGUID.
  destruct (decide _); [exact I|]. cbv zeta.
  repeat (apply always_bind; [always_go|intros [?|?]; [|exact I]]).
  repeat (destruct (decide _); cbn beta iota; [always_go|]). exact I.
Qed.

(** The row of the exception [c] remembers. *)
Abbreviation exception_row c row :=
  (route_row (exceptionLUID c) (mkRouteData (exceptionPrefix c) (exceptionHop c) 0) row).

Section Configure.
Context {Config : Type} `{ConfigView Config}.
Context (mtu : Z) (arch : string) (text : GUID -> string).

Lemma plain_set_mtu luid : always plain (set_mtu mtu luid).
Proof.
  unfold set_mtu, IPInterface, MibIPInterfaceRow_Init, initializeIPInterfaceEntry,
    MibIPInterfaceRow_get, getIPInterfaceEntry, MibIPInterfaceRow_Set, setIPInterfaceEntry.
  always_go.
Qed.

Lemma plain_set_servers luid cfg : always plain (set_servers arch text luid cfg).
Proof.
  unfold set_servers. destruct (decide _); [exact I|]. destruct (parse_servers _) as [|a l]; [exact I|].
  apply always_bind; [apply plain_SetDNS|]. intros [[e|]|]; always_go.
Qed.

Lemma plain_resolve peers : always plain (resolve_peers peers).
Proof.
  induction peers as [|p peers IH]; cbn [resolve_peers]; [exact I|]. always_go.
Qed.

Lemma plain_defaultRoute luid : always plain (defaultRoute luid).
Proof.
  unfold defaultRoute, GetIPForwardTable2, read_table, getIPForwardTable2, table_free, freeMibTable.
  always_go.
Qed.

Lemma foreign_create luid row row' c tr :
  foreign luid (Ev (embed (InitializeIpForwardEntry MibIPforwardRow2.zero)) row' ::
                Ev (embed (CreateIpForwardEntry2 row)) c :: tr)
  = (if decide (c = 0 /\ MibIPforwardRow2.InterfaceLUID row <> luid) then [row] else [])
    ++ foreign luid tr.
Proof.
  unfold foreign. change (omap created (_ :: _ :: tr))
    with (match (if decide (c = 0) then Some row else None) with
          | Some y => y :: omap created tr | None => omap created tr end).
  destruct (decide (c = 0)) as [Hc|Hc].
  - rewrite filter_cons. repeat case_decide; tauto || done.
  - by rewrite decide_False by tauto.
Qed.

Lemma installs_foreign luid ps tr : installs luid ps tr -> foreign luid tr = [].
Proof.
  induction 1 as [|p ps row tr _ IH|p ps row c tr Hc _ IH]; [done|..];
    rewrite foreign_create, decide_False; [done|by intros [_ Hne]|exact IH|tauto].
Qed.

(** The host of an endpoint, as it is looked up. *)
Definition endpoint_host (p : Peer) : string :=
  match SplitHostPort (to_bytes (Peer_Endpoint p)) with
  | Some (host, _) => of_bytes host
  | None => Peer_Endpoint p
  end.

(** The lookups that were answered. *)
Definition looked_up_net {R} (e : netE R) : R -> option (string * list (list Z)) :=
  match e with
  | LookupIP host => fun a => match a with Ok ips => Some (host, ips) | Err _ => None end
  end.
Definition looked_up_call {R} (e : routeE R) : R -> option (string * list (list Z)) :=
  match e with OnNet e => looked_up_net e | _ => fun _ => None end.
Definition looked_up (ev : event routeE) : option (string * list (list Z)) :=
  looked_up_call (ev_call _ ev) (ev_answer _ ev).

(** [s] is the first IPv4 address the resolver gave for the endpoint of a peer. *)
Definition resolved (peers : list Peer) (tr : list (event routeE)) (s : list Z) : Prop :=
  exists p ips, p ∈ peers /\ Peer_Endpoint p <> "" /\
    (endpoint_host p, ips) ∈ omap looked_up tr /\ first_v4 ips = Some (Addr4 s).

Lemma resolved_more peers peers' tr tr' s :
  resolved peers tr s -> (forall p, p ∈ peers -> p ∈ peers') -> (forall ev, ev ∈ tr -> ev ∈ tr') ->
  resolved peers' tr' s.
Proof.
  intros (p & ips & Hp & He & Hev & Hs) Hps Htr. exists p, ips.
  apply list_elem_of_omap in Hev as (ev & Hev & Hl). split; [auto|]. split; [done|].
  split; [|done]. apply list_elem_of_omap. exists ev. auto.
Qed.

Lemma first_v4_is4 ips a : first_v4 ips = Some a -> exists s, a = Addr4 s.
Proof.
  induction ips as [|ip ips IH]; simpl; [done|]. destruct (To4 ip); [|done]. intros [= <-]. by eexists.
Qed.

Lemma exec_resolve peers tr a :
  exec (resolve_peers peers : prog routeE _) tr a -> IsValid a = true ->
  exists s, a = Addr4 s /\ resolved peers tr s.
Proof.
  revert tr. induction peers as [|p peers IH]; intros tr; cbn [resolve_peers].
  - by intros [_ ->].
  - assert (forall tr', exec (resolve_peers peers : prog routeE _) tr' a -> IsValid a = true ->
              (forall ev, ev ∈ tr' -> ev ∈ tr) ->
              exists s, a = Addr4 s /\ resolved (p :: peers) tr s) as Hnext.
    { intros tr' He Hv Hin. destruct (IH tr' He Hv) as (s & -> & Hs). exists s. split; [done|].
      eapply resolved_more; [exact Hs| |exact Hin]. intros q. apply list_elem_of_further. }
    destruct (decide _) as [|Hne]; [intros He Hv; by eapply Hnext|]. intros He Hv.
    apply exec_bind in He as (tr1 & tr2 & ips & -> & Hl & He). apply exec_invoke in Hl as ->.
    assert (forall ev, ev ∈ tr2 -> ev ∈ [Ev (embed (LookupIP (endpoint_host p))) ips] ++ tr2) as Hin
      by (intros ev; apply list_elem_of_further).
    destruct ips as [ips|e]; [|by eapply Hnext].
    destruct (first_v4 ips) as [b|] eqn:Hf; [|by eapply Hnext]. destruct He as [-> ->].
    destruct (first_v4_is4 _ _ Hf) as [s ->]. exists s. split; [done|].
    exists p, ips. split; [apply list_elem_of_here|]. split; [done|].
    split; [apply list_elem_of_here|done].
Qed.

Lemma created_route row0 row row' c tr :
  omap created (Ev (embed (InitializeIpForwardEntry row0)) row' ::
                Ev (embed (CreateIpForwardEntry2 row)) c :: tr)
  = (if decide (c = 0) then [row] else []) ++ omap created tr.
Proof.
  change (omap created (_ :: _ :: tr))
    with (match (if decide (c = 0) then Some row else None) with
          | Some y => y :: omap created tr | None => omap created tr end).
  by destruct (decide (c = 0)).
Qed.

Lemma exec_add_exception luid cfg tr c :
  exec (add_exception luid cfg : prog routeE _) tr c ->
  tunLUID c = luid /\ omap deleted tr = [] /\
  ((omap created tr = [] /\ exceptionLUID c = 0) \/
   exists s row, resolved (Peers cfg) tr s /\
     exceptionPrefix c = PrefixFrom (Addr4 s) 32 /\ exceptionLUID c <> luid /\
     IsValid (exceptionHop c) = true /\
     ipev (InitializeIpForwardEntry MibIPforwardRow2.zero) row ∈ tr /\
     omap created tr = [exception_row c row]).
Proof.
  intros He. unfold add_exception in He.
  apply exec_bind in He as (tr1 & tr2 & a & -> & Hr & He).
  destruct (plain_rows _ _ _ (plain_resolve _) Hr) as [H1 H1d].
  destruct (IsValid a) eqn:Hv.
  2: { destruct He as [-> ->]. rewrite app_nil_r. split; [done|]. split; [done|]. by left. }
  destruct (exec_resolve _ _ _ Hr Hv) as (s & -> & Hres).
  apply exec_bind in He as (tr3 & tr4 & route & -> & Hd & He).
  destruct (plain_rows _ _ _ (plain_defaultRoute _) Hd) as [H2 H2d].
  rewrite !omap_app, H1, H1d, H2, H2d. cbn [app].
  destruct route as [[pluid hop]|].
  2: { apply exec_bind in He as (tr5 & tr6 & [] & -> & Hl & [-> ->]).
       apply exec_invoke in Hl as ->. split; [done|]. split; [done|]. by left. }
  assert (pluid <> luid) as Hne.
  { apply exec_defaultRoute in Hd as (r0 & tab & Hd). destruct (decide (r0 = 0)); [|done].
    destruct Hd as (_ & r & (l1 & l2 & _ & Hc & _) & -> & _).
    unfold default_candidate in Hc. apply andb_prop in Hc as [_ Hc].
    by apply bool_decide_eq_true in Hc. }
  apply exec_bind in He as (tr5 & tr6 & err & -> & Ha & He). rewrite !omap_app.
  assert (omap created tr6 = [] /\ omap deleted tr6 = []) as [-> ->].
  { destruct err; apply exec_bind in He as (tr7 & tr8 & [] & -> & Hl & [-> _]);
      by apply exec_invoke in Hl as ->. }
  rewrite !app_nil_r. simpl in Ha.
  assert ((err <> None -> tunLUID c = luid /\ exceptionLUID c = 0) /\
          (err = None -> c = mkCleanup luid pluid hop (PrefixFrom (Addr4 s) 32))) as [Hsome Hnone].
  { destruct err; apply exec_bind in He as (tr7 & tr8 & [] & -> & Hl & [-> ->]); done. }
  destruct (IsValid hop) eqn:Hh.
  - apply (exec_AddRoute pluid (mkRouteData (PrefixFrom (Addr4 s) 32) hop 0)) in Ha
      as (row & code & -> & ->); [|by split].
    rewrite created_route, app_nil_r. unfold ret in *.
    destruct (decide (code = 0)) as [->|Hcode].
    + rewrite (Hnone eq_refl). split; [done|]. split; [done|]. right. exists s, row.
      split; [eapply resolved_more; [exact Hres|done|intros ? ?; in_trace]|].
      split_and!; try done. in_trace.
    + destruct (Hsome ltac:(done)) as [-> Hz]. split; [done|]. split; [done|]. by left.
  - apply (exec_AddRoute_invalid pluid (mkRouteData (PrefixFrom (Addr4 s) 32) hop 0)) in Ha
      as [(row & ->) Herr]; [|done].
    destruct (Hsome Herr) as [-> Hz]. split; [done|]. split; [done|]. by left.
Qed.

(** What a configuration that does not fail calls besides: first the address and
    the MTU, last the servers; none of it changes a route. *)
Lemma ConfigureRouting_parts luid cfg tr c :
  exec (ConfigureRouting mtu arch text luid cfg) tr (Some (Ok c)) ->
  exists pre exc tun post, tr = pre ++ exc ++ tun ++ post /\
    Forall plain pre /\ Forall plain post /\
    exec (add_exception luid cfg : prog routeE _) exc c /\
    exec (addTunnelRoutes luid cfg : prog routeE _) tun tt.
Proof.
  intros He. unfold ConfigureRouting in He.
  apply exec_bind in He as (tr1 & tr2 & err & -> & Ha & He).
  destruct err as [e|]; [by destruct He as [_ ?]|].
  apply exec_bind in He as (tr3 & tr4 & [] & -> & Hm & He).
  apply exec_bind in He as (tr5 & tr6 & c' & -> & Hc & He).
  apply exec_bind in He as (tr7 & tr8 & [] & -> & Ht & He).
  apply exec_bind in He as (tr9 & tr10 & dns & -> & Hs & He).
  destruct dns; destruct He as [-> He]; [|done]. injection He as ->.
  exists (tr1 ++ tr3), tr5, tr7, tr9. rewrite <- app_assoc, app_nil_r. split; [done|].
  split; [apply Forall_app; split|].
  - destruct (ParsePrefix _); [|by destruct Ha as [-> _]].
    eapply always_exec; [apply plain_SetIPAddresses|exact Ha].
  - eapply always_exec; [apply plain_set_mtu|exact Hm].
  - split; [eapply always_exec; [apply plain_set_servers|exact Hs]|]. by split.
Qed.

Lemma exec_ConfigureRouting (luid : LUID) (cfg : Config) (tr : list (event routeE))
    (res : result cleanup) :
  exec (ConfigureRouting mtu arch text luid cfg) tr (Some res) ->
  match res with
  | Err e =>
      exists addr, ParsePrefix (Interface_Address cfg) = Some addr /\
        exec (SetIPAddresses luid [addr]) tr (Some e)
  | Ok c =>
      tunLUID c = luid /\
      ((foreign luid tr = [] /\ exceptionLUID c = 0) \/
       exists s row, exceptionPrefix c = PrefixFrom (Addr4 s) 32 /\ exceptionLUID c <> luid /\
         IsValid (exceptionHop c) = true /\ foreign luid tr = [exception_row c row])
  end.
Proof.
  intros He. destruct res as [c|e].
  - apply ConfigureRouting_parts in He
      as (pre & exc & tun & post & -> & Hpre & Hpost & Hc & Ht).
    apply exec_addTunnelRoutes, installs_foreign in Ht.
    apply plain_trace in Hpre as [Hpre _]. apply plain_trace in Hpost as [Hpost _].
    apply exec_add_exception in Hc as (Htun & _ & Hc). split; [done|].
    rewrite !foreign_app, Ht. unfold foreign. rewrite Hpre, Hpost, !app_nil_r. cbn [app].
    destruct Hc as [[-> Hz]|(s & row & _ & Hp & Hne & Hh & _ & ->)]; [by left|right].
    exists s, row. split_and!; try done. by rewrite filter_cons, decide_True.
  - unfold ConfigureRouting in He.
    apply exec_bind in He as (tr1 & tr2 & err & -> & Ha & He). destruct err as [e'|].
    + destruct He as [-> [= ->]]. destruct (ParsePrefix _) as [addr|]; [|by destruct Ha].
      exists addr. by rewrite app_nil_r.
    + apply exec_bind in He as (tr3 & tr4 & [] & -> & _ & He).
      apply exec_bind in He as (tr5 & tr6 & c & -> & _ & He).
      apply exec_bind in He as (tr7 & tr8 & [] & -> & _ & He).
      apply exec_bind in He as (tr9 & tr10 & [?|] & -> & _ & [_ ?]); done.
Qed.

(** C23: configuring the routing fails only when the tunnel's address cannot be
    set, and then nothing else was called; otherwise the only route created on an
    interface other than the tunnel, if any, is the host route of the server that
    the cleanup function remembers, interface and next hop included. *)
Theorem configure_outcome (luid : LUID) (cfg : Config) (tr : list (event routeE))
    (res : result cleanup) :
  exec (ConfigureRouting mtu arch text luid cfg) tr (Some res) ->
  match res with
  | Err e =>
      exists addr, ParsePrefix (Interface_Address cfg) = Some addr /\
        exec (SetIPAddresses luid [addr]) tr (Some e)
  | Ok c =>
      tunLUID c = luid /\
      ((foreign luid tr = [] /\ exceptionLUID c = 0) \/
       exists s row, exceptionPrefix c = PrefixFrom (Addr4 s) 32 /\ exceptionLUID c <> luid /\
         foreign luid tr = [route_row (exceptionLUID c)
                              (mkRouteData (exceptionPrefix c) (exceptionHop c) 0) row])
  end.
Proof.
  intros He. apply exec_ConfigureRouting in He. destruct res; [|exact He].
  destruct He as (? & [?|(s & row & ? & ? & _ & ?)]); split; eauto 10.
Qed.
End Configure.

(** ** At concrete inputs *)
Module RoutingSample.

(** The system's table: a metric-10 default route on interface 3. *)
Definition default_row : MibIPforwardRow2.t :=
  let row := MibIPforwardRow2.set_InterfaceLUID 3 MibIPforwardRow2.zero in
  let row := MibIPforwardRow2.set_DestinationPrefix
               (SetPrefix (PrefixFrom IPv4Unspecified 0) zero_IPPrefix).1 row in
  let row := MibIPforwardRow2.set_NextHop (SetAddr (Addr4 [192; 168; 0; 1]) zero_Sockaddr).1 row in
  MibIPforwardRow2.set_Metric 10 row.

Definition grant_ip {R} (e : ipE R) : R :=
  match e with
  | GetIpForwardTable2 _ => (0, mkTable 9 [default_row])
  | GetIpInterfaceTable _ => (0, mkTable 9 [])
  | GetIfTable2Ex_ _ => (0, mkTable 9 [])
  | GetUnicastIpAddressTable _ => (0, mkTable 9 [])
  | GetAnycastIpAddressTable _ => (0, mkTable 9 [])
  | FreeMibTable _ => tt
  | InitializeIpForwardEntry r => r
  | InitializeIpInterfaceEntry r => r
  | InitializeUnicastIpAddressEntry r => r
  | GetIpForwardEntry2 r => (0, r)
  | GetIpInterfaceEntry r => (0, r)
  | GetIfEntry2 r => (0, r)
  | GetUnicastIpAddressEntry r => (0, r)
  | GetAnycastIpAddressEntry r => (0, r)
  | SetIpForwardEntry2 _ | CreateIpForwardEntry2 _ | DeleteIpForwardEntry2 _
  | SetIpInterfaceEntry _ | SetUnicastIpAddressEntry _ | CreateUnicastIpAddressEntry _
  | DeleteUnicastIpAddressEntry _ | CreateAnycastIpAddressEntry _ | DeleteAnycastIpAddressEntry _ => 0
  | ConvertInterfaceLuidToGuid _ => (0, zero_GUID)
  | ConvertInterfaceGuidToLuid _ => (0, 0)
  | ConvertInterfaceIndexToLuid _ => (0, 0)
  | FindSetInterfaceDnsSettings => None
  | SetInterfaceDnsSettings_ _ _ => 0
  | GetAdaptersAddresses_ _ _ size => (None, size, [])
  end.

Definition grant_win {R} (e : winE R) : R :=
  match e with
  | UTF16PtrFromString _ => Ok (mkUtf16 1)
  | OpenKey _ => Err (Errno 2)
  | SetStringValue _ _ _ => None
  | Key_Close _ => tt
  | Mgr_Connect => Err (Errno 2)
  | Mgr_Disconnect _ => tt
  | OpenService _ _ => Err (Errno 2)
  | Service_Control _ => tt
  | Service_Close _ => tt
  end.

Definition grant_sys {R} (e : sysE R) : R :=
  match e with Ip e => grant_ip e | Win e => grant_win e end.

Definition grant : handler routeE unit := fun R e w =>
  (match e in routeE R return R with
   | OnSys e => grant_sys e
   | OnNet e => match e in netE R return R with LookupIP _ => Ok [[203; 0; 113; 7]] end
   | OnLog e => match e in logE R return R with Printf _ _ => tt end
   end, w).

Definition cfg : Sample.config :=
  Sample.mk "10.0.0.2/24" 0 "9.9.9.9, ::1" [("vpn.example:51820", [" 0.0.0.0/0 "; "10.1.0.0/16"])].
Definition server : list Z := [203; 0; 113; 7].
Definition other : list Z := [8; 8; 8; 8].

Definition configured :=
  run (traced grant) (ConfigureRouting (Config := Sample.config) 1420 "amd64" (fun _ => "{g}") 7 cfg)
    (tt, []).

Definition recorded : cleanup :=
  mkCleanup 7 3 (Addr4 [192; 168; 0; 1]) (PrefixFrom (Addr4 server) 32).

Lemma configured_ok : configured.1 = Some (Ok recorded).
Proof. vm_compute. reflexivity. Qed.

Lemma wf_server : wf_addr (Addr4 server).
Proof. split; [done|]. unfold server. repeat constructor; by vm_compute. Qed.
Lemma wf_other : wf_addr (Addr4 other).
Proof. split; [done|]. unfold other. repeat constructor; by vm_compute. Qed.

End RoutingSample.
Import RoutingSample.

Lemma default_route_best_witness :
  first_best 7 [default_row] default_row /\ 3 <> 7.
Proof.
  pose proof (run_exec grant (defaultRoute 7) tt) as He.
  destruct (default_route_best 7 _ _ He) as (r0 & tab & Hr).
  split; [|done].
  destruct (decide (r0 = 0)) as [_|_]; [|vm_compute in Hr; discriminate Hr].
  destruct Hr as [_ (_ & r & _)]. exists [], []. split; [reflexivity|]. split; [reflexivity|].
  split; intros x Hx; by apply elem_of_nil in Hx.
Defined.

Lemma configure_outcome_witness :
  exists s row, exceptionPrefix recorded = PrefixFrom (Addr4 s) 32 /\
    foreign 7 configured.2.2 = [route_row 3 (mkRouteData (exceptionPrefix recorded)
                                               (exceptionHop recorded) 0) row].
Proof.
  pose proof (run_exec grant
    (ConfigureRouting (Config := Sample.config) 1420 "amd64" (fun _ => "{g}") 7 cfg) tt) as He.
  fold configured in He. rewrite configured_ok in He.
  destruct (configure_outcome _ _ _ _ _ _ _ He) as [_ [[_ Hz]|(s & row & Hp & _ & Hf)]].
  - discriminate Hz.
  - exists s, row. split; [exact Hp|exact Hf].
Defined.
