(* ===== verification/Forwarding.v ===== *)
(** * Where packets go once the tunnel is configured (windev/routing.go)

    The calls that create and delete routes change the table of the system; here
    is the table the calls of [addTunnelRoutes] and [ConfigureRouting] leave, and
    where the route with the longest prefix sends a packet: to the server over
    the physical interface, elsewhere into the tunnel. *)

From S2P Require Import Prelude GoStrings Netip NetText Sockaddr IpTypes IpHelper Luid LuidProps Veil Routing RoutingProps.
From Stdlib Require Import ZArith Ascii String Lia.
From stdpp Require Import base list strings.
Open Scope Z_scope.
Open Scope string_scope.
Local Open Scope list_scope.

(** ** Routes for prefixes *)

Lemma in_pair {A} (x y z : A) : x ∈ [y; z] <-> x = y \/ x = z.
Proof.
  rewrite !elem_of_cons. split; [|tauto]. intros [?|[?|Hx]]; [tauto..|]. by apply elem_of_nil in Hx.
Qed.

(** A parsed AllowedIPs entry contains an address exactly when one of its routes
    does, and no IPv4 route is a default route. *)
Lemma tunnel_prefixes_cover a d :
  wf_addr d ->
  ((exists p, p ∈ tunnel_prefixes a /\ Contains p d = true) <->
   (exists p, ParsePrefix (TrimSpace a) = Some p /\ Contains p d = true)) /\
  (forall p, p ∈ tunnel_prefixes a -> Is4 (ip p) = true -> 1 <= Bits p).
Proof.
  intros Hd. unfold tunnel_prefixes. destruct (ParsePrefix _) as [p|] eqn:Hp.
  2: { split; [|by intros q Hq%elem_of_nil].
       by split; [intros (q & Hq%elem_of_nil & _)|intros (q & ? & _)]. }
  destruct (_ && _) eqn:Hz.
  - apply andb_prop in Hz as [Hb H4]. apply bool_decide_eq_true in Hb.
    destruct p as [[|o|o z] b]; try done. clear H4.
    pose proof (ParsePrefix_wf4 _ _ o Hp eq_refl) as Ho. split.
    + split.
      * intros (q & Hq & Hc). exists (mkPrefix (Addr4 o) b). split; [done|].
        assert (exists e, d = Addr4 e) as [e ->].
        { apply in_pair in Hq as [-> | ->]; by eapply Contains_v4 in Hc. }
        by apply Contains_default with o.
      * intros (q & [= <-] & Hc). eapply Contains_v4 in Hc as [e ->]; [|done].
        destruct (Contains_halves e Hd) as [Hh|Hh]; eexists; (split; [apply in_pair|exact Hh]); auto.
    + intros q Hq _. apply in_pair in Hq. by destruct Hq as [-> | ->].
  - apply ParsePrefix_valid in Hp as Hv. split.
    + split.
      * intros (q & Hq%list_elem_of_singleton & Hc). subst. by exists p.
      * intros (q & [= <-] & Hc). exists p. split; [by apply list_elem_of_singleton|done].
    + intros q Hq%list_elem_of_singleton H4. subst. unfold Prefix_Addr in Hz. rewrite H4 in Hz.
      rewrite andb_true_r in Hz. apply bool_decide_eq_false in Hz. lia.
Qed.

(** A route of the tunnel that is one address long was asked for. *)
Lemma tunnel_prefixes_long a p :
  p ∈ tunnel_prefixes a -> 1 < Bits p -> ParsePrefix (TrimSpace a) = Some p.
Proof.
  unfold tunnel_prefixes. destruct (ParsePrefix _) as [q|]; [|by intros ?%elem_of_nil].
  destruct (_ && _).
  - intros Hp. by apply in_pair in Hp as [-> | ->].
  - by intros ->%list_elem_of_singleton.
Qed.

Lemma Contains_self s : Contains (PrefixFrom (Addr4 s) 32) (Addr4 s) = true.
Proof. unfold Contains. apply andb_true_intro. split; [done|]. apply Z.eqb_refl. Qed.

(** ** The table of the system *)

Abbreviation row := MibIPforwardRow2.t.

(** The prefix of a row, as it is read back. *)
Definition dest (r : row) : Prefix := IPPrefix_Prefix (MibIPforwardRow2.DestinationPrefix r).

(** The rows the system initialised, and those for IPv4 it refused to create. *)
Definition initialized_ip {R} (e : ipE R) : R -> option row :=
  match e with InitializeIpForwardEntry _ => Some | _ => fun _ => None end.
Definition refused_ip {R} (e : ipE R) : R -> option row :=
  match e with
  | CreateIpForwardEntry2 r => fun c =>
      if decide (c <> 0 /\ Family (RawPrefix (MibIPforwardRow2.DestinationPrefix r)) = AF_INET)
      then Some r else None
  | _ => fun _ => None
  end.
Definition initialized (ev : event routeE) : option row :=
  of_call (@initialized_ip) (ev_call _ ev) (ev_answer _ ev).
Definition refused (ev : event routeE) : option row :=
  of_call (@refused_ip) (ev_call _ ev) (ev_answer _ ev).

(** The unions of a row are arrays of 26 bytes. *)
Definition unions_full (r : row) : Prop :=
  length (data (RawPrefix (MibIPforwardRow2.DestinationPrefix r))) = 26%nat /\
  length (data (MibIPforwardRow2.NextHop r)) = 26%nat.

(** What identifies a route to be deleted. *)
Definition same_route (r r' : row) : Prop :=
  MibIPforwardRow2.InterfaceLUID r = MibIPforwardRow2.InterfaceLUID r' /\
  MibIPforwardRow2.DestinationPrefix r = MibIPforwardRow2.DestinationPrefix r' /\
  MibIPforwardRow2.NextHop r = MibIPforwardRow2.NextHop r'.

#[export] Instance same_route_dec r r' : Decision (same_route r r').
Proof. unfold same_route. apply _. Defined.

(** The table after a call, and after a trace. *)
Definition change (table : list row) (ev : event routeE) : list row :=
  match created ev with
  | Some r => table ++ [r]
  | None =>
      match deleted ev with
      | Some r => filter (fun r' => ~ same_route r r') table
      | None => table
      end
  end.

Definition routes_after (system : list row) (tr : list (event routeE)) : list row :=
  fold_left change tr system.

Lemma routes_after_created system tr :
  omap deleted tr = [] -> routes_after system tr = system ++ omap created tr.
Proof.
  unfold routes_after. revert system. induction tr as [|ev tr IH]; intros system Hd.
  - by rewrite app_nil_r.
  - simpl in *. unfold change at 2. destruct (deleted ev); [done|].
    rewrite IH by done. destruct (created ev); [by rewrite <- app_assoc|done].
Qed.

(** [r] is a route with the longest prefix among those that contain [d]. *)
Definition longest (table : list row) (d : Addr) (r : row) : Prop :=
  r ∈ table /\ Contains (dest r) d = true /\
  forall q, q ∈ table -> Contains (dest q) d = true -> Bits (dest q) <= Bits (dest r).

Lemma longest_exists table d r :
  r ∈ table -> Contains (dest r) d = true -> exists q, longest table d q.
Proof.
  intros Hr Hc. revert r Hr Hc. induction table as [|p table IH]; intros r Hr Hc;
    [by apply elem_of_nil in Hr|].
  assert ((exists q, longest table d q) \/ forall q, q ∈ table -> Contains (dest q) d = false)
    as [(q & Hq & Hcq & Hmax)|Hno].
  { destruct (existsb (fun q => Contains (dest q) d) table) eqn:He.
    - apply existsb_exists in He as (q & Hq%list_elem_of_In & Hcq). left. by eapply IH.
    - right. intros q Hq. destruct (Contains (dest q) d) eqn:Hcq; [|done].
      assert (existsb (fun q => Contains (dest q) d) table = true); [|congruence].
      apply existsb_exists. exists q. split; [by apply list_elem_of_In|done]. }
  - destruct (Contains (dest p) d) eqn:Hp; [destruct (decide (Bits (dest q) <= Bits (dest p)))|].
    + exists p. split; [apply list_elem_of_here|]. split; [done|]. intros x Hx Hcx.
      apply elem_of_cons in Hx as [->|Hx]; [lia|]. specialize (Hmax x Hx Hcx). lia.
    + exists q. split; [by apply list_elem_of_further|]. split; [done|]. intros x Hx Hcx.
      apply elem_of_cons in Hx as [->|Hx]; [lia|by apply Hmax].
    + exists q. split; [by apply list_elem_of_further|]. split; [done|]. intros x Hx Hcx.
      apply elem_of_cons in Hx as [->|Hx]; [congruence|by apply Hmax].
  - exists p. apply elem_of_cons in Hr as [->|Hr]; [|by rewrite Hno in Hc].
    split; [apply list_elem_of_here|]. split; [done|]. intros x Hx Hcx.
    apply elem_of_cons in Hx as [->|Hx]; [lia|by rewrite Hno in Hcx].
Qed.

(** When the routes of length [n] at least that contain [d] are those with [P],
    and there is one, the longest has [P]. *)
Lemma longest_unique table d (P : row -> Prop) r :
  r ∈ table -> Contains (dest r) d = true ->
  (forall q, q ∈ table -> Contains (dest q) d = true -> Bits (dest r) <= Bits (dest q) -> P q) ->
  (exists q, longest table d q) /\ forall q, longest table d q -> P q.
Proof.
  intros Hr Hc HP. split; [by eapply longest_exists|]. intros q (Hq & Hcq & Hmax).
  apply HP; [done..|by apply Hmax].
Qed.

(** ** The rows of the tunnel *)

(** The row of a route over the tunnel, made from the row the system initialised. *)
Abbreviation tunnel_row luid p init := (route_row luid (mkRouteData p IPv4Unspecified 0) init).

Lemma wf_unspecified : wf_addr IPv4Unspecified.
Proof. split; [done|]. by repeat constructor. Qed.

Lemma row_dest luid rd init :
  wf_prefix (Destination rd) -> IsValid (ip (Destination rd)) = true -> unions_full init ->
  dest (route_row luid rd init) = Destination rd.
Proof. intros Hp Hv [Hd _]. by apply IPPrefix_set. Qed.

Lemma tunnel_row_hop luid p init :
  unions_full init -> Sockaddr_Addr (MibIPforwardRow2.NextHop (tunnel_row luid p init)) = IPv4Unspecified.
Proof. intros [_ Hn]. exact (Sockaddr_set IPv4Unspecified _ wf_unspecified eq_refl Hn). Qed.

(** The row of an IPv6 prefix has none for IPv4. *)
Lemma tunnel_row_6 luid p init :
  IsValid (ip p) = true -> Is4 (ip p) = false -> Is4 (ip (dest (tunnel_row luid p init))) = false.
Proof. destruct p as [[|o|o z] b]; done. Qed.

Lemma tunnel_row_family luid p init :
  Is4 (ip p) = true ->
  Family (RawPrefix (MibIPforwardRow2.DestinationPrefix (tunnel_row luid p init))) = AF_INET.
Proof. by destruct p as [[|o|o z] b]. Qed.

Lemma Contains_is4 p d : Contains p (Addr4 d) = true -> Is4 (ip p) = true.
Proof. unfold Contains. intros [_ Hc]%andb_prop. by destruct (ip p). Qed.

Lemma tunnel_prefixes_wf a p : p ∈ tunnel_prefixes a -> Is4 (ip p) = true -> wf_prefix p.
Proof.
  unfold tunnel_prefixes. destruct (ParsePrefix _) as [q|] eqn:Hq; [|by intros ?%elem_of_nil].
  destruct (_ && _).
  - intros Hp _. apply in_pair in Hp as [-> | ->]; apply PrefixFrom_wf; [apply wf_unspecified|].
    split; [done|]. by repeat constructor.
  - intros ->%list_elem_of_singleton H4. apply ParsePrefix_valid in Hq as Hv.
    destruct q as [[|o|o z] b]; try done. pose proof (ParsePrefix_wf4 _ _ o Hq eq_refl).
    destruct Hv as [_ Hb]. unfold Bits in Hb. split; [done|]. split; [done|]. cbn in *. lia.
Qed.

Lemma refused_route row0 r init c tr :
  omap refused (Ev (embed (InitializeIpForwardEntry row0)) init ::
                Ev (embed (CreateIpForwardEntry2 r)) c :: tr)
  = (if decide (c <> 0 /\ Family (RawPrefix (MibIPforwardRow2.DestinationPrefix r)) = AF_INET)
     then [r] else []) ++ omap refused tr.
Proof.
  change (omap refused (_ :: _ :: tr))
    with (match (if decide (c <> 0 /\ Family (RawPrefix (MibIPforwardRow2.DestinationPrefix r)) = AF_INET)
                 then Some r else None) with
          | Some y => y :: omap refused tr | None => omap refused tr end).
  by case_decide.
Qed.

(** What adding prefixes creates. *)
Lemma installs_created luid ps tr :
  installs luid ps tr ->
  omap deleted tr = [] /\
  (forall r, r ∈ omap created tr -> exists p init,
     p ∈ ps /\ init ∈ omap initialized tr /\ r = tunnel_row luid p init) /\
  (omap refused tr = [] -> forall p, p ∈ ps -> Is4 (ip p) = true ->
     exists init, init ∈ omap initialized tr /\ tunnel_row luid p init ∈ omap created tr).
Proof.
  induction 1 as [|p ps init tr _ (Hd & Hc & Ha)|p ps init c tr Hc0 _ (Hd & Hc & Ha)].
  - split; [done|]. split; [by intros r Hr%elem_of_nil|]. by intros _ p Hp%elem_of_nil.
  - split; [done|]. rewrite created_route. split.
    + intros r Hr. apply elem_of_cons in Hr as [->|Hr].
      * exists p, init. split; [apply list_elem_of_here|]. split; [apply list_elem_of_here|done].
      * destruct (Hc r Hr) as (q & i & Hq & Hi & ->). exists q, i.
        split; [by apply list_elem_of_further|]. split; [by apply list_elem_of_further|done].
    + intros Hr q Hq H4. apply elem_of_cons in Hq as [->|Hq].
      * exists init. split; apply list_elem_of_here.
      * destruct (Ha Hr q Hq H4) as (i & Hi & Hin). exists i. split; by apply list_elem_of_further.
  - split; [done|]. rewrite created_route, decide_False by done. split.
    + intros r Hr. destruct (Hc r Hr) as (q & i & Hq & Hi & ->). exists q, i.
      split; [by apply list_elem_of_further|]. split; [by apply list_elem_of_further|done].
    + intros Hr q Hq H4. rewrite refused_route in Hr. apply app_nil in Hr as [Hp Hr].
      assert (Is4 (ip p) = false) as Hp6.
      { destruct (Is4 (ip p)) eqn:Hp4; [|done]. rewrite decide_True in Hp; [done|].
        split; [done|]. by apply tunnel_row_family. }
      apply elem_of_cons in Hq as [->|Hq]; [congruence|].
      destruct (Ha Hr q Hq H4) as (i & Hi & Hin). exists i. split; [by apply list_elem_of_further|done].
Qed.

Section Tunnel.
Context {Config : Type} `{ConfigView Config}.

(** The AllowedIPs of all peers, parsed. *)
Definition allows (cfg : Config) (p : Prefix) : Prop :=
  exists peer a, peer ∈ Peers cfg /\ a ∈ Peer_AllowedIPs peer /\ ParsePrefix (TrimSpace a) = Some p.

Context (luid : LUID) (cfg : Config) (tr : list (event routeE)).
Context (full : Forall unions_full (omap initialized tr)).
Context (made : exec (addTunnelRoutes luid cfg : prog routeE unit) tr tt).

Lemma tunnel_row_of r :
  r ∈ omap created tr -> exists a p init, 
    p ∈ tunnel_prefixes a /\ (exists peer, peer ∈ Peers cfg /\ a ∈ Peer_AllowedIPs peer) /\
    unions_full init /\ r = tunnel_row luid p init /\
    (Is4 (ip (dest r)) = true -> Is4 (ip p) = true /\ dest r = p).
Proof.
  intros Hr. destruct (installs_created _ _ _ (exec_addTunnelRoutes luid cfg tr tt made)) as (_ & Hc & _).
  destruct (Hc r Hr) as (p & init & Hp & Hi & ->).
  apply elem_of_all_tunnel_prefixes in Hp as (peer & a & Hpe & Ha & Hp).
  rewrite Forall_forall in full. pose proof (full init Hi) as Hf.
  exists a, p, init. split; [done|]. split; [by exists peer|]. split; [done|]. split; [done|].
  pose proof (tunnel_prefixes_valid a) as Hv. rewrite Forall_forall in Hv. specialize (Hv p Hp).
  intros H4. destruct (Is4 (ip p)) eqn:Hp4.
  - split; [done|]. apply row_dest; [|done..]. by eapply tunnel_prefixes_wf.
  - by rewrite tunnel_row_6 in H4.
Qed.

(** An IPv4 address is in a row exactly when it is in an entry, refusals aside. *)
Lemma tunnel_rows_cover d :
  wf_addr (Addr4 d) ->
  (forall r, r ∈ omap created tr -> Contains (dest r) (Addr4 d) = true ->
     1 <= Bits (dest r) /\ exists p, allows cfg p /\ Contains p (Addr4 d) = true) /\
  (omap refused tr = [] -> forall p, allows cfg p -> Contains p (Addr4 d) = true ->
     exists r, r ∈ omap created tr /\ Contains (dest r) (Addr4 d) = true).
Proof.
  intros Hd. split.
  - intros r Hr Hc. destruct (tunnel_row_of r Hr) as (a & p & init & Hp & (peer & Hpe & Ha) & _ & _ & Hi).
    destruct (Hi (Contains_is4 _ _ Hc)) as [H4 Hdest]. rewrite Hdest in *.
    destruct (tunnel_prefixes_cover a (Addr4 d) Hd) as [Hcov Hbits]. split; [by apply Hbits|].
    destruct (proj1 Hcov (ex_intro _ p (conj Hp Hc))) as (q & Hq & Hcq).
    exists q. split; [by exists peer, a|done].
  - intros Hr p (peer & a & Hpe & Ha & Hq) Hc.
    destruct (tunnel_prefixes_cover a (Addr4 d) Hd) as [Hcov _].
    destruct (proj2 Hcov (ex_intro _ p (conj Hq Hc))) as (q & Hqa & Hcq).
    pose proof (Contains_is4 _ _ Hcq) as H4.
    destruct (installs_created _ _ _ (exec_addTunnelRoutes luid cfg tr tt made)) as (_ & _ & Hm).
    destruct (Hm Hr q) as (init & Hi & Hin); [|done|].
    { apply elem_of_all_tunnel_prefixes. by exists peer, a. }
    exists (tunnel_row luid q init). split; [done|]. rewrite row_dest; [done| | |].
    + by eapply tunnel_prefixes_wf.
    + cbn. by destruct (ip q).
    + rewrite Forall_forall in full. by apply full.
Qed.
(** A table of the system's routes, the exception's if there is one, and these. *)
Context (system exc : list row).

(** Nothing is longer than the exception. *)
Lemma server_longest s r :
  exc = [r] -> dest r = PrefixFrom (Addr4 s) 32 ->
  (forall q, q ∈ system -> Contains (dest q) (Addr4 s) = true -> Bits (dest q) < 32) ->
  (forall p, allows cfg p -> Contains p (Addr4 s) = true -> Bits p < 32) ->
  (exists q, longest (system ++ exc ++ omap created tr) (Addr4 s) q) /\
  forall q, longest (system ++ exc ++ omap created tr) (Addr4 s) q -> q = r.
Proof.
  intros -> Hdest Hsys Hall. apply (longest_unique _ _ (fun q => q = r) r).
  - apply elem_of_app. right. apply list_elem_of_here.
  - rewrite Hdest. apply Contains_self.
  - rewrite Hdest. intros q Hq Hcq Hb. change (Bits (PrefixFrom (Addr4 s) 32)) with 32 in Hb.
    apply elem_of_app in Hq as [Hq|Hq]; [specialize (Hsys q Hq Hcq); lia|].
    apply elem_of_cons in Hq as [->|Hq]; [done|].
    destruct (tunnel_row_of q Hq) as (a & p & i & Hpa & (peer & Hpe & Ha) & _ & _ & H4).
    destruct (H4 (Contains_is4 _ _ Hcq)) as [_ Hd]. rewrite Hd in *.
    apply tunnel_prefixes_long in Hpa; [|lia].
    specialize (Hall p (ex_intro _ peer (ex_intro _ a (conj Hpe (conj Ha Hpa)))) Hcq). lia.
Qed.

(** Where only default routes and the tunnel's lead, the tunnel's do. *)
Lemma others_longest d p :
  wf_addr (Addr4 d) -> omap refused tr = [] ->
  allows cfg p -> Is4 (ip p) = true -> Bits p = 0 ->
  (forall q, q ∈ system -> Contains (dest q) (Addr4 d) = true -> Bits (dest q) = 0) ->
  (forall q, q ∈ exc -> Contains (dest q) (Addr4 d) = false) ->
  (exists q, longest (system ++ exc ++ omap created tr) (Addr4 d) q) /\
  forall q, longest (system ++ exc ++ omap created tr) (Addr4 d) q ->
    MibIPforwardRow2.InterfaceLUID q = luid.
Proof.
  intros Hd Href Hp H4 Hb Hsys Hexc. destruct (tunnel_rows_cover d Hd) as [Hrows Hcover].
  assert (Contains p (Addr4 d) = true) as Hcp.
  { destruct Hp as (peer & a & _ & _ & Hpp). destruct p as [[|o|o z] b]; try done.
    apply Contains_default with o; [done|done| |done]. by eapply ParsePrefix_wf4. }
  destruct (Hcover Href p Hp Hcp) as (r & Hr & Hcr). destruct (Hrows r Hr Hcr) as [Hbits _].
  apply (longest_unique _ _ _ r); [in_trace|done|]. intros q Hq Hcq Hle.
  apply elem_of_app in Hq as [Hq|Hq]; [specialize (Hsys q Hq Hcq); lia|].
  apply elem_of_app in Hq as [Hq|Hq]; [by rewrite Hexc in Hcq|].
  by destruct (tunnel_row_of q Hq) as (a & p' & i & _ & _ & _ & -> & _).
Qed.
End Tunnel.

Section Theorems.
Context {Config : Type} `{ConfigView Config}.
Context (mtu : Z) (arch : string) (text : GUID -> string).

(** C26: [addTunnelRoutes] makes exactly the calls for the AllowedIPs in their
    order, every 0.0.0.0/0 as its two halves, each row on the tunnel, on-link and
    of metric 0, a refusal only logged.  So no row it creates is an IPv4 default
    route, an IPv4 address in a row is in the AllowedIPs, and when no IPv4 row is
    refused an IPv4 address in the AllowedIPs is in a row.  (Rows for IPv6 get
    the IPv4 next hop, too; whether the system takes them is not said.) *)
Theorem tunnel_routes_cover (luid : LUID) (cfg : Config) (tr : list (event routeE)) (r : unit) :
  exec (addTunnelRoutes luid cfg) tr r -> Forall unions_full (omap initialized tr) ->
  installs luid (all_tunnel_prefixes cfg) tr /\
  (forall r, r ∈ omap created tr ->
     MibIPforwardRow2.InterfaceLUID r = luid /\ MibIPforwardRow2.Metric r = 0 /\
     Sockaddr_Addr (MibIPforwardRow2.NextHop r) = IPv4Unspecified /\
     (Is4 (ip (dest r)) = true -> 1 <= Bits (dest r))) /\
  (forall d, wf_addr (Addr4 d) ->
     ((exists r, r ∈ omap created tr /\ Contains (dest r) (Addr4 d) = true) ->
      exists p, allows cfg p /\ Contains p (Addr4 d) = true) /\
     (omap refused tr = [] -> (exists p, allows cfg p /\ Contains p (Addr4 d) = true) ->
      exists r, r ∈ omap created tr /\ Contains (dest r) (Addr4 d) = true)).
Proof.
  intros He Hf. destruct r. split; [by eapply exec_addTunnelRoutes|]. split.
  - intros r Hr. destruct (tunnel_row_of luid cfg tr Hf He r Hr)
      as (a & p & init & Hp & _ & Hi & -> & H4).
    split; [done|]. split; [done|]. split; [by apply tunnel_row_hop|].
    intros Hd. destruct (H4 Hd) as [Hp4 ->].
    exact (proj2 (tunnel_prefixes_cover a IPv4Unspecified wf_unspecified) p Hp Hp4).
  - intros d Hd. destruct (tunnel_rows_cover luid cfg tr Hf He d Hd) as [H1 H2]. split.
    + intros (r & Hr & Hc). by destruct (H1 r Hr Hc).
    + intros Hr (p & Hp & Hc). by apply (H2 Hr p).
Qed.

(** C22: the table that the calls of [ConfigureRouting] leave, whatever routes the
    system had.  If it recorded an exception (its LUID is not 0) then for the
    address the resolver gave for a peer: when no route of the system and no
    AllowedIP is as long as an address, every longest route to that address is
    the exception, on an interface other than the tunnel.  And if the AllowedIPs
    hold 0.0.0.0/0 and no IPv4 route was refused, then for every IPv4 address but
    a resolved one that only default routes of the system contain, every longest
    route is on the tunnel: the halves are longer than the default route, the
    exception is longer than both.  (The system initialises whole rows, and the
    resolver gives bytes.) *)
Theorem full_tunnel_routing (luid : LUID) (cfg : Config) (tr : list (event routeE)) (c : cleanup)
    (system : list row) :
  exec (ConfigureRouting mtu arch text luid cfg) tr (Some (Ok c)) ->
  Forall unions_full (omap initialized tr) ->
  (forall s, resolved (Peers cfg) tr s -> wf_addr (Addr4 s)) ->
  let table := routes_after system tr in
  (exceptionLUID c <> 0 -> exists s, resolved (Peers cfg) tr s /\
     ((forall r, r ∈ system -> Contains (dest r) (Addr4 s) = true -> Bits (dest r) < 32) ->
      (forall p, allows cfg p -> Contains p (Addr4 s) = true -> Bits p < 32) ->
      (exists r, longest table (Addr4 s) r) /\
      forall r, longest table (Addr4 s) r ->
        (exists init, r = exception_row c init) /\ MibIPforwardRow2.InterfaceLUID r <> luid)) /\
  (forall d, wf_addr (Addr4 d) -> omap refused tr = [] ->
     (exists p, allows cfg p /\ Is4 (ip p) = true /\ Bits p = 0) ->
     (forall r, r ∈ system -> Contains (dest r) (Addr4 d) = true -> Bits (dest r) = 0) ->
     ~ resolved (Peers cfg) tr d ->
     (exists r, longest table (Addr4 d) r) /\
     forall r, longest table (Addr4 d) r -> MibIPforwardRow2.InterfaceLUID r = luid).
Proof.
  intros He Hf Hbytes table.
  apply ConfigureRouting_parts in He as (pre & exc & tun & post & -> & Hpre & Hpost & Hc & Ht).
  apply plain_trace in Hpre as [Hpre Hpred]. apply plain_trace in Hpost as [Hpost Hpostd].
  rewrite !omap_app, !Forall_app in Hf. destruct Hf as (_ & Hfe & Hft & _).
  apply exec_add_exception in Hc as (_ & Hcd & Hc).
  destruct (installs_created _ _ _ (exec_addTunnelRoutes luid cfg tun tt Ht)) as (Htd & _ & _).
  assert (table = system ++ omap created exc ++ omap created tun) as Htable.
  { unfold table. rewrite routes_after_created by (by rewrite !omap_app, Hpred, Hcd, Htd, Hpostd).
    by rewrite !omap_app, Hpre, Hpost, app_nil_r. }
  assert (forall s, resolved (Peers cfg) exc s -> resolved (Peers cfg) (pre ++ exc ++ tun ++ post) s)
    as Hmore.
  { intros s Hs. eapply resolved_more; [exact Hs|done|intros ? ?; in_trace]. }
  assert (forall s init, exceptionPrefix c = PrefixFrom (Addr4 s) 32 -> wf_addr (Addr4 s) ->
    ipev (InitializeIpForwardEntry MibIPforwardRow2.zero) init ∈ exc ->
    dest (exception_row c init) = PrefixFrom (Addr4 s) 32) as Hexc.
  { intros s init Hp Hs Hi. rewrite Forall_forall in Hfe.
    rewrite row_dest; cbn [Destination]; rewrite ?Hp; [done|by apply PrefixFrom_wf|done|].
    apply Hfe, list_elem_of_omap. by eexists. }
  rewrite Htable. split.
  - intros Hne. destruct Hc as [[_ Hz]|(s & init & Hres & Hp & Hluid & _ & Hi & Hcr)]; [done|].
    exists s. split; [by apply Hmore|]. intros Hsys Hall.
    destruct (server_longest luid cfg tun Hft Ht system _ s _ Hcr
                (Hexc s init Hp (Hbytes s (Hmore s Hres)) Hi) Hsys Hall) as [Hex Hun].
    split; [done|]. intros r Hr. rewrite (Hun r Hr). split; [by eexists|done].
  - intros d Hd Href (p & Hp & H4 & Hb) Hsys Hnot. rewrite !omap_app in Href.
    apply app_nil in Href as [_ [_ [Href _]%app_nil]%app_nil].
    apply (others_longest luid cfg tun Hft Ht system _ d p); try done. intros q Hq.
    destruct Hc as [[Hnil _]|(s & init & Hres & Hps & _ & _ & Hi & Hcr)].
    { rewrite Hnil in Hq. by apply elem_of_nil in Hq. }
    rewrite Hcr in Hq. apply list_elem_of_singleton in Hq as ->.
    pose proof (Hbytes s (Hmore s Hres)) as Hs. rewrite (Hexc s init Hps Hs Hi).
    destruct (Contains _ _) eqn:Hcq; [|done]. apply Contains_host in Hcq; [|done..].
    subst. by destruct Hnot; apply Hmore.
Qed.
End Theorems.

(** ** The sample configuration *)
Module ForwardingSample.
Abbreviation conf := Sample.config.

Definition everything : Prefix := PrefixFrom IPv4Unspecified 0.

Lemma allows_everything : allows (Config := conf) RoutingSample.cfg everything.
Proof.
  exists ("vpn.example:51820", [" 0.0.0.0/0 "; "10.1.0.0/16"]), " 0.0.0.0/0 ".
  split; [apply list_elem_of_here|]. split; [apply list_elem_of_here|]. by vm_compute.
Qed.

Lemma allows_short p : allows (Config := conf) RoutingSample.cfg p -> Bits p < 32.
Proof.
  intros (peer & a & Hpe & Ha & Hp). apply list_elem_of_singleton in Hpe as ->.
  apply in_pair in Ha as [-> | ->]; vm_compute in Hp; injection Hp as <-; by vm_compute.
Qed.

(** The routes added alone, and the whole configuration. *)
Definition added :=
  run (traced RoutingSample.grant)
    (addTunnelRoutes (Config := conf) 7 RoutingSample.cfg : prog routeE unit) (tt, []).
Definition configured_trace : list (event routeE) := RoutingSample.configured.2.2.

Definition fullb (r : row) : bool :=
  bool_decide (length (data (RawPrefix (MibIPforwardRow2.DestinationPrefix r))) = 26%nat) &&
  bool_decide (length (data (MibIPforwardRow2.NextHop r)) = 26%nat).

Lemma fullb_all l : forallb fullb l = true -> Forall unions_full l.
Proof.
  intros Hl. apply Forall_forall. intros r Hr. apply (forallb_elem _ _ r) in Hl; [|done].
  apply andb_prop in Hl as [H1%bool_decide_eq_true H2%bool_decide_eq_true]. by split.
Qed.

Lemma full_added : Forall unions_full (omap initialized added.2.2).
Proof. apply fullb_all. vm_compute. reflexivity. Qed.
Lemma full_configured : Forall unions_full (omap initialized configured_trace).
Proof. apply fullb_all. vm_compute. reflexivity. Qed.
Lemma nothing_refused : omap refused added.2.2 = [] /\ omap refused configured_trace = [].
Proof. split; vm_compute; reflexivity. Qed.

(** One lookup was answered. *)
Lemma lookups : omap looked_up configured_trace = [("vpn.example", [[203; 0; 113; 7]])].
Proof. vm_compute. reflexivity. Qed.

Lemma resolved_server s :
  resolved (Peers (Config := conf) RoutingSample.cfg) configured_trace s -> s = RoutingSample.server.
Proof.
  intros (p & ips & _ & _ & Hl & Hs). rewrite lookups in Hl. apply list_elem_of_singleton in Hl.
  injection Hl as _ ->. vm_compute in Hs. by injection Hs as <-.
Qed.

Lemma default_row_dest : dest RoutingSample.default_row = everything.
Proof. vm_compute. reflexivity. Qed.
End ForwardingSample.
Import ForwardingSample.

Lemma tunnel_routes_cover_witness :
  exists r, r ∈ omap created added.2.2 /\ Contains (dest r) (Addr4 RoutingSample.other) = true.
Proof.
  pose proof (run_exec RoutingSample.grant
    (addTunnelRoutes (Config := conf) 7 RoutingSample.cfg : prog routeE unit) tt) as He.
  destruct (tunnel_routes_cover (Config := conf) 7 RoutingSample.cfg _ _ He full_added)
    as (_ & _ & Hcov).
  apply (proj2 (Hcov RoutingSample.other RoutingSample.wf_other)); [exact (proj1 nothing_refused)|].
  exists everything. split; [exact allows_everything|]. vm_compute. reflexivity.
Defined.

(** The server over interface 3, another address over the tunnel, 7. *)
Lemma full_tunnel_routing_witness :
  let table := routes_after [RoutingSample.default_row] configured_trace in
  (exists r, longest table (Addr4 RoutingSample.server) r /\ MibIPforwardRow2.InterfaceLUID r = 3) /\
  (exists r, longest table (Addr4 RoutingSample.other) r /\ MibIPforwardRow2.InterfaceLUID r = 7).
Proof.
  pose proof (run_exec RoutingSample.grant
    (ConfigureRouting (Config := conf) 1420 "amd64" (fun _ => "{g}") 7 RoutingSample.cfg) tt) as He.
  fold RoutingSample.configured in He. rewrite RoutingSample.configured_ok in He.
  destruct (full_tunnel_routing (Config := conf) 1420 "amd64" (fun _ => "{g}") 7 RoutingSample.cfg _ _
              [RoutingSample.default_row] He full_configured) as [Hserver Hother].
  { intros s Hs. rewrite (resolved_server s Hs). exact RoutingSample.wf_server. }
  split.
  - destruct (Hserver ltac:(done)) as (s & Hs & Hl). apply resolved_server in Hs as ->.
    destruct Hl as [[r Hr] Hall].
    + intros r Hr _. apply list_elem_of_singleton in Hr as ->. rewrite default_row_dest. done.
    + intros p Hp _. by apply allows_short.
    + exists r. split; [exact Hr|]. by destruct (Hall r Hr) as [[init ->] _].
  - destruct (Hother RoutingSample.other RoutingSample.wf_other (proj2 nothing_refused)) as [[r Hr] Hall].
    + exists everything. split; [exact allows_everything|done].
    + intros r Hr _. apply list_elem_of_singleton in Hr as ->. by rewrite default_row_dest.
    + intros Hs. by apply resolved_server in Hs.
    + exists r. split; [exact Hr|by apply Hall].
Defined.
