(* ===== verification/ChangeHandler.v ===== *)
(** * Change notifications (winipcfg/*_change_handler.go)

    The three handlers - for routes, interfaces and unicast addresses - are the
    same code over three procedures and three kinds of rows, so they are one
    section over the procedure that registers ([Notify]).  The callbacks are a set of pointers; the goroutines
    a notification starts are counted in the wait group of their callback. *)

From S2P Require Import Prelude IpHelper IpTypes Sockaddr.
From Stdlib Require Import ZArith Lia.
From stdpp Require Import base gmap list relations strings.
Open Scope Z_scope.
Local Open Scope list_scope.

(** The procedures of iphlpapi.dll; a registration answers with its code and
    handle. *)
Inductive notifyE : Type -> Type :=
| NotifyIpInterfaceChange (family callback context initial : Z) : notifyE (Z * Z)
| NotifyRouteChange2 (family callback context initial : Z) : notifyE (Z * Z)
| NotifyUnicastIpAddressChange (family callback context initial : Z) : notifyE (Z * Z)
| CancelMibChangeNotify2 (handle : Z) : notifyE Z.

(** ** Wrappers (winipcfg/zwinipcfg_windows.go) *)

Definition flag (b : bool) : Z := if b then 1 else 0.

(** The handle is written through a pointer, whatever the code. *)
Definition notifyIPInterfaceChange (family callback context : Z) (initial : bool)
    : prog notifyE (Z * option error) :=
  let! (r0, h) := call (NotifyIpInterfaceChange family callback context (flag initial)) in
  Ret (h, ret r0).

Definition notifyRouteChange2 (family callback context : Z) (initial : bool)
    : prog notifyE (Z * option error) :=
  let! (r0, h) := call (NotifyRouteChange2 family callback context (flag initial)) in
  Ret (h, ret r0).

Definition notifyUnicastIPAddressChange (family callback context : Z) (initial : bool)
    : prog notifyE (Z * option error) :=
  let! (r0, h) := call (NotifyUnicastIpAddressChange family callback context (flag initial)) in
  Ret (h, ret r0).

Definition cancelMibChangeNotify2 (handle : Z) : prog notifyE (option error) :=
  let! r0 := call (CancelMibChangeNotify2 handle) in Ret (ret r0).

(** ** One handler *)

Section Handler.
(** The registration of the handler's kind, and its compiled callback
    ([windows.NewCallback]). *)
Context (notify : Z -> Z -> Z -> bool -> prog notifyE (Z * option error)) (callback : Z).

(** The package variables: the registered callbacks and the handle.  [next] is
    the next pointer [&XChangeCallback{}] gives. *)
Record handler : Type := mkHandler {
  callbacks : gset nat;
  handle : Z;
  next : nat;
}.

Definition initial : handler := mkHandler ∅ 0 0.

(** [RegisterXChangeCallback], under both mutexes. *)
Definition Register (s : handler) : prog notifyE (handler * result nat) :=
  let c := next s in
  let s := mkHandler ({[c]} ∪ callbacks s) (handle s) (S c) in
  if decide (handle s = 0) then
    let! (h, err) := notify AF_UNSPEC callback 0 false in
    match err with
    | Some e => Ret (mkHandler (callbacks s ∖ {[c]}) 0 (next s), Err e)
    | None => Ret (mkHandler (callbacks s) h (next s), Ok c)
    end
  else Ret (s, Ok c).

(** [Unregister] up to the wait, under both mutexes: whether this was the last
    callback. *)
Definition Unregister_begin (c : nat) (s : handler) : handler * bool :=
  let s := mkHandler (callbacks s ∖ {[c]}) (handle s) (next s) in
  (s, bool_decide (callbacks s = ∅ /\ handle s <> 0)).

(** [Unregister] after the wait, under the first mutex only. *)
Definition Unregister_end (removeIt : bool) (s : handler) : prog notifyE (handler * option error) :=
  if removeIt then
    let! err := cancelMibChangeNotify2 (handle s) in
    match err with
    | Some e => Ret (s, Some e)
    | None => Ret (mkHandler (callbacks s) 0 (next s), None)
    end
  else Ret (s, None).

(** [xChanged]: a goroutine per callback; the map's order is arbitrary. *)
Definition changed {N} (n : N) (s : handler) : list (nat * N) :=
  map (fun c => (c, n)) (elements (callbacks s)).

(** ** The system around it *)

(** The handler, the goroutines that have not finished, the Unregister that
    waits (it holds the first mutex), and the registrations of the system. *)
Record state (N : Type) : Type := mkState {
  hd : handler;
  active : list (nat * N);
  waiting : option (nat * bool);
  subscribed : list Z;
}.
Arguments mkState {N} hd active waiting subscribed.
Arguments hd {N} s.
Arguments active {N} s.
Arguments waiting {N} s.
Arguments subscribed {N} s.

(** The registrations after the calls of [tr]; a successful one has a handle
    that is not 0. *)
Definition subscribe_step {R} (e : notifyE R) : R -> list Z -> option (list Z) :=
  match e with
  | CancelMibChangeNotify2 h => fun r0 subs =>
      if decide (r0 = 0) then
        match subs with
        | x :: subs => if decide (x = h) then Some subs else None
        | [] => None
        end
      else Some subs
  | NotifyIpInterfaceChange _ _ _ _ | NotifyRouteChange2 _ _ _ _
  | NotifyUnicastIpAddressChange _ _ _ _ => fun a subs =>
      Some (if decide (a.1 = 0) then a.2 :: subs else subs)
  end.

Definition subscribe : monitor_step notifyE (list Z) := fun R e r subs => subscribe_step e r subs.

Definition handle_valid : assumption notifyE (list Z) := fun R e r _ =>
  match e in notifyE R return R -> Prop with
  | CancelMibChangeNotify2 _ => fun _ => True
  | _ => fun a => a.1 = 0 -> a.2 <> 0
  end r.

Inductive hstep {N} : state N -> state N -> Prop :=
| step_register s act subs tr s' r subs' :
    exec (Register s) tr (s', r) -> admissible subscribe handle_valid subs tr ->
    monitor subscribe subs tr = Some subs' ->
    hstep (mkState s act None subs) (mkState s' act None subs')
| step_unregister c s act subs s' removeIt :
    (c < next s)%nat -> Unregister_begin c s = (s', removeIt) ->
    hstep (mkState s act None subs) (mkState s' act (Some (c, removeIt)) subs)
| step_unregistered c removeIt s act subs tr s' err subs' :
    (forall n, (c, n) ∉ act) -> exec (Unregister_end removeIt s) tr (s', err) ->
    monitor subscribe subs tr = Some subs' ->
    hstep (mkState s act (Some (c, removeIt)) subs) (mkState s' act None subs')
| step_notify n s act w subs :
    subs <> [] -> hstep (mkState s act w subs) (mkState s (changed n s ++ act) w subs)
| step_finish s act1 c n act2 w subs :
    hstep (mkState s (act1 ++ (c, n) :: act2) w subs) (mkState s (act1 ++ act2) w subs).
End Handler.

Arguments state N : clear implicits.
Arguments mkState {N} hd active waiting subscribed.
Arguments hd {N} s.
Arguments active {N} s.
Arguments waiting {N} s.
Arguments subscribed {N} s.

(** ** The three handlers *)
Definition RegisterInterfaceChangeCallback := Register notifyIPInterfaceChange.
Definition RegisterRouteChangeCallback := Register notifyRouteChange2.
Definition RegisterUnicastAddressChangeCallback := Register notifyUnicastIPAddressChange.
Definition InterfaceChangeCallback_Unregister_begin := Unregister_begin.
Definition InterfaceChangeCallback_Unregister_end := Unregister_end.
Definition UnicastAddressChangeCallback_Unregister_begin := Unregister_begin.
Definition UnicastAddressChangeCallback_Unregister_end := Unregister_end.
Definition interfaceChanged := changed (N := Z * MibIPInterfaceRow.t).
Definition routeChanged := changed (N := Z * MibIPforwardRow2.t).
Definition unicastAddressChanged := changed (N := Z * MibUnicastIPAddressRow.t).

(** What a procedure that registers for notifications promises. *)
Class Notify (notify : Z -> Z -> Z -> bool -> prog notifyE (Z * option error)) : Prop :=
  notify_spec : forall family callback context init, exists e : notifyE (Z * Z),
    notify family callback context init = bind (call e) (fun '(r0, h) => Ret (h, ret r0)) /\
    (forall a subs, subscribe_step e a subs = Some (if decide (a.1 = 0) then a.2 :: subs else subs)) /\
    (forall a subs, handle_valid _ e a subs -> a.1 = 0 -> a.2 <> 0).

#[export] Instance Notify_interface : Notify notifyIPInterfaceChange.
Proof. intros f c x i. by exists (NotifyIpInterfaceChange f c x (flag i)). Qed.
#[export] Instance Notify_route : Notify notifyRouteChange2.
Proof. intros f c x i. by exists (NotifyRouteChange2 f c x (flag i)). Qed.
#[export] Instance Notify_unicast : Notify notifyUnicastIPAddressChange.
Proof. intros f c x i. by exists (NotifyUnicastIpAddressChange f c x (flag i)). Qed.

(** ** What holds in every state *)
Section Invariant.
Context (notify : Z -> Z -> Z -> bool -> prog notifyE (Z * option error)) `{!Notify notify}.
Context (callback : Z) {N : Type}.

Abbreviation hstep := (hstep notify callback (N := N)).

(** The system has the handle's registration and no other. *)
Definition registrations (s : handler) : list Z :=
  if decide (handle s = 0) then [] else [handle s].

Record hinv (x : state N) : Prop := {
  hinv_subs : subscribed x = registrations (hd x);
  hinv_handle : callbacks (hd x) <> ∅ -> handle (hd x) <> 0;
  hinv_fresh : forall c, c ∈ callbacks (hd x) -> (c < next (hd x))%nat;
  hinv_active : forall c n, (c, n) ∈ active x ->
    (c < next (hd x))%nat /\ (c ∈ callbacks (hd x) \/ exists rm, waiting x = Some (c, rm));
  hinv_waiting : forall c rm, waiting x = Some (c, rm) ->
    c ∉ callbacks (hd x) /\ (c < next (hd x))%nat /\
    rm = bool_decide (callbacks (hd x) = ∅ /\ handle (hd x) <> 0);
}.

Definition start : state N := mkState initial [] None [].

Lemma hinv_start : hinv start.
Proof.
  split; cbn; try done. intros c n Hc. by apply elem_of_nil in Hc.
Qed.

(** A registration keeps the old callbacks, and on success adds the new one. *)
Lemma exec_Register s tr s' r subs' :
  exec (Register notify callback s) tr (s', r) ->
  admissible subscribe handle_valid (registrations s) tr ->
  monitor subscribe (registrations s) tr = Some subs' ->
  (callbacks s <> ∅ -> handle s <> 0) -> next s ∉ callbacks s ->
  subs' = registrations s' /\ (callbacks s' <> ∅ -> handle s' <> 0) /\ next s' = S (next s) /\
  match r with
  | Ok c => c = next s /\ callbacks s' = {[c]} ∪ callbacks s
  | Err _ => callbacks s' = callbacks s
  end.
Proof.
  intros He Ha Hm Hh Hfresh. unfold Register in He. cbn [handle callbacks next] in He.
  unfold registrations in Ha, Hm. destruct (decide (handle s = 0)) as [Hz|Hz].
  - destruct (notify_spec AF_UNSPEC callback 0 false) as (e & Hn & Hsub & Hval). rewrite Hn in He.
    apply exec_bind in He as (tr1 & tr2 & [h err] & -> & Hc & He).
    apply exec_bind in Hc as (tr3 & tr4 & [r0 h'] & -> & Hc & [-> [= -> ->]]).
    apply exec_call in Hc as ->. cbn [app] in Ha, Hm.
    assert (tr2 = []) as -> by (unfold ret in He; destruct (decide _); by destruct He).
    destruct Ha as [Ha _]. cbn [monitor app] in Hm. unfold subscribe in Hm. rewrite Hsub in Hm.
    injection Hm as <-. cbn [fst snd]. unfold ret in He. destruct (decide (r0 = 0)) as [->|Hr].
    + destruct He as [_ [= -> ->]]. specialize (Hval _ _ Ha eq_refl). simpl in Hval.
      unfold registrations. cbn. by rewrite decide_False.
    + destruct He as [_ [= -> ->]]. unfold registrations. cbn. split; [done|].
      assert (callbacks s = ∅) as Hempty.
      { destruct (decide (callbacks s = ∅)); [done|]. by destruct Hh. }
      rewrite Hempty. split; [|split; [done|set_solver]]. intros Hne. destruct Hne. set_solver.
  - destruct He as [-> [= -> ->]]. cbn in *. injection Hm as <-. unfold registrations. cbn.
    by rewrite decide_False.
Qed.

Lemma exec_Unregister_end removeIt s tr s' err subs' :
  exec (Unregister_end removeIt s) tr (s', err) ->
  monitor subscribe (registrations s) tr = Some subs' ->
  removeIt = bool_decide (callbacks s = ∅ /\ handle s <> 0) ->
  (callbacks s <> ∅ -> handle s <> 0) ->
  subs' = registrations s' /\ (callbacks s' <> ∅ -> handle s' <> 0) /\
  callbacks s' = callbacks s /\ next s' = next s.
Proof.
  intros He Hm Hr Hh. unfold Unregister_end in He. destruct removeIt.
  - symmetry in Hr. apply bool_decide_eq_true in Hr as [Hempty Hz].
    apply exec_bind in He as (tr1 & tr2 & e & -> & Hc & He).
    apply exec_bind in Hc as (tr3 & tr4 & r0 & -> & Hc & [-> ->]). apply exec_call in Hc as ->.
    cbn [app] in Hm. unfold registrations in Hm. rewrite (decide_False (P := handle s = 0)) in Hm by done.
    cbn in Hm. unfold subscribe in Hm. cbn in Hm. unfold ret in He.
    destruct (decide (r0 = 0)) as [->|Hr0].
    + rewrite decide_True in Hm by done. destruct He as [-> [= -> ->]]. injection Hm as <-.
      unfold registrations. cbn. split; [done|]. by rewrite Hempty.
    + destruct He as [-> [= -> ->]]. injection Hm as <-. unfold registrations.
      by rewrite decide_False.
  - destruct He as [-> [= -> ->]]. by injection Hm as <-.
Qed.

Lemma elem_of_changed (n : N) s c m : (c, m) ∈ changed n s <-> c ∈ callbacks s /\ m = n.
Proof. unfold changed. rewrite list_elem_of_fmap. setoid_rewrite elem_of_elements. naive_solver. Qed.

Lemma hinv_step x y : hinv x -> hstep x y -> hinv y.
Proof.
  intros [Hsub Hh Hf Ha Hw] Hs.
  destruct Hs as [s act subs tr s' r subs' He Had Hm|c s act subs s' rm Hc Hb
                 |c rm s act subs tr s' err subs' Hno He Hm|n s act w subs Hne|s act1 c n act2 w subs];
    cbn in *.
  - subst subs. assert (next s ∉ callbacks s) as Hfresh by (intros Hin; apply Hf in Hin; lia).
    destruct (exec_Register _ _ _ _ _ He Had Hm Hh Hfresh) as (Hsub & Hh' & Hn & Hr).
    assert (forall c, c ∈ callbacks s -> c ∈ callbacks s') as Hsup
      by (destruct r; [destruct Hr as [_ ->]|rewrite Hr]; set_solver).
    split; cbn; try done.
    + intros c Hc. rewrite Hn. destruct r as [c'|e].
      * destruct Hr as [-> Hr]. rewrite Hr in Hc. apply elem_of_union in Hc as [Hc|Hc].
        -- apply elem_of_singleton in Hc. lia.
        -- apply Hf in Hc. lia.
      * rewrite Hr in Hc. apply Hf in Hc. lia.
    + intros c n Hin. apply Ha in Hin as [Hlt [Hin|[rm [=]]]]. split; [lia|]. left. by apply Hsup.
  - injection Hb as <- <-. split; cbn; try done.
    + intros Hne. apply Hh. set_solver.
    + intros d Hd. apply Hf. set_solver.
    + intros d n Hin. apply Ha in Hin as [Hlt [Hin|[rm' [=]]]]. split; [done|].
      destruct (decide (d = c)) as [->|]; [right; eauto|left; set_solver].
    + intros d rm' [= <- <-]. split; [set_solver|done].
  - subst subs. destruct (Hw _ _ eq_refl) as (Hnin & Hlt & Hrm).
    destruct (exec_Unregister_end _ _ _ _ _ _ He Hm Hrm Hh) as (Hsub & Hh' & Hcb & Hn).
    split; cbn; try done; rewrite ?Hcb, ?Hn; try done.
    intros d n Hin. pose proof Hin as Hin'. apply Ha in Hin as [Hd [Hin|[rm' [= <- <-]]]]; [by eauto|].
    by apply Hno in Hin'.
  - split; cbn; try done. intros c m Hin. apply elem_of_app in Hin as [Hin|Hin]; [|by eauto].
    apply elem_of_changed in Hin as [Hin _]. split; [by apply Hf|by left].
  - split; cbn; try done. intros d m Hin. apply (Ha d m). set_solver.
Qed.

(** C29: in every state the system holds exactly the registration of the stored
    handle, there is one as long as a callback is registered, and every goroutine
    in flight belongs to a callback that is registered or whose Unregister is
    waiting for it. *)
Theorem handler_invariant (x : state N) :
  rtc hstep start x ->
  subscribed x = registrations (hd x) /\
  (callbacks (hd x) <> ∅ -> subscribed x = [handle (hd x)] /\ handle (hd x) <> 0) /\
  (forall c n, (c, n) ∈ active x ->
     c ∈ callbacks (hd x) \/ exists rm, waiting x = Some (c, rm)).
Proof.
  intros Hr. assert (hinv x) as [Hsub Hh Hf Ha Hw]
    by (eapply (rtc_invariant hstep hinv); [apply hinv_step|done|apply hinv_start]).
  split; [done|]. split; [|intros c n Hin; by apply Ha in Hin as [_ Hin]].
  intros Hne. specialize (Hh Hne). rewrite Hsub. unfold registrations.
  by rewrite decide_False.
Qed.

(** A callback that is no longer registered, nor known to any goroutine. *)
Definition silent (c : nat) (x : state N) : Prop :=
  hinv x /\ (c < next (hd x))%nat /\ c ∉ callbacks (hd x) /\ (forall n, (c, n) ∉ active x).

Lemma silent_step c x y : silent c x -> hstep x y -> silent c y.
Proof.
  intros (Hinv & Hlt & Hnin & Hno) Hs. pose proof (hinv_step _ _ Hinv Hs) as Hinv'.
  split; [done|]. destruct Hinv as [Hsub Hh Hf _ Hw]. 
  destruct Hs as [s act subs tr s' r subs' He Had Hm|d s act subs s' rm Hc Hb
                 |d rm s act subs tr s' err subs' Hnod He Hm|n s act w subs Hne|s act1 d n act2 w subs];
    cbn in *.
  - subst subs. assert (next s ∉ callbacks s) as Hfresh by (intros Hin; apply Hf in Hin; lia).
    destruct (exec_Register _ _ _ _ _ He Had Hm Hh Hfresh) as (_ & _ & Hn & Hr).
    rewrite Hn. split; [lia|]. split; [|done]. destruct r as [c'|e].
    + destruct Hr as [-> ->]. rewrite not_elem_of_union, not_elem_of_singleton. split; [lia|done].
    + by rewrite Hr.
  - injection Hb as <- <-. cbn. split; [done|]. split; [set_solver|done].
  - subst subs. destruct (Hw _ _ eq_refl) as (_ & _ & Hrm).
    destruct (exec_Unregister_end _ _ _ _ _ _ He Hm Hrm Hh) as (_ & _ & -> & ->). done.
  - split; [done|]. split; [done|]. intros m Hin. apply elem_of_app in Hin as [Hin|Hin].
    + by apply elem_of_changed in Hin as [Hin _].
    + by apply Hno in Hin.
  - split; [done|]. split; [done|]. intros m Hin. apply (Hno m). set_solver.
Qed.

(** C28: once Unregister has returned, its callback is never called again: no
    goroutine for it is in flight and no notification starts one, ever. *)
Theorem unregister_final (x y z : state N) (c : nat) (rm : bool) :
  rtc hstep start x -> waiting x = Some (c, rm) -> hstep x y -> waiting y = None -> rtc hstep y z ->
  c ∉ callbacks (hd z) /\ (forall n, (c, n) ∉ active z).
Proof.
  intros Hr Hwx Hs Hwy Hz.
  assert (hinv x) as Hinv
    by (eapply (rtc_invariant hstep hinv); [apply hinv_step|done|apply hinv_start]).
  assert (silent c y) as Hsilent.
  { split; [by eapply hinv_step|]. destruct Hinv as [Hsub Hh Hf _ Hw].
    destruct (Hw _ _ Hwx) as (Hnin & Hlt & Hrm).
    destruct Hs as [| |d rm' s act subs tr s' err subs' Hno He Hm|n s act w subs Hne|s act1 d n act2 w subs];
      cbn in *; simplify_eq.
    destruct (exec_Unregister_end _ _ _ _ _ _ He Hm eq_refl Hh) as (_ & _ & -> & ->). done. }
  assert (silent c z) as (_ & _ & Hnin & Hno)
    by (eapply (rtc_invariant hstep (silent c)); [intros; by eapply silent_step|exact Hz|exact Hsilent]).
  done.
Qed.
End Invariant.

(** ** At concrete states *)
Module HandlerSample.
Definition register_trace : list (event notifyE) := [Ev (NotifyRouteChange2 0 1 0 0) (0, 5)].
Definition registered : handler := mkHandler ({[0%nat]} ∪ ∅) 5 1.
Definition left_over : handler := mkHandler (({[0%nat]} ∪ ∅) ∖ {[0%nat]}) 5 1.
Definition cancelled : handler := mkHandler (({[0%nat]} ∪ ∅) ∖ {[0%nat]}) 0 1.

Definition x1 : state nat := mkState registered [] None [5].
Definition x2 : state nat := mkState registered [(0%nat, 42%nat)] None [5].
Definition x3 : state nat := mkState left_over [(0%nat, 42%nat)] (Some (0%nat, true)) [5].
Definition x4 : state nat := mkState left_over [] (Some (0%nat, true)) [5].
Definition x5 : state nat := mkState cancelled [] None [].

Abbreviation step := (hstep notifyRouteChange2 1 (N := nat)).

Lemma step1 : step start x1.
Proof.
  eapply (step_register _ _ initial [] [] register_trace registered (Ok 0%nat) [5]).
  - do 2 eexists. split; [reflexivity|]. by split.
  - by split; [|split].
  - reflexivity.
Qed.

Lemma step2 : step x1 x2.
Proof. by apply (step_notify _ _ 42%nat registered [] None [5]). Qed.

Lemma step3 : step x2 x3.
Proof. apply step_unregister; [cbn; lia|]. vm_compute. reflexivity. Qed.

Lemma step4 : step x3 x4.
Proof. apply (step_finish _ _ left_over [] 0%nat 42%nat [] (Some (0%nat, true)) [5]). Qed.

Lemma step5 : step x4 x5.
Proof.
  apply (step_unregistered _ _ 0%nat true left_over [] [5] [Ev (CancelMibChangeNotify2 5) 0]
           cancelled None []).
  - intros n Hn. by apply elem_of_nil in Hn.
  - do 2 eexists. split; [reflexivity|]. by split.
  - reflexivity.
Qed.
End HandlerSample.
Import HandlerSample.

Lemma handler_invariant_witness : subscribed x2 = [5] /\ 0%nat ∈ callbacks (hd x2).
Proof.
  assert (rtc step start x2) as Hr.
  { eapply rtc_l; [exact step1|]. eapply rtc_l; [exact step2|apply rtc_refl]. }
  destruct (handler_invariant notifyRouteChange2 1 x2 Hr) as (Hs & _ & Ha).
  split; [exact Hs|]. destruct (Ha 0%nat 42%nat (list_elem_of_here _ _)) as [Hc|[rm Hc]]; [exact Hc|].
  discriminate Hc.
Defined.

Lemma unregister_final_witness : 0%nat ∉ callbacks (hd x5).
Proof.
  assert (rtc step start x4) as Hr.
  { eapply rtc_l; [exact step1|]. eapply rtc_l; [exact step2|]. eapply rtc_l; [exact step3|].
    eapply rtc_l; [exact step4|apply rtc_refl]. }
  exact (proj1 (unregister_final notifyRouteChange2 1 x4 x5 x5 0%nat true Hr eq_refl step5 eq_refl
                  (rtc_refl _ _))).
Defined.
