(* ===== verification/Session.v ===== *)
(** * The tunnel with its routing (wintunnel/tunnel.go over windev/routing.go)

    The methods of the tunnel controller with ConfigureRouting and the cleanup
    function it returns replaced by their implementation, and what a session
    leaves in the system's routing table.  The two are proved apart (TunnelProps.v,
    RoutingProps.v); here they meet: the tunnel runs every cleanup function it
    got, and a cleanup function removes the route it remembers. *)

From S2P Require Import Prelude Netip Sockaddr IpTypes IpHelper Luid LuidProps Veil Udp Routing.
From S2P Require Import RoutingProps Tunnel TunnelSystem TunnelProps.
From Stdlib Require Import ZArith Lia.
From stdpp Require Import base list strings.
Open Scope Z_scope.
Open Scope string_scope.
Local Open Scope list_scope.

(** ** Deleting a route *)

(** The row the system is asked for. *)
Definition route_key (luid : LUID) (p : Prefix) (hop : Addr) (row : MibIPforwardRow2.t)
    : MibIPforwardRow2.t :=
  let row := MibIPforwardRow2.set_InterfaceLUID luid row in
  let row := MibIPforwardRow2.set_DestinationPrefix
               (SetPrefix p (MibIPforwardRow2.DestinationPrefix row)).1 row in
  MibIPforwardRow2.set_NextHop (SetAddr hop (MibIPforwardRow2.NextHop row)).1 row.

(** The system was asked for the route, and to delete it if it had it. *)
Definition asks_removal (luid : LUID) (p : Prefix) (hop : Addr) (tr : list (event routeE)) : Prop :=
  exists row r0 found,
    Ev (embed (GetIpForwardEntry2 (route_key luid p hop row))) (r0, found) ∈ tr /\
    (r0 = 0 -> exists code, Ev (embed (DeleteIpForwardEntry2 found)) code ∈ tr).

Lemma exec_DeleteRoute luid p hop tr err :
  IsValid (ip p) = true -> IsValid hop = true ->
  exec (DeleteRoute luid p hop : prog routeE _) tr err -> asks_removal luid p hop tr.
Proof.
  intros Hp Hh He. unfold DeleteRoute, fill_route, setting in He.
  apply exec_bind in He as (tr1 & tr2 & row & -> & Hr & He). apply exec_invoke in Hr as ->.
  set (row1 := MibIPforwardRow2.set_InterfaceLUID luid row) in He.
  pose proof (SetPrefix_err p (MibIPforwardRow2.DestinationPrefix row1)) as Hsp. rewrite Hp in Hsp.
  destruct (SetPrefix _ _) as [q e1] eqn:Hq. simpl in Hsp. subst e1.
  set (row2 := MibIPforwardRow2.set_DestinationPrefix q row1) in He.
  pose proof (sockaddr_refused_fact hop (MibIPforwardRow2.NextHop row2)) as Hsa. rewrite Hh in Hsa.
  destruct (SetAddr _ _) as [a e2] eqn:Ha. simpl in Hsa. subst e2.
  assert (MibIPforwardRow2.set_NextHop a row2 = route_key luid p hop row) as Hkey.
  { unfold route_key. cbv zeta. fold row1. rewrite Hq. cbn [fst]. fold row2. by rewrite Ha. }
  rewrite Hkey in He.
  apply exec_bind in He as (tr3 & tr4 & [found err1] & -> & Hg & He).
  apply exec_bind in Hg as (tr5 & tr6 & [r0 found'] & -> & Hg & [-> [= -> ->]]).
  apply exec_invoke in Hg as ->. exists row, r0, found'. split; [in_trace|]. intros ->.
  unfold ret in He. rewrite decide_True in He by done.
  apply exec_bind in He as (tr7 & tr8 & code & -> & Hd & [-> ->]). apply exec_invoke in Hd as ->.
  exists code. in_trace.
Qed.

(** ** What the tunnel's methods call *)
Section Session.
Context {Config : Type} `{ConfigView Config}.

Abbreviation Tunnel := (@Tunnel Routing.cleanup).
Abbreviation tunE := (@tunE Config Routing.cleanup).

(** The routing set up by a call, and the adapter's LUID by another. *)
Definition configured_call {R} (e : tunE R) : R -> option (LUID * Routing.cleanup) :=
  match e in Tunnel.tunE R return R -> option (LUID * Routing.cleanup) with
  | ConfigureRouting luid _ =>
      fun r => match r with Ok c => Some (luid, c) | Err _ => None end
  | _ => fun _ => None
  end.

Definition configured (ev : event tunE) : option (LUID * Routing.cleanup) :=
  configured_call (ev_call _ ev) (ev_answer _ ev).

Definition luid_call {R} (e : tunE R) : R -> option LUID :=
  match e in Tunnel.tunE R return R -> option LUID with
  | Tun_LUID _ => fun luid => Some luid
  | _ => fun _ => None
  end.

Definition adapter_luid (ev : event tunE) : option LUID :=
  luid_call (ev_call _ ev) (ev_answer _ ev).

Abbreviation unrouted := (fun ev => configured ev = None /\ adapter_luid ev = None).

Lemma unrouted_omap (evs : list (event tunE)) :
  Forall unrouted evs -> omap configured evs = [] /\ omap adapter_luid evs = [].
Proof.
  induction 1 as [|ev evs [Hc Hl] _ [IHc IHl]]; [done|]. simpl. by rewrite Hc, Hl.
Qed.

Lemma unrouted_bindUDP cfg tr c :
  exec (bindUDP (F := tunE) cfg) tr c -> omap configured tr = [] /\ omap adapter_luid tr = [].
Proof. intros He. eapply unrouted_omap, always_exec, He. by apply always_bindUDP. Qed.

Lemma unrouted_tune c tr u :
  exec (tuneUDPSocket (F := tunE) c) tr u -> omap configured tr = [] /\ omap adapter_luid tr = [].
Proof. intros He. eapply unrouted_omap, always_exec, He. by apply always_tuneUDPSocket. Qed.

Lemma stop_calls (t t' : Tunnel) evs :
  wf t -> exec (stopLocked (Config := Config) t) evs t' ->
  omap configured evs = [] /\ omap adapter_luid evs = [] /\ wf t' /\
  forall c, cleanup t = Some c -> Ev (RunCleanup c) tt ∈ evs.
Proof.
  intros Hwf He. pose proof He as Ht. apply exec_stop in Ht as ->; [|done].
  destruct (wf_cases t Hwf) as [[g ->]|(g & n & i & e & d & c & cl & ch & ->)].
  - destruct He as [-> _]. by split_and!.
  - unfold stopLocked, when_some in He.
    cbn [running negb eng tun conn cleanup done_ch gen name] in He.
    unfold logf in He. exec_inv. repeat match goal with u : unit |- _ => destruct u end.
    split_and!; [done..|]. intros c' [= <-]. simpl. in_trace.
Qed.
Lemma split_here {X} (x : X) l : x :: l = [] ++ x :: l.
Proof. done. Qed.

Lemma split_cons {X} (x y : X) l a b : l = a ++ x :: b -> y :: l = (y :: a) ++ x :: b.
Proof. by intros ->. Qed.

Lemma split_app {X} (x : X) p l a b : l = a ++ x :: b -> p ++ l = (p ++ a) ++ x :: b.
Proof. intros ->. by rewrite <- app_assoc. Qed.

(** Finds where the routing was configured in a trace. *)
Ltac split_at := first [eapply split_here|eapply split_cons; split_at|eapply split_app; split_at].

Lemma connect_calls text n (t t' : Tunnel) evs err :
  wf t -> exec (Connect (Config := Config) text n t) evs (t', err) ->
  wf t' /\
  (omap configured evs = [] \/
   exists luid evs1 cfg c evs2, omap adapter_luid evs = [luid] /\
     evs = evs1 ++ Ev (ConfigureRouting luid cfg) (Ok c) :: evs2 /\
     omap configured evs1 = [] /\ omap configured evs2 = [] /\
     (cleanup t' = Some c \/ Ev (RunCleanup c) tt ∈ evs2)) /\
  forall c, cleanup t = Some c -> Ev (RunCleanup c) tt ∈ evs.
Proof.
  intros Hwf He. unfold Connect in He.
  apply exec_bind in He as (tr0 & trr & t0 & -> & Hst & He).
  assert (omap configured tr0 = [] /\ omap adapter_luid tr0 = [] /\ wf t0 /\
          forall c, cleanup t = Some c -> Ev (RunCleanup c) tt ∈ tr0) as (Hc0 & Hl0 & Hwf0 & Hcl).
  { destruct (running t) eqn:Hr; [by apply stop_calls in Hst|]. destruct Hst as [-> ->].
    split_and!; [done..|]. unfold wf in Hwf. rewrite Hr in Hwf. rewrite Hwf. done. }
  clear Hst. unfold logf in He.
  repeat (exec_step; cbn beta iota in *);
    repeat match goal with
      | Hb : exec (bindUDP _) _ _ |- _ => apply unrouted_bindUDP in Hb as [? ?]
      | Hb : exec (tuneUDPSocket _) _ _ |- _ => apply unrouted_tune in Hb as [? ?]
      | u : unit |- _ => destruct u
      end.
  all: (split; [try done; by repeat split; eauto|]).
  all: (split; [|intros c' Hc'; specialize (Hcl _ Hc'); simpl; in_trace]).
  all: rewrite !omap_app, Hc0, Hl0; cbn; rewrite ?omap_app;
    repeat match goal with Hx : omap _ _ = [] |- _ => rewrite Hx end; cbn.
  all: try by left.
  all: right; eexists _, _, _, _, _; split; [reflexivity|]; split; [split_at|].
  all: rewrite ?omap_app; cbn; rewrite ?omap_app;
    repeat match goal with Hx : omap _ _ = [] |- _ => rewrite Hx end.
  all: split; [done|]; split; [done|]; first [by left|right; simpl; in_trace].
Qed.

(** ** The two together *)
Context (mtu : Z) (arch : string) (guid_text : GUID -> string).

(** The calls of the tunnel that stay, and those of its routing. *)
Inductive fullE : Type -> Type :=
| Rest {R} (e : tunE R) : fullE R
| Net {R} (e : routeE R) : fullE R.

Definition as_net : forall R, routeE R -> fullE R := fun R e => Net e.

Definition implement : forall R, tunE R -> prog fullE (option R) := fun R e =>
  match e in Tunnel.tunE R return prog fullE (option R) with
  | ConfigureRouting luid cfg =>
      hoist (E := routeE) as_net (Routing.ConfigureRouting mtu arch guid_text luid cfg)
  | RunCleanup c => hoist (E := routeE) as_net (run_cleanup arch guid_text c)
  | e => let! r := call (Rest e) in Ret (Some r)
  end.

(** A method of the tunnel with its routing; [None] is the panic of SetDNS on an
    unknown architecture. *)
Definition routed {A} (p : prog tunE A) : prog fullE (option A) := interp implement p.

(** The calls of the routing in a trace, and the LUIDs the adapter gave. *)
Definition net_event (ev : event fullE) : option (event routeE) :=
  match ev_call _ ev in fullE R return R -> option (event routeE) with
  | Rest _ => fun _ => None
  | Net e => fun r => Some (Ev e r)
  end (ev_answer _ ev).

Definition rest_luid (ev : event fullE) : option LUID :=
  match ev_call _ ev in fullE R return R -> option LUID with
  | Rest e => luid_call e
  | Net _ => fun _ => None
  end (ev_answer _ ev).

Abbreviation net := (omap net_event).

Lemma net_hoisted (tr : list (event routeE)) :
  net (map (hoisted (E := routeE) as_net) tr) = tr /\
  omap rest_luid (map (hoisted (E := routeE) as_net) tr) = [].
Proof.
  induction tr as [|[R e r] tr [IH1 IH2]]; [done|].
  split; [exact (f_equal (cons (Ev e r)) IH1)|exact IH2].
Qed.

(** The implementation of one call: its routing calls and its LUIDs. *)
Abbreviation runs ev seg :=
  (exec (implement _ (ev_call tunE ev)) seg (Some (ev_answer tunE ev))).

Lemma quiet_FlushRoutes luid family : always (fun ev => created ev = None) (FlushRoutes luid family).
Proof.
  unfold FlushRoutes, getIPForwardTable2, table_free, freeMibTable. always_go.
Qed.

Lemma quiet_DeleteRoute luid p hop :
  always (fun ev => created ev = None) (DeleteRoute luid p hop).
Proof.
  unfold DeleteRoute, fill_route, setting, MibIPforwardRow2_Init, initializeIPForwardEntry,
    MibIPforwardRow2_get, getIPForwardEntry2, MibIPforwardRow2_Delete, deleteIPForwardEntry2.
  always_go.
Qed.

Lemma exec_cleanup c tr :
  exec (run_cleanup arch guid_text c) tr (Some tt) ->
  (forall luid, foreign luid tr = []) /\
  (exceptionLUID c <> 0 -> Prefix_IsValid (exceptionPrefix c) = true ->
   IsValid (ip (exceptionPrefix c)) = true -> IsValid (exceptionHop c) = true ->
   asks_removal (exceptionLUID c) (exceptionPrefix c) (exceptionHop c) tr).
Proof.
  intros He. unfold run_cleanup in He.
  apply exec_bind in He as (tr1 & tr2 & e1 & -> & H1 & He).
  apply exec_bind in He as (tr3 & tr4 & [dns|] & -> & H2 & He); [|by destruct He].
  assert (forall luid, foreign luid tr1 = [] /\ foreign luid tr3 = []) as Hq.
  { intros luid. split; [eapply quiet_foreign; [apply quiet_FlushRoutes|exact H1]
                      |eapply plain_foreign; [apply plain_SetDNS|exact H2]]. }
  destruct (bool_decide _ && _) eqn:Hb.
  - apply exec_bind in He as (tr5 & tr6 & e2 & -> & H3 & [-> _]). split.
    + intros luid. destruct (Hq luid) as [Hq1 Hq2]. rewrite !foreign_app, Hq1, Hq2.
      by rewrite (quiet_foreign _ luid _ _ (quiet_DeleteRoute _ _ _) H3).
    + intros Hz Hp Hi Hh. apply exec_DeleteRoute in H3 as (row & r0 & found & Hg & Hd); [|done..].
      exists row, r0, found. split; [in_trace|]. intros Hr0. destruct (Hd Hr0) as [code Hc].
      exists code. in_trace.
  - destruct He as [-> _]. split.
    + intros luid. destruct (Hq luid) as [Hq1 Hq2]. by rewrite !foreign_app, Hq1, Hq2.
    + intros Hz Hp. rewrite Hp, bool_decide_true in Hb by done. done.
Qed.

(** ** One call of the tunnel *)

(** The route a cleanup function removes was removed, if there is one. *)
Definition removes (c : Routing.cleanup) (tr : list (event routeE)) : Prop :=
  exceptionLUID c <> 0 ->
  asks_removal (exceptionLUID c) (exceptionPrefix c) (exceptionHop c) tr.

(** [c] can delete its route: destination and next hop are addresses. *)
Definition deletable (c : Routing.cleanup) : Prop :=
  Prefix_IsValid (exceptionPrefix c) = true /\ IsValid (ip (exceptionPrefix c)) = true /\
  IsValid (exceptionHop c) = true.

Lemma asks_removal_app luid p hop tr1 tr2 :
  asks_removal luid p hop tr1 \/ asks_removal luid p hop tr2 ->
  asks_removal luid p hop (tr1 ++ tr2).
Proof.
  intros [Ha|Ha]; destruct Ha as (row & r0 & found & Hg & Hd); exists row, r0, found;
    (split; [in_trace|]); intros Hr; destruct (Hd Hr) as [code Hc]; exists code; in_trace.
Qed.

Lemma removes_app c tr1 tr2 : removes c tr1 \/ removes c tr2 -> removes c (tr1 ++ tr2).
Proof. intros [Hr|Hr] Hz; apply asks_removal_app; [left|right]; by apply Hr. Qed.

(** The row of the route [c] deletes. *)
Definition row_of (c : Routing.cleanup) (init : MibIPforwardRow2.t) : MibIPforwardRow2.t :=
  route_row (exceptionLUID c) (mkRouteData (exceptionPrefix c) (exceptionHop c) 0) init.

Lemma runs_seg {R} (e : tunE R) (r : R) seg :
  exec (implement R e) seg (Some r) ->
  omap rest_luid seg = omap adapter_luid [Ev e r] /\
  match configured_call e r with
  | None => forall luid, foreign luid (net seg) = []
  | Some (luid, c) => foreign luid (net seg) = [] \/
      deletable c /\ exists init, foreign luid (net seg) = [row_of c init]
  end.
Proof.
  intros He. destruct e.
  all: try (apply exec_bind in He as (tr1 & tr2 & x & -> & Hc & [-> [= ->]]);
            apply exec_call in Hc as ->; by split).
  - apply exec_hoist in He as (tr & -> & He). destruct (net_hoisted tr) as [-> ->].
    split; [done|]. apply exec_ConfigureRouting in He. destruct r as [c|e]; cbn.
    + destruct He as (_ & [[Hf _]|(s & init & Hp & _ & Hh & Hf)]); [by left|right].
      split; [|by exists init]. unfold deletable. rewrite Hp. done.
    + destruct He as (addr & _ & He). intros l. eapply plain_foreign; [apply plain_SetIPAddresses|exact He].
  - apply exec_hoist in He as (tr & -> & He). destruct (net_hoisted tr) as [-> ->].
    split; [done|]. destruct r. by apply exec_cleanup in He as [Hq _].
Qed.

Lemma runs_cleanup c seg :
  exec (implement _ (RunCleanup c)) seg (Some tt) -> deletable c -> removes c (net seg).
Proof.
  intros He (Hp & Hi & Hh) Hz. apply exec_hoist in He as (tr & -> & He).
  destruct (net_hoisted tr) as [-> _]. apply exec_cleanup in He as [_ Hr]. by apply Hr.
Qed.

(** Several calls. *)
Lemma net_concat segs : net (concat segs) = concat (map (fun seg => net seg) segs).
Proof. induction segs as [|seg segs IH]; [done|]. simpl. by rewrite omap_app, IH. Qed.

Lemma runs_luids evs segs :
  Forall2 (fun ev seg => runs ev seg) evs segs ->
  omap rest_luid (concat segs) = omap adapter_luid evs.
Proof.
  induction 1 as [|[R e r] seg evs segs Hr _ IH]; [done|]. cbn [concat].
  apply runs_seg in Hr as [Hr _]. rewrite omap_app, IH, Hr, <- omap_app. done.
Qed.

Lemma runs_unrouted evs segs luid :
  Forall2 (fun ev seg => runs ev seg) evs segs -> omap configured evs = [] ->
  foreign luid (net (concat segs)) = [].
Proof.
  induction 1 as [|[R e r] seg evs segs Hr _ IH]; [done|]. cbn [concat]. intros Hc.
  change (match configured_call e r with Some x => x :: omap configured evs | None => omap configured evs end = []) in Hc.
  apply runs_seg in Hr as [_ Hr]. cbn [ev_type ev_call ev_answer] in Hr. revert Hr Hc.
  destruct (configured_call e r); [done|]. intros Hr Hc. specialize (Hr luid).
  rewrite omap_app, foreign_app, Hr. by apply IH.
Qed.

Lemma runs_removes evs segs c :
  Forall2 (fun ev seg => runs ev seg) evs segs -> Ev (RunCleanup c) tt ∈ evs -> deletable c ->
  removes c (net (concat segs)).
Proof.
  intros Hs Hin Hd. induction Hs as [|ev seg evs segs Hr _ IH]; [by apply elem_of_nil in Hin|].
  cbn [concat]. rewrite omap_app. apply removes_app.
  apply elem_of_cons in Hin as [<-|Hin]; [left; by apply runs_cleanup|right; by apply IH].
Qed.

(** ** One method, and a history of methods *)

(** The LUID of the adapter a method opened. *)
Definition opened (tr : list (event fullE)) : LUID := default 0 (head (omap rest_luid tr)).

(** A method of the tunnel ran, making the routing calls of the trace while the
    adapter's LUID was the given one. *)
Inductive method : Tunnel -> LUID -> list (event routeE) -> Tunnel -> Prop :=
| method_connect text n t tr t' err :
    exec (routed (Connect text n t)) tr (Some (t', err)) -> method t (opened tr) (net tr) t'
| method_disconnect t tr t' err :
    exec (routed (Disconnect t)) tr (Some (t', err)) -> method t (opened tr) (net tr) t'
| method_watcher w e t tr t' :
    exec (routed (watcher_fire w e t)) tr (Some t') -> method t (opened tr) (net tr) t'.

Inductive history : Tunnel -> list (LUID * list (event routeE)) -> Tunnel -> Prop :=
| history_nil t : history t [] t
| history_cons t luid tr t1 hist t2 :
    method t luid tr t1 -> history t1 hist t2 -> history t ((luid, tr) :: hist) t2.

(** What one method does: the cleanup function the tunnel had is kept or run, and
    the routes it makes on other interfaces are all made before what deletes
    them. *)
Definition accounted (t : Tunnel) (luid : LUID) (tr : list (event routeE)) (t' : Tunnel) : Prop :=
  wf t' /\
  (forall c, cleanup t = Some c -> deletable c -> cleanup t' = Some c \/ removes c tr) /\
  exists pre post, tr = pre ++ post /\ foreign luid post = [] /\
    (foreign luid pre = [] \/
     exists c init, foreign luid pre = [row_of c init] /\ deletable c /\
       (cleanup t' = Some c \/ removes c post)).

Lemma stop_accounted (t t' : Tunnel) evs segs luid :
  wf t -> exec (stopLocked (Config := Config) t) evs t' ->
  Forall2 (fun ev seg => runs ev seg) evs segs -> accounted t luid (net (concat segs)) t'.
Proof.
  intros Hwf He Hs. destruct (stop_calls _ _ _ Hwf He) as (Hc & _ & Hwf' & Hcl).
  split; [done|]. split.
  - intros c Ht Hd. right. eapply runs_removes; [exact Hs|by apply Hcl|done].
  - exists (net (concat segs)), []. rewrite app_nil_r. split; [done|]. split; [done|]. left.
    by eapply runs_unrouted.
Qed.

Lemma method_accounted t luid tr t' : wf t -> method t luid tr t' -> accounted t luid tr t'.
Proof.
  intros Hwf Hm. destruct Hm as [text n t tr t' err He|t tr t' err He|w e t tr t' He];
    apply exec_interp in He as (evs & segs & He & -> & Hs).
  - apply connect_calls in He as (Hwf' & Hroute & Hcl); [|done]. split; [done|]. split.
    { intros c Ht Hd. right. eapply runs_removes; [exact Hs|by apply Hcl|done]. }
    unfold opened. rewrite (runs_luids _ _ Hs).
    destruct Hroute as [Hc|(luid & evs1 & cfg & c & evs2 & Hl & -> & Hc1 & Hc2 & Hrun)].
    + exists (net (concat segs)), []. rewrite app_nil_r. split; [done|]. split; [done|]. left.
      by eapply runs_unrouted.
    + rewrite Hl. cbn [head default].
      apply Forall2_app_inv_l in Hs as (segs1 & segs2 & Hs1 & Hs2 & ->).
      apply Forall2_cons_inv_l in Hs2 as (seg & segs3 & Hseg & Hs3 & ->).
      exists (net (concat segs1 ++ seg)), (net (concat segs3)).
      split; [rewrite concat_app; cbn [concat]; by rewrite !omap_app, app_assoc|].
      split; [by eapply runs_unrouted|].
      apply runs_seg in Hseg as [_ Hseg]. cbn in Hseg.
      rewrite omap_app, foreign_app, (runs_unrouted _ _ _ Hs1 Hc1). cbn [app].
      destruct Hseg as [Hf|(Hd & init & Hf)]; [by left|]. right. exists c, init.
      split; [done|]. split; [done|]. destruct Hrun as [Hk|Hr]; [by left|right].
      by eapply runs_removes.
  - unfold Disconnect in He. apply exec_bind in He as (tr1 & tr2 & t1 & -> & He & [-> [= -> ->]]).
    rewrite app_nil_r in Hs. by eapply stop_accounted.
  - unfold watcher_fire in He. destruct (_ && _) eqn:Hb.
    + apply exec_bind in He as (tr1 & tr2 & [] & -> & Hl & He). apply exec_invoke in Hl as ->.
      apply Forall2_cons_inv_l in Hs as (seg & segs' & Hseg & Hs & ->).
      apply exec_bind in Hseg as (s1 & s2 & x & -> & Hseg & [-> _]).
      apply exec_call in Hseg as ->. exact (stop_accounted _ _ _ _ _ Hwf He Hs).
    + destruct He as [-> ->]. inversion Hs; subst. split; [done|]. split; [by left|].
      exists [], []. split; [done|]. split; [done|by left].
Qed.

Lemma history_keeps t hist t' c :
  wf t -> history t hist t' -> cleanup t = Some c -> deletable c ->
  wf t' /\ (cleanup t' = Some c \/ removes c (concat (map snd hist))).
Proof.
  intros Hwf Hh Hc Hd. revert Hwf Hc. induction Hh as [t|t luid tr t1 hist t2 Hm Hh IH]; intros Hwf Hc.
  - split; [done|by left].
  - apply method_accounted in Hm as (Hwf1 & Hk & _); [|done].
    assert (wf t2) as Hwf2.
    { clear - Hwf1 Hh. induction Hh as [|t luid tr t1 hist t2 Hm Hh IH]; [done|].
      apply IH. by apply method_accounted in Hm as (? & _). }
    split; [done|]. destruct (Hk c Hc Hd) as [Hc1|Hr].
    + destruct (IH Hwf1 Hc1) as [_ [Hc2|Hr]]; [by left|right]. apply removes_app. by right.
    + right. apply removes_app. by left.
Qed.

(** C8: whatever methods run, in any order and with any outcome, every route the
    program makes on an interface other than its tunnel is either the one the
    session that is up remembers, or it was asked to be removed - same interface,
    destination and next hop - after it had been made; when the tunnel is down
    none is left behind. *)
Theorem session_routes (t t' : Tunnel) (before after : list (LUID * list (event routeE)))
    (luid : LUID) (tr : list (event routeE)) :
  wf t -> history t (before ++ (luid, tr) :: after) t' ->
  exists pre post, tr = pre ++ post /\ foreign luid post = [] /\
    forall row, row ∈ foreign luid pre ->
      exists c init, row = row_of c init /\
        ((running t' = true /\ cleanup t' = Some c) \/
         removes c (post ++ concat (map snd after))).
Proof.
  revert t. induction before as [|[luid0 tr0] before IH]; intros t Hwf Hh;
    inversion Hh as [|? ? ? t1 ? ? Hm Hh']; subst; apply method_accounted in Hm as (Hwf1 & _ & Hr);
    try done; [|by eapply IH].
  destruct Hr as (pre & post & -> & Hpost & Hr). exists pre, post. split; [done|]. split; [done|].
  intros row Hrow. destruct Hr as [Hr|(c & init & Hr & Hd & Hk)]; rewrite Hr in Hrow;
    [by apply elem_of_nil in Hrow|].
  apply list_elem_of_singleton in Hrow as ->. exists c, init. split; [done|].
  destruct Hk as [Hc|Hrem]; [|right; apply removes_app; by left].
  destruct (history_keeps _ _ _ _ Hwf1 Hh' Hc Hd) as [Hwf2 [Hc2|Hrem]];
    [left|right; apply removes_app; by right].
  split; [|done]. destruct (wf_cases t' Hwf2) as [[g ->]|(? & ? & ? & ? & ? & ? & ? & ? & ->)]; done.
Qed.
End Session.

(** ** A session with a full-tunnel configuration *)
Module SessionSample.
Abbreviation E := (@fullE Sample.config).

Definition answer : handler E Z := fun R e n =>
  match e in fullE R return R * Z with
  | Rest e =>
      match e in tunE R return R * Z with
      | LoadConfigString _ => (Ok RoutingSample.cfg, n)
      | e => TunnelExample.grant_with (fun _ => RoutingSample.recorded) _ e n
      end
  | Net e => ((RoutingSample.grant _ e tt).1, n)
  end.

Abbreviation routed := (routed (Config := Sample.config) 1420 "amd64" (fun _ => "{g}")).

Definition connected := run (traced answer) (routed (Connect "cfg" "Home" zero_Tunnel)) (10, []).
Definition up : @Tunnel Routing.cleanup :=
  match connected.1 with Some (t, _) => t | None => zero_Tunnel end.
Definition disconnected := run (traced answer) (routed (Disconnect up)) (30, []).

Definition connect_trace : list (event routeE) := omap net_event connected.2.2.
Definition disconnect_trace : list (event routeE) := omap net_event disconnected.2.2.
Definition down : @Tunnel Routing.cleanup := mkTunnel false 2 "" "" None None None None None.

Lemma connected_up : exec (routed (Connect "cfg" "Home" zero_Tunnel)) connected.2.2 (Some (up, None)).
Proof.
  assert (connected.1 = Some (up, None)) as <- by (vm_compute; reflexivity).
  exact (run_exec answer (routed (Connect "cfg" "Home" zero_Tunnel)) 10).
Qed.

Lemma disconnected_down : exec (routed (Disconnect up)) disconnected.2.2 (Some (down, None)).
Proof.
  assert (disconnected.1 = Some (down, None)) as <- by (vm_compute; reflexivity).
  exact (run_exec answer (routed (Disconnect up)) 30).
Qed.

Lemma opened_77 : opened connected.2.2 = 77.
Proof. vm_compute. reflexivity. Qed.

Lemma session_history :
  history 1420 "amd64" (fun _ => "{g}") zero_Tunnel
    [(77, connect_trace); (opened disconnected.2.2, disconnect_trace)] down.
Proof.
  rewrite <- opened_77.
  exact (history_cons _ _ _ _ _ _ _ _ _ (method_connect _ _ _ _ _ _ _ _ _ connected_up)
          (history_cons _ _ _ _ _ _ _ _ _ (method_disconnect _ _ _ _ _ _ _ disconnected_down)
             (history_nil _ _ _ _))).
Qed.
End SessionSample.
Import SessionSample.

(** The host route of the server is made on interface 3 and removed again. *)
Lemma session_routes_witness :
  length (foreign 77 connect_trace) = 1%nat /\
  exists row, row ∈ foreign 77 connect_trace /\
    exists c init tr, row = row_of c init /\ removes c tr.
Proof.
  assert (length (foreign 77 connect_trace) = 1%nat) as Hlen by (vm_compute; reflexivity).
  split; [exact Hlen|].
  destruct (session_routes 1420 "amd64" (fun _ => "{g}") zero_Tunnel down [] _ 77 connect_trace
              eq_refl session_history) as (pre & post & Htr & Hpost & Hrow).
  rewrite Htr, foreign_app, Hpost, app_nil_r in Hlen |- *.
  destruct (foreign 77 pre) as [|row [|]]; [discriminate Hlen| |discriminate Hlen].
  exists row. split; [apply list_elem_of_here|].
  destruct (Hrow row (list_elem_of_here _ _)) as (c & init & Hr & [[Hup _]|Hrem]); [discriminate Hup|].
  eexists c, init, _. split; [exact Hr|exact Hrem].
Defined.
