(* ===== verification/TunnelDevice.v ===== *)
(** * The tunnel with its device (wintunnel/tunnel.go over windev/device.go, veiltun/)

    The methods of the tunnel controller with NewTunDevice, LUID, Name and Close
    replaced by their implementation down to the driver's entry points, and what a
    sequence of methods leaves open in the driver.  The shared fields of a device
    are a record here, since the tunnel's methods run one after the other; their
    use by several goroutines is DeviceSystem.v. *)

From S2P Require Import Prelude Veil Device DeviceProps Udp Tunnel TunnelSystem TunnelProps.
From Stdlib Require Import ZArith Lia.
From stdpp Require Import base list strings gmap.
Open Scope Z_scope.
Open Scope string_scope.
Local Open Scope list_scope.

Section TunnelDevice.
Context {Config Cleanup : Type} `{ConfigView Config} `{EqDecision Cleanup}.
(** [engine.DefaultTunMTU] and [%q]. *)
Context (DefaultTunMTU : Z) (quote : string -> string).

Abbreviation Tunnel := (@Tunnel Cleanup).
Abbreviation env := (@env Cleanup).
Abbreviation tunE := (@tunE Config Cleanup).

(** ** The device's state *)

Record device : Type := mkDevice {
  tun_of : TunDevice.t;
  is_closed : bool;
  once_done : bool;
  session_handle : Z;
  adapter_handle : Z;
}.

(** One access to the shared fields.  The goroutines Close waits for are not
    part of this state. *)
Definition access {R} (e : cellE R) (d : device) : R * device :=
  match e in cellE R return R * device with
  | RunningAdd | RunningDone | RunningWait => (tt, d)
  | ClosedLoad => (is_closed d, d)
  | ClosedStore =>
      (tt, mkDevice (tun_of d) true (once_done d) (session_handle d) (adapter_handle d))
  | OnceBegin =>
      (negb (once_done d),
       mkDevice (tun_of d) (is_closed d) true (session_handle d) (adapter_handle d))
  | OnceEnd => (tt, d)
  | SessionHandle => (session_handle d, d)
  | SetSessionHandle h => (tt, mkDevice (tun_of d) (is_closed d) (once_done d) h (adapter_handle d))
  | AdapterHandle => (adapter_handle d, d)
  | SetAdapterHandle h => (tt, mkDevice (tun_of d) (is_closed d) (once_done d) (session_handle d) h)
  end.

(** The package's variables and the devices made so far; a [TunDevice] is the
    index of its device. *)
Record package : Type := mkPackage {
  loading : loader;
  devices : list device;
}.

Definition initial_package : package := mkPackage initial_loader [].

(** The calls of the tunnel that stay, and those of the device. *)
Inductive fullE : Type -> Type :=
| Rest {R} (e : tunE R) : fullE R
| OnDev {R} (e : devE R) : fullE R.

Definition as_dev : forall R, devE R -> fullE R := fun R e => OnDev e.

Definition on_device : forall R, devE R -> device -> prog fullE (option (R * device)) :=
  fun R e d =>
  match e in devE R return prog fullE (option (R * device)) with
  | Drv e => let! r := call (OnDev (Drv e)) in Ret (Some (r, d))
  | Cell e => Ret (Some (access e d))
  end.

(** A method of a device; [None] is the nil dereference of one that was never
    made. *)
Definition with_device {R} (p : procTable -> TunDevice.t -> prog devE R) (d : TunDevice)
    (st : package) : prog fullE (option (R * package)) :=
  let '(Tunnel.mkTun i) := d in
  match devices st !! Z.to_nat i with
  | None => Ret None
  | Some d =>
      let! o := interp_state on_device (p (procs (loading st)) (tun_of d)) d in
      match o with
      | None => Ret None
      | Some (r, d) => Ret (Some (r, mkPackage (loading st) (<[Z.to_nat i := d]> (devices st))))
      end
  end.

Definition new_device (nm : string) (st : package)
    : prog fullE (option (result TunDevice * package)) :=
  let! (l, r) := hoist as_dev (TunDevice.NewTunDevice DefaultTunMTU quote nm (loading st)) in
  match r with
  | Err e => Ret (Some (Err e, mkPackage l (devices st)))
  | Ok t =>
      Ret (Some (Ok (Tunnel.mkTun (Z.of_nat (length (devices st)))),
                 mkPackage l (devices st ++
                   [mkDevice t false false (session (TunDevice.dev t)) (adapter (TunDevice.dev t))])))
  end.

Definition implement : forall R, tunE R -> package -> prog fullE (option (R * package)) :=
  fun R e st =>
  match e in Tunnel.tunE R return prog fullE (option (R * package)) with
  | NewTunDevice nm => new_device nm st
  | Tun_LUID d => with_device TunDevice.LUID d st
  | Tun_Name d => with_device (fun _ t => Ret (TunDevice.Name t)) d st
  | Tun_Close d => with_device TunDevice.Close d st
  | e => let! r := call (Rest e) in Ret (Some (r, st))
  end.

(** ** What is open *)

(** The channels made and the driver's objects held.  A method of the tunnel may
    call everything else as it likes: TunnelProps.v is about that. *)
Definition ledger : Type := gset chan * list driver_object.

Definition made {R} (e : tunE R) : R -> gset chan -> gset chan :=
  match e in Tunnel.tunE R return R -> gset chan -> gset chan with
  | MakeChan => fun ch chs => {[ch]} ∪ chs
  | _ => fun _ chs => chs
  end.

Definition account : monitor_step fullE ledger := fun R e =>
  match e in fullE R return R -> ledger -> option ledger with
  | Rest e => fun r '(chs, held) => Some (made e r chs, held)
  | OnDev e => fun r '(chs, held) => held' ← holding _ e r held; Some (chs, held')
  end.

(** [make] returns a channel that was not there before. *)
Definition new_chan : assumption fullE ledger := fun R e =>
  match e in fullE R return R -> ledger -> Prop with
  | Rest e =>
      match e in Tunnel.tunE R return R -> ledger -> Prop with
      | MakeChan => fun ch l => ch ∉ l.1
      | _ => fun _ _ => True
      end
  | OnDev _ => fun _ _ => True
  end.

Abbreviation step_up := (env_step (Config := Config) (Cleanup := Cleanup)).

(** The driver's objects of an open device. *)
Definition objects (d : device) : list driver_object :=
  [OSession (session_handle d); OAdapter (adapter_handle d)].

Definition open_device (d : device) : Prop :=
  is_closed d = false /\ once_done d = false /\ session_handle d <> 0 /\ adapter_handle d <> 0.

Definition tuns (rs : list (@resource Cleanup)) : list TunDevice :=
  omap (fun r => match r with RTun d => Some d | _ => None end) rs.

(** The adapter the tunnel has open is the one open in the driver. *)
Definition related (g : env) (st : package) (l : ledger) : Prop :=
  chans g = l.1 /\
  match tuns (live g) with
  | [] => l.2 = []
  | [Tunnel.mkTun i] =>
      exists d, devices st !! Z.to_nat i = Some d /\ open_device d /\ l.2 = objects d
  | _ => False
  end.

Lemma tuns_release r (rs rs' : list (@resource Cleanup)) :
  is_tun r = false -> release r rs = Some rs' -> tuns rs' = tuns rs.
Proof.
  intros Hr. revert rs'. induction rs as [|x rs IH]; intros rs'; simpl; [done|].
  destruct (decide (r = x)) as [<-|Hx]; [by intros [= <-]; destruct r|].
  destruct (release r rs) as [rs1|]; [|done]. intros [= <-]. simpl. by rewrite (IH rs1).
Qed.

Lemma tuns_replace r r' (rs rs' : list (@resource Cleanup)) :
  is_tun r = false -> is_tun r' = false -> replace r r' rs = Some rs' -> tuns rs' = tuns rs.
Proof.
  intros Hr Hr'. revert rs'. induction rs as [|x rs IH]; intros rs'; simpl; [done|].
  destruct (decide (x = r)) as [->|Hx]; [intros [= <-]; by destruct r, r'|].
  destruct (replace r r' rs) as [rs1|]; [|done]. intros [= <-]. simpl. by rewrite (IH rs1).
Qed.

Lemma no_tuns (rs : list (@resource Cleanup)) : existsb is_tun rs = false -> tuns rs = [].
Proof.
  induction rs as [|x rs IH]; [done|]. simpl. intros [Hx Hrs]%orb_false_iff.
  destruct x; try done; simpl; by apply IH.
Qed.

Lemma need_some r (rs rs' : list (@resource Cleanup)) : need r rs = Some rs' -> rs' = rs /\ r ∈ rs.
Proof. unfold need. case_decide; [|done]. by intros [= <-]. Qed.

Lemma need_both r r' (rs rs' : list (@resource Cleanup)) :
  need r rs ≫= need r' = Some rs' -> rs' = rs.
Proof.
  destruct (need r rs) as [rs1|] eqn:Hn; [|done]. apply need_some in Hn as [-> _].
  by intros [-> _]%need_some.
Qed.

Lemma tuns_cons d (rs : list (@resource Cleanup)) : tuns (RTun d :: rs) = d :: tuns rs.
Proof. done. Qed.

Lemma in_tuns d (rs : list (@resource Cleanup)) : RTun d ∈ rs -> d ∈ tuns rs.
Proof. intros Hin. apply list_elem_of_omap. by exists (RTun d). Qed.

(** The calls that are not the device's keep it. *)
Definition device_call {R} (e : tunE R) : bool :=
  match e with
  | NewTunDevice _ | Tun_LUID _ | Tun_Name _ | Tun_Close _ => true
  | _ => false
  end.

Lemma own_tuns {R} (e : tunE R) r rs rs' :
  device_call e = false -> own _ e r rs = Some rs' -> tuns rs' = tuns rs.
Proof.
  intros Hd. destruct e; try done; try (match goal with u : udpE _ |- _ => destruct u end);
    cbn [own]; try match goal with x : result _ |- _ => destruct x end;
    try (by intros [= <-]); try (by intros [-> _]%need_some); try (by apply tuns_release);
    try (by intros ->%need_both).
  - by apply tuns_replace.
  - destruct (existsb is_io rs); [done|]. by apply tuns_release.
Qed.

Lemma note_live {R} (e : tunE R) r rs (g : env) :
  live (note e r rs g) = rs /\ chans (note e r rs g) = made e r (chans g).
Proof. by destruct e. Qed.

Lemma tuns_close d (rs rs' : list (@resource Cleanup)) :
  release (RTun d) rs = Some rs' -> tuns rs ≡ₚ d :: tuns rs'.
Proof.
  revert rs'. induction rs as [|x rs IH]; intros rs'; simpl; [done|].
  destruct (decide (RTun d = x)) as [<-|Hx]; [by intros [= <-]|].
  destruct (release (RTun d) rs) as [rs1|]; [|done]. intros [= <-]. specialize (IH rs1 eq_refl).
  destruct x; simpl; try done. rewrite IH. apply Permutation_swap.
Qed.

(** ** The implementation of each call *)

(** The device's programs, seen by the monitor of the whole. *)
Lemma wp_account {A} (p : prog devE A) Q chs held :
  wp holding any_answer p Q held ->
  wp account new_chan (hoist as_dev p) (fun a l => l.1 = chs /\ Q a l.2) (chs, held).
Proof.
  revert held. induction p as [a|R e k IH]; intros held Hp; [done|].
  intros r _. destruct (Hp r I) as (held' & Hh & Hk). exists (chs, held').
  split; [|by apply IH]. cbn. by rewrite Hh.
Qed.

Lemma wp_new_device nm st chs :
  wp account new_chan (new_device nm st)
    (fun o l => exists r st', o = Some (r, st') /\ l.1 = chs /\
       match r with
       | Err _ => l.2 = []
       | Ok (Tunnel.mkTun i) =>
           exists d, devices st' !! Z.to_nat i = Some d /\ open_device d /\ l.2 = objects d
       end) (chs, []).
Proof.
  unfold new_device. apply wp_bind. eapply wp_mono; [|apply (wp_account _
    (fun '(l, r) held => match r with
       | Ok t => held = [OSession (session (TunDevice.dev t)); OAdapter (adapter (TunDevice.dev t))] /\
                 adapter (TunDevice.dev t) <> 0 /\ session (TunDevice.dev t) <> 0
       | Err _ => held = []
       end))].
  - intros [l [t|e]] [chs' held]; cbn.
    + intros [-> (-> & Ha & Hs)]. eexists _, _. split; [done|]. split; [done|]. eexists.
      split; [apply list_lookup_middle; by rewrite Nat2Z.id|]. by split.
    + intros [-> ->]. eauto.
  - unfold TunDevice.NewTunDevice. apply wp_bind. eapply wp_mono; [|apply wp_CreateTUN].
    intros [l [t|e]] held (_ & _ & _ & Hd); cbn in *; [|done]. naive_solver.
Qed.

Lemma wp_LUID p d chs :
  open_device d ->
  wp account new_chan (interp_state on_device (TunDevice.LUID p (tun_of d)) d)
    (fun o l => (exists luid, o = Some (luid, d)) /\ l = (chs, objects d)) (chs, objects d).
Proof.
  intros (Hc & _). destruct d as [t c o s a]. cbn in Hc. subst c. intros luid _.
  exists (chs, [OSession s; OAdapter a]). split; [|by split; [eexists|]].
  cbn. rewrite decide_True; [done|]. apply list_elem_of_further, list_elem_of_here.
Qed.

Lemma wp_Close p d chs :
  open_device d ->
  wp account new_chan (interp_state on_device (TunDevice.Close p (tun_of d)) d)
    (fun o l => (exists err d', o = Some (err, d')) /\ l = (chs, [])) (chs, objects d).
Proof.
  intros (Hc & Ho & Hs & Ha). destruct d as [t c o s a]. cbn in Hc, Ho, Hs, Ha. subst c o.
  unfold TunDevice.Close, Device.Close, close_body, Session_End, Adapter_Close. cbn.
  intros [] _. eexists. split; [reflexivity|].
  rewrite (decide_False (P := s = 0)) by done. cbn.
  intros [] _. eexists. split; [cbn; by rewrite decide_True|].
  rewrite (decide_False (P := s = 0)) by done. cbn.
  rewrite (decide_False (P := a = 0)) by done. cbn.
  intros [] _. eexists. split; [cbn; by rewrite decide_True|].
  rewrite (decide_False (P := a = 0)) by done. cbn. eauto.
Qed.

(** A method of the open device. *)
Lemma wp_with_device {R} (p : procTable -> TunDevice.t -> prog devE R) i d st chs
    (Q : option (R * package) -> ledger -> Prop) :
  devices st !! Z.to_nat i = Some d ->
  wp account new_chan (interp_state on_device (p (procs (loading st)) (tun_of d)) d)
    (fun o l => exists r d', o = Some (r, d') /\
       Q (Some (r, mkPackage (loading st) (<[Z.to_nat i := d']> (devices st)))) l) (chs, objects d) ->
  wp account new_chan (with_device p (Tunnel.mkTun i) st) Q (chs, objects d).
Proof.
  intros Hd Hw. unfold with_device. rewrite Hd. apply wp_bind.
  eapply wp_mono; [|exact Hw]. by intros o l (r & d' & -> & HQ).
Qed.

(** A call to the open device finds it. *)
Lemma related_open g st l d :
  related g st l -> RTun d ∈ live g ->
  tuns (live g) = [d] /\
  let '(Tunnel.mkTun i) := d in
  exists d', devices st !! Z.to_nat i = Some d' /\ open_device d' /\ l = (chans g, objects d').
Proof.
  intros [Hc Ho] Hin%in_tuns. destruct l as [chs held]. cbn in Hc, Ho. subst chs.
  destruct (tuns (live g)) as [|[i] [|]] eqn:Ht; [by apply elem_of_nil in Hin| |done].
  apply list_elem_of_singleton in Hin as ->. split; [done|].
  destruct Ho as (d' & Hd & Hop & ->). eauto.
Qed.

Lemma implement_device_call {R} (e : tunE R) g st l :
  device_call e = true -> related g st l ->
  (forall r, fresh_chan R e r g -> exists g', step_up R e r g = Some g') ->
  wp account new_chan (implement R e st)
    (fun o l' => exists r st', o = Some (r, st') /\ fresh_chan R e r g /\
       forall g', step_up R e r g = Some g' -> related g' st' l') l.
Proof.
  intros Hdev Hrel Hen. destruct e; try done; cbn [implement].
  - destruct (Hen (Err ErrClosed) I) as [g' Hg]. unfold env_step in Hg. cbn [own] in Hg.
    destruct (existsb is_tun (live g)) eqn:Hno; [done|]. clear g' Hg Hen.
    destruct Hrel as [Hc Hl]. rewrite (no_tuns _ Hno) in Hl. destruct l as [chs held]. cbn in Hc, Hl.
    subst chs held. eapply wp_mono; [|apply wp_new_device].
    intros o [chs held] (r & st' & -> & Hc & Hr). cbn in Hc, Hr. subst chs. exists r, st'.
    split; [done|]. split; [done|]. intros g'. unfold env_step. cbn [own]. rewrite Hno.
    destruct r as [[i]|err]; intros [= <-]; split; try done;
      cbn [note live snd]; rewrite ?tuns_cons; by rewrite (no_tuns _ Hno).
  - destruct (Hen 0 I) as [g' Hg]. unfold env_step in Hg. cbn [own] in Hg.
    destruct (need (RTun d) (live g)) eqn:Hn; [|done]. apply need_some in Hn as [-> Hin].
    clear g' Hg. destruct (related_open g st l d Hrel Hin) as [Ht Ho]. destruct d as [i].
    destruct Ho as (d & Hd & Hop & ->). apply (wp_with_device _ i d); [done|].
    eapply wp_mono; [|by apply wp_LUID]. intros o l [[luid ->] ->]. exists luid, d.
    split; [done|]. eexists _, _. split; [done|]. split; [done|]. rewrite list_insert_id by done.
    intros g'. unfold env_step. cbn [own]. rewrite need_in by done. intros [= <-].
    destruct st. destruct Hrel as [? Hrel]. split; [done|]. cbn [note live]. rewrite Ht. eauto.
  - destruct (Hen "" I) as [g' Hg]. unfold env_step in Hg. cbn [own] in Hg.
    destruct (need (RTun d) (live g)) eqn:Hn; [|done]. apply need_some in Hn as [-> Hin].
    clear g' Hg. destruct (related_open g st l d Hrel Hin) as [Ht Ho]. destruct d as [i].
    destruct Ho as (d & Hd & Hop & ->). apply (wp_with_device _ i d); [done|].
    cbn [interp_state wp]. eexists _, d.
    split; [done|]. eexists _, _. split; [done|]. split; [done|]. rewrite list_insert_id by done.
    intros g'. unfold env_step. cbn [own]. rewrite need_in by done. intros [= <-].
    destruct st. destruct Hrel as [? Hrel]. split; [done|]. cbn [note live]. rewrite Ht. eauto.
  - destruct (Hen None I) as [g' Hg]. unfold env_step in Hg. cbn [own] in Hg.
    destruct (release (RTun d) (live g)) as [rs|] eqn:Hn; [|done].
    assert (tuns (live g) ≡ₚ d :: tuns rs) as Hp by by apply tuns_close.
    assert (RTun d ∈ live g) as Hin.
    { assert (d ∈ tuns (live g)) as (x & Hx & Hin)%list_elem_of_omap
        by (rewrite Hp; apply list_elem_of_here). destruct x; try done. by injection Hin as ->. }
    clear g' Hg. destruct (related_open g st l d Hrel Hin) as [Ht Ho].
    rewrite Ht in Hp. apply Permutation_singleton_l in Hp. injection Hp as Hp. destruct d as [i].
    destruct Ho as (d & Hd & Hop & ->). apply (wp_with_device _ i d); [done|].
    eapply wp_mono; [|by apply wp_Close]. intros o l [(err & d' & ->) ->]. exists err, d'.
    split; [done|]. eexists _, _. split; [done|]. split; [done|].
    intros g'. unfold env_step. cbn [own]. rewrite Hn. intros [= <-].
    split; [done|]. cbn [note live]. by rewrite <- Hp.
Qed.

Lemma implement_ok :
  implements step_up fresh_chan account new_chan implement related.
Proof.
  intros R e g st l Hrel Hen. destruct (device_call e) eqn:Hdev; [by apply implement_device_call|].
  assert (implement R e st = (let! r := call (Rest e) in Ret (Some (r, st)))) as ->
    by (destruct e; done).
  apply wp_bind, wp_call. intros r Hr. destruct l as [chs held]. eexists. split; [reflexivity|].
  cbn [wp]. exists r, st. split; [done|]. destruct Hrel as [Hc Hl]. cbn in Hc, Hl. subst chs.
  split; [destruct e; done|]. intros g'. unfold env_step.
  destruct (own R e r (live g)) as [rs|] eqn:Ho; [|done]. intros [= <-].
  destruct (note_live e r rs g) as [Hlive Hch]. split; [done|]. rewrite Hlive.
  by rewrite (own_tuns e r _ _ Hdev Ho).
Qed.

(** ** A run of the tunnel

    Every method holds the mutex, so a process runs them one after the other, the
    watchers' critical sections between them. *)
Inductive op : Type :=
| OpConnect (text dname : string)
| OpDisconnect
| OpStatus
| OpFire (w : watcher) (err : error).

Definition perform (o : op) (t : Tunnel) : prog tunE Tunnel :=
  match o with
  | OpConnect text n => let! (t, _) := Connect text n t in Ret t
  | OpDisconnect => let! (t, _) := Disconnect t in Ret t
  | OpStatus => do! Status_ t in Ret t
  | OpFire w err => watcher_fire w err t
  end.

Fixpoint perform_all (os : list op) (t : Tunnel) : prog tunE Tunnel :=
  match os with
  | [] => Ret t
  | o :: os => let! t := perform o t in perform_all os t
  end.

(** The whole: the tunnel from its zero value over the device's code. *)
Definition process (os : list op) : prog fullE (option (Tunnel * package)) :=
  interp_state implement (perform_all os zero_Tunnel) initial_package.

Lemma wf_stopped (t : Tunnel) : wf t -> wf (stopped_tunnel t).
Proof. intros [[g ->]|(?&?&?&?&?&?&?&?&->)]%wf_cases; done. Qed.

Lemma held_stopped (t : Tunnel) (s : env) : wf t -> live (stopped t s) = held (stopped_tunnel t).
Proof. intros [[g ->]|(?&?&?&?&?&?&?&?&->)]%wf_cases; done. Qed.

#[local] Hint Resolve wf_stopped held_stopped : core.

Lemma wp_perform o t g :
  wf t -> live g = held t ->
  wp step_up fresh_chan (perform o t) (fun t' g' => wf t' /\ live g' = held t') g.
Proof.
  intros Hwf Hl. destruct o as [text n| | |w err]; cbn [perform].
  - apply wp_bind. eapply wp_mono; [|by apply wp_Connect]. intros [t' [err|]] g'; cbn [wp].
    + intros [-> ->]. auto.
    + intros (i & e & d & c & cl & ech & ch & _ & _ & -> & ->). split; [|done]. by repeat eexists.
  - apply wp_bind. eapply wp_mono; [|by apply wp_Disconnect].
    intros [t' err] g' (-> & -> & _). cbn [wp]. auto.
  - apply wp_bind. eapply wp_mono; [|by apply wp_Status]. intros st g' ->. done.
  - eapply wp_mono; [|by apply wp_watcher_fire]. intros t' g'. destruct (fires w t).
    + intros [-> ->]. auto.
    + by intros [-> ->].
Qed.

Lemma wp_perform_all os t g :
  wf t -> live g = held t ->
  wp step_up fresh_chan (perform_all os t) (fun t' g' => wf t' /\ live g' = held t') g.
Proof.
  revert t g. induction os as [|o os IH]; intros t g Hwf Hl; [done|].
  apply wp_bind. eapply wp_mono; [|by apply wp_perform]. intros t' g' [Hwf' Hl']. by apply IH.
Qed.

Lemma held_tuns (t : Tunnel) : wf t -> tuns (held t) = from_option (fun d => [d]) [] (tun t).
Proof. intros [[g ->]|(?&?&?&?&?&?&?&?&->)]%wf_cases; done. Qed.

(** C9: whatever sequence of connects, disconnects, status requests and engine
    failures a tunnel goes through, run down to the driver's entry points, no
    method uses a device that was never made, the driver is never asked to use or
    close an adapter or a session it does not have open, and in the end it holds
    nothing when the tunnel is down and one adapter with its session when it is
    up. *)
Theorem driver_ledger os tr (o : option (Tunnel * package)) :
  exec (process os) tr o -> admissible account new_chan (∅, []) tr ->
  exists t st chs objs,
    o = Some (t, st) /\ monitor account (∅, []) tr = Some (chs, objs) /\
    if running t then exists s a, s <> 0 /\ a <> 0 /\ objs = [OSession s; OAdapter a]
    else objs = [].
Proof.
  intros He Ha.
  assert (related (mkEnv [] ∅ ∅ []) initial_package (∅, [])) as Hr by done.
  assert (wf (@zero_Tunnel Cleanup)) as Hwf by done.
  pose proof (wp_interp _ _ _ _ _ _ _ _ _ _ _ implement_ok
                (wp_perform_all os zero_Tunnel (mkEnv [] ∅ ∅ []) Hwf eq_refl) Hr) as Hw.
  destruct (wp_exec _ _ _ _ _ _ _ Hw He Ha)
    as ([chs objs] & Hm & t & st & g & -> & [Hwf' Hl] & [_ Hrel]).
  exists t, st, chs, objs. split; [done|]. split; [exact Hm|]. cbn [snd] in Hrel.
  rewrite Hl, held_tuns in Hrel by done.
  destruct (wf_cases t Hwf') as [[g' ->]|(?&?&?&?&[i]&?&?&?&->)]; [exact Hrel|].
  destruct Hrel as (d & _ & (_ & _ & Hs & Ha') & ->). cbn [running].
  exists (session_handle d), (adapter_handle d). by split_and!.
Qed.
End TunnelDevice.

(** ** A session replaced by another, a third that stays up *)
Module LedgerSample.
Abbreviation E := (@fullE Sample.config Z).

(** The world is the next handle. *)
Definition answer : handler E Z := fun R e n =>
  match e in fullE R return R * Z with
  | Rest e => TunnelExample.grant _ e n
  | OnDev e =>
      match e in devE R return R * Z with
      | Drv e =>
          match e in drvE R return R * Z with
          | LoadLibraryEx _ _ => (Ok 1, n)
          | GetProcAddress _ _ => (Ok n, n + 1)
          | Utf16PtrFromString _ => (Ok (IpHelper.mkUtf16 n), n + 1)
          | CreateAdapter_ _ _ _ _ => ((n, 0), n + 1)
          | CloseAdapter_ _ _ => (tt, n)
          | GetAdapterLUID_ _ _ => (77, n)
          | GetRunningDriverVersion_ _ => ((1, 0), n)
          | StartSession_ _ _ _ => ((n, 0), n + 1)
          | EndSession_ _ _ => (tt, n)
          | GetReadWaitEvent_ _ _ => (n, n + 1)
          | ReceivePacket_ _ _ => ((0, 0%nat, (fun _ => 0), 259), n)
          | ReleaseReceivePacket_ _ _ _ => (tt, n)
          | AllocateSendPacket_ _ _ _ => ((0, (fun _ => 0), 111), n)
          | SendPacket_ _ _ _ _ => (tt, n)
          | SetEvent _ => (tt, n)
          | WaitForSingleObject _ => (tt, n)
          | Now => (0, n)
          | Gosched => (tt, n)
          end
      | Cell e => (fst (access e (mkDevice (TunDevice.mk (Device.mkTun 0 0 "" 0 0) "") false false 0 0)), n)
      end
  end.

Definition ops : list op :=
  [OpConnect "cfg" "Home"; OpStatus; OpConnect "cfg2" "Work"; OpDisconnect; OpConnect "cfg" "Home"].

Definition ran := run (traced answer)
  (process (Config := Sample.config) (Cleanup := Z) 1420 (fun s => s) ops) (10, []).
Definition trace : list (event E) := ran.2.2.
Definition final : option (@Tunnel Z * package) := ran.1.

Lemma ran_exec : exec (process (Config := Sample.config) (Cleanup := Z) 1420 (fun s => s) ops) trace final.
Proof. exact (run_exec answer _ 10). Qed.

Lemma trace_fresh : admissible account new_chan (∅, []) trace.
Proof. vm_compute. repeat split; discriminate. Qed.
End LedgerSample.
Import LedgerSample.

(** The third session is up: its adapter and its session are open. *)
Lemma driver_ledger_witness :
  exists t st chs s a, final = Some (t, st) /\ running t = true /\
    monitor account (∅, []) trace = Some (chs, [OSession s; OAdapter a]).
Proof.
  destruct (driver_ledger 1420 (fun s => s) ops trace final ran_exec trace_fresh)
    as (t & st & chs & objs & Hf & Hm & Ho).
  assert (match final with Some (t, _) => running t | None => false end = true) as Hup
    by (vm_compute; reflexivity).
  rewrite Hf in Hup. rewrite Hup in Ho. destruct Ho as (s & a & _ & _ & ->).
  exists t, st, chs, s, a. exact (conj Hf (conj Hup Hm)).
Defined.
